(** * The GPU buffer cache of video_core (buffer_cache.h)

    A shallow embedding of [VideoCommon::BufferCache<P>] and the properties
    of its page table, overlap resolution, download queues and fast uniform
    buffer heuristic.

    Conventions.
    - [u32]/[u64] values are integers in [Z]; every arithmetic operation of
      the source that can wrap is written with [u32]/[u64] around it.
    - A method that mutates the cache takes the cache and returns the new
      cache.  Methods that index [slot_buffers], [page_table] or one of the
      binding arrays return a [Res]: indexing outside the container is
      undefined behaviour in the source and is [UB] here.
    - Loops whose trip count is not bounded by their data take a fuel
      argument and answer [OutOfFuel] when it runs out.
    - The host runtime, guest memory and the rasterizer registers are
      collaborators: calls into them are recorded, in order, in
      [runtime_calls]; what they return is read from an [Env]. *)

From Stdlib Require Import ZArith Lia Bool List Sorted.
From stdpp Require Import base tactics option list numbers gmap.

Local Open Scope Z_scope.

(** ** Machine integers *)

Definition u32 (x : Z) : Z := x mod 2 ^ 32.
Definition u64 (x : Z) : Z := x mod 2 ^ 64.

Definition is_u32 (x : Z) : Prop := 0 <= x < 2 ^ 32.
Definition is_u64 (x : Z) : Prop := 0 <= x < 2 ^ 64.

Lemma u32_range x : is_u32 (u32 x).
Proof. unfold is_u32, u32. apply Z.mod_pos_bound. lia. Qed.

Lemma u64_range x : is_u64 (u64 x).
Proof. unfold is_u64, u64. apply Z.mod_pos_bound. lia. Qed.

Lemma u32_id x : is_u32 x -> u32 x = x.
Proof. unfold is_u32, u32. intros. apply Z.mod_small. lia. Qed.

Lemma u64_id x : is_u64 x -> u64 x = x.
Proof. unfold is_u64, u64. intros. apply Z.mod_small. lia. Qed.

(** ** Results of operations that may leave defined behaviour *)

Inductive Res (A : Type) : Type :=
| Ok (a : A)
| UB
| OutOfFuel.
Arguments Ok {A} a.
Arguments UB {A}.
Arguments OutOfFuel {A}.

Definition res_bind {A B} (m : Res A) (k : A -> Res B) : Res B :=
  match m with
  | Ok a => k a
  | UB => UB
  | OutOfFuel => OutOfFuel
  end.

#[global] Instance Res_ret : MRet Res := fun A a => Ok a.
#[global] Instance Res_bind : MBind Res := fun A B k m => res_bind m k.
#[global] Instance Res_fmap : FMap Res := fun A B f m => res_bind m (fun a => Ok (f a)).

Definition of_option {A} (o : option A) : Res A :=
  match o with Some a => Ok a | None => UB end.

(** [for (x : l) body(x)] over a state [S]. *)
Fixpoint for_each {A S} (body : A -> S -> Res S) (l : list A) (s : S) : Res S :=
  match l with
  | [] => Ok s
  | x :: l' => s' ← body x s; for_each body l' s'
  end.

(** In-place write [arr[i] = x] of a [std::array]/[std::vector]. *)
Definition store {A} (arr : list A) (i : Z) (x : A) : Res (list A) :=
  if (0 <=? i) && (i <? Z.of_nat (length arr))
  then Ok (<[Z.to_nat i := x]> arr) else UB.

Definition load {A} (arr : list A) (i : Z) : Res A :=
  if 0 <=? i then of_option (arr !! Z.to_nat i) else UB.

(** ** Constants of the class *)

Definition NUM_VERTEX_BUFFERS : Z := 32.
Definition NUM_TRANSFORM_FEEDBACK_BUFFERS : Z := 4.
Definition NUM_GRAPHICS_UNIFORM_BUFFERS : Z := 18.
Definition NUM_COMPUTE_UNIFORM_BUFFERS : Z := 8.
Definition NUM_STORAGE_BUFFERS : Z := 16.
Definition NUM_STAGES : Z := 5.

Definition PAGE_BITS : Z := 16.
Definition PAGE_SIZE : Z := Z.shiftl 1 PAGE_BITS.
Definition NUM_PAGES : Z := Z.shiftr (Z.shiftl 1 39) PAGE_BITS.
Definition DEFAULT_SKIP_CACHE_SIZE : Z := 4096.
Definition STREAM_LEAP_THRESHOLD : Z := 16.

(** [Common::DivCeil] on [u64] operands (common/div_ceil.h). *)
Definition DivCeil (number divisor : Z) : Z := u64 (number + divisor - 1) / divisor.

(** ** Buffer identifiers *)

(** Modelled from the spec: [SlotId] (video_core/texture_cache/slot_vector.h)
    is not among the sources.  An id is a [u32] slot index; a
    default-constructed id ([BufferId{}]) is "unset" and converts to [false],
    every other id converts to [true].  The unset id is the index that no
    slot can have. *)
Definition BufferId : Type := Z.
Definition INVALID_INDEX : Z := 2 ^ 32 - 1.
Definition NULL_BUFFER_ID : BufferId := 0.
Definition UNSET_BUFFER_ID : BufferId := INVALID_INDEX.

(** [explicit operator bool] of an id. *)
Definition id_bool (id : BufferId) : bool := negb (id =? INVALID_INDEX).

(** ** Dirty ranges of one buffer *)

(** Modelled from the spec: the per-buffer dirty state is "two independent
    sparse sets over the byte extent of the buffer"; the bookkeeping class
    (video_core/buffer_cache/buffer_base.h) is not among the sources.  A set
    is a list of disjoint half-open ranges [(lo, hi)] of buffer offsets. *)
Module Ranges.

Definition t : Type := list (Z * Z).

Definition mem (x : Z) (rs : t) : bool :=
  existsb (fun r => (fst r <=? x) && (x <? snd r)) rs.

(** The parts of [rs] inside [lo, hi). *)
Definition inter (lo hi : Z) (rs : t) : t :=
  flat_map (fun r =>
    let a := Z.max (fst r) lo in
    let b := Z.min (snd r) hi in
    if a <? b then [(a, b)] else []) rs.

(** The parts of [rs] outside [lo, hi). *)
Definition sub (lo hi : Z) (rs : t) : t :=
  flat_map (fun r =>
    (if fst r <? Z.min (snd r) lo then [(fst r, Z.min (snd r) lo)] else []) ++
    (if Z.max (fst r) hi <? snd r then [(Z.max (fst r) hi, snd r)] else [])) rs.

Definition add (lo hi : Z) (rs : t) : t :=
  if lo <? hi then (lo, hi) :: sub lo hi rs else rs.

End Ranges.

(** ** Buffers *)

(** Modelled from the spec: [P::Buffer] derives from the buffer base
    collaborator, which is not among the sources.  A buffer has a guest CPU
    address, a byte size, a stream score, the "picked" mark of the overlap
    scan, and its dirty state.  Addresses passed to the region methods are
    guest CPU addresses, as at the call sites in [WriteMemory],
    [MarkWrittenBuffer] and [DeleteBuffer]; the ranges handed to the
    [ForEach...Range] callbacks are offsets from the start of the buffer, as
    [PopAsyncFlushes] and [SynchronizeBufferImpl] use them.  A region is
    clamped to the extent of the buffer. *)
Module Buffer.

Record t : Type := mk {
  cpu_addr : Z;
  size_bytes : Z;
  stream_score : Z;
  is_picked : bool;
  cpu_modified : Ranges.t;
  gpu_modified : Ranges.t;
  cached_writes : Ranges.t;
}.

(** A buffer built by [slot_buffers.insert(runtime, rasterizer, addr, size)]:
    nothing of it is on the host yet, so the whole extent is CPU-modified. *)
Definition create (addr size : Z) : t :=
  mk addr size 0 false (Ranges.add 0 size []) [] [].

(** The buffer built from [NullBufferParams]. *)
Definition null : t := mk 0 0 0 false [] [] [].

Definition CpuAddr (b : t) : Z := cpu_addr b.
Definition SizeBytes (b : t) : Z := size_bytes b.
Definition StreamScore (b : t) : Z := stream_score b.
Definition IsPicked (b : t) : bool := is_picked b.

Definition Pick (b : t) : t :=
  mk (cpu_addr b) (size_bytes b) (stream_score b) true
     (cpu_modified b) (gpu_modified b) (cached_writes b).

Definition IncreaseStreamScore (score : Z) (b : t) : t :=
  mk (cpu_addr b) (size_bytes b) (stream_score b + score) (is_picked b)
     (cpu_modified b) (gpu_modified b) (cached_writes b).

Definition set_cpu_modified (rs : Ranges.t) (b : t) : t :=
  mk (cpu_addr b) (size_bytes b) (stream_score b) (is_picked b)
     rs (gpu_modified b) (cached_writes b).

Definition set_gpu_modified (rs : Ranges.t) (b : t) : t :=
  mk (cpu_addr b) (size_bytes b) (stream_score b) (is_picked b)
     (cpu_modified b) rs (cached_writes b).

Definition set_cached_writes (rs : Ranges.t) (b : t) : t :=
  mk (cpu_addr b) (size_bytes b) (stream_score b) (is_picked b)
     (cpu_modified b) (gpu_modified b) rs.

(** The offsets of the region [addr, addr + size) that lie in the buffer. *)
Definition region_lo (b : t) (addr : Z) : Z := Z.max (addr - cpu_addr b) 0.
Definition region_hi (b : t) (addr size : Z) : Z :=
  Z.min (addr + size - cpu_addr b) (size_bytes b).

Definition Offset (b : t) (other_cpu_addr : Z) : Z := u32 (other_cpu_addr - cpu_addr b).

Definition IsInBounds (b : t) (addr size : Z) : bool :=
  (cpu_addr b <=? addr) && (addr + size <=? cpu_addr b + size_bytes b).

Definition MarkRegionAsCpuModified (addr size : Z) (b : t) : t :=
  set_cpu_modified
    (Ranges.add (region_lo b addr) (region_hi b addr size) (cpu_modified b)) b.

Definition UnmarkRegionAsCpuModified (addr size : Z) (b : t) : t :=
  set_cpu_modified
    (Ranges.sub (region_lo b addr) (region_hi b addr size) (cpu_modified b)) b.

Definition MarkRegionAsGpuModified (addr size : Z) (b : t) : t :=
  set_gpu_modified
    (Ranges.add (region_lo b addr) (region_hi b addr size) (gpu_modified b)) b.

Definition IsRegionGpuModified (b : t) (addr size : Z) : bool :=
  match Ranges.inter (region_lo b addr) (region_hi b addr size) (gpu_modified b) with
  | [] => false
  | _ :: _ => true
  end.

(** [(offset, size)] pairs given to the callback, and the buffer afterwards:
    enumeration clears what it enumerates. *)
Definition as_offset_size (rs : Ranges.t) : list (Z * Z) :=
  map (fun r => (fst r, snd r - fst r)) rs.

Definition ForEachUploadRange (addr size : Z) (b : t) : list (Z * Z) * t :=
  let lo := region_lo b addr in
  let hi := region_hi b addr size in
  (as_offset_size (Ranges.inter lo hi (cpu_modified b)),
   set_cpu_modified (Ranges.sub lo hi (cpu_modified b)) b).

Definition ForEachDownloadRange (addr size : Z) (b : t) : list (Z * Z) * t :=
  let lo := region_lo b addr in
  let hi := region_hi b addr size in
  (as_offset_size (Ranges.inter lo hi (gpu_modified b)),
   set_gpu_modified (Ranges.sub lo hi (gpu_modified b)) b).

(** The overload without a region enumerates the whole buffer. *)
Definition ForEachDownloadRangeAll (b : t) : list (Z * Z) * t :=
  ForEachDownloadRange (cpu_addr b) (size_bytes b) b.

Definition HasCachedWrites (b : t) : bool :=
  match cached_writes b with [] => false | _ :: _ => true end.

Definition CachedCpuWrite (addr size : Z) (b : t) : t :=
  set_cached_writes
    (Ranges.add (region_lo b addr) (region_hi b addr size) (cached_writes b)) b.

Definition FlushCachedWrites (b : t) : t :=
  set_cached_writes []
    (set_cpu_modified
       (fold_right (fun r acc => Ranges.add (fst r) (snd r) acc)
                   (cpu_modified b) (cached_writes b)) b).

(** Is the byte at guest address [addr] GPU-modified / CPU-modified? *)
Definition gpu_modified_at (b : t) (addr : Z) : bool :=
  Ranges.mem (addr - cpu_addr b) (gpu_modified b).
Definition cpu_modified_at (b : t) (addr : Z) : bool :=
  Ranges.mem (addr - cpu_addr b) (cpu_modified b).

End Buffer.

(** ** Plain structs of the class *)

Module Binding.
Record t : Type := mk {
  cpu_addr : Z;
  size : Z;
  buffer_id : BufferId;
}.
(** A value-initialised [Binding{}]. *)
Definition default : t := mk 0 0 UNSET_BUFFER_ID.
End Binding.

Definition NULL_BINDING : Binding.t := Binding.mk 0 0 NULL_BUFFER_ID.

Module BufferCopy.
Record t : Type := mk {
  src_offset : Z;
  dst_offset : Z;
  size : Z;
}.
End BufferCopy.

Module OverlapResult.
Record t : Type := mk {
  ids : list BufferId;
  begin : Z;
  end_ : Z;
  has_stream_leap : bool;
}.
End OverlapResult.

(** A slot of [slot_buffers].  [std::move(slot_buffers[id])] leaves the slot
    in place holding a moved-from object; the class never erases a slot. *)
Module Slot.
Record t : Type := mk {
  object : Buffer.t;
  moved_from : bool;
}.
End Slot.

(** Modelled from the spec: the delayed destruction ring
    (video_core/delayed_destruction_ring.h) is not among the sources.  It is
    a fixed ring of 8 buckets; [Push] moves an object into the bucket of the
    current frame, [Tick] advances the head and drops what the bucket it
    lands on held. *)
Module Ring.
Record t : Type := mk {
  index : nat;
  elements : list (list Buffer.t);
}.
Definition TICKS_TO_DESTROY : nat := 8.
Definition empty : t := mk 0 (replicate TICKS_TO_DESTROY []).
Definition Tick (r : t) : t :=
  let i := ((index r + 1) mod TICKS_TO_DESTROY)%nat in
  mk i (<[i := []]> (elements r)).
Definition Push (b : Buffer.t) (r : t) : t :=
  mk (index r) (alter (fun bucket => bucket ++ [b]) (index r) (elements r)).
End Ring.

(** [maxwell3d.dirty.flags], as far as the cache reads and writes them. *)
Module Dirty.
Record t : Type := mk {
  IndexBuffer : bool;
  VertexBuffers : bool;
  VertexBuffer0 : list bool;
}.
Definition all_set : t := mk true true (replicate (Z.to_nat NUM_VERTEX_BUFFERS) true).
End Dirty.

(** A host buffer named in a runtime call. *)
Inductive HostBuffer : Type :=
| CachedBuffer (id : BufferId)
| UploadStaging
| DownloadStaging.

(** Calls into the collaborators, in program order. *)
Module Call.
Inductive t : Type :=
| UploadStagingBuffer (size : Z)
| DownloadStagingBuffer (size : Z)
| CopyBuffer (dst src : HostBuffer) (copies : list BufferCopy.t)
| Finish
| BindIndexBuffer (buffer : BufferId) (offset size : Z)
| BindIndexBufferTopology (first count : Z) (buffer : BufferId) (offset size : Z)
| BindQuadArrayIndexBuffer (first count : Z)
| BindVertexBuffer (index : Z) (buffer : BufferId) (offset size stride : Z)
| BindUniformBufferAt (stage binding_index : Z) (buffer : BufferId) (offset size : Z)
| BindUniformBuffer (buffer : BufferId) (offset size : Z)
| BindStorageBufferAt (stage binding_index : Z) (buffer : BufferId) (offset size : Z)
    (is_written : bool)
| BindStorageBuffer (buffer : BufferId) (offset size : Z) (is_written : bool)
| BindTransformFeedbackBuffer (index : Z) (buffer : BufferId) (offset size : Z)
| BindComputeUniformBuffer (binding_index : Z) (buffer : BufferId) (offset size : Z)
| BindComputeStorageBuffer (binding_index : Z) (buffer : BufferId) (offset size : Z)
    (is_written : bool)
| BindFastUniformBuffer (stage binding_index size : Z)
| PushFastUniformBuffer (stage binding_index cpu_addr size : Z)
| BindMappedUniformBuffer (stage binding_index size : Z)
| ImmediateUpload (buffer : BufferId) (offset size : Z)
| ImmediateDownload (buffer : BufferId) (offset size : Z)
| GetPointer (cpu_addr : Z)
| ReadBlockUnsafe (cpu_addr size : Z)
| WriteBlockUnsafe (cpu_addr size : Z).
End Call.

(** The static policy bundle [P]. *)
Record Policy : Type := {
  IS_OPENGL : bool;
  HAS_PERSISTENT_UNIFORM_BUFFER_BINDINGS : bool;
  HAS_FULL_INDEX_AND_PRIMITIVE_SUPPORT : bool;
  NEEDS_BIND_UNIFORM_INDEX : bool;
  NEEDS_BIND_STORAGE_INDEX : bool;
  USE_MEMORY_MAPS : bool;
}.

(** What the collaborators answer during one operation: the guest GPU memory
    manager, the rasterizer registers, the compute launch descriptor, the
    settings and the host runtime. *)
Record Env : Type := {
  GpuToCpuAddress : Z -> option Z;
  gpu_Read_u64 : Z -> Z;
  gpu_Read_u32 : Z -> Z;
  BytesToMapEnd : Z -> Z;
  index_array_count : Z;
  index_array_first : Z;
  index_array_StartAddress : Z;
  index_array_EndAddress : Z;
  index_array_FormatSizeInBytes : Z;
  vertex_array_StartAddress : Z -> Z;
  vertex_array_enable : Z -> Z;
  vertex_array_stride : Z -> Z;
  vertex_array_limit_LimitAddress : Z -> Z;
  vertex_buffer_first : Z;
  vertex_buffer_count : Z;
  draw_topology_is_quads : bool;
  tfb_enabled : Z;
  tfb_Address : Z -> Z;
  tfb_buffer_offset : Z -> Z;
  tfb_buffer_size : Z -> Z;
  tfb_buffer_enable : Z -> Z;
  const_buffers_address : Z -> Z -> Z;
  launch_const_buffer_enable_mask : Z;
  launch_const_buffer_Address : Z -> Z;
  launch_const_buffer_size : Z -> Z;
  IsGPULevelHigh : bool;
  use_asynchronous_gpu_emulation : bool;
  HasFastBufferSubData : bool;
  upload_staging_offset : Z -> Z;
  download_staging_offset : Z -> Z;
  pointers_contiguous : Z -> Z -> bool;
  CORE_PAGE_MASK : Z;
}.

(** ** The cache

    The data members of [BufferCache<P>], in declaration order, followed by
    the two pieces of collaborator state the cache writes through its
    references: the rasterizer's dirty flags and the log of calls. *)
Record BufferCache : Type := mkCache {
  slot_buffers : list Slot.t;
  delayed_destruction_ring : Ring.t;
  last_index_count : Z;
  index_buffer : Binding.t;
  vertex_buffers : list Binding.t;
  uniform_buffers : list (list Binding.t);
  storage_buffers : list (list Binding.t);
  transform_feedback_buffers : list Binding.t;
  compute_uniform_buffers : list Binding.t;
  compute_storage_buffers : list Binding.t;
  enabled_uniform_buffers : list Z;
  enabled_compute_uniform_buffers : Z;
  enabled_storage_buffers : list Z;
  written_storage_buffers : list Z;
  enabled_compute_storage_buffers : Z;
  written_compute_storage_buffers : Z;
  fast_bound_uniform_buffers : list Z;
  uniform_cache_hits : list Z;
  uniform_cache_shots : list Z;
  uniform_buffer_skip_cache_size : Z;
  has_deleted_buffers : bool;
  dirty_uniform_buffers : list Z;
  cached_write_buffer_ids : list BufferId;
  uncommitted_downloads : list BufferId;
  committed_downloads : list (list BufferId);
  immediate_buffer_capacity : Z;
  page_table : gmap Z BufferId;
  flags : Dirty.t;
  runtime_calls : list Call.t;
}.

(** Assignment to one member. *)
Definition set_slot_buffers (v : list Slot.t) (c : BufferCache) : BufferCache :=
  mkCache
    v c.(delayed_destruction_ring) c.(last_index_count) c.(index_buffer) c.(vertex_buffers)
    c.(uniform_buffers) c.(storage_buffers) c.(transform_feedback_buffers)
    c.(compute_uniform_buffers) c.(compute_storage_buffers) c.(enabled_uniform_buffers)
    c.(enabled_compute_uniform_buffers) c.(enabled_storage_buffers) c.(written_storage_buffers)
    c.(enabled_compute_storage_buffers) c.(written_compute_storage_buffers)
    c.(fast_bound_uniform_buffers) c.(uniform_cache_hits) c.(uniform_cache_shots)
    c.(uniform_buffer_skip_cache_size) c.(has_deleted_buffers) c.(dirty_uniform_buffers)
    c.(cached_write_buffer_ids) c.(uncommitted_downloads) c.(committed_downloads)
    c.(immediate_buffer_capacity) c.(page_table) c.(flags) c.(runtime_calls).
Definition set_delayed_destruction_ring (v : Ring.t) (c : BufferCache) : BufferCache :=
  mkCache
    c.(slot_buffers) v c.(last_index_count) c.(index_buffer) c.(vertex_buffers)
    c.(uniform_buffers) c.(storage_buffers) c.(transform_feedback_buffers)
    c.(compute_uniform_buffers) c.(compute_storage_buffers) c.(enabled_uniform_buffers)
    c.(enabled_compute_uniform_buffers) c.(enabled_storage_buffers) c.(written_storage_buffers)
    c.(enabled_compute_storage_buffers) c.(written_compute_storage_buffers)
    c.(fast_bound_uniform_buffers) c.(uniform_cache_hits) c.(uniform_cache_shots)
    c.(uniform_buffer_skip_cache_size) c.(has_deleted_buffers) c.(dirty_uniform_buffers)
    c.(cached_write_buffer_ids) c.(uncommitted_downloads) c.(committed_downloads)
    c.(immediate_buffer_capacity) c.(page_table) c.(flags) c.(runtime_calls).
Definition set_last_index_count (v : Z) (c : BufferCache) : BufferCache :=
  mkCache
    c.(slot_buffers) c.(delayed_destruction_ring) v c.(index_buffer) c.(vertex_buffers)
    c.(uniform_buffers) c.(storage_buffers) c.(transform_feedback_buffers)
    c.(compute_uniform_buffers) c.(compute_storage_buffers) c.(enabled_uniform_buffers)
    c.(enabled_compute_uniform_buffers) c.(enabled_storage_buffers) c.(written_storage_buffers)
    c.(enabled_compute_storage_buffers) c.(written_compute_storage_buffers)
    c.(fast_bound_uniform_buffers) c.(uniform_cache_hits) c.(uniform_cache_shots)
    c.(uniform_buffer_skip_cache_size) c.(has_deleted_buffers) c.(dirty_uniform_buffers)
    c.(cached_write_buffer_ids) c.(uncommitted_downloads) c.(committed_downloads)
    c.(immediate_buffer_capacity) c.(page_table) c.(flags) c.(runtime_calls).
Definition set_index_buffer (v : Binding.t) (c : BufferCache) : BufferCache :=
  mkCache
    c.(slot_buffers) c.(delayed_destruction_ring) c.(last_index_count) v c.(vertex_buffers)
    c.(uniform_buffers) c.(storage_buffers) c.(transform_feedback_buffers)
    c.(compute_uniform_buffers) c.(compute_storage_buffers) c.(enabled_uniform_buffers)
    c.(enabled_compute_uniform_buffers) c.(enabled_storage_buffers) c.(written_storage_buffers)
    c.(enabled_compute_storage_buffers) c.(written_compute_storage_buffers)
    c.(fast_bound_uniform_buffers) c.(uniform_cache_hits) c.(uniform_cache_shots)
    c.(uniform_buffer_skip_cache_size) c.(has_deleted_buffers) c.(dirty_uniform_buffers)
    c.(cached_write_buffer_ids) c.(uncommitted_downloads) c.(committed_downloads)
    c.(immediate_buffer_capacity) c.(page_table) c.(flags) c.(runtime_calls).
Definition set_vertex_buffers (v : list Binding.t) (c : BufferCache) : BufferCache :=
  mkCache
    c.(slot_buffers) c.(delayed_destruction_ring) c.(last_index_count) c.(index_buffer) v
    c.(uniform_buffers) c.(storage_buffers) c.(transform_feedback_buffers)
    c.(compute_uniform_buffers) c.(compute_storage_buffers) c.(enabled_uniform_buffers)
    c.(enabled_compute_uniform_buffers) c.(enabled_storage_buffers) c.(written_storage_buffers)
    c.(enabled_compute_storage_buffers) c.(written_compute_storage_buffers)
    c.(fast_bound_uniform_buffers) c.(uniform_cache_hits) c.(uniform_cache_shots)
    c.(uniform_buffer_skip_cache_size) c.(has_deleted_buffers) c.(dirty_uniform_buffers)
    c.(cached_write_buffer_ids) c.(uncommitted_downloads) c.(committed_downloads)
    c.(immediate_buffer_capacity) c.(page_table) c.(flags) c.(runtime_calls).
Definition set_uniform_buffers (v : list (list Binding.t)) (c : BufferCache) : BufferCache :=
  mkCache
    c.(slot_buffers) c.(delayed_destruction_ring) c.(last_index_count) c.(index_buffer)
    c.(vertex_buffers) v c.(storage_buffers) c.(transform_feedback_buffers)
    c.(compute_uniform_buffers) c.(compute_storage_buffers) c.(enabled_uniform_buffers)
    c.(enabled_compute_uniform_buffers) c.(enabled_storage_buffers) c.(written_storage_buffers)
    c.(enabled_compute_storage_buffers) c.(written_compute_storage_buffers)
    c.(fast_bound_uniform_buffers) c.(uniform_cache_hits) c.(uniform_cache_shots)
    c.(uniform_buffer_skip_cache_size) c.(has_deleted_buffers) c.(dirty_uniform_buffers)
    c.(cached_write_buffer_ids) c.(uncommitted_downloads) c.(committed_downloads)
    c.(immediate_buffer_capacity) c.(page_table) c.(flags) c.(runtime_calls).
Definition set_storage_buffers (v : list (list Binding.t)) (c : BufferCache) : BufferCache :=
  mkCache
    c.(slot_buffers) c.(delayed_destruction_ring) c.(last_index_count) c.(index_buffer)
    c.(vertex_buffers) c.(uniform_buffers) v c.(transform_feedback_buffers)
    c.(compute_uniform_buffers) c.(compute_storage_buffers) c.(enabled_uniform_buffers)
    c.(enabled_compute_uniform_buffers) c.(enabled_storage_buffers) c.(written_storage_buffers)
    c.(enabled_compute_storage_buffers) c.(written_compute_storage_buffers)
    c.(fast_bound_uniform_buffers) c.(uniform_cache_hits) c.(uniform_cache_shots)
    c.(uniform_buffer_skip_cache_size) c.(has_deleted_buffers) c.(dirty_uniform_buffers)
    c.(cached_write_buffer_ids) c.(uncommitted_downloads) c.(committed_downloads)
    c.(immediate_buffer_capacity) c.(page_table) c.(flags) c.(runtime_calls).
Definition set_transform_feedback_buffers (v : list Binding.t) (c : BufferCache) : BufferCache :=
  mkCache
    c.(slot_buffers) c.(delayed_destruction_ring) c.(last_index_count) c.(index_buffer)
    c.(vertex_buffers) c.(uniform_buffers) c.(storage_buffers) v c.(compute_uniform_buffers)
    c.(compute_storage_buffers) c.(enabled_uniform_buffers) c.(enabled_compute_uniform_buffers)
    c.(enabled_storage_buffers) c.(written_storage_buffers) c.(enabled_compute_storage_buffers)
    c.(written_compute_storage_buffers) c.(fast_bound_uniform_buffers) c.(uniform_cache_hits)
    c.(uniform_cache_shots) c.(uniform_buffer_skip_cache_size) c.(has_deleted_buffers)
    c.(dirty_uniform_buffers) c.(cached_write_buffer_ids) c.(uncommitted_downloads)
    c.(committed_downloads) c.(immediate_buffer_capacity) c.(page_table) c.(flags)
    c.(runtime_calls).
Definition set_compute_uniform_buffers (v : list Binding.t) (c : BufferCache) : BufferCache :=
  mkCache
    c.(slot_buffers) c.(delayed_destruction_ring) c.(last_index_count) c.(index_buffer)
    c.(vertex_buffers) c.(uniform_buffers) c.(storage_buffers) c.(transform_feedback_buffers) v
    c.(compute_storage_buffers) c.(enabled_uniform_buffers) c.(enabled_compute_uniform_buffers)
    c.(enabled_storage_buffers) c.(written_storage_buffers) c.(enabled_compute_storage_buffers)
    c.(written_compute_storage_buffers) c.(fast_bound_uniform_buffers) c.(uniform_cache_hits)
    c.(uniform_cache_shots) c.(uniform_buffer_skip_cache_size) c.(has_deleted_buffers)
    c.(dirty_uniform_buffers) c.(cached_write_buffer_ids) c.(uncommitted_downloads)
    c.(committed_downloads) c.(immediate_buffer_capacity) c.(page_table) c.(flags)
    c.(runtime_calls).
Definition set_compute_storage_buffers (v : list Binding.t) (c : BufferCache) : BufferCache :=
  mkCache
    c.(slot_buffers) c.(delayed_destruction_ring) c.(last_index_count) c.(index_buffer)
    c.(vertex_buffers) c.(uniform_buffers) c.(storage_buffers) c.(transform_feedback_buffers)
    c.(compute_uniform_buffers) v c.(enabled_uniform_buffers) c.(enabled_compute_uniform_buffers)
    c.(enabled_storage_buffers) c.(written_storage_buffers) c.(enabled_compute_storage_buffers)
    c.(written_compute_storage_buffers) c.(fast_bound_uniform_buffers) c.(uniform_cache_hits)
    c.(uniform_cache_shots) c.(uniform_buffer_skip_cache_size) c.(has_deleted_buffers)
    c.(dirty_uniform_buffers) c.(cached_write_buffer_ids) c.(uncommitted_downloads)
    c.(committed_downloads) c.(immediate_buffer_capacity) c.(page_table) c.(flags)
    c.(runtime_calls).
Definition set_enabled_uniform_buffers (v : list Z) (c : BufferCache) : BufferCache :=
  mkCache
    c.(slot_buffers) c.(delayed_destruction_ring) c.(last_index_count) c.(index_buffer)
    c.(vertex_buffers) c.(uniform_buffers) c.(storage_buffers) c.(transform_feedback_buffers)
    c.(compute_uniform_buffers) c.(compute_storage_buffers) v c.(enabled_compute_uniform_buffers)
    c.(enabled_storage_buffers) c.(written_storage_buffers) c.(enabled_compute_storage_buffers)
    c.(written_compute_storage_buffers) c.(fast_bound_uniform_buffers) c.(uniform_cache_hits)
    c.(uniform_cache_shots) c.(uniform_buffer_skip_cache_size) c.(has_deleted_buffers)
    c.(dirty_uniform_buffers) c.(cached_write_buffer_ids) c.(uncommitted_downloads)
    c.(committed_downloads) c.(immediate_buffer_capacity) c.(page_table) c.(flags)
    c.(runtime_calls).
Definition set_enabled_compute_uniform_buffers (v : Z) (c : BufferCache) : BufferCache :=
  mkCache
    c.(slot_buffers) c.(delayed_destruction_ring) c.(last_index_count) c.(index_buffer)
    c.(vertex_buffers) c.(uniform_buffers) c.(storage_buffers) c.(transform_feedback_buffers)
    c.(compute_uniform_buffers) c.(compute_storage_buffers) c.(enabled_uniform_buffers) v
    c.(enabled_storage_buffers) c.(written_storage_buffers) c.(enabled_compute_storage_buffers)
    c.(written_compute_storage_buffers) c.(fast_bound_uniform_buffers) c.(uniform_cache_hits)
    c.(uniform_cache_shots) c.(uniform_buffer_skip_cache_size) c.(has_deleted_buffers)
    c.(dirty_uniform_buffers) c.(cached_write_buffer_ids) c.(uncommitted_downloads)
    c.(committed_downloads) c.(immediate_buffer_capacity) c.(page_table) c.(flags)
    c.(runtime_calls).
Definition set_enabled_storage_buffers (v : list Z) (c : BufferCache) : BufferCache :=
  mkCache
    c.(slot_buffers) c.(delayed_destruction_ring) c.(last_index_count) c.(index_buffer)
    c.(vertex_buffers) c.(uniform_buffers) c.(storage_buffers) c.(transform_feedback_buffers)
    c.(compute_uniform_buffers) c.(compute_storage_buffers) c.(enabled_uniform_buffers)
    c.(enabled_compute_uniform_buffers) v c.(written_storage_buffers)
    c.(enabled_compute_storage_buffers) c.(written_compute_storage_buffers)
    c.(fast_bound_uniform_buffers) c.(uniform_cache_hits) c.(uniform_cache_shots)
    c.(uniform_buffer_skip_cache_size) c.(has_deleted_buffers) c.(dirty_uniform_buffers)
    c.(cached_write_buffer_ids) c.(uncommitted_downloads) c.(committed_downloads)
    c.(immediate_buffer_capacity) c.(page_table) c.(flags) c.(runtime_calls).
Definition set_written_storage_buffers (v : list Z) (c : BufferCache) : BufferCache :=
  mkCache
    c.(slot_buffers) c.(delayed_destruction_ring) c.(last_index_count) c.(index_buffer)
    c.(vertex_buffers) c.(uniform_buffers) c.(storage_buffers) c.(transform_feedback_buffers)
    c.(compute_uniform_buffers) c.(compute_storage_buffers) c.(enabled_uniform_buffers)
    c.(enabled_compute_uniform_buffers) c.(enabled_storage_buffers) v
    c.(enabled_compute_storage_buffers) c.(written_compute_storage_buffers)
    c.(fast_bound_uniform_buffers) c.(uniform_cache_hits) c.(uniform_cache_shots)
    c.(uniform_buffer_skip_cache_size) c.(has_deleted_buffers) c.(dirty_uniform_buffers)
    c.(cached_write_buffer_ids) c.(uncommitted_downloads) c.(committed_downloads)
    c.(immediate_buffer_capacity) c.(page_table) c.(flags) c.(runtime_calls).
Definition set_enabled_compute_storage_buffers (v : Z) (c : BufferCache) : BufferCache :=
  mkCache
    c.(slot_buffers) c.(delayed_destruction_ring) c.(last_index_count) c.(index_buffer)
    c.(vertex_buffers) c.(uniform_buffers) c.(storage_buffers) c.(transform_feedback_buffers)
    c.(compute_uniform_buffers) c.(compute_storage_buffers) c.(enabled_uniform_buffers)
    c.(enabled_compute_uniform_buffers) c.(enabled_storage_buffers) c.(written_storage_buffers) v
    c.(written_compute_storage_buffers) c.(fast_bound_uniform_buffers) c.(uniform_cache_hits)
    c.(uniform_cache_shots) c.(uniform_buffer_skip_cache_size) c.(has_deleted_buffers)
    c.(dirty_uniform_buffers) c.(cached_write_buffer_ids) c.(uncommitted_downloads)
    c.(committed_downloads) c.(immediate_buffer_capacity) c.(page_table) c.(flags)
    c.(runtime_calls).
Definition set_written_compute_storage_buffers (v : Z) (c : BufferCache) : BufferCache :=
  mkCache
    c.(slot_buffers) c.(delayed_destruction_ring) c.(last_index_count) c.(index_buffer)
    c.(vertex_buffers) c.(uniform_buffers) c.(storage_buffers) c.(transform_feedback_buffers)
    c.(compute_uniform_buffers) c.(compute_storage_buffers) c.(enabled_uniform_buffers)
    c.(enabled_compute_uniform_buffers) c.(enabled_storage_buffers) c.(written_storage_buffers)
    c.(enabled_compute_storage_buffers) v c.(fast_bound_uniform_buffers) c.(uniform_cache_hits)
    c.(uniform_cache_shots) c.(uniform_buffer_skip_cache_size) c.(has_deleted_buffers)
    c.(dirty_uniform_buffers) c.(cached_write_buffer_ids) c.(uncommitted_downloads)
    c.(committed_downloads) c.(immediate_buffer_capacity) c.(page_table) c.(flags)
    c.(runtime_calls).
Definition set_fast_bound_uniform_buffers (v : list Z) (c : BufferCache) : BufferCache :=
  mkCache
    c.(slot_buffers) c.(delayed_destruction_ring) c.(last_index_count) c.(index_buffer)
    c.(vertex_buffers) c.(uniform_buffers) c.(storage_buffers) c.(transform_feedback_buffers)
    c.(compute_uniform_buffers) c.(compute_storage_buffers) c.(enabled_uniform_buffers)
    c.(enabled_compute_uniform_buffers) c.(enabled_storage_buffers) c.(written_storage_buffers)
    c.(enabled_compute_storage_buffers) c.(written_compute_storage_buffers) v
    c.(uniform_cache_hits) c.(uniform_cache_shots) c.(uniform_buffer_skip_cache_size)
    c.(has_deleted_buffers) c.(dirty_uniform_buffers) c.(cached_write_buffer_ids)
    c.(uncommitted_downloads) c.(committed_downloads) c.(immediate_buffer_capacity) c.(page_table)
    c.(flags) c.(runtime_calls).
Definition set_uniform_cache_hits (v : list Z) (c : BufferCache) : BufferCache :=
  mkCache
    c.(slot_buffers) c.(delayed_destruction_ring) c.(last_index_count) c.(index_buffer)
    c.(vertex_buffers) c.(uniform_buffers) c.(storage_buffers) c.(transform_feedback_buffers)
    c.(compute_uniform_buffers) c.(compute_storage_buffers) c.(enabled_uniform_buffers)
    c.(enabled_compute_uniform_buffers) c.(enabled_storage_buffers) c.(written_storage_buffers)
    c.(enabled_compute_storage_buffers) c.(written_compute_storage_buffers)
    c.(fast_bound_uniform_buffers) v c.(uniform_cache_shots) c.(uniform_buffer_skip_cache_size)
    c.(has_deleted_buffers) c.(dirty_uniform_buffers) c.(cached_write_buffer_ids)
    c.(uncommitted_downloads) c.(committed_downloads) c.(immediate_buffer_capacity) c.(page_table)
    c.(flags) c.(runtime_calls).
Definition set_uniform_cache_shots (v : list Z) (c : BufferCache) : BufferCache :=
  mkCache
    c.(slot_buffers) c.(delayed_destruction_ring) c.(last_index_count) c.(index_buffer)
    c.(vertex_buffers) c.(uniform_buffers) c.(storage_buffers) c.(transform_feedback_buffers)
    c.(compute_uniform_buffers) c.(compute_storage_buffers) c.(enabled_uniform_buffers)
    c.(enabled_compute_uniform_buffers) c.(enabled_storage_buffers) c.(written_storage_buffers)
    c.(enabled_compute_storage_buffers) c.(written_compute_storage_buffers)
    c.(fast_bound_uniform_buffers) c.(uniform_cache_hits) v c.(uniform_buffer_skip_cache_size)
    c.(has_deleted_buffers) c.(dirty_uniform_buffers) c.(cached_write_buffer_ids)
    c.(uncommitted_downloads) c.(committed_downloads) c.(immediate_buffer_capacity) c.(page_table)
    c.(flags) c.(runtime_calls).
Definition set_uniform_buffer_skip_cache_size (v : Z) (c : BufferCache) : BufferCache :=
  mkCache
    c.(slot_buffers) c.(delayed_destruction_ring) c.(last_index_count) c.(index_buffer)
    c.(vertex_buffers) c.(uniform_buffers) c.(storage_buffers) c.(transform_feedback_buffers)
    c.(compute_uniform_buffers) c.(compute_storage_buffers) c.(enabled_uniform_buffers)
    c.(enabled_compute_uniform_buffers) c.(enabled_storage_buffers) c.(written_storage_buffers)
    c.(enabled_compute_storage_buffers) c.(written_compute_storage_buffers)
    c.(fast_bound_uniform_buffers) c.(uniform_cache_hits) c.(uniform_cache_shots) v
    c.(has_deleted_buffers) c.(dirty_uniform_buffers) c.(cached_write_buffer_ids)
    c.(uncommitted_downloads) c.(committed_downloads) c.(immediate_buffer_capacity) c.(page_table)
    c.(flags) c.(runtime_calls).
Definition set_has_deleted_buffers (v : bool) (c : BufferCache) : BufferCache :=
  mkCache
    c.(slot_buffers) c.(delayed_destruction_ring) c.(last_index_count) c.(index_buffer)
    c.(vertex_buffers) c.(uniform_buffers) c.(storage_buffers) c.(transform_feedback_buffers)
    c.(compute_uniform_buffers) c.(compute_storage_buffers) c.(enabled_uniform_buffers)
    c.(enabled_compute_uniform_buffers) c.(enabled_storage_buffers) c.(written_storage_buffers)
    c.(enabled_compute_storage_buffers) c.(written_compute_storage_buffers)
    c.(fast_bound_uniform_buffers) c.(uniform_cache_hits) c.(uniform_cache_shots)
    c.(uniform_buffer_skip_cache_size) v c.(dirty_uniform_buffers) c.(cached_write_buffer_ids)
    c.(uncommitted_downloads) c.(committed_downloads) c.(immediate_buffer_capacity) c.(page_table)
    c.(flags) c.(runtime_calls).
Definition set_dirty_uniform_buffers (v : list Z) (c : BufferCache) : BufferCache :=
  mkCache
    c.(slot_buffers) c.(delayed_destruction_ring) c.(last_index_count) c.(index_buffer)
    c.(vertex_buffers) c.(uniform_buffers) c.(storage_buffers) c.(transform_feedback_buffers)
    c.(compute_uniform_buffers) c.(compute_storage_buffers) c.(enabled_uniform_buffers)
    c.(enabled_compute_uniform_buffers) c.(enabled_storage_buffers) c.(written_storage_buffers)
    c.(enabled_compute_storage_buffers) c.(written_compute_storage_buffers)
    c.(fast_bound_uniform_buffers) c.(uniform_cache_hits) c.(uniform_cache_shots)
    c.(uniform_buffer_skip_cache_size) c.(has_deleted_buffers) v c.(cached_write_buffer_ids)
    c.(uncommitted_downloads) c.(committed_downloads) c.(immediate_buffer_capacity) c.(page_table)
    c.(flags) c.(runtime_calls).
Definition set_cached_write_buffer_ids (v : list BufferId) (c : BufferCache) : BufferCache :=
  mkCache
    c.(slot_buffers) c.(delayed_destruction_ring) c.(last_index_count) c.(index_buffer)
    c.(vertex_buffers) c.(uniform_buffers) c.(storage_buffers) c.(transform_feedback_buffers)
    c.(compute_uniform_buffers) c.(compute_storage_buffers) c.(enabled_uniform_buffers)
    c.(enabled_compute_uniform_buffers) c.(enabled_storage_buffers) c.(written_storage_buffers)
    c.(enabled_compute_storage_buffers) c.(written_compute_storage_buffers)
    c.(fast_bound_uniform_buffers) c.(uniform_cache_hits) c.(uniform_cache_shots)
    c.(uniform_buffer_skip_cache_size) c.(has_deleted_buffers) c.(dirty_uniform_buffers) v
    c.(uncommitted_downloads) c.(committed_downloads) c.(immediate_buffer_capacity) c.(page_table)
    c.(flags) c.(runtime_calls).
Definition set_uncommitted_downloads (v : list BufferId) (c : BufferCache) : BufferCache :=
  mkCache
    c.(slot_buffers) c.(delayed_destruction_ring) c.(last_index_count) c.(index_buffer)
    c.(vertex_buffers) c.(uniform_buffers) c.(storage_buffers) c.(transform_feedback_buffers)
    c.(compute_uniform_buffers) c.(compute_storage_buffers) c.(enabled_uniform_buffers)
    c.(enabled_compute_uniform_buffers) c.(enabled_storage_buffers) c.(written_storage_buffers)
    c.(enabled_compute_storage_buffers) c.(written_compute_storage_buffers)
    c.(fast_bound_uniform_buffers) c.(uniform_cache_hits) c.(uniform_cache_shots)
    c.(uniform_buffer_skip_cache_size) c.(has_deleted_buffers) c.(dirty_uniform_buffers)
    c.(cached_write_buffer_ids) v c.(committed_downloads) c.(immediate_buffer_capacity)
    c.(page_table) c.(flags) c.(runtime_calls).
Definition set_committed_downloads (v : list (list BufferId)) (c : BufferCache) : BufferCache :=
  mkCache
    c.(slot_buffers) c.(delayed_destruction_ring) c.(last_index_count) c.(index_buffer)
    c.(vertex_buffers) c.(uniform_buffers) c.(storage_buffers) c.(transform_feedback_buffers)
    c.(compute_uniform_buffers) c.(compute_storage_buffers) c.(enabled_uniform_buffers)
    c.(enabled_compute_uniform_buffers) c.(enabled_storage_buffers) c.(written_storage_buffers)
    c.(enabled_compute_storage_buffers) c.(written_compute_storage_buffers)
    c.(fast_bound_uniform_buffers) c.(uniform_cache_hits) c.(uniform_cache_shots)
    c.(uniform_buffer_skip_cache_size) c.(has_deleted_buffers) c.(dirty_uniform_buffers)
    c.(cached_write_buffer_ids) c.(uncommitted_downloads) v c.(immediate_buffer_capacity)
    c.(page_table) c.(flags) c.(runtime_calls).
Definition set_immediate_buffer_capacity (v : Z) (c : BufferCache) : BufferCache :=
  mkCache
    c.(slot_buffers) c.(delayed_destruction_ring) c.(last_index_count) c.(index_buffer)
    c.(vertex_buffers) c.(uniform_buffers) c.(storage_buffers) c.(transform_feedback_buffers)
    c.(compute_uniform_buffers) c.(compute_storage_buffers) c.(enabled_uniform_buffers)
    c.(enabled_compute_uniform_buffers) c.(enabled_storage_buffers) c.(written_storage_buffers)
    c.(enabled_compute_storage_buffers) c.(written_compute_storage_buffers)
    c.(fast_bound_uniform_buffers) c.(uniform_cache_hits) c.(uniform_cache_shots)
    c.(uniform_buffer_skip_cache_size) c.(has_deleted_buffers) c.(dirty_uniform_buffers)
    c.(cached_write_buffer_ids) c.(uncommitted_downloads) c.(committed_downloads) v c.(page_table)
    c.(flags) c.(runtime_calls).
Definition set_page_table (v : gmap Z BufferId) (c : BufferCache) : BufferCache :=
  mkCache
    c.(slot_buffers) c.(delayed_destruction_ring) c.(last_index_count) c.(index_buffer)
    c.(vertex_buffers) c.(uniform_buffers) c.(storage_buffers) c.(transform_feedback_buffers)
    c.(compute_uniform_buffers) c.(compute_storage_buffers) c.(enabled_uniform_buffers)
    c.(enabled_compute_uniform_buffers) c.(enabled_storage_buffers) c.(written_storage_buffers)
    c.(enabled_compute_storage_buffers) c.(written_compute_storage_buffers)
    c.(fast_bound_uniform_buffers) c.(uniform_cache_hits) c.(uniform_cache_shots)
    c.(uniform_buffer_skip_cache_size) c.(has_deleted_buffers) c.(dirty_uniform_buffers)
    c.(cached_write_buffer_ids) c.(uncommitted_downloads) c.(committed_downloads)
    c.(immediate_buffer_capacity) v c.(flags) c.(runtime_calls).
Definition set_flags (v : Dirty.t) (c : BufferCache) : BufferCache :=
  mkCache
    c.(slot_buffers) c.(delayed_destruction_ring) c.(last_index_count) c.(index_buffer)
    c.(vertex_buffers) c.(uniform_buffers) c.(storage_buffers) c.(transform_feedback_buffers)
    c.(compute_uniform_buffers) c.(compute_storage_buffers) c.(enabled_uniform_buffers)
    c.(enabled_compute_uniform_buffers) c.(enabled_storage_buffers) c.(written_storage_buffers)
    c.(enabled_compute_storage_buffers) c.(written_compute_storage_buffers)
    c.(fast_bound_uniform_buffers) c.(uniform_cache_hits) c.(uniform_cache_shots)
    c.(uniform_buffer_skip_cache_size) c.(has_deleted_buffers) c.(dirty_uniform_buffers)
    c.(cached_write_buffer_ids) c.(uncommitted_downloads) c.(committed_downloads)
    c.(immediate_buffer_capacity) c.(page_table) v c.(runtime_calls).
Definition set_runtime_calls (v : list Call.t) (c : BufferCache) : BufferCache :=
  mkCache
    c.(slot_buffers) c.(delayed_destruction_ring) c.(last_index_count) c.(index_buffer)
    c.(vertex_buffers) c.(uniform_buffers) c.(storage_buffers) c.(transform_feedback_buffers)
    c.(compute_uniform_buffers) c.(compute_storage_buffers) c.(enabled_uniform_buffers)
    c.(enabled_compute_uniform_buffers) c.(enabled_storage_buffers) c.(written_storage_buffers)
    c.(enabled_compute_storage_buffers) c.(written_compute_storage_buffers)
    c.(fast_bound_uniform_buffers) c.(uniform_cache_hits) c.(uniform_cache_shots)
    c.(uniform_buffer_skip_cache_size) c.(has_deleted_buffers) c.(dirty_uniform_buffers)
    c.(cached_write_buffer_ids) c.(uncommitted_downloads) c.(committed_downloads)
    c.(immediate_buffer_capacity) c.(page_table) c.(flags) v.

(** The cache right after its constructor ran: slot 0 holds the null buffer,
    every other member has its default member initialiser. *)
Definition BufferCache_init : BufferCache :=
  mkCache
    [Slot.mk Buffer.null false]
    Ring.empty
    0
    Binding.default
    (replicate (Z.to_nat NUM_VERTEX_BUFFERS) Binding.default)
    (replicate (Z.to_nat NUM_STAGES)
       (replicate (Z.to_nat NUM_GRAPHICS_UNIFORM_BUFFERS) Binding.default))
    (replicate (Z.to_nat NUM_STAGES)
       (replicate (Z.to_nat NUM_STORAGE_BUFFERS) Binding.default))
    (replicate (Z.to_nat NUM_TRANSFORM_FEEDBACK_BUFFERS) Binding.default)
    (replicate (Z.to_nat NUM_COMPUTE_UNIFORM_BUFFERS) Binding.default)
    (replicate (Z.to_nat NUM_STORAGE_BUFFERS) Binding.default)
    (replicate (Z.to_nat NUM_STAGES) 0)
    0
    (replicate (Z.to_nat NUM_STAGES) 0)
    (replicate (Z.to_nat NUM_STAGES) 0)
    0
    0
    (replicate (Z.to_nat NUM_STAGES) 0)
    (replicate 16 0)
    (replicate 16 0)
    DEFAULT_SKIP_CACHE_SIZE
    false
    (replicate (Z.to_nat NUM_STAGES) 0)
    []
    []
    []
    0
    ∅
    Dirty.all_set
    [].

Definition log (e : Call.t) (c : BufferCache) : BufferCache :=
  set_runtime_calls (c.(runtime_calls) ++ [e]) c.

(** ** Accessors with the bounds of the containers *)

(** [slot_buffers[id]]. *)
Definition slot_at (c : BufferCache) (id : BufferId) : Res Buffer.t :=
  Slot.object <$> load c.(slot_buffers) id.

(** Write through a [Buffer&] taken from [slot_buffers[id]]. *)
Definition slot_update (id : BufferId) (f : Buffer.t -> Buffer.t) (c : BufferCache)
  : Res BufferCache :=
  s ← load c.(slot_buffers) id;
  sb ← store c.(slot_buffers) id (Slot.mk (f (Slot.object s)) (Slot.moved_from s));
  Ok (set_slot_buffers sb c).

(** [page_table[page]]: the array has [NUM_PAGES] entries, all unset at
    construction. *)
Definition page_in_range (page : Z) : bool := (0 <=? page) && (page <? NUM_PAGES).

Definition page_table_at (c : BufferCache) (page : Z) : Res BufferId :=
  if page_in_range page
  then Ok (default UNSET_BUFFER_ID (c.(page_table) !! page))
  else UB.

Definition page_table_store (page : Z) (id : BufferId) (c : BufferCache) : Res BufferCache :=
  if page_in_range page
  then Ok (set_page_table (<[page := id]> c.(page_table)) c)
  else UB.

(** ** Frame tick and the uniform buffer heuristic *)

(** [std::reduce] over an array of [u32]. *)
Definition reduce_u32 (arr : list Z) : Z :=
  fold_left (fun acc x => u32 (acc + x)) arr 0.

(** [std::copy_n(arr.begin() + src, n, arr.begin() + dst)] on an array of
    trivially copyable elements: the library copies such a range as one
    block move, so an overlapping destination receives the old contents of
    the source. *)
Definition copy_n {A} (src n dst : nat) (arr : list A) : list A :=
  take dst arr ++ take n (drop src arr) ++ drop (dst + n) arr.

Definition TickFrame (c : BufferCache) : BufferCache :=
  (* Calculate hits and shots and move hit bits to the right *)
  let hits := reduce_u32 c.(uniform_cache_hits) in
  let shots := reduce_u32 c.(uniform_cache_shots) in
  let c := set_uniform_cache_hits
             (copy_n 0 (length c.(uniform_cache_hits) - 1) 1 c.(uniform_cache_hits)) c in
  let c := set_uniform_cache_shots
             (copy_n 0 (length c.(uniform_cache_shots) - 1) 1 c.(uniform_cache_shots)) c in
  let c := set_uniform_cache_hits (<[0%nat := 0]> c.(uniform_cache_hits)) c in
  let c := set_uniform_cache_shots (<[0%nat := 0]> c.(uniform_cache_shots)) c in
  let skip_preferred := u32 (hits * 256) <? u32 (shots * 251) in
  let c := set_uniform_buffer_skip_cache_size
             (if skip_preferred then DEFAULT_SKIP_CACHE_SIZE else 0) c in
  set_delayed_destruction_ring (Ring.Tick c.(delayed_destruction_ring)) c.

(** ** Download queues *)

Definition HasUncommittedFlushes (c : BufferCache) : bool :=
  negb (bool_decide (c.(uncommitted_downloads) = [])).

(** [committed_downloads] is a [std::deque]: its front is the head of the
    list, its back the last element. *)
Definition ShouldWaitAsyncFlushes (c : BufferCache) : bool :=
  match c.(committed_downloads) with
  | [] => false
  | front :: _ => negb (bool_decide (front = []))
  end.

Definition CommitAsyncFlushes (c : BufferCache) : BufferCache :=
  (* This is intentionally passing the value by copy *)
  let c := set_committed_downloads (c.(uncommitted_downloads) :: c.(committed_downloads)) c in
  set_uncommitted_downloads [] c.

Definition pop_back {A} (l : list A) : list A := removelast l.

(** [ImmediateBuffer(wanted_capacity)]: grows the scratch allocation. *)
Definition ImmediateBuffer (wanted_capacity : Z) (c : BufferCache) : BufferCache :=
  if c.(immediate_buffer_capacity) <? wanted_capacity
  then set_immediate_buffer_capacity wanted_capacity c
  else c.

(** The callback of the download enumerations: one copy per range, packed
    back to back in the destination. *)
Definition push_download (buffer_id : BufferId)
    (acc : list (BufferCopy.t * BufferId) * Z * Z) (range : Z * Z)
  : list (BufferCopy.t * BufferId) * Z * Z :=
  let '(downloads, total_size_bytes, largest_copy) := acc in
  let '(range_offset, range_size) := range in
  (downloads ++ [(BufferCopy.mk range_offset total_size_bytes range_size, buffer_id)],
   u64 (total_size_bytes + range_size),
   Z.max largest_copy range_size).

Definition add_dst_offset (d : Z) (copy : BufferCopy.t) : BufferCopy.t :=
  BufferCopy.mk (BufferCopy.src_offset copy) (u64 (BufferCopy.dst_offset copy + d))
                (BufferCopy.size copy).

Definition add_src_offset (d : Z) (copy : BufferCopy.t) : BufferCopy.t :=
  BufferCopy.mk (u64 (BufferCopy.src_offset copy + d)) (BufferCopy.dst_offset copy)
                (BufferCopy.size copy).

Section WithCollaborators.

Context (P : Policy) (env : Env).

(** The gathering loop of [PopAsyncFlushes] over [download_ids]. *)
Fixpoint gather_downloads (download_ids : list BufferId)
    (acc : list (BufferCopy.t * BufferId) * Z * Z) (c : BufferCache)
  : Res (list (BufferCopy.t * BufferId) * Z * Z * BufferCache) :=
  match download_ids with
  | [] => Ok (acc, c)
  | buffer_id :: rest =>
      buffer ← slot_at c buffer_id;
      let '(ranges, buffer') := Buffer.ForEachDownloadRangeAll buffer in
      c ← slot_update buffer_id (fun _ => buffer') c;
      gather_downloads rest (fold_left (push_download buffer_id) ranges acc) c
  end.

Definition PopAsyncFlushes (c : BufferCache) : Res BufferCache :=
  match c.(committed_downloads) with
  | [] => Ok c
  | _ :: _ =>
      let scope_exit_pop_download (c : BufferCache) :=
        set_committed_downloads (pop_back c.(committed_downloads)) c in
      let download_ids := List.last c.(committed_downloads) [] in
      match download_ids with
      | [] => Ok (scope_exit_pop_download c)
      | _ :: _ =>
          '(downloads, total_size_bytes, largest_copy, c) ←
            gather_downloads download_ids ([], 0, 0) c;
          match downloads with
          | [] => Ok (scope_exit_pop_download c)
          | _ :: _ =>
              if P.(USE_MEMORY_MAPS) then
                let c := log (Call.DownloadStagingBuffer total_size_bytes) c in
                let offset := env.(download_staging_offset) total_size_bytes in
                (* Have in mind the staging buffer offset for the copy *)
                let downloads :=
                  map (fun d => (add_dst_offset offset (fst d), snd d)) downloads in
                c ← for_each (fun d c =>
                       _ ← slot_at c (snd d);
                       Ok (log (Call.CopyBuffer DownloadStaging (CachedBuffer (snd d)) [fst d]) c))
                     downloads c;
                let c := log Call.Finish c in
                c ← for_each (fun d c =>
                       buffer ← slot_at c (snd d);
                       let cpu_addr :=
                         u64 (Buffer.CpuAddr buffer + BufferCopy.src_offset (fst d)) in
                       Ok (log (Call.WriteBlockUnsafe cpu_addr (BufferCopy.size (fst d))) c))
                     downloads c;
                Ok (scope_exit_pop_download c)
              else
                let c := ImmediateBuffer largest_copy c in
                c ← for_each (fun d c =>
                       buffer ← slot_at c (snd d);
                       let c := log (Call.ImmediateDownload (snd d) (BufferCopy.src_offset (fst d))
                                                       (BufferCopy.size (fst d))) c in
                       let cpu_addr :=
                         u64 (Buffer.CpuAddr buffer + BufferCopy.src_offset (fst d)) in
                       Ok (log (Call.WriteBlockUnsafe cpu_addr (BufferCopy.size (fst d))) c))
                     downloads c;
                Ok (scope_exit_pop_download c)
          end
      end
  end.

Definition MarkWrittenBuffer (buffer_id : BufferId) (cpu_addr size : Z) (c : BufferCache)
  : Res BufferCache :=
  c ← slot_update buffer_id (Buffer.MarkRegionAsGpuModified cpu_addr size) c;
  let is_accuracy_high := env.(IsGPULevelHigh) in
  let is_async := env.(use_asynchronous_gpu_emulation) in
  if negb is_accuracy_high || negb is_async then Ok c
  else if existsb (Z.eqb buffer_id) c.(uncommitted_downloads) then
    (* Already inserted *)
    Ok c
  else Ok (set_uncommitted_downloads (c.(uncommitted_downloads) ++ [buffer_id]) c).

End WithCollaborators.

(** [std::ranges::replace(buffers, old_id, new_id)]. *)
Definition ranges_replace (old_id new_id : BufferId) (buffers : list BufferId) : list BufferId :=
  map (fun id => if id =? old_id then new_id else id) buffers.

(** [std::remove(first, last, value)] followed by the [erase] of the tail. *)
Definition erase_remove (value : BufferId) (buffers : list BufferId) : list BufferId :=
  List.filter (fun id => negb (id =? value)) buffers.

(** Find the first [new_id] and erase every later one. *)
Fixpoint erase_after_first (new_id : BufferId) (buffers : list BufferId) : list BufferId :=
  match buffers with
  | [] => []
  | id :: rest =>
      if id =? new_id then id :: erase_remove new_id rest
      else id :: erase_after_first new_id rest
  end.

Definition replace_downloads (old_buffer_id new_buffer_id : BufferId)
    (buffers : list BufferId) : list BufferId :=
  erase_after_first new_buffer_id (ranges_replace old_buffer_id new_buffer_id buffers).

Definition ReplaceBufferDownloads (old_buffer_id new_buffer_id : BufferId) (c : BufferCache)
  : BufferCache :=
  let replace := replace_downloads old_buffer_id new_buffer_id in
  let c := set_uncommitted_downloads (replace c.(uncommitted_downloads)) c in
  set_committed_downloads (map replace c.(committed_downloads)) c.

(** ** Bit masks *)

(** [std::countr_zero] of a non-zero [u32]. *)
Fixpoint countr_zero_from (fuel : nat) (mask : Z) : Z :=
  match fuel with
  | O => 0
  | S fuel => if Z.testbit mask 0 then 0 else 1 + countr_zero_from fuel (Z.shiftr mask 1)
  end.
Definition countr_zero (mask : Z) : Z := countr_zero_from 32 mask.

(** The indices [ForEachEnabledBit] hands to its callback, in order.  The
    mask has 32 bits and loses at least one per round. *)
Fixpoint enabled_bits_from (fuel : nat) (index enabled_mask : Z) : list Z :=
  match fuel with
  | O => []
  | S fuel =>
      if enabled_mask =? 0 then []
      else
        let disabled_bits := countr_zero enabled_mask in
        let index := index + disabled_bits in
        let enabled_mask := Z.shiftr enabled_mask disabled_bits in
        index :: enabled_bits_from fuel (index + 1) (Z.shiftr enabled_mask 1)
  end.
Definition enabled_bits (enabled_mask : Z) : list Z := enabled_bits_from 32 0 enabled_mask.

Definition ForEachEnabledBit {S} (enabled_mask : Z) (func : Z -> S -> Res S) (s : S) : Res S :=
  for_each func (enabled_bits enabled_mask) s.

Definition bit_set (mask index : Z) : bool := negb (Z.land (Z.shiftr mask index) 1 =? 0).
Definition bit_or (mask index : Z) : Z := u32 (Z.lor mask (u32 (Z.shiftl 1 index))).
Definition bit_clear (mask index : Z) : Z :=
  Z.land mask (u32 (Z.lnot (u32 (Z.shiftl 1 index)))).
Definition ALL_ONES : Z := 2 ^ 32 - 1.

(** Two-level arrays such as [uniform_buffers[stage][index]]. *)
Definition load2 {A} (arr : list (list A)) (i j : Z) : Res A :=
  row ← load arr i; load row j.
Definition store2 {A} (arr : list (list A)) (i j : Z) (x : A) : Res (list (list A)) :=
  row ← load arr i; row ← store row j x; store arr i row.

(** [*optional]: reading a disengaged [std::optional] is undefined. *)
Definition deref {A} (o : option A) : Res A := of_option o.

Section PublicBindings.

Context (P : Policy) (env : Env).

Definition BindGraphicsUniformBuffer (stage index gpu_addr size : Z) (c : BufferCache)
  : Res BufferCache :=
  let cpu_addr := env.(GpuToCpuAddress) gpu_addr in
  cpu_addr_value ← deref cpu_addr;
  let binding := Binding.mk cpu_addr_value size UNSET_BUFFER_ID in
  ub ← store2 c.(uniform_buffers) stage index binding;
  Ok (set_uniform_buffers ub c).

Definition DisableGraphicsUniformBuffer (stage index : Z) (c : BufferCache) : Res BufferCache :=
  ub ← store2 c.(uniform_buffers) stage index NULL_BINDING;
  Ok (set_uniform_buffers ub c).

Definition SetEnabledUniformBuffers (stage enabled : Z) (c : BufferCache) : Res BufferCache :=
  c ← (if P.(HAS_PERSISTENT_UNIFORM_BUFFER_BINDINGS) then
         old ← load c.(enabled_uniform_buffers) stage;
         if negb (old =? enabled) then
           d ← store c.(dirty_uniform_buffers) stage ALL_ONES;
           Ok (set_dirty_uniform_buffers d c)
         else Ok c
       else Ok c);
  e ← store c.(enabled_uniform_buffers) stage enabled;
  Ok (set_enabled_uniform_buffers e c).

Definition SetEnabledComputeUniformBuffers (enabled : Z) (c : BufferCache) : BufferCache :=
  set_enabled_compute_uniform_buffers enabled c.

Definition UnbindGraphicsStorageBuffers (stage : Z) (c : BufferCache) : Res BufferCache :=
  e ← store c.(enabled_storage_buffers) stage 0;
  let c := set_enabled_storage_buffers e c in
  w ← store c.(written_storage_buffers) stage 0;
  Ok (set_written_storage_buffers w c).

Definition StorageBufferBinding (ssbo_addr : Z) : Binding.t :=
  let gpu_addr := env.(gpu_Read_u64) ssbo_addr in
  let size := env.(gpu_Read_u32) (u64 (ssbo_addr + 8)) in
  let cpu_addr := env.(GpuToCpuAddress) gpu_addr in
  match cpu_addr with
  | None => NULL_BINDING
  | Some cpu_addr_value =>
      if size =? 0 then NULL_BINDING
      else
        let arbitrary_extra_bytes := 49152 (* 0xc000 *) in
        let bytes_to_map_end := u32 (env.(BytesToMapEnd) gpu_addr) in
        Binding.mk cpu_addr_value
                   (Z.min (u32 (size + arbitrary_extra_bytes)) bytes_to_map_end)
                   UNSET_BUFFER_ID
  end.

Definition BindGraphicsStorageBuffer (stage ssbo_index cbuf_index cbuf_offset : Z)
    (is_written : bool) (c : BufferCache) : Res BufferCache :=
  e ← load c.(enabled_storage_buffers) stage;
  e ← store c.(enabled_storage_buffers) stage (bit_or e ssbo_index);
  let c := set_enabled_storage_buffers e c in
  w ← load c.(written_storage_buffers) stage;
  w ← store c.(written_storage_buffers) stage
        (if is_written then bit_or w ssbo_index else w);
  let c := set_written_storage_buffers w c in
  let ssbo_addr := u64 (env.(const_buffers_address) stage cbuf_index + cbuf_offset) in
  sb ← store2 c.(storage_buffers) stage ssbo_index (StorageBufferBinding ssbo_addr);
  Ok (set_storage_buffers sb c).

Definition UnbindComputeStorageBuffers (c : BufferCache) : BufferCache :=
  set_written_compute_storage_buffers 0 (set_enabled_compute_storage_buffers 0 c).

(** A failed [ASSERT] does not return to the caller. *)
Definition BindComputeStorageBuffer (ssbo_index cbuf_index cbuf_offset : Z)
    (is_written : bool) (c : BufferCache) : Res BufferCache :=
  let c := set_enabled_compute_storage_buffers
             (bit_or c.(enabled_compute_storage_buffers) ssbo_index) c in
  let c := set_written_compute_storage_buffers
             (if is_written then bit_or c.(written_compute_storage_buffers) ssbo_index
              else c.(written_compute_storage_buffers)) c in
  if negb (bit_set env.(launch_const_buffer_enable_mask) cbuf_index) then UB
  else
    let ssbo_addr := u64 (env.(launch_const_buffer_Address) cbuf_index + cbuf_offset) in
    sb ← store c.(compute_storage_buffers) ssbo_index (StorageBufferBinding ssbo_addr);
    Ok (set_compute_storage_buffers sb c).

Definition FlushCachedWrites (c : BufferCache) : Res BufferCache :=
  c ← for_each (fun buffer_id c => slot_update buffer_id Buffer.FlushCachedWrites c)
               c.(cached_write_buffer_ids) c;
  Ok (set_cached_write_buffer_ids [] c).

End PublicBindings.

(** ** Synchronisation of a cached buffer with guest memory *)

Section Synchronize.

Context (P : Policy) (env : Env).

Definition IsRangeGranular (cpu_addr size : Z) : bool :=
  Z.land cpu_addr (u64 (Z.lnot env.(CORE_PAGE_MASK))) =?
  Z.land (u64 (cpu_addr + size)) (u64 (Z.lnot env.(CORE_PAGE_MASK))).

(** The callback of [ForEachUploadRange] in [SynchronizeBufferImpl]. *)
Definition push_upload (acc : list BufferCopy.t * Z * Z) (range : Z * Z)
  : list BufferCopy.t * Z * Z :=
  let '(copies, total_size_bytes, largest_copy) := acc in
  let '(range_offset, range_size) := range in
  (copies ++ [BufferCopy.mk total_size_bytes range_offset range_size],
   u64 (total_size_bytes + range_size),
   Z.max largest_copy range_size).

(** The callback of [ForEachDownloadRange] in [DownloadMemory]. *)
Definition push_copy (acc : list BufferCopy.t * Z * Z) (range : Z * Z)
  : list BufferCopy.t * Z * Z :=
  let '(copies, total_size_bytes, largest_copy) := acc in
  let '(range_offset, range_size) := range in
  (copies ++ [BufferCopy.mk range_offset total_size_bytes range_size],
   u64 (total_size_bytes + range_size),
   Z.max largest_copy range_size).

(** The loop of [ImmediateUploadMemory]; [immediate_buffer] is the size of
    the local span, 0 while it is empty. *)
Fixpoint ImmediateUploadMemory_loop (buffer_id : BufferId) (buffer : Buffer.t)
    (largest_copy : Z) (copies : list BufferCopy.t) (immediate_buffer : Z)
    (c : BufferCache) : BufferCache :=
  match copies with
  | [] => c
  | copy :: copies =>
      let cpu_addr := u64 (Buffer.CpuAddr buffer + BufferCopy.dst_offset copy) in
      let '(immediate_buffer, c) :=
        if IsRangeGranular cpu_addr (BufferCopy.size copy) then
          (immediate_buffer, log (Call.GetPointer cpu_addr) c)
        else
          let '(immediate_buffer, c) :=
            if immediate_buffer =? 0
            then (largest_copy, ImmediateBuffer largest_copy c)
            else (immediate_buffer, c) in
          (immediate_buffer, log (Call.ReadBlockUnsafe cpu_addr (BufferCopy.size copy)) c) in
      let c := log (Call.ImmediateUpload buffer_id (BufferCopy.dst_offset copy)
                                         (BufferCopy.size copy)) c in
      ImmediateUploadMemory_loop buffer_id buffer largest_copy copies immediate_buffer c
  end.

Definition ImmediateUploadMemory (buffer_id : BufferId) (buffer : Buffer.t)
    (largest_copy : Z) (copies : list BufferCopy.t) (c : BufferCache) : BufferCache :=
  ImmediateUploadMemory_loop buffer_id buffer largest_copy copies 0 c.

Definition MappedUploadMemory (buffer_id : BufferId) (buffer : Buffer.t)
    (total_size_bytes : Z) (copies : list BufferCopy.t) (c : BufferCache) : BufferCache :=
  let c := log (Call.UploadStagingBuffer total_size_bytes) c in
  let offset := env.(upload_staging_offset) total_size_bytes in
  let c := fold_left (fun c copy =>
             let cpu_addr := u64 (Buffer.CpuAddr buffer + BufferCopy.dst_offset copy) in
             log (Call.ReadBlockUnsafe cpu_addr (BufferCopy.size copy)) c) copies c in
  (* Apply the staging offset *)
  let copies := map (add_src_offset offset) copies in
  log (Call.CopyBuffer (CachedBuffer buffer_id) UploadStaging copies) c.

Definition UploadMemory (buffer_id : BufferId) (buffer : Buffer.t)
    (total_size_bytes largest_copy : Z) (copies : list BufferCopy.t) (c : BufferCache)
  : BufferCache :=
  if P.(USE_MEMORY_MAPS)
  then MappedUploadMemory buffer_id buffer total_size_bytes copies c
  else ImmediateUploadMemory buffer_id buffer largest_copy copies c.

(** [buffer_id] stands for the [Buffer&] argument: the slot it refers to. *)
Definition SynchronizeBufferImpl (buffer_id : BufferId) (cpu_addr size : Z) (c : BufferCache)
  : Res (bool * BufferCache) :=
  buffer ← slot_at c buffer_id;
  let '(ranges, buffer') := Buffer.ForEachUploadRange cpu_addr size buffer in
  c ← slot_update buffer_id (fun _ => buffer') c;
  let '(copies, total_size_bytes, largest_copy) := fold_left push_upload ranges ([], 0, 0) in
  if total_size_bytes =? 0 then Ok (true, c)
  else Ok (false, UploadMemory buffer_id buffer' total_size_bytes largest_copy copies c).

Definition SynchronizeBuffer (buffer_id : BufferId) (cpu_addr size : Z) (c : BufferCache)
  : Res (bool * BufferCache) :=
  buffer ← slot_at c buffer_id;
  if Buffer.CpuAddr buffer =? 0 then Ok (true, c)
  else SynchronizeBufferImpl buffer_id cpu_addr size c.

Definition HasFastUniformBufferBound (stage binding_index : Z) (c : BufferCache) : Res bool :=
  if P.(IS_OPENGL) then
    mask ← load c.(fast_bound_uniform_buffers) stage;
    Ok (bit_set mask binding_index)
  else
    (* Only OpenGL has fast uniform buffers *)
    Ok false.

Definition ImmediateBufferWithData (cpu_addr size : Z) (c : BufferCache) : BufferCache :=
  let c := log (Call.GetPointer cpu_addr) c in
  if IsRangeGranular cpu_addr size then c
  else
    let c := log (Call.GetPointer (u64 (cpu_addr + size))) c in
    if env.(pointers_contiguous) cpu_addr size then c
    else
      let c := ImmediateBuffer size c in
      log (Call.ReadBlockUnsafe cpu_addr size) c.

(** The local [use_fast_buffer] of [BindHostGraphicsUniformBuffer]. *)
Definition use_fast_buffer (c : BufferCache) (binding : Binding.t) (buffer : Buffer.t) : bool :=
  negb (Binding.buffer_id binding =? NULL_BUFFER_ID) &&
  (Binding.size binding <=? c.(uniform_buffer_skip_cache_size)) &&
  negb (Buffer.IsRegionGpuModified buffer (Binding.cpu_addr binding) (Binding.size binding)).

Definition increment0 (arr : list Z) : Res (list Z) :=
  x ← load arr 0; store arr 0 (u32 (x + 1)).

(** The part of [BindHostGraphicsUniformBuffer] under [if (use_fast_buffer)]. *)
Definition fast_uniform_path (stage binding_index : Z) (binding : Binding.t)
    (c : BufferCache) : Res BufferCache :=
  let cpu_addr := Binding.cpu_addr binding in
  let size := Binding.size binding in
  if P.(IS_OPENGL) && env.(HasFastBufferSubData) then
    (* Fast path for Nvidia *)
    bound ← HasFastUniformBufferBound stage binding_index c;
    let c := if negb bound
             then log (Call.BindFastUniformBuffer stage binding_index size) c else c in
    let c := ImmediateBufferWithData cpu_addr size c in
    Ok (log (Call.PushFastUniformBuffer stage binding_index cpu_addr size) c)
  else
    mask ← load c.(fast_bound_uniform_buffers) stage;
    fb ← store c.(fast_bound_uniform_buffers) stage (bit_or mask binding_index);
    let c := set_fast_bound_uniform_buffers fb c in
    (* Stream buffer path to avoid stalling on non-Nvidia drivers or Vulkan *)
    let c := log (Call.BindMappedUniformBuffer stage binding_index size) c in
    Ok (log (Call.ReadBlockUnsafe cpu_addr size) c).

(** The part after it: the classic cached path. *)
Definition classic_uniform_path (stage binding_index : Z) (needs_bind : bool)
    (binding : Binding.t) (c : BufferCache) : Res BufferCache :=
  let cpu_addr := Binding.cpu_addr binding in
  let size := Binding.size binding in
  '(sync_cached, c) ← SynchronizeBuffer (Binding.buffer_id binding) cpu_addr size c;
  c ← (if sync_cached : bool
       then hits ← increment0 c.(uniform_cache_hits); Ok (set_uniform_cache_hits hits c)
       else Ok c);
  shots ← increment0 c.(uniform_cache_shots);
  let c := set_uniform_cache_shots shots c in
  bound ← HasFastUniformBufferBound stage binding_index c;
  if negb needs_bind && negb bound then
    (* Skip binding if it's not needed and if the bound buffer is not the fast version *)
    Ok c
  else
    mask ← load c.(fast_bound_uniform_buffers) stage;
    fb ← store c.(fast_bound_uniform_buffers) stage (bit_clear mask binding_index);
    let c := set_fast_bound_uniform_buffers fb c in
    buffer ← slot_at c (Binding.buffer_id binding);
    let offset := Buffer.Offset buffer cpu_addr in
    if P.(NEEDS_BIND_UNIFORM_INDEX)
    then Ok (log (Call.BindUniformBufferAt stage binding_index
                                           (Binding.buffer_id binding) offset size) c)
    else Ok (log (Call.BindUniformBuffer (Binding.buffer_id binding) offset size) c).

Definition BindHostGraphicsUniformBuffer (stage index binding_index : Z) (needs_bind : bool)
    (c : BufferCache) : Res BufferCache :=
  binding ← load2 c.(uniform_buffers) stage index;
  buffer ← slot_at c (Binding.buffer_id binding);
  if use_fast_buffer c binding buffer
  then fast_uniform_path stage binding_index binding c
  else classic_uniform_path stage binding_index needs_bind binding c.

End Synchronize.

(** ** Overlap resolution and buffer creation *)

(** The locals of [ResolveOverlaps] that live across iterations. *)
Module Scan.
Record t : Type := mk {
  cpu_addr : Z;
  begin : Z;
  end_ : Z;
  stream_score : Z;
  has_stream_leap : bool;
  overlap_ids : list BufferId;
}.
End Scan.

(** The loop condition [cpu_addr >> PAGE_BITS < DivCeil(end, PAGE_SIZE)]. *)
Definition scan_continues (s : Scan.t) : bool :=
  Z.shiftr (Scan.cpu_addr s) PAGE_BITS <? DivCeil (Scan.end_ s) PAGE_SIZE.

(** What picking [overlap] does to the locals, up to the end of the loop
    body (the increment of [cpu_addr] excluded). *)
Definition pick_overlap (overlap_id : BufferId) (overlap : Buffer.t) (s : Scan.t) : Scan.t :=
  let overlap_ids := Scan.overlap_ids s ++ [overlap_id] in
  let overlap_cpu_addr := Buffer.CpuAddr overlap in
  let '(cpu_addr, begin) :=
    if overlap_cpu_addr <? Scan.begin s
    then (overlap_cpu_addr, overlap_cpu_addr)
    else (Scan.cpu_addr s, Scan.begin s) in
  let end_ := Z.max (Scan.end_ s) (u64 (overlap_cpu_addr + Buffer.SizeBytes overlap)) in
  let stream_score := Scan.stream_score s + Buffer.StreamScore overlap in
  if (STREAM_LEAP_THRESHOLD <? stream_score) && negb (Scan.has_stream_leap s) then
    (* When this memory region has been joined a bunch of times, we assume it's being
       used as a stream buffer. Increase the size to skip constantly recreating buffers. *)
    Scan.mk cpu_addr begin (u64 (end_ + PAGE_SIZE * 256)) stream_score true overlap_ids
  else
    Scan.mk cpu_addr begin end_ stream_score (Scan.has_stream_leap s) overlap_ids.

Definition next_page (s : Scan.t) : Scan.t :=
  Scan.mk (u64 (Scan.cpu_addr s + PAGE_SIZE)) (Scan.begin s) (Scan.end_ s)
          (Scan.stream_score s) (Scan.has_stream_leap s) (Scan.overlap_ids s).

(** One iteration of the loop of [ResolveOverlaps], increment included. *)
Definition ResolveOverlaps_body (s : Scan.t) (c : BufferCache) : Res (Scan.t * BufferCache) :=
  overlap_id ← page_table_at c (Z.shiftr (Scan.cpu_addr s) PAGE_BITS);
  if negb (id_bool overlap_id) then Ok (next_page s, c)
  else
    overlap ← slot_at c overlap_id;
    if Buffer.IsPicked overlap then Ok (next_page s, c)
    else
      c ← slot_update overlap_id Buffer.Pick c;
      Ok (next_page (pick_overlap overlap_id overlap s), c).

Fixpoint ResolveOverlaps_loop (fuel : nat) (s : Scan.t) (c : BufferCache)
  : Res (Scan.t * BufferCache) :=
  if scan_continues s then
    match fuel with
    | O => OutOfFuel
    | S fuel =>
        '(s, c) ← ResolveOverlaps_body s c;
        ResolveOverlaps_loop fuel s c
    end
  else Ok (s, c).

Definition scan_start (cpu_addr wanted_size : Z) : Scan.t :=
  Scan.mk cpu_addr cpu_addr (u64 (cpu_addr + wanted_size)) 0 false [].

Definition scan_result (s : Scan.t) : OverlapResult.t :=
  OverlapResult.mk (Scan.overlap_ids s) (Scan.begin s) (Scan.end_ s) (Scan.has_stream_leap s).

Definition ResolveOverlaps (fuel : nat) (cpu_addr wanted_size : Z) (c : BufferCache)
  : Res (OverlapResult.t * BufferCache) :=
  '(s, c) ← ResolveOverlaps_loop fuel (scan_start cpu_addr wanted_size) c;
  Ok (scan_result s, c).

(** [ChangeRegister<insert>]: the loop runs [page] from [page_begin] until it
    equals [page_end]; started above [page_end] it leaves the table. *)
Definition ChangeRegister (insert : bool) (buffer_id : BufferId) (c : BufferCache)
  : Res BufferCache :=
  buffer ← slot_at c buffer_id;
  let cpu_addr_begin := Buffer.CpuAddr buffer in
  let cpu_addr_end := u64 (cpu_addr_begin + Buffer.SizeBytes buffer) in
  let page_begin := cpu_addr_begin / PAGE_SIZE in
  let page_end := DivCeil cpu_addr_end PAGE_SIZE in
  if page_begin <=? page_end then
    for_each (fun page c =>
                page_table_store page (if insert then buffer_id else UNSET_BUFFER_ID) c)
             (seqZ page_begin (page_end - page_begin)) c
  else UB.

Definition Register (buffer_id : BufferId) : BufferCache -> Res BufferCache :=
  ChangeRegister true buffer_id.

Definition Unregister (buffer_id : BufferId) : BufferCache -> Res BufferCache :=
  ChangeRegister false buffer_id.

Section Creation.

Context (P : Policy) (env : Env).

Definition NotifyBufferDeletion (c : BufferCache) : BufferCache :=
  let c := if P.(HAS_PERSISTENT_UNIFORM_BUFFER_BINDINGS)
           then set_dirty_uniform_buffers
                  (replicate (length c.(dirty_uniform_buffers)) ALL_ONES) c
           else c in
  let c := set_flags
             (Dirty.mk true true
                (replicate (length (Dirty.VertexBuffer0 c.(flags))) true)) c in
  set_has_deleted_buffers true c.

(** The lambda [scalar_replace] of [DeleteBuffer]. *)
Definition scalar_replace (buffer_id : BufferId) (binding : Binding.t) : Binding.t :=
  if Binding.buffer_id binding =? buffer_id
  then Binding.mk (Binding.cpu_addr binding) (Binding.size binding) UNSET_BUFFER_ID
  else binding.

(** The calls of [scalar_replace] and [replace] on every binding table. *)
Definition replace_bindings (buffer_id : BufferId) (c : BufferCache) : BufferCache :=
  let replace := map (scalar_replace buffer_id) in
  let c := set_index_buffer (scalar_replace buffer_id c.(index_buffer)) c in
  let c := set_vertex_buffers (replace c.(vertex_buffers)) c in
  let c := set_uniform_buffers (map replace c.(uniform_buffers)) c in
  let c := set_storage_buffers (map replace c.(storage_buffers)) c in
  let c := set_transform_feedback_buffers (replace c.(transform_feedback_buffers)) c in
  let c := set_compute_uniform_buffers (replace c.(compute_uniform_buffers)) c in
  set_compute_storage_buffers (replace c.(compute_storage_buffers)) c.

Definition DeleteBuffer (buffer_id : BufferId) (c : BufferCache) : Res BufferCache :=
  let c := replace_bindings buffer_id c in
  let c := set_cached_write_buffer_ids
             (erase_remove buffer_id c.(cached_write_buffer_ids)) c in
  (* Mark the whole buffer as CPU written to stop tracking CPU writes *)
  buffer ← slot_at c buffer_id;
  c ← slot_update buffer_id
        (Buffer.MarkRegionAsCpuModified (Buffer.CpuAddr buffer) (Buffer.SizeBytes buffer)) c;
  c ← Unregister buffer_id c;
  s ← load c.(slot_buffers) buffer_id;
  let c := set_delayed_destruction_ring
             (Ring.Push (Slot.object s) c.(delayed_destruction_ring)) c in
  sb ← store c.(slot_buffers) buffer_id (Slot.mk (Slot.object s) true);
  let c := set_slot_buffers sb c in
  Ok (NotifyBufferDeletion c).

(** The callback of [ForEachDownloadRange] in [JoinOverlap], applied to the
    new buffer. *)
Definition join_range (new_buffer : Buffer.t) (range : Z * Z) : Buffer.t :=
  let '(begin, range_size) := range in
  Buffer.MarkRegionAsGpuModified begin range_size
    (Buffer.UnmarkRegionAsCpuModified begin range_size new_buffer).

Definition join_copy (dst_base_offset : Z) (range : Z * Z) : BufferCopy.t :=
  let '(begin, range_size) := range in
  BufferCopy.mk begin (u64 (dst_base_offset + begin)) range_size.

Definition JoinOverlap (new_buffer_id overlap_id : BufferId) (accumulate_stream_score : bool)
    (c : BufferCache) : Res BufferCache :=
  new_buffer ← slot_at c new_buffer_id;
  overlap ← slot_at c overlap_id;
  c ← (if accumulate_stream_score
       then slot_update new_buffer_id
              (Buffer.IncreaseStreamScore (Buffer.StreamScore overlap + 1)) c
       else Ok c);
  let dst_base_offset := u64 (Buffer.CpuAddr overlap - Buffer.CpuAddr new_buffer) in
  let '(ranges, overlap') := Buffer.ForEachDownloadRangeAll overlap in
  c ← slot_update overlap_id (fun _ => overlap') c;
  let copies := map (join_copy dst_base_offset) ranges in
  c ← slot_update new_buffer_id (fun b => fold_left join_range ranges b) c;
  let c := match copies with
           | [] => c
           | _ :: _ => log (Call.CopyBuffer (CachedBuffer new_buffer_id)
                                            (CachedBuffer overlap_id) copies) c
           end in
  let c := ReplaceBufferDownloads overlap_id new_buffer_id c in
  DeleteBuffer overlap_id c.

(** Modelled from the spec: [slot_buffers.insert] constructs the buffer in a
    slot that is not in use and returns its id (the slot vector,
    video_core/texture_cache/slot_vector.h, is not among the sources).  No
    slot is ever vacated, so the slot taken is the next one. *)
Definition slot_insert (buffer : Buffer.t) (c : BufferCache) : Res (BufferId * BufferCache) :=
  let id := Z.of_nat (length c.(slot_buffers)) in
  if id <? INVALID_INDEX
  then Ok (id, set_slot_buffers (c.(slot_buffers) ++ [Slot.mk buffer false]) c)
  else UB.

(** The sizes are [u32] parameters: an argument is converted on entry. *)
Definition CreateBuffer (fuel : nat) (cpu_addr wanted_size : Z) (c : BufferCache)
  : Res (BufferId * BufferCache) :=
  let wanted_size := u32 wanted_size in
  '(overlap, c) ← ResolveOverlaps fuel cpu_addr wanted_size c;
  let size := u32 (OverlapResult.end_ overlap - OverlapResult.begin overlap) in
  '(new_buffer_id, c) ← slot_insert (Buffer.create (OverlapResult.begin overlap) size) c;
  c ← for_each (fun overlap_id c =>
                  JoinOverlap new_buffer_id overlap_id
                              (negb (OverlapResult.has_stream_leap overlap)) c)
               (OverlapResult.ids overlap) c;
  c ← Register new_buffer_id c;
  Ok (new_buffer_id, c).

Definition FindBuffer (fuel : nat) (cpu_addr size : Z) (c : BufferCache)
  : Res (BufferId * BufferCache) :=
  let size := u32 size in
  if cpu_addr =? 0 then Ok (NULL_BUFFER_ID, c)
  else
    let page := Z.shiftr cpu_addr PAGE_BITS in
    buffer_id ← page_table_at c page;
    if negb (id_bool buffer_id) then CreateBuffer fuel cpu_addr size c
    else
      buffer ← slot_at c buffer_id;
      if Buffer.IsInBounds buffer cpu_addr size then Ok (buffer_id, c)
      else CreateBuffer fuel cpu_addr size c.

End Creation.

(** ** Resolving the bindings before a draw or dispatch *)

Section Update.

Context (P : Policy) (env : Env).

(** Fuel for each overlap scan. *)
Context (fuel : nat).

Definition set_buffer_id (id : BufferId) (binding : Binding.t) : Binding.t :=
  Binding.mk (Binding.cpu_addr binding) (Binding.size binding) id.

Definition UpdateIndexBuffer (c : BufferCache) : Res BufferCache :=
  (* We have to check for the dirty flags and index count *)
  if negb (Dirty.IndexBuffer c.(flags)) && (c.(last_index_count) =? env.(index_array_count))
  then Ok c
  else
    let c := set_flags (Dirty.mk false (Dirty.VertexBuffers c.(flags))
                                 (Dirty.VertexBuffer0 c.(flags))) c in
    let c := set_last_index_count env.(index_array_count) c in
    let gpu_addr_begin := env.(index_array_StartAddress) in
    let gpu_addr_end := env.(index_array_EndAddress) in
    let cpu_addr := env.(GpuToCpuAddress) gpu_addr_begin in
    let address_size := u32 (gpu_addr_end - gpu_addr_begin) in
    let draw_size := u32 (env.(index_array_count) * env.(index_array_FormatSizeInBytes)) in
    let size := Z.min address_size draw_size in
    match cpu_addr with
    | Some cpu_addr_value =>
        if size =? 0 then Ok (set_index_buffer NULL_BINDING c)
        else
          '(buffer_id, c) ← FindBuffer P fuel cpu_addr_value size c;
          Ok (set_index_buffer (Binding.mk cpu_addr_value size buffer_id) c)
    | None => Ok (set_index_buffer NULL_BINDING c)
    end.

Definition UpdateVertexBuffer (index : Z) (c : BufferCache) : Res BufferCache :=
  dirty ← load (Dirty.VertexBuffer0 c.(flags)) index;
  if negb dirty then Ok c
  else
    let gpu_addr_begin := env.(vertex_array_StartAddress) index in
    let gpu_addr_end := u64 (env.(vertex_array_limit_LimitAddress) index + 1) in
    let cpu_addr := env.(GpuToCpuAddress) gpu_addr_begin in
    let address_size := u32 (gpu_addr_end - gpu_addr_begin) in
    let size := address_size in
    match cpu_addr with
    | Some cpu_addr_value =>
        if (env.(vertex_array_enable) index =? 0) || (size =? 0) then
          vb ← store c.(vertex_buffers) index NULL_BINDING;
          Ok (set_vertex_buffers vb c)
        else
          '(buffer_id, c) ← FindBuffer P fuel cpu_addr_value size c;
          vb ← store c.(vertex_buffers) index (Binding.mk cpu_addr_value size buffer_id);
          Ok (set_vertex_buffers vb c)
    | None =>
        vb ← store c.(vertex_buffers) index NULL_BINDING;
        Ok (set_vertex_buffers vb c)
    end.

Definition UpdateVertexBuffers (c : BufferCache) : Res BufferCache :=
  if negb (Dirty.VertexBuffers c.(flags)) then Ok c
  else
    let c := set_flags (Dirty.mk (Dirty.IndexBuffer c.(flags)) false
                                 (Dirty.VertexBuffer0 c.(flags))) c in
    for_each UpdateVertexBuffer (seqZ 0 NUM_VERTEX_BUFFERS) c.

Definition UpdateUniformBuffers (stage : Z) (c : BufferCache) : Res BufferCache :=
  enabled ← load c.(enabled_uniform_buffers) stage;
  ForEachEnabledBit enabled (fun index c =>
    binding ← load2 c.(uniform_buffers) stage index;
    if id_bool (Binding.buffer_id binding) then
      (* Already updated *)
      Ok c
    else
      (* Mark as dirty *)
      c ← (if P.(HAS_PERSISTENT_UNIFORM_BUFFER_BINDINGS) then
             mask ← load c.(dirty_uniform_buffers) stage;
             d ← store c.(dirty_uniform_buffers) stage (bit_or mask index);
             Ok (set_dirty_uniform_buffers d c)
           else Ok c);
      (* Resolve buffer *)
      '(buffer_id, c) ← FindBuffer P fuel (Binding.cpu_addr binding) (Binding.size binding) c;
      binding ← load2 c.(uniform_buffers) stage index;
      ub ← store2 c.(uniform_buffers) stage index (set_buffer_id buffer_id binding);
      Ok (set_uniform_buffers ub c)) c.

Definition UpdateStorageBuffers (stage : Z) (c : BufferCache) : Res BufferCache :=
  written_mask ← load c.(written_storage_buffers) stage;
  enabled ← load c.(enabled_storage_buffers) stage;
  ForEachEnabledBit enabled (fun index c =>
    (* Resolve buffer *)
    binding ← load2 c.(storage_buffers) stage index;
    '(buffer_id, c) ← FindBuffer P fuel (Binding.cpu_addr binding) (Binding.size binding) c;
    binding ← load2 c.(storage_buffers) stage index;
    sb ← store2 c.(storage_buffers) stage index (set_buffer_id buffer_id binding);
    let c := set_storage_buffers sb c in
    (* Mark buffer as written if needed *)
    if bit_set written_mask index
    then MarkWrittenBuffer env buffer_id (Binding.cpu_addr binding) (Binding.size binding) c
    else Ok c) c.

Definition UpdateTransformFeedbackBuffer (index : Z) (c : BufferCache) : Res BufferCache :=
  let gpu_addr := u64 (env.(tfb_Address) index + env.(tfb_buffer_offset) index) in
  let size := env.(tfb_buffer_size) index in
  let cpu_addr := env.(GpuToCpuAddress) gpu_addr in
  match cpu_addr with
  | Some cpu_addr_value =>
      if (env.(tfb_buffer_enable) index =? 0) || (size =? 0) then
        tfb ← store c.(transform_feedback_buffers) index NULL_BINDING;
        Ok (set_transform_feedback_buffers tfb c)
      else
        '(buffer_id, c) ← FindBuffer P fuel cpu_addr_value size c;
        tfb ← store c.(transform_feedback_buffers) index
                (Binding.mk cpu_addr_value size buffer_id);
        let c := set_transform_feedback_buffers tfb c in
        MarkWrittenBuffer env buffer_id cpu_addr_value size c
  | None =>
      tfb ← store c.(transform_feedback_buffers) index NULL_BINDING;
      Ok (set_transform_feedback_buffers tfb c)
  end.

Definition UpdateTransformFeedbackBuffers (c : BufferCache) : Res BufferCache :=
  if env.(tfb_enabled) =? 0 then Ok c
  else for_each UpdateTransformFeedbackBuffer (seqZ 0 NUM_TRANSFORM_FEEDBACK_BUFFERS) c.

Definition UpdateComputeUniformBuffers (c : BufferCache) : Res BufferCache :=
  ForEachEnabledBit c.(enabled_compute_uniform_buffers) (fun index c =>
    _ ← load c.(compute_uniform_buffers) index;
    let binding :=
      if bit_set env.(launch_const_buffer_enable_mask) index then
        match env.(GpuToCpuAddress) (env.(launch_const_buffer_Address) index) with
        | Some cpu_addr_value =>
            Binding.mk cpu_addr_value (env.(launch_const_buffer_size) index) NULL_BUFFER_ID
        | None => NULL_BINDING
        end
      else NULL_BINDING in
    cu ← store c.(compute_uniform_buffers) index binding;
    let c := set_compute_uniform_buffers cu c in
    '(buffer_id, c) ← FindBuffer P fuel (Binding.cpu_addr binding) (Binding.size binding) c;
    binding ← load c.(compute_uniform_buffers) index;
    cu ← store c.(compute_uniform_buffers) index (set_buffer_id buffer_id binding);
    Ok (set_compute_uniform_buffers cu c)) c.

Definition UpdateComputeStorageBuffers (c : BufferCache) : Res BufferCache :=
  ForEachEnabledBit c.(enabled_compute_storage_buffers) (fun index c =>
    (* Resolve buffer *)
    binding ← load c.(compute_storage_buffers) index;
    '(buffer_id, c) ← FindBuffer P fuel (Binding.cpu_addr binding) (Binding.size binding) c;
    binding ← load c.(compute_storage_buffers) index;
    cs ← store c.(compute_storage_buffers) index (set_buffer_id buffer_id binding);
    let c := set_compute_storage_buffers cs c in
    (* Mark as written if needed *)
    if bit_set c.(written_compute_storage_buffers) index
    then MarkWrittenBuffer env buffer_id (Binding.cpu_addr binding) (Binding.size binding) c
    else Ok c) c.

Definition DoUpdateGraphicsBuffers (is_indexed : bool) (c : BufferCache) : Res BufferCache :=
  c ← (if is_indexed then UpdateIndexBuffer c else Ok c);
  c ← UpdateVertexBuffers c;
  c ← UpdateTransformFeedbackBuffers c;
  for_each (fun stage c => c ← UpdateUniformBuffers stage c; UpdateStorageBuffers stage c)
           (seqZ 0 NUM_STAGES) c.

Definition DoUpdateComputeBuffers (c : BufferCache) : Res BufferCache :=
  c ← UpdateComputeUniformBuffers c;
  UpdateComputeStorageBuffers c.

(** [do { has_deleted_buffers = false; pass(); } while (has_deleted_buffers)],
    with [rounds] bounding the number of passes. *)
Fixpoint update_until_stable (pass : BufferCache -> Res BufferCache) (rounds : nat)
    (c : BufferCache) : Res BufferCache :=
  match rounds with
  | O => OutOfFuel
  | S rounds =>
      c ← pass (set_has_deleted_buffers false c);
      if c.(has_deleted_buffers) then update_until_stable pass rounds c else Ok c
  end.

Definition UpdateGraphicsBuffers (rounds : nat) (is_indexed : bool) (c : BufferCache)
  : Res BufferCache :=
  update_until_stable (DoUpdateGraphicsBuffers is_indexed) rounds c.

Definition UpdateComputeBuffers (rounds : nat) (c : BufferCache) : Res BufferCache :=
  update_until_stable DoUpdateComputeBuffers rounds c.

End Update.

(** ** Binding the resolved buffers on the host *)

Section BindHost.

Context (P : Policy) (env : Env).

Definition BindHostIndexBuffer (c : BufferCache) : Res BufferCache :=
  let id := Binding.buffer_id c.(index_buffer) in
  buffer ← slot_at c id;
  let offset := Buffer.Offset buffer (Binding.cpu_addr c.(index_buffer)) in
  let size := Binding.size c.(index_buffer) in
  '(_, c) ← SynchronizeBuffer P env id (Binding.cpu_addr c.(index_buffer)) size c;
  if P.(HAS_FULL_INDEX_AND_PRIMITIVE_SUPPORT)
  then Ok (log (Call.BindIndexBuffer id offset size) c)
  else Ok (log (Call.BindIndexBufferTopology env.(index_array_first) env.(index_array_count)
                                             id offset size) c).

Definition BindHostVertexBuffers (c : BufferCache) : Res BufferCache :=
  for_each (fun index c =>
    binding ← load c.(vertex_buffers) index;
    buffer ← slot_at c (Binding.buffer_id binding);
    '(_, c) ← SynchronizeBuffer P env (Binding.buffer_id binding)
                (Binding.cpu_addr binding) (Binding.size binding) c;
    dirty ← load (Dirty.VertexBuffer0 c.(flags)) index;
    if negb dirty then Ok c
    else
      vb0 ← store (Dirty.VertexBuffer0 c.(flags)) index false;
      let c := set_flags (Dirty.mk (Dirty.IndexBuffer c.(flags))
                                   (Dirty.VertexBuffers c.(flags)) vb0) c in
      let stride := env.(vertex_array_stride) index in
      let offset := Buffer.Offset buffer (Binding.cpu_addr binding) in
      Ok (log (Call.BindVertexBuffer index (Binding.buffer_id binding) offset
                                     (Binding.size binding) stride) c))
    (seqZ 0 NUM_VERTEX_BUFFERS) c.

(** A loop over the enabled bits that also carries [binding_index]. *)
Definition with_binding_index (advance : bool)
    (body : Z -> Z -> BufferCache -> Res BufferCache) (index : Z) (s : Z * BufferCache)
  : Res (Z * BufferCache) :=
  c ← body index (fst s) (snd s);
  Ok (if advance then u32 (fst s + 1) else fst s, c).

Definition BindHostGraphicsUniformBuffers (stage : Z) (c : BufferCache) : Res BufferCache :=
  '(dirty, c) ← (if P.(HAS_PERSISTENT_UNIFORM_BUFFER_BINDINGS) then
                   old ← load c.(dirty_uniform_buffers) stage;
                   d ← store c.(dirty_uniform_buffers) stage 0;
                   Ok (old, set_dirty_uniform_buffers d c)
                 else Ok (ALL_ONES, c));
  enabled ← load c.(enabled_uniform_buffers) stage;
  snd <$> ForEachEnabledBit enabled
    (with_binding_index P.(NEEDS_BIND_UNIFORM_INDEX) (fun index binding_index c =>
       let needs_bind := bit_set dirty index in
       BindHostGraphicsUniformBuffer P env stage index binding_index needs_bind c))
    (0, c).

Definition BindHostGraphicsStorageBuffers (stage : Z) (c : BufferCache) : Res BufferCache :=
  enabled ← load c.(enabled_storage_buffers) stage;
  snd <$> ForEachEnabledBit enabled
    (with_binding_index P.(NEEDS_BIND_STORAGE_INDEX) (fun index binding_index c =>
       binding ← load2 c.(storage_buffers) stage index;
       buffer ← slot_at c (Binding.buffer_id binding);
       let size := Binding.size binding in
       '(_, c) ← SynchronizeBuffer P env (Binding.buffer_id binding)
                   (Binding.cpu_addr binding) size c;
       let offset := Buffer.Offset buffer (Binding.cpu_addr binding) in
       written ← load c.(written_storage_buffers) stage;
       let is_written := bit_set written index in
       if P.(NEEDS_BIND_STORAGE_INDEX)
       then Ok (log (Call.BindStorageBufferAt stage binding_index (Binding.buffer_id binding)
                                              offset size is_written) c)
       else Ok (log (Call.BindStorageBuffer (Binding.buffer_id binding) offset size
                                            is_written) c)))
    (0, c).

Definition BindHostTransformFeedbackBuffers (c : BufferCache) : Res BufferCache :=
  if env.(tfb_enabled) =? 0 then Ok c
  else
    for_each (fun index c =>
      binding ← load c.(transform_feedback_buffers) index;
      buffer ← slot_at c (Binding.buffer_id binding);
      let size := Binding.size binding in
      '(_, c) ← SynchronizeBuffer P env (Binding.buffer_id binding)
                  (Binding.cpu_addr binding) size c;
      let offset := Buffer.Offset buffer (Binding.cpu_addr binding) in
      Ok (log (Call.BindTransformFeedbackBuffer index (Binding.buffer_id binding)
                                                offset size) c))
      (seqZ 0 NUM_TRANSFORM_FEEDBACK_BUFFERS) c.

Definition BindHostComputeUniformBuffers (c : BufferCache) : Res BufferCache :=
  let c := if P.(HAS_PERSISTENT_UNIFORM_BUFFER_BINDINGS)
           then (* Mark all uniform buffers as dirty *)
                set_dirty_uniform_buffers
                  (replicate (length c.(dirty_uniform_buffers)) ALL_ONES) c
           else c in
  snd <$> ForEachEnabledBit c.(enabled_compute_uniform_buffers)
    (with_binding_index P.(NEEDS_BIND_UNIFORM_INDEX) (fun index binding_index c =>
       binding ← load c.(compute_uniform_buffers) index;
       buffer ← slot_at c (Binding.buffer_id binding);
       let size := Binding.size binding in
       '(_, c) ← SynchronizeBuffer P env (Binding.buffer_id binding)
                   (Binding.cpu_addr binding) size c;
       let offset := Buffer.Offset buffer (Binding.cpu_addr binding) in
       if P.(NEEDS_BIND_UNIFORM_INDEX)
       then Ok (log (Call.BindComputeUniformBuffer binding_index (Binding.buffer_id binding)
                                                   offset size) c)
       else Ok (log (Call.BindUniformBuffer (Binding.buffer_id binding) offset size) c)))
    (0, c).

Definition BindHostComputeStorageBuffers (c : BufferCache) : Res BufferCache :=
  snd <$> ForEachEnabledBit c.(enabled_compute_storage_buffers)
    (with_binding_index P.(NEEDS_BIND_STORAGE_INDEX) (fun index binding_index c =>
       binding ← load c.(compute_storage_buffers) index;
       buffer ← slot_at c (Binding.buffer_id binding);
       let size := Binding.size binding in
       '(_, c) ← SynchronizeBuffer P env (Binding.buffer_id binding)
                   (Binding.cpu_addr binding) size c;
       let offset := Buffer.Offset buffer (Binding.cpu_addr binding) in
       let is_written := bit_set c.(written_compute_storage_buffers) index in
       if P.(NEEDS_BIND_STORAGE_INDEX)
       then Ok (log (Call.BindComputeStorageBuffer binding_index (Binding.buffer_id binding)
                                                   offset size is_written) c)
       else Ok (log (Call.BindStorageBuffer (Binding.buffer_id binding) offset size
                                            is_written) c)))
    (0, c).

Definition BindHostGeometryBuffers (is_indexed : bool) (c : BufferCache) : Res BufferCache :=
  c ← (if is_indexed then BindHostIndexBuffer c
       else if negb P.(HAS_FULL_INDEX_AND_PRIMITIVE_SUPPORT) && env.(draw_topology_is_quads)
       then Ok (log (Call.BindQuadArrayIndexBuffer env.(vertex_buffer_first)
                                                   env.(vertex_buffer_count)) c)
       else Ok c);
  c ← BindHostVertexBuffers c;
  BindHostTransformFeedbackBuffers c.

Definition BindHostStageBuffers (stage : Z) (c : BufferCache) : Res BufferCache :=
  c ← BindHostGraphicsUniformBuffers stage c;
  BindHostGraphicsStorageBuffers stage c.

Definition BindHostComputeBuffers (c : BufferCache) : Res BufferCache :=
  c ← BindHostComputeUniformBuffers c;
  BindHostComputeStorageBuffers c.

End BindHost.

(** ** Guest memory notifications *)

(** The loop of [ForEachBufferInRange]: [page] either advances by one or
    jumps to the page after the buffer found. *)
Fixpoint ForEachBufferInRange_loop (fuel : nat)
    (func : BufferId -> BufferCache -> Res BufferCache) (page page_end : Z)
    (c : BufferCache) : Res BufferCache :=
  if page <? page_end then
    match fuel with
    | O => OutOfFuel
    | S fuel =>
        buffer_id ← page_table_at c page;
        if negb (id_bool buffer_id)
        then ForEachBufferInRange_loop fuel func (u64 (page + 1)) page_end c
        else
          _ ← slot_at c buffer_id;
          c ← func buffer_id c;
          buffer ← slot_at c buffer_id;
          let end_addr := u64 (Buffer.CpuAddr buffer + Buffer.SizeBytes buffer) in
          ForEachBufferInRange_loop fuel func (DivCeil end_addr PAGE_SIZE) page_end c
    end
  else Ok c.

Definition ForEachBufferInRange (fuel : nat) (cpu_addr size : Z)
    (func : BufferId -> BufferCache -> Res BufferCache) (c : BufferCache) : Res BufferCache :=
  let page_end := DivCeil (u64 (cpu_addr + size)) PAGE_SIZE in
  ForEachBufferInRange_loop fuel func (Z.shiftr cpu_addr PAGE_BITS) page_end c.

Section Memory.

Context (P : Policy) (env : Env).

Definition WriteMemory (fuel : nat) (cpu_addr size : Z) (c : BufferCache) : Res BufferCache :=
  ForEachBufferInRange fuel cpu_addr size (fun buffer_id c =>
    slot_update buffer_id (Buffer.MarkRegionAsCpuModified cpu_addr size) c) c.

Definition CachedWriteMemory (fuel : nat) (cpu_addr size : Z) (c : BufferCache)
  : Res BufferCache :=
  ForEachBufferInRange fuel cpu_addr size (fun buffer_id c =>
    buffer ← slot_at c buffer_id;
    let c := if negb (Buffer.HasCachedWrites buffer)
             then set_cached_write_buffer_ids (c.(cached_write_buffer_ids) ++ [buffer_id]) c
             else c in
    slot_update buffer_id (Buffer.CachedCpuWrite cpu_addr size) c) c.

Definition DownloadMemory (fuel : nat) (cpu_addr size : Z) (c : BufferCache)
  : Res BufferCache :=
  ForEachBufferInRange fuel cpu_addr size (fun buffer_id c =>
    buffer ← slot_at c buffer_id;
    let '(ranges, buffer') := Buffer.ForEachDownloadRange cpu_addr size buffer in
    c ← slot_update buffer_id (fun _ => buffer') c;
    let '(copies, total_size_bytes, largest_copy) := fold_left push_copy ranges ([], 0, 0) in
    if total_size_bytes =? 0 then Ok c
    else if P.(USE_MEMORY_MAPS) then
      let c := log (Call.DownloadStagingBuffer total_size_bytes) c in
      let offset := env.(download_staging_offset) total_size_bytes in
      (* Modify copies to have the staging offset in mind *)
      let staged := map (add_dst_offset offset) copies in
      let c := log (Call.CopyBuffer DownloadStaging (CachedBuffer buffer_id) staged) c in
      let c := log Call.Finish c in
      Ok (fold_left (fun c copy =>
            let copy_cpu_addr := u64 (Buffer.CpuAddr buffer' + BufferCopy.src_offset copy) in
            log (Call.WriteBlockUnsafe copy_cpu_addr (BufferCopy.size copy)) c) staged c)
    else
      let c := ImmediateBuffer largest_copy c in
      Ok (fold_left (fun c copy =>
            let c := log (Call.ImmediateDownload buffer_id (BufferCopy.src_offset copy)
                                                 (BufferCopy.size copy)) c in
            let copy_cpu_addr := u64 (Buffer.CpuAddr buffer' + BufferCopy.src_offset copy) in
            log (Call.WriteBlockUnsafe copy_cpu_addr (BufferCopy.size copy)) c) copies c)) c.

End Memory.

(** The loop of the public [IsRegionGpuModified]. *)
Fixpoint IsRegionGpuModified_loop (fuel : nat) (addr size page page_end : Z)
    (c : BufferCache) : Res bool :=
  if page <? page_end then
    match fuel with
    | O => OutOfFuel
    | S fuel =>
        image_id ← page_table_at c page;
        if negb (id_bool image_id)
        then IsRegionGpuModified_loop fuel addr size (u64 (page + 1)) page_end c
        else
          buffer ← slot_at c image_id;
          if Buffer.IsRegionGpuModified buffer addr size then Ok true
          else
            let end_addr := u64 (Buffer.CpuAddr buffer + Buffer.SizeBytes buffer) in
            IsRegionGpuModified_loop fuel addr size (DivCeil end_addr PAGE_SIZE) page_end c
    end
  else Ok false.

Definition IsRegionGpuModified (fuel : nat) (addr size : Z) (c : BufferCache) : Res bool :=
  let page_end := DivCeil (u64 (addr + size)) PAGE_SIZE in
  IsRegionGpuModified_loop fuel addr size (Z.shiftr addr PAGE_BITS) page_end c.

(** ** The public interface *)

Inductive Operation : Type :=
| OpTickFrame
| OpWriteMemory (cpu_addr size : Z)
| OpCachedWriteMemory (cpu_addr size : Z)
| OpDownloadMemory (cpu_addr size : Z)
| OpBindGraphicsUniformBuffer (stage index gpu_addr size : Z)
| OpDisableGraphicsUniformBuffer (stage index : Z)
| OpUpdateGraphicsBuffers (is_indexed : bool)
| OpUpdateComputeBuffers
| OpBindHostGeometryBuffers (is_indexed : bool)
| OpBindHostStageBuffers (stage : Z)
| OpBindHostComputeBuffers
| OpSetEnabledUniformBuffers (stage enabled : Z)
| OpSetEnabledComputeUniformBuffers (enabled : Z)
| OpUnbindGraphicsStorageBuffers (stage : Z)
| OpBindGraphicsStorageBuffer (stage ssbo_index cbuf_index cbuf_offset : Z) (is_written : bool)
| OpUnbindComputeStorageBuffers
| OpBindComputeStorageBuffer (ssbo_index cbuf_index cbuf_offset : Z) (is_written : bool)
| OpFlushCachedWrites
| OpCommitAsyncFlushes
| OpPopAsyncFlushes.

(** One call of a public mutator.  The three [const] queries
    ([HasUncommittedFlushes], [ShouldWaitAsyncFlushes], [IsRegionGpuModified])
    leave the cache as it is. *)
Definition run (P : Policy) (env : Env) (fuel : nat) (op : Operation) (c : BufferCache)
  : Res BufferCache :=
  match op with
  | OpTickFrame => Ok (TickFrame c)
  | OpWriteMemory cpu_addr size => WriteMemory fuel cpu_addr size c
  | OpCachedWriteMemory cpu_addr size => CachedWriteMemory fuel cpu_addr size c
  | OpDownloadMemory cpu_addr size => DownloadMemory P env fuel cpu_addr size c
  | OpBindGraphicsUniformBuffer stage index gpu_addr size =>
      BindGraphicsUniformBuffer env stage index gpu_addr size c
  | OpDisableGraphicsUniformBuffer stage index => DisableGraphicsUniformBuffer stage index c
  | OpUpdateGraphicsBuffers is_indexed => UpdateGraphicsBuffers P env fuel fuel is_indexed c
  | OpUpdateComputeBuffers => UpdateComputeBuffers P env fuel fuel c
  | OpBindHostGeometryBuffers is_indexed => BindHostGeometryBuffers P env is_indexed c
  | OpBindHostStageBuffers stage => BindHostStageBuffers P env stage c
  | OpBindHostComputeBuffers => BindHostComputeBuffers P env c
  | OpSetEnabledUniformBuffers stage enabled => SetEnabledUniformBuffers P stage enabled c
  | OpSetEnabledComputeUniformBuffers enabled =>
      Ok (SetEnabledComputeUniformBuffers enabled c)
  | OpUnbindGraphicsStorageBuffers stage => UnbindGraphicsStorageBuffers stage c
  | OpBindGraphicsStorageBuffer stage ssbo_index cbuf_index cbuf_offset is_written =>
      BindGraphicsStorageBuffer env stage ssbo_index cbuf_index cbuf_offset is_written c
  | OpUnbindComputeStorageBuffers => Ok (UnbindComputeStorageBuffers c)
  | OpBindComputeStorageBuffer ssbo_index cbuf_index cbuf_offset is_written =>
      BindComputeStorageBuffer env ssbo_index cbuf_index cbuf_offset is_written c
  | OpFlushCachedWrites => FlushCachedWrites c
  | OpCommitAsyncFlushes => Ok (CommitAsyncFlushes c)
  | OpPopAsyncFlushes => PopAsyncFlushes P env c
  end.

(** The caches a sequence of public calls can produce from a new cache; the
    collaborators may answer differently at each call, and the rasterizer
    may set dirty flags between calls. *)
Inductive reachable (P : Policy) : BufferCache -> Prop :=
| reachable_init : reachable P BufferCache_init
| reachable_run env fuel op c c' :
    reachable P c -> run P env fuel op c = Ok c' -> reachable P c'
| reachable_flags f c :
    reachable P c -> reachable P (set_flags f c).

(** ** Statements of the specification and example caches *)

Definition window_sum (arr : list Z) : Z := foldr Z.add 0 arr.

(** The frame tick as the specification words it: with [hits] and [shots]
    the sums of the two windows, the skip size is 4096 exactly when
    [hits * 256 >= shots * 251], and both windows move right by one. *)
Definition TickFrame_as_specified (c : BufferCache) : Prop :=
  let hits := window_sum c.(uniform_cache_hits) in
  let shots := window_sum c.(uniform_cache_shots) in
  let c' := TickFrame c in
  (shots * 251 <= hits * 256 <-> c'.(uniform_buffer_skip_cache_size) = 4096) /\
  (hits * 256 < shots * 251 <-> c'.(uniform_buffer_skip_cache_size) = 0) /\
  c'.(uniform_cache_hits) = 0 :: take 15 c.(uniform_cache_hits) /\
  c'.(uniform_cache_shots) = 0 :: take 15 c.(uniform_cache_shots).

(** A cache that saw one uniform bind, a miss, in the current frame. *)
Definition cache_one_miss : BufferCache :=
  set_uniform_cache_shots (<[0%nat := 1]> (replicate 16 0)) BufferCache_init.

(** A host without fast uniform buffers (the Vulkan instantiation). *)
Definition policy_vulkan : Policy :=
  {| IS_OPENGL := false;
     HAS_PERSISTENT_UNIFORM_BUFFER_BINDINGS := false;
     HAS_FULL_INDEX_AND_PRIMITIVE_SUPPORT := true;
     NEEDS_BIND_UNIFORM_INDEX := false;
     NEEDS_BIND_STORAGE_INDEX := false;
     USE_MEMORY_MAPS := true |}.

(** Collaborators of the examples: guest GPU addresses map to the same CPU
    address ([mapped = true]) or to nothing, every storage descriptor reads
    as [(ssbo_gpu_addr, ssbo_size)], nothing else is enabled, and the
    settings ask for high accuracy with asynchronous GPU emulation. *)
Definition example_env (mapped : bool) (ssbo_gpu_addr ssbo_size : Z) : Env :=
  {| GpuToCpuAddress := fun gpu_addr => if mapped then Some gpu_addr else None;
     gpu_Read_u64 := fun _ => ssbo_gpu_addr;
     gpu_Read_u32 := fun _ => ssbo_size;
     BytesToMapEnd := fun _ => 2 ^ 20;
     index_array_count := 0;
     index_array_first := 0;
     index_array_StartAddress := 0;
     index_array_EndAddress := 0;
     index_array_FormatSizeInBytes := 1;
     vertex_array_StartAddress := fun _ => 0;
     vertex_array_enable := fun _ => 0;
     vertex_array_stride := fun _ => 0;
     vertex_array_limit_LimitAddress := fun _ => 0;
     vertex_buffer_first := 0;
     vertex_buffer_count := 0;
     draw_topology_is_quads := false;
     tfb_enabled := 0;
     tfb_Address := fun _ => 0;
     tfb_buffer_offset := fun _ => 0;
     tfb_buffer_size := fun _ => 0;
     tfb_buffer_enable := fun _ => 0;
     const_buffers_address := fun _ _ => 0;
     launch_const_buffer_enable_mask := 0;
     launch_const_buffer_Address := fun _ => 0;
     launch_const_buffer_size := fun _ => 0;
     IsGPULevelHigh := true;
     use_asynchronous_gpu_emulation := true;
     HasFastBufferSubData := false;
     upload_staging_offset := fun _ => 0;
     download_staging_offset := fun _ => 0;
     pointers_contiguous := fun _ _ => true;
     CORE_PAGE_MASK := 4095 |}.

(** A sequence of public calls. *)
Fixpoint run_all (P : Policy) (env : Env) (fuel : nat) (ops : list Operation)
    (c : BufferCache) : Res BufferCache :=
  match ops with
  | [] => Ok c
  | op :: ops => c ← run P env fuel op c; run_all P env fuel ops c
  end.

(** [ShouldWaitAsyncFlushes] as the specification words it: the oldest
    committed list, the one the next [PopAsyncFlushes] drains, exists and is
    not empty. *)
Definition ShouldWaitAsyncFlushes_as_specified (c : BufferCache) : bool :=
  match c.(committed_downloads) with
  | [] => false
  | _ :: _ => negb (bool_decide (List.last c.(committed_downloads) [] = []))
  end.

(** A written storage buffer of 256 bytes at 0x10000 is bound and resolved,
    then the caller commits twice before it pops. *)
Definition two_commits : list Operation :=
  [OpBindGraphicsStorageBuffer 0 0 0 0 true; OpUpdateGraphicsBuffers false;
   OpCommitAsyncFlushes; OpCommitAsyncFlushes].

(** A uniform buffer of 64 bytes whose guest GPU address has no mapping. *)
Definition bind_unmapped_uniform (c : BufferCache) : Res BufferCache :=
  BindGraphicsUniformBuffer (example_env false 0 0) 0 0 65536 64 c.

(** C3 as the specification words it: binding through an address without a
    mapping returns, and leaves the null binding in the slot. *)
Definition BindGraphicsUniformBuffer_resets (env : Env) (stage index gpu_addr size : Z)
    (c : BufferCache) : Prop :=
  env.(GpuToCpuAddress) gpu_addr = None ->
  exists c', BindGraphicsUniformBuffer env stage index gpu_addr size c = Ok c' /\
             load2 c'.(uniform_buffers) stage index = Ok NULL_BINDING.

(** C5 as the specification words it: with a skip size of 0 a uniform bind
    is the classic cached bind, whatever the binding. *)
Definition skip_zero_disables_fast_path (P : Policy) (env : Env)
    (stage index binding_index : Z) (needs_bind : bool) (c : BufferCache) : Prop :=
  c.(uniform_buffer_skip_cache_size) = 0 ->
  forall binding,
    load2 c.(uniform_buffers) stage index = Ok binding ->
    BindHostGraphicsUniformBuffer P env stage index binding_index needs_bind c =
    classic_uniform_path P env stage binding_index needs_bind binding c.

(** An empty uniform buffer at 0x10000 is bound, enabled and resolved, and a
    frame passes. *)
Definition empty_uniform_bound : list Operation :=
  [OpBindGraphicsUniformBuffer 0 0 65536 0; OpSetEnabledUniformBuffers 0 1;
   OpUpdateGraphicsBuffers false; OpTickFrame].

(** The cache after [empty_uniform_bound]. *)
Definition cache_empty_uniform : BufferCache :=
  match run_all policy_vulkan (example_env true 0 0) 8 empty_uniform_bound BufferCache_init with
  | Ok c => c
  | _ => BufferCache_init
  end.

(** A uniform buffer of 64 bytes at 0x10000 is bound, enabled and resolved,
    and a frame passes: the skip size is 0 and uniform slot 0 of stage 0
    names buffer 1, which has no GPU-modified byte. *)
Definition small_uniform_bound : list Operation :=
  [OpBindGraphicsUniformBuffer 0 0 65536 64; OpSetEnabledUniformBuffers 0 1;
   OpUpdateGraphicsBuffers false; OpTickFrame].

(** The cache after [small_uniform_bound]. *)
Definition cache_small_uniform : BufferCache :=
  match run_all policy_vulkan (example_env true 0 0) 8 small_uniform_bound BufferCache_init with
  | Ok c => c
  | _ => BufferCache_init
  end.

(** Calls that only the fast uniform path makes. *)
Definition is_fast_call (e : Call.t) : bool :=
  match e with
  | Call.BindFastUniformBuffer _ _ _
  | Call.PushFastUniformBuffer _ _ _ _
  | Call.BindMappedUniformBuffer _ _ _ => true
  | _ => false
  end.


(** ** The layout of the cache: extents of the slots and the page table *)

(** What the page table invariants see of a slot. *)
Module Shape.
Record t : Type := mk {
  addr : Z;
  size : Z;
  picked : bool;
  moved : bool;
}.
End Shape.

Definition shape_of (s : Slot.t) : Shape.t :=
  Shape.mk (Buffer.cpu_addr (Slot.object s)) (Buffer.size_bytes (Slot.object s))
           (Buffer.is_picked (Slot.object s)) (Slot.moved_from s).

Definition shape_at (c : BufferCache) (id : BufferId) : option Shape.t :=
  if 0 <=? id then shape_of <$> c.(slot_buffers) !! Z.to_nat id else None.

(** The entry of the page table for [page]; entries never written are unset. *)
Definition page_of (c : BufferCache) (page : Z) : BufferId :=
  default UNSET_BUFFER_ID (c.(page_table) !! page).

(** A live buffer: a slot in use whose object was not moved out. *)
Definition live (c : BufferCache) (id : BufferId) (sh : Shape.t) : Prop :=
  shape_at c id = Some sh /\ Shape.moved sh = false.

(** The pages [addr / PAGE_SIZE, ceil((addr + size) / PAGE_SIZE)) of an extent. *)
Definition page_begin (addr : Z) : Z := addr / PAGE_SIZE.
Definition page_end (addr size : Z) : Z := DivCeil (u64 (addr + size)) PAGE_SIZE.
Definition covers (sh : Shape.t) (page : Z) : Prop :=
  page_begin (Shape.addr sh) <= page < page_end (Shape.addr sh) (Shape.size sh).

#[global] Instance covers_dec sh p : Decision (covers sh p).
Proof. unfold covers. apply _. Defined.

(** Invariant 1 of the specification: a live buffer owns exactly the pages
    of its extent. *)
Definition page_table_matches (c : BufferCache) : Prop :=
  forall id sh, live c id sh -> forall page, page_of c page = id <-> covers sh page.

(** Invariant 2: two live buffers share no page. *)
Definition page_disjoint (c : BufferCache) : Prop :=
  forall id1 sh1 id2 sh2, live c id1 sh1 -> live c id2 sh2 -> id1 <> id2 ->
  forall page, ~ (covers sh1 page /\ covers sh2 page).

(** The last part of C6 as the specification words it: [Unregister] leaves
    the null id, the id of the null buffer in slot 0, on every page of the
    buffer. *)
Definition Unregister_clears_to_null (buffer_id : BufferId) (c : BufferCache) : Prop :=
  forall sh c', live c buffer_id sh -> Unregister buffer_id c = Ok c' ->
  forall page, covers sh page -> page_of c' page = NULL_BUFFER_ID.

Definition ADDRESS_SPACE : Z := 2 ^ 39.

(** The invariant of the layout while a buffer is being created: [pending]
    is the new buffer as long as it is not registered, [picks] are the
    buffers the overlap scan has marked and that are not deleted yet. *)
Record layout_wf (pending : option BufferId) (picks : list BufferId) (c : BufferCache)
  : Prop := mk_layout_wf {
  wf_keys : forall page id, c.(page_table) !! page = Some id -> page_in_range page = true;
  wf_pages : forall id sh, live c id sh -> pending <> Some id ->
             forall page, page_of c page = id <-> covers sh page;
  wf_pending : forall id, pending = Some id ->
               (exists sh, live c id sh) /\ forall page, page_of c page <> id;
  wf_owner : forall page, page_of c page <> UNSET_BUFFER_ID ->
             exists sh, live c (page_of c page) sh;
  wf_picked : forall id sh, live c id sh -> (Shape.picked sh = true <-> id ∈ picks);
  wf_extent : forall id sh, live c id sh ->
              0 <= Shape.addr sh < ADDRESS_SPACE /\ 0 <= Shape.size sh < 2 ^ 32;
  wf_slots : Z.of_nat (length c.(slot_buffers)) <= INVALID_INDEX;
  wf_null : shape_at c NULL_BUFFER_ID = Some (Shape.mk 0 0 false false);
}.

(** The invariant between public calls. *)
Definition cache_wf (c : BufferCache) : Prop := layout_wf None [] c.

(** Two caches with the same layout. *)
Definition same_layout (c c' : BufferCache) : Prop :=
  shape_of <$> c.(slot_buffers) = shape_of <$> c'.(slot_buffers) /\
  c.(page_table) = c'.(page_table).

(** The invariant of the overlap scan started at [cpu_addr0] for
    [wanted_size] bytes.  [M] bounds the end of every live buffer and of the
    wanted range. *)
Record scan_inv (M cpu_addr0 wanted_size : Z) (s : Scan.t) (c : BufferCache) : Prop :=
  mk_scan_inv {
  si_wf : layout_wf None (Scan.overlap_ids s) c;
  si_bound : forall id sh, live c id sh -> Shape.addr sh + Shape.size sh <= M;
  si_nodup : NoDup (Scan.overlap_ids s);
  si_ids : forall id, id ∈ Scan.overlap_ids s ->
           exists sh, live c id sh /\ Scan.begin s <= Shape.addr sh /\
                      Shape.addr sh + Shape.size sh <= Scan.end_ s;
  si_begin : 0 <= Scan.begin s <= Scan.cpu_addr s /\ Scan.begin s <= cpu_addr0;
  si_end : cpu_addr0 + wanted_size <= Scan.end_ s /\
           Scan.end_ s <= M + (if Scan.has_stream_leap s then 2 ^ 24 else 0);
  si_cover : forall page,
             Scan.begin s / 65536 <= page < Scan.cpu_addr s / 65536 ->
             page_of c page = UNSET_BUFFER_ID \/ page_of c page ∈ Scan.overlap_ids s;
}.

(** The layout after buffer [id] was deleted: its slot holds a moved-from
    object and its pages are unset. *)
Definition deleted_layout (id : BufferId) (c c' : BufferCache) : Prop :=
  exists sh,
    shape_at c id = Some sh /\
    shape_at c' id = Some (Shape.mk (Shape.addr sh) (Shape.size sh) (Shape.picked sh) true) /\
    (forall id', id' <> id -> shape_at c' id' = shape_at c id') /\
    length c'.(slot_buffers) = length c.(slot_buffers) /\
    (forall page, covers sh page -> page_in_range page = true) /\
    (forall page, c'.(page_table) !! page =
                  if decide (covers sh page) then Some UNSET_BUFFER_ID
                  else c.(page_table) !! page).

(** The invariant of the loop of [CreateBuffer] over the overlaps still to
    join: the new buffer [n] of shape [shn] is pending, and every page in
    [first_page, last_page) is unset or belongs to an overlap to join. *)
Record join_inv (n : BufferId) (shn : Shape.t) (first_page last_page : Z)
    (ids : list BufferId) (c : BufferCache) : Prop := mk_join_inv {
  ji_wf : layout_wf (Some n) ids c;
  ji_nodup : NoDup ids;
  ji_new : n ∉ ids;
  ji_live : forall id, id ∈ ids -> exists sh, live c id sh;
  ji_cover : forall page, first_page <= page < last_page ->
             page_of c page = UNSET_BUFFER_ID \/ page_of c page ∈ ids;
  ji_shape : shape_at c n = Some shn;
}.

(** The overlap scan changes nothing but picked marks. *)
Definition pick_slot (s : Slot.t) : Slot.t :=
  Slot.mk (Buffer.Pick (Slot.object s)) (Slot.moved_from s).

Definition picked_only (c c' : BufferCache) : Prop :=
  c' = set_slot_buffers c'.(slot_buffers) c /\
  Forall2 (fun s s' => s' = s \/ s' = pick_slot s) c.(slot_buffers) c'.(slot_buffers).

(** Invariant 4 of the specification: no download list holds an id twice. *)
Definition downloads_wf (c : BufferCache) : Prop :=
  NoDup c.(uncommitted_downloads) /\ Forall NoDup c.(committed_downloads).

(** The stream score of every slot, in slot order. *)
Definition scores (c : BufferCache) : list Z :=
  (fun s => Buffer.StreamScore (Slot.object s)) <$> c.(slot_buffers).

(** [slot_buffers[id].StreamScore()], and 0 where there is no such slot. *)
Definition score_of (c : BufferCache) (id : BufferId) : Z :=
  if 0 <=? id then default 0 (scores c !! Z.to_nat id) else 0.

(** Stream scores count joins: they are never negative. *)
Definition scores_ok (c : BufferCache) : Prop := Forall (fun score => 0 <= score) (scores c).

(** Two caches with the same layout, the same download queues and the same
    stream scores. *)
Definition same_core (c c' : BufferCache) : Prop :=
  same_layout c c' /\
  c'.(uncommitted_downloads) = c.(uncommitted_downloads) /\
  c'.(committed_downloads) = c.(committed_downloads) /\
  scores c' = scores c.

(** What holds of the cache between public calls. *)
Definition cache_inv (c : BufferCache) : Prop :=
  cache_wf c /\ downloads_wf c /\ scores_ok c.

Definition same_downloads (c c' : BufferCache) : Prop :=
  c'.(uncommitted_downloads) = c.(uncommitted_downloads) /\
  c'.(committed_downloads) = c.(committed_downloads).

(** The cache after a written storage buffer at 0x10000 was bound and
    resolved: buffer 1 covers page 1 and waits in [uncommitted_downloads]. *)
Definition storage_bound : list Operation :=
  [OpBindGraphicsStorageBuffer 0 0 0 0 true; OpUpdateGraphicsBuffers false].

Definition cache_storage_bound : BufferCache :=
  match run_all policy_vulkan (example_env true 65536 256) 8 storage_bound BufferCache_init with
  | Ok c => c
  | _ => BufferCache_init
  end.

(** *** A join of a GPU-written buffer

    A written storage buffer of 256 bytes at 0x20000 is bound and resolved:
    buffer 1 covers [0x20000, 0x2c100) and all of it is GPU-modified.  The
    stage is then unbound and a storage buffer of 16 bytes at 0x14000 is
    bound for reading; with the slack of 0xc000 bytes its binding reaches
    into the page of buffer 1, so the update creates buffer 2 over
    [0x14000, 0x2c100) and joins buffer 1 into it. *)
Definition cache_written_storage : BufferCache :=
  match run_all policy_vulkan (example_env true 131072 256) 8 storage_bound
                BufferCache_init with
  | Ok c => c
  | _ => BufferCache_init
  end.

Definition rebind_below : list Operation :=
  [OpUnbindGraphicsStorageBuffers 0;
   OpBindGraphicsStorageBuffer 0 0 0 0 false;
   OpUpdateGraphicsBuffers false].

Definition cache_rebound : Res BufferCache :=
  run_all policy_vulkan (example_env true 81920 16) 8 rebind_below cache_written_storage.

(** The cache inside that [CreateBuffer], when the new buffer has been
    inserted and registered and [JoinOverlap] is about to run. *)
Definition cache_before_join : Res BufferCache :=
  '(id, c) ← slot_insert (Buffer.create 81920 98560) cache_written_storage;
  Register id c.

(** The bytes of [old] that are GPU-modified are GPU-modified and not
    CPU-modified in [new]: the words of the spec about [JoinOverlap], on the
    guest addresses in [addrs]. *)
Definition gpu_modified_carried (old new : Buffer.t) (addrs : list Z) : bool :=
  forallb (fun a => implb (Buffer.gpu_modified_at old a)
                          (Buffer.gpu_modified_at new a && negb (Buffer.cpu_modified_at new a)))
          addrs.

(** *** Auxiliary predicates *)

(** The runtime calls of [c'] are those of [c] followed by calls that all
    satisfy [ok]. *)
Definition extends_calls (ok : Call.t -> bool) (c c' : BufferCache) : Prop :=
  exists l, c'.(runtime_calls) = c.(runtime_calls) ++ l /\ forallb ok l = true.

Definition not_fast (e : Call.t) : bool := negb (is_fast_call e).

(** A method that keeps the stream score. *)
Definition keeps_score (f : Buffer.t -> Buffer.t) : Prop :=
  forall b, Buffer.StreamScore (f b) = Buffer.StreamScore b.

(** A method that keeps address, size and picked mark keeps the layout. *)
Definition keeps_shape (f : Buffer.t -> Buffer.t) : Prop :=
  forall b, Buffer.cpu_addr (f b) = Buffer.cpu_addr b /\
            Buffer.size_bytes (f b) = Buffer.size_bytes b /\
            Buffer.is_picked (f b) = Buffer.is_picked b.


(** *** Stream scores *)

(** The stream score accumulated over the overlaps [ids]. *)
Definition accumulated (c : BufferCache) (ids : list BufferId) : Z :=
  foldr Z.add 0 (score_of c <$> ids).

(** The accumulated score and the leap flag, overlap by overlap. *)
Definition leap_step (c : BufferCache) (st : Z * bool) (id : BufferId) : Z * bool :=
  let score := fst st + score_of c id in
  (score, snd st || (STREAM_LEAP_THRESHOLD <? score)).

Definition leap_scan (c : BufferCache) (ids : list BufferId) : Z * bool :=
  fold_left (leap_step c) ids (0, false).

(** The stream score that the joins of [CreateBuffer] leave in the new
    buffer when every join is told [accumulate_stream_score = accumulate]. *)
Definition joined_score (c : BufferCache) (accumulate : bool) (ids : list BufferId) : Z :=
  if accumulate then foldr Z.add 0 ((fun id => score_of c id + 1) <$> ids) else 0.

(** The running end of the scan when [overlap] has been taken in, before
    any leap. *)
Definition running_end (overlap : Buffer.t) (s : Scan.t) : Z :=
  Z.max (Scan.end_ s) (u64 (Buffer.CpuAddr overlap + Buffer.SizeBytes overlap)).

(** The scan invariant on stream scores, against the cache [c0] at the start
    of the scan. *)
Definition leap_inv (c0 : BufferCache) (s : Scan.t) (c : BufferCache) : Prop :=
  scores c = scores c0 /\
  (Scan.stream_score s, Scan.has_stream_leap s) = leap_scan c0 (Scan.overlap_ids s) /\
  forall id, id ∈ Scan.overlap_ids s -> 0 <= id < Z.of_nat (length (scores c0)).

(** A uniform buffer that moves down by one page with every draw: each bind
    reaches one byte into the buffer of the draw before, so each update
    creates a buffer that takes in the last one, with its stream score plus
    1.  After 18 draws buffer 18 spans [0x2e0000, 0x400001) with the stream
    score 17. *)
Definition rebind_at (k : Z) : list Operation :=
  [OpBindGraphicsUniformBuffer 0 0 (4194304 - k * 65536) 65537;
   OpUpdateGraphicsBuffers false].

Definition stream_ops (n : Z) : list Operation :=
  OpSetEnabledUniformBuffers 0 1 :: flat_map rebind_at (seqZ 1 n).

Definition cache_streamed : BufferCache :=
  match run_all policy_vulkan (example_env true 0 0) 400 (stream_ops 18) BufferCache_init with
  | Ok c => c
  | _ => BufferCache_init
  end.

(** *** Fuel of the overlap scan *)

(** The slots whose buffer does not carry the picked mark. *)
Definition unpicked (c : BufferCache) : nat :=
  length (List.filter (fun s => negb (Buffer.IsPicked (Slot.object s))) c.(slot_buffers)).

(** A bound on the iterations that the loop of [ResolveOverlaps] has left:
    an iteration picks a buffer or moves on by one page, and a pick may move
    the scan back to any page of the table. *)
Definition scan_budget (s : Scan.t) (c : BufferCache) : Z :=
  Z.of_nat (unpicked c) * (NUM_PAGES + 1) +
  (NUM_PAGES - Z.max 0 (Z.min NUM_PAGES (Z.shiftr (Scan.cpu_addr s) PAGE_BITS))).

(** Fuel that is enough for any scan of the cache [c]. *)
Definition enough_fuel (c : BufferCache) (fuel : nat) : Prop :=
  Z.of_nat (unpicked c) * (NUM_PAGES + 1) + NUM_PAGES < Z.of_nat fuel.

(** The end of the guest addresses that a buffer may reach so that a stream
    leap of 256 pages still ends inside the page table. *)
Definition LEAP_ROOM : Z := ADDRESS_SPACE - PAGE_SIZE * 256.

(** Every live buffer ends at or below [LEAP_ROOM] and a slot is free. *)
Definition has_room (c : BufferCache) : Prop :=
  Forall (fun s => Slot.moved_from s = false ->
                   Buffer.CpuAddr (Slot.object s) + Buffer.SizeBytes (Slot.object s)
                   <= LEAP_ROOM) c.(slot_buffers) /\
  Z.of_nat (length c.(slot_buffers)) < INVALID_INDEX.

(** *** Looking up a buffer *)

(** The words of the spec on the result of [FindBuffer]: the buffer returned
    holds the range asked for. *)
Definition FindBuffer_in_bounds (P : Policy) (fuel : nat) (cpu_addr size : Z)
    (c : BufferCache) : Prop :=
  forall id c' buffer,
    FindBuffer P fuel cpu_addr size c = Ok (id, c') ->
    slot_at c' id = Ok buffer ->
    Buffer.IsInBounds buffer cpu_addr size = true.

(** [FindBuffer] found the buffer [id] at the page of [cpu_addr] and it holds
    the range. *)
Definition found_resident (cpu_addr size : Z) (c : BufferCache) (id : BufferId)
    (c' : BufferCache) : Prop :=
  id = page_of c (Z.shiftr cpu_addr PAGE_BITS) /\ id <> UNSET_BUFFER_ID /\ c' = c /\
  exists buffer, slot_at c id = Ok buffer /\
                 Buffer.IsInBounds buffer cpu_addr size = true.

(** The page of [cpu_addr] is unset, or its buffer does not hold the range. *)
Definition no_resident (cpu_addr size : Z) (c : BufferCache) : Prop :=
  let resident := page_of c (Z.shiftr cpu_addr PAGE_BITS) in
  resident = UNSET_BUFFER_ID \/
  exists buffer, slot_at c resident = Ok buffer /\
                 Buffer.IsInBounds buffer cpu_addr size = false.

(** [FindBuffer] created the buffer [id]: it sits in a slot that [c] does not
    have and spans the extent that [ResolveOverlaps] returned, cut to 32
    bits. *)
Definition created_buffer (P : Policy) (fuel : nat) (cpu_addr size : Z) (c : BufferCache)
    (id : BufferId) (c' : BufferCache) : Prop :=
  no_resident cpu_addr size c /\
  CreateBuffer P fuel cpu_addr size c = Ok (id, c') /\
  id = Z.of_nat (length c.(slot_buffers)) /\
  exists r c1 buffer,
    ResolveOverlaps fuel cpu_addr size c = Ok (r, c1) /\
    slot_at c' id = Ok buffer /\
    Buffer.CpuAddr buffer = OverlapResult.begin r /\
    Buffer.SizeBytes buffer = u32 (OverlapResult.end_ r - OverlapResult.begin r) /\
    (OverlapResult.end_ r - OverlapResult.begin r < 2 ^ 32 ->
     Buffer.IsInBounds buffer cpu_addr size = true).

(** ** Further statements about the cache *)

(** The positions of the bits that are set in a 32-bit mask. *)
Definition is_set_bit (mask index : Z) : Prop :=
  0 <= index < 32 /\ Z.testbit mask index = true.

(** Every binding that the cache holds, over its seven tables. *)
Definition bindings (c : BufferCache) : list Binding.t :=
  c.(index_buffer) :: c.(vertex_buffers) ++ concat c.(uniform_buffers) ++
  concat c.(storage_buffers) ++ c.(transform_feedback_buffers) ++
  c.(compute_uniform_buffers) ++ c.(compute_storage_buffers).

(** A binding is resolved when its id is set; it is sound when the id, if
    set, names a live buffer. *)
Definition binding_sound (c : BufferCache) (binding : Binding.t) : Prop :=
  Binding.buffer_id binding = UNSET_BUFFER_ID \/
  exists sh, live c (Binding.buffer_id binding) sh.

Definition bindings_ok (c : BufferCache) : Prop := Forall (binding_sound c) (bindings c).

(** What a list of ids holds once [old_id] was relinked to [new_id]. *)
Definition relinked (old_id new_id : BufferId) (before after : list BufferId) : Prop :=
  forall id, id ∈ after <-> (id ∈ before /\ id <> old_id) \/ (id = new_id /\ old_id ∈ before).

(** The buffers registered in the pages [first_page, last_page) of the page
    table, in page order, each once. *)
Definition owners (c : BufferCache) (first_page last_page : Z) : list BufferId :=
  remove_dups (List.filter id_bool (page_of c <$> seqZ first_page (last_page - first_page))).

(** The pages that a range of guest addresses touches. *)
Definition first_page_of (cpu_addr : Z) : Z := Z.shiftr cpu_addr PAGE_BITS.
Definition last_page_of (cpu_addr size : Z) : Z := DivCeil (u64 (cpu_addr + size)) PAGE_SIZE.

(** The buffer in slot [id], the null buffer where there is no such slot. *)
Definition buffer_of (c : BufferCache) (id : BufferId) : Buffer.t :=
  match slot_at c id with Ok buffer => buffer | _ => Buffer.null end.

(** A step that changes the buffer in slot [id] by [change] and no other
    slot. *)
Definition slots_after (id : BufferId) (change : Buffer.t -> Buffer.t) (c c' : BufferCache)
  : Prop :=
  forall id' buffer, slot_at c id' = Ok buffer ->
    slot_at c' id' = Ok (if decide (id' = id) then change buffer else buffer).

(** The range [cpu_addr, cpu_addr + size) lies in the guest address space. *)
Definition in_address_space (cpu_addr size : Z) : Prop :=
  0 <= cpu_addr /\ 0 <= size /\ cpu_addr + size <= ADDRESS_SPACE.

(** What [DownloadMemory] leaves of a buffer: the GPU-modified ranges inside
    the region are handed out and cleared. *)
Definition downloaded (cpu_addr size : Z) (buffer : Buffer.t) : Buffer.t :=
  snd (Buffer.ForEachDownloadRange cpu_addr size buffer).

(** The calls that [DownloadMemory] makes for one buffer: none when no
    GPU-modified byte of the buffer lies in the range; with memory maps a
    staging buffer for the total size, one copy command for the ranges
    packed back to back behind the staging offset, a wait, and one write to
    guest memory per range; without memory maps a download and a write to
    guest memory per range. *)
Definition download_calls (P : Policy) (env : Env) (cpu_addr size : Z)
    (buffer_id : BufferId) (buffer : Buffer.t) : list Call.t :=
  let ranges := fst (Buffer.ForEachDownloadRange cpu_addr size buffer) in
  let '(copies, total_size_bytes, _) := fold_left push_copy ranges ([], 0, 0) in
  let write copy :=
    Call.WriteBlockUnsafe (u64 (Buffer.CpuAddr buffer + BufferCopy.src_offset copy))
                          (BufferCopy.size copy) in
  if total_size_bytes =? 0 then []
  else if P.(USE_MEMORY_MAPS) then
    let staged :=
      map (add_dst_offset (env.(download_staging_offset) total_size_bytes)) copies in
    [Call.DownloadStagingBuffer total_size_bytes;
     Call.CopyBuffer DownloadStaging (CachedBuffer buffer_id) staged;
     Call.Finish] ++ map write staged
  else
    concat (map (fun copy =>
                   [Call.ImmediateDownload buffer_id (BufferCopy.src_offset copy)
                                           (BufferCopy.size copy);
                    write copy]) copies).

(** Every id in the list of buffers with cached writes names a live buffer. *)
Definition cached_writes_ok (c : BufferCache) : Prop :=
  Forall (fun id => exists sh, live c id sh) c.(cached_write_buffer_ids).

(** No binding and no pending cached write refers to a buffer that is gone. *)
Definition refs_ok (c : BufferCache) : Prop := bindings_ok c /\ cached_writes_ok c.

(** A step that changes no binding, no mask of enabled or written buffers,
    not the list of cached writes and not [has_deleted_buffers]. *)
Record quiet (c c' : BufferCache) : Prop := mk_quiet {
  q_index_buffer : c'.(index_buffer) = c.(index_buffer);
  q_vertex_buffers : c'.(vertex_buffers) = c.(vertex_buffers);
  q_uniform_buffers : c'.(uniform_buffers) = c.(uniform_buffers);
  q_storage_buffers : c'.(storage_buffers) = c.(storage_buffers);
  q_transform_feedback_buffers :
    c'.(transform_feedback_buffers) = c.(transform_feedback_buffers);
  q_compute_uniform_buffers : c'.(compute_uniform_buffers) = c.(compute_uniform_buffers);
  q_compute_storage_buffers : c'.(compute_storage_buffers) = c.(compute_storage_buffers);
  q_enabled_uniform_buffers : c'.(enabled_uniform_buffers) = c.(enabled_uniform_buffers);
  q_enabled_compute_uniform_buffers :
    c'.(enabled_compute_uniform_buffers) = c.(enabled_compute_uniform_buffers);
  q_enabled_storage_buffers : c'.(enabled_storage_buffers) = c.(enabled_storage_buffers);
  q_written_storage_buffers : c'.(written_storage_buffers) = c.(written_storage_buffers);
  q_enabled_compute_storage_buffers :
    c'.(enabled_compute_storage_buffers) = c.(enabled_compute_storage_buffers);
  q_written_compute_storage_buffers :
    c'.(written_compute_storage_buffers) = c.(written_compute_storage_buffers);
  q_cached_write_buffer_ids : c'.(cached_write_buffer_ids) = c.(cached_write_buffer_ids);
  q_has_deleted_buffers : c'.(has_deleted_buffers) = c.(has_deleted_buffers);
}.

(** Buffers that are live stay live. *)
Definition keeps_live (c c' : BufferCache) : Prop :=
  forall id sh, live c id sh -> exists sh', live c' id sh'.

(** The invariants of the cache between public calls, references included. *)
Definition cache_sound (c : BufferCache) : Prop := cache_inv c /\ refs_ok c.

(** A binding whose buffer id is set. *)
Definition resolved (binding : Binding.t) : Prop :=
  Binding.buffer_id binding <> UNSET_BUFFER_ID.

(** The binding at a position of a table is there and resolved. *)
Definition resolved_at (table : list Binding.t) (index : Z) : Prop :=
  exists binding, load table index = Ok binding /\ resolved binding.

Definition resolved_at2 (table : list (list Binding.t)) (stage index : Z) : Prop :=
  exists binding, load2 table stage index = Ok binding /\ resolved binding.

(** A step of an update pass that deleted no buffer: the masks of enabled
    buffers are unchanged, and a binding of the uniform and storage tables
    that was resolved still is. *)
Record grows (c c' : BufferCache) : Prop := mk_grows {
  g_enabled_uniform_buffers : c'.(enabled_uniform_buffers) = c.(enabled_uniform_buffers);
  g_enabled_storage_buffers : c'.(enabled_storage_buffers) = c.(enabled_storage_buffers);
  g_enabled_compute_uniform_buffers :
    c'.(enabled_compute_uniform_buffers) = c.(enabled_compute_uniform_buffers);
  g_enabled_compute_storage_buffers :
    c'.(enabled_compute_storage_buffers) = c.(enabled_compute_storage_buffers);
  g_uniform_buffers : forall stage index,
    resolved_at2 c.(uniform_buffers) stage index ->
    resolved_at2 c'.(uniform_buffers) stage index;
  g_storage_buffers : forall stage index,
    resolved_at2 c.(storage_buffers) stage index ->
    resolved_at2 c'.(storage_buffers) stage index;
  g_compute_uniform_buffers : forall index,
    resolved_at c.(compute_uniform_buffers) index ->
    resolved_at c'.(compute_uniform_buffers) index;
  g_compute_storage_buffers : forall index,
    resolved_at c.(compute_storage_buffers) index ->
    resolved_at c'.(compute_storage_buffers) index;
}.

(** Every enabled uniform and storage buffer of a stage is resolved. *)
Definition stage_resolved (c : BufferCache) (stage : Z) : Prop :=
  (forall mask index,
     load c.(enabled_uniform_buffers) stage = Ok mask -> index ∈ enabled_bits mask ->
     resolved_at2 c.(uniform_buffers) stage index) /\
  (forall mask index,
     load c.(enabled_storage_buffers) stage = Ok mask -> index ∈ enabled_bits mask ->
     resolved_at2 c.(storage_buffers) stage index).

(** Every enabled compute uniform and storage buffer is resolved. *)
Definition compute_resolved (c : BufferCache) : Prop :=
  (forall index, index ∈ enabled_bits c.(enabled_compute_uniform_buffers) ->
     resolved_at c.(compute_uniform_buffers) index) /\
  (forall index, index ∈ enabled_bits c.(enabled_compute_storage_buffers) ->
     resolved_at c.(compute_storage_buffers) index).

(** *** Bindings waiting for an update

    The written storage buffer of [storage_bound] before the update: bound,
    enabled and not yet resolved.  And a cache whose first compute uniform
    buffer was enabled. *)
Definition cache_storage_unresolved : BufferCache :=
  match run policy_vulkan (example_env true 65536 256) 8
            (OpBindGraphicsStorageBuffer 0 0 0 0 true) BufferCache_init with
  | Ok c => c
  | _ => BufferCache_init
  end.

Definition cache_compute_enabled : BufferCache :=
  SetEnabledComputeUniformBuffers 1 BufferCache_init.

Definition cache_compute_resolved : BufferCache :=
  match UpdateComputeBuffers policy_vulkan (example_env true 65536 256) 8 8
          cache_compute_enabled with
  | Ok c => c
  | _ => BufferCache_init
  end.

(** * Properties *)

(** ** Reasoning about results *)

Lemma bind_Ok {A B} (m : Res A) (k : A -> Res B) (r : B) :
  (x ← m; k x) = Ok r <-> exists a, m = Ok a /\ k a = Ok r.
Proof.
  unfold mbind, Res_bind, res_bind. destruct m as [a| |]; split.
  - intros. exists a; done.
  - intros (? & [= ->] & ?); done.
  - discriminate.
  - intros (? & ? & ?); discriminate.
  - discriminate.
  - intros (? & ? & ?); discriminate.
Qed.

Lemma fmap_Ok {A B} (f : A -> B) (m : Res A) (r : B) :
  f <$> m = Ok r <-> exists a, m = Ok a /\ r = f a.
Proof.
  unfold fmap, Res_fmap, res_bind. destruct m as [a| |]; split.
  - intros [= <-]. exists a; done.
  - intros (? & [= ->] & ->); done.
  - discriminate.
  - intros (? & ? & ?); discriminate.
  - discriminate.
  - intros (? & ? & ?); discriminate.
Qed.

Lemma of_option_Ok {A} (o : option A) (a : A) : of_option o = Ok a <-> o = Some a.
Proof. destruct o; simpl; split; congruence. Qed.

Lemma load_Ok {A} (arr : list A) (i : Z) (x : A) :
  load arr i = Ok x <-> 0 <= i /\ arr !! Z.to_nat i = Some x.
Proof.
  unfold load. destruct (Z.leb_spec 0 i).
  - rewrite of_option_Ok. tauto.
  - split; [discriminate | lia].
Qed.

Lemma store_Ok {A} (arr : list A) (i : Z) (x : A) (arr' : list A) :
  store arr i x = Ok arr' <->
  0 <= i < Z.of_nat (length arr) /\ arr' = <[Z.to_nat i := x]> arr.
Proof.
  unfold store. destruct (Z.leb_spec 0 i); destruct (Z.ltb_spec i (Z.of_nat (length arr)));
    simpl; split; try discriminate; try lia.
  - intros [= <-]. split; [lia | done].
  - intros (_ & ->). done.
Qed.

Lemma load_store_eq {A} (arr arr' : list A) (i : Z) (x : A) :
  store arr i x = Ok arr' -> load arr' i = Ok x.
Proof.
  rewrite store_Ok, load_Ok. intros (Hi & ->). split; [lia|].
  apply list_lookup_insert_eq. lia.
Qed.

Lemma load_store_ne {A} (arr arr' : list A) (i j : Z) (x : A) :
  store arr i x = Ok arr' -> i <> j -> 0 <= j -> load arr' j = load arr j.
Proof.
  rewrite store_Ok. intros (Hi & ->) Hne Hj. unfold load.
  destruct (0 <=? j); [|done]. rewrite list_lookup_insert_ne by lia. done.
Qed.

Lemma store_length {A} (arr arr' : list A) (i : Z) (x : A) :
  store arr i x = Ok arr' -> length arr' = length arr.
Proof. rewrite store_Ok. intros (_ & ->). apply length_insert. Qed.

Lemma load2_store2_eq {A} (arr arr' : list (list A)) (i j : Z) (x : A) :
  store2 arr i j x = Ok arr' -> load2 arr' i j = Ok x.
Proof.
  unfold store2, load2. rewrite bind_Ok. intros (row & Hrow & H).
  apply bind_Ok in H as (row' & Hrow' & H).
  apply bind_Ok. exists row'. split.
  - eapply load_store_eq, H.
  - eapply load_store_eq, Hrow'.
Qed.

(** Take apart a hypothesis saying that a sequence of steps returned. *)
Ltac res_inv H :=
  repeat match type of H with
  | (_ ≫= _) = Ok _ =>
      let a := fresh "a" in let Ha := fresh "H" a in
      apply bind_Ok in H as (a & Ha & H)
  | (mbind _ _) = Ok _ =>
      let a := fresh "a" in let Ha := fresh "H" a in
      apply bind_Ok in H as (a & Ha & H)
  | (let '(_, _) := ?p in _) = _ => destruct p
  | Ok _ = Ok _ => injection H as H
  | UB = Ok _ => discriminate H
  | OutOfFuel = Ok _ => discriminate H
  end.

Lemma for_each_Ok_ind {A S} (body : A -> S -> Res S) (Inv : S -> Prop) (l : list A) :
  (forall x s s', x ∈ l -> Inv s -> body x s = Ok s' -> Inv s') ->
  forall s s', Inv s -> for_each body l s = Ok s' -> Inv s'.
Proof.
  induction l as [|x l IH]; intros Hbody s s' Hs H; simpl in H.
  - injection H as <-. done.
  - apply bind_Ok in H as (s1 & H1 & H). eapply IH; [| |exact H].
    + intros y t t' Hy. apply Hbody. by right.
    + eapply Hbody; [by left | exact Hs | exact H1].
Qed.
(** ** Properties of the frame tick *)

Lemma reduce_u32_from (arr : list Z) (a : Z) :
  fold_left (fun acc x => u32 (acc + x)) arr (u32 a) = u32 (a + window_sum arr).
Proof.
  revert a. induction arr as [|x arr IH]; intros a; cbn [fold_left window_sum foldr].
  - f_equal. lia.
  - rewrite IH. unfold u32. rewrite <- Z.add_assoc, Zplus_mod_idemp_l. reflexivity.
Qed.

Lemma reduce_u32_sum (arr : list Z) : reduce_u32 arr = u32 (window_sum arr).
Proof. unfold reduce_u32. apply (reduce_u32_from arr 0). Qed.

(** Moving a 16-entry window one slot to the right and clearing slot 0. *)
Lemma window_shift (arr : list Z) :
  length arr = 16%nat ->
  <[0%nat := 0]> (copy_n 0 (length arr - 1) 1 arr) = 0 :: take 15 arr.
Proof.
  intros Hlen. rewrite Hlen. unfold copy_n.
  do 17 (destruct arr as [|? arr]; try discriminate Hlen). reflexivity.
Qed.

(** C1, as stated, fails: on a freshly constructed cache both windows sum to
    0, so [hits * 256 >= shots * 251], yet the tick sets the skip size to 0. *)
Lemma TickFrame_as_specified_fails : ~ TickFrame_as_specified BufferCache_init.
Proof.
  unfold TickFrame_as_specified. intros (H & _).
  assert (Hle : window_sum (replicate 16 0) * 251 <= window_sum (replicate 16 0) * 256)
    by (vm_compute; discriminate).
  apply H in Hle. vm_compute in Hle. discriminate Hle.
Qed.

(** C1 (amended): at every TickFrame, with [hits] and [shots] the [u32] sums
    of the 16-entry windows taken before shifting, the skip size becomes 4096
    exactly when [hits * 256 < shots * 251] (in [u32] arithmetic) and 0
    otherwise; both windows are shifted right by one slot and slot 0 of each
    is zeroed. *)
Theorem TickFrame_skip_preferred (c : BufferCache) :
  length c.(uniform_cache_hits) = 16%nat ->
  length c.(uniform_cache_shots) = 16%nat ->
  let hits := u32 (window_sum c.(uniform_cache_hits)) in
  let shots := u32 (window_sum c.(uniform_cache_shots)) in
  let c' := TickFrame c in
  (u32 (hits * 256) < u32 (shots * 251) <-> c'.(uniform_buffer_skip_cache_size) = 4096) /\
  (u32 (shots * 251) <= u32 (hits * 256) <-> c'.(uniform_buffer_skip_cache_size) = 0) /\
  c'.(uniform_cache_hits) = 0 :: take 15 c.(uniform_cache_hits) /\
  c'.(uniform_cache_shots) = 0 :: take 15 c.(uniform_cache_shots).
Proof.
  intros Hh Hs hits shots c'.
  assert (Hskip : c'.(uniform_buffer_skip_cache_size) =
                  if u32 (hits * 256) <? u32 (shots * 251) then 4096 else 0).
  { subst c' hits shots. unfold TickFrame. simpl. rewrite !reduce_u32_sum. reflexivity. }
  repeat split.
  - intros Hlt. rewrite Hskip. apply Z.ltb_lt in Hlt. rewrite Hlt. reflexivity.
  - rewrite Hskip. destruct (Z.ltb_spec (u32 (hits * 256)) (u32 (shots * 251))); [done|].
    discriminate.
  - intros Hle. rewrite Hskip. destruct (Z.ltb_spec (u32 (hits * 256)) (u32 (shots * 251)));
      [lia | reflexivity].
  - rewrite Hskip. destruct (Z.ltb_spec (u32 (hits * 256)) (u32 (shots * 251)));
      [discriminate | done].
  - subst c'. unfold TickFrame. simpl. apply window_shift, Hh.
  - subst c'. unfold TickFrame. simpl. apply window_shift, Hs.
Qed.

Lemma TickFrame_skip_preferred_witness :
  let c' := TickFrame cache_one_miss in
  (u32 (u32 0 * 256) < u32 (u32 1 * 251) <-> c'.(uniform_buffer_skip_cache_size) = 4096) /\
  (u32 (u32 1 * 251) <= u32 (u32 0 * 256) <-> c'.(uniform_buffer_skip_cache_size) = 0) /\
  c'.(uniform_cache_hits) = 0 :: take 15 (replicate 16 0) /\
  c'.(uniform_cache_shots) = 0 :: take 15 (<[0%nat := 1]> (replicate 16 0)).
Proof. apply (TickFrame_skip_preferred cache_one_miss); reflexivity. Defined.

(** Without wrap-around the comparison is the one on the plain sums. *)
Lemma TickFrame_skip_preferred_small (c : BufferCache) :
  0 <= window_sum c.(uniform_cache_hits) ->
  0 <= window_sum c.(uniform_cache_shots) ->
  window_sum c.(uniform_cache_hits) * 256 < 2 ^ 32 ->
  window_sum c.(uniform_cache_shots) * 251 < 2 ^ 32 ->
  (TickFrame c).(uniform_buffer_skip_cache_size) =
    if window_sum c.(uniform_cache_hits) * 256 <? window_sum c.(uniform_cache_shots) * 251
    then 4096 else 0.
Proof.
  intros H1 H2 H3 H4. unfold TickFrame. simpl. rewrite !reduce_u32_sum.
  rewrite (u32_id (window_sum _)) by (unfold is_u32; lia).
  rewrite (u32_id (window_sum (uniform_cache_shots c))) by (unfold is_u32; lia).
  rewrite !u32_id by (unfold is_u32; lia). reflexivity.
Qed.

(** ** Waiting for asynchronous flushes *)

Lemma ShouldWaitAsyncFlushes_front (c : BufferCache) :
  ShouldWaitAsyncFlushes c = true <->
  exists front rest, c.(committed_downloads) = front :: rest /\ front <> [].
Proof.
  unfold ShouldWaitAsyncFlushes. destruct c.(committed_downloads) as [|front rest].
  - split; [discriminate | intros (? & ? & ? & _); discriminate].
  - rewrite negb_true_iff, bool_decide_eq_false. split.
    + intros H. exists front, rest. done.
    + intros (f & r & [= -> ->] & H). done.
Qed.

(** With at most one committed list the newest list is the oldest one. *)
Lemma ShouldWaitAsyncFlushes_single (c : BufferCache) :
  (length c.(committed_downloads) <= 1)%nat ->
  ShouldWaitAsyncFlushes c = ShouldWaitAsyncFlushes_as_specified c.
Proof.
  unfold ShouldWaitAsyncFlushes, ShouldWaitAsyncFlushes_as_specified.
  destruct c.(committed_downloads) as [|front [|? ?]]; simpl; [done | done | lia].
Qed.

(** C2: [ShouldWaitAsyncFlushes] is meant to tell whether the list that the
    next [PopAsyncFlushes] drains is non-empty.  After a written storage
    buffer was resolved and the caller committed twice, the committed queue
    is [[[]; [1]]]: the list to pop next holds buffer 1, but the code looks
    at the front of the deque, the newest list, and answers [false]. *)
Theorem ShouldWaitAsyncFlushes_reads_newest :
  exists c,
    run_all policy_vulkan (example_env true 65536 256) 8 two_commits BufferCache_init = Ok c /\
    c.(committed_downloads) = [[]; [1]] /\
    List.last c.(committed_downloads) [] = [1] /\
    ShouldWaitAsyncFlushes c = false /\
    ShouldWaitAsyncFlushes_as_specified c = true.
Proof.
  eexists. split; [vm_compute; reflexivity|].
  repeat split; vm_compute; reflexivity.
Qed.

(** ** Binding a uniform buffer through an unmapped address *)

Lemma BindGraphicsUniformBuffer_unmapped (env : Env) (stage index gpu_addr size : Z)
    (c : BufferCache) :
  env.(GpuToCpuAddress) gpu_addr = None ->
  BindGraphicsUniformBuffer env stage index gpu_addr size c = UB.
Proof. intros H. unfold BindGraphicsUniformBuffer. rewrite H. reflexivity. Qed.

(** When the address is mapped the slot receives the address and size asked
    for, with an unset buffer id. *)
Lemma BindGraphicsUniformBuffer_mapped (env : Env) (stage index gpu_addr size cpu_addr : Z)
    (c c' : BufferCache) :
  env.(GpuToCpuAddress) gpu_addr = Some cpu_addr ->
  BindGraphicsUniformBuffer env stage index gpu_addr size c = Ok c' ->
  load2 c'.(uniform_buffers) stage index = Ok (Binding.mk cpu_addr size UNSET_BUFFER_ID).
Proof.
  intros H. unfold BindGraphicsUniformBuffer. rewrite H. simpl.
  intros Hc. res_inv Hc. subst c'. simpl. eapply load2_store2_eq, Ha.
Qed.

(** C3: a uniform buffer bound through a guest GPU address that has no
    mapping should leave the null binding in its slot and return.  The code
    reads the disengaged optional instead: the call has no defined result,
    and no binding is written. *)
Theorem BindGraphicsUniformBuffer_reads_empty_optional :
  bind_unmapped_uniform BufferCache_init = UB /\
  ~ BindGraphicsUniformBuffer_resets (example_env false 0 0) 0 0 65536 64 BufferCache_init.
Proof.
  split; [reflexivity|].
  intros H. destruct (H eq_refl) as (c' & Hc' & _). discriminate Hc'.
Qed.

(** ** Synchronising a buffer at address 0 *)

Lemma extends_calls_refl ok c : extends_calls ok c c.
Proof. exists []. rewrite app_nil_r. done. Qed.

Lemma extends_calls_trans ok c1 c2 c3 :
  extends_calls ok c1 c2 -> extends_calls ok c2 c3 -> extends_calls ok c1 c3.
Proof.
  intros (l1 & H1 & F1) (l2 & H2 & F2). exists (l1 ++ l2).
  rewrite H2, H1, app_assoc, forallb_app, F1, F2. done.
Qed.

Lemma extends_calls_log ok e c : ok e = true -> extends_calls ok c (log e c).
Proof. intros H. exists [e]. simpl. rewrite H. done. Qed.

Lemma extends_calls_same ok c c' :
  c'.(runtime_calls) = c.(runtime_calls) -> extends_calls ok c c'.
Proof. intros H. exists []. rewrite app_nil_r. done. Qed.

Lemma ImmediateBuffer_calls n c : (ImmediateBuffer n c).(runtime_calls) = c.(runtime_calls).
Proof. unfold ImmediateBuffer. destruct (_ <? _); reflexivity. Qed.

Lemma slot_update_calls id f c c' :
  slot_update id f c = Ok c' -> c'.(runtime_calls) = c.(runtime_calls).
Proof. unfold slot_update. intros H. res_inv H. subst c'. reflexivity. Qed.

Lemma ImmediateUploadMemory_loop_calls env id buffer largest copies ib c :
  extends_calls not_fast c (ImmediateUploadMemory_loop env id buffer largest copies ib c).
Proof.
  revert ib c. induction copies as [|copy copies IH]; intros ib c; simpl.
  - apply extends_calls_refl.
  - destruct (IsRangeGranular _ _ _).
    + eapply extends_calls_trans; [|apply IH].
      eapply extends_calls_trans; apply extends_calls_log; reflexivity.
    + destruct (ib =? 0).
      * eapply extends_calls_trans; [|apply IH].
        eapply extends_calls_trans; [|apply extends_calls_log; reflexivity].
        eapply extends_calls_trans; [|apply extends_calls_log; reflexivity].
        apply extends_calls_same, ImmediateBuffer_calls.
      * eapply extends_calls_trans; [|apply IH].
        eapply extends_calls_trans; apply extends_calls_log; reflexivity.
Qed.

Lemma fold_left_log_calls {A} (f : A -> Call.t) (l : list A) c :
  (forall x, not_fast (f x) = true) ->
  extends_calls not_fast c (fold_left (fun c x => log (f x) c) l c).
Proof.
  intros Hf. revert c. induction l as [|x l IH]; intros c; simpl.
  - apply extends_calls_refl.
  - eapply extends_calls_trans; [|apply IH]. apply extends_calls_log, Hf.
Qed.

Lemma UploadMemory_calls P env id buffer total largest copies c :
  extends_calls not_fast c (UploadMemory P env id buffer total largest copies c).
Proof.
  unfold UploadMemory. destruct (USE_MEMORY_MAPS P).
  - unfold MappedUploadMemory. cbv zeta.
    eapply extends_calls_trans; [|apply extends_calls_log; reflexivity].
    eapply (extends_calls_trans _ _ (log (Call.UploadStagingBuffer total) c));
      [apply extends_calls_log; reflexivity|].
    apply (fold_left_log_calls
             (fun copy => Call.ReadBlockUnsafe
                            (u64 (Buffer.CpuAddr buffer + BufferCopy.dst_offset copy))
                            (BufferCopy.size copy))).
    reflexivity.
  - apply ImmediateUploadMemory_loop_calls.
Qed.

Lemma SynchronizeBuffer_calls P env id cpu_addr size c r c' :
  SynchronizeBuffer P env id cpu_addr size c = Ok (r, c') -> extends_calls not_fast c c'.
Proof.
  unfold SynchronizeBuffer, SynchronizeBufferImpl. intros H. res_inv H.
  destruct (Buffer.CpuAddr a =? 0).
  - simplify_eq. apply extends_calls_refl.
  - res_inv H. destruct (_ =? 0) in H; simplify_eq.
    + apply extends_calls_same. eapply slot_update_calls, Ha1.
    + eapply extends_calls_trans; [|apply UploadMemory_calls].
      apply extends_calls_same. eapply slot_update_calls, Ha1.
Qed.



(** ** The fast uniform path and the skip size *)

Lemma BindHostGraphicsUniformBuffer_unfold P env stage index binding_index needs_bind c
    binding :
  load2 c.(uniform_buffers) stage index = Ok binding ->
  BindHostGraphicsUniformBuffer P env stage index binding_index needs_bind c =
  (buffer ← slot_at c (Binding.buffer_id binding);
   if use_fast_buffer c binding buffer
   then fast_uniform_path P env stage binding_index binding c
   else classic_uniform_path P env stage binding_index needs_bind binding c).
Proof. intros H. unfold BindHostGraphicsUniformBuffer. rewrite H. reflexivity. Qed.

Lemma classic_uniform_path_no_slot P env stage binding_index needs_bind binding c :
  slot_at c (Binding.buffer_id binding) = UB ->
  classic_uniform_path P env stage binding_index needs_bind binding c = UB.
Proof.
  intros H. unfold classic_uniform_path, SynchronizeBuffer. rewrite H. reflexivity.
Qed.

Lemma slot_at_not_OutOfFuel c id : slot_at c id <> OutOfFuel.
Proof.
  unfold slot_at, load. destruct (0 <=? id); [|discriminate].
  destruct (_ !! _); discriminate.
Qed.

(** The classic path logs no call of the fast path. *)
Lemma classic_uniform_path_calls P env stage binding_index needs_bind binding c c' :
  classic_uniform_path P env stage binding_index needs_bind binding c = Ok c' ->
  extends_calls not_fast c c'.
Proof.
  unfold classic_uniform_path. intros H.
  apply bind_Ok in H as ([sync c1] & Hsync & H).
  apply SynchronizeBuffer_calls in Hsync.
  eapply extends_calls_trans; [exact Hsync|].
  apply bind_Ok in H as (c2 & Hc2 & H).
  assert (H12 : c2.(runtime_calls) = c1.(runtime_calls)).
  { destruct sync; res_inv Hc2; subst; reflexivity. }
  apply bind_Ok in H as (shots & _ & H). apply bind_Ok in H as (bound & _ & H).
  destruct (negb needs_bind && negb bound).
  - simplify_eq. apply extends_calls_same. simpl. exact H12.
  - res_inv H. destruct (NEEDS_BIND_UNIFORM_INDEX P); simplify_eq.
    + exists [Call.BindUniformBufferAt stage binding_index (Binding.buffer_id binding)
                (Buffer.Offset a1 (Binding.cpu_addr binding)) (Binding.size binding)].
      simpl. rewrite H12. done.
    + exists [Call.BindUniformBuffer (Binding.buffer_id binding)
                (Buffer.Offset a1 (Binding.cpu_addr binding)) (Binding.size binding)].
      simpl. rewrite H12. done.
Qed.

(** C5, as stated, fails: in the cache after [empty_uniform_bound] the skip
    size is 0 and uniform slot 0 of stage 0 holds an empty binding on buffer
    1; binding it takes the fast path (it calls [BindMappedUniformBuffer]),
    not the classic one. *)
Lemma skip_zero_disables_fast_path_fails :
  ~ skip_zero_disables_fast_path policy_vulkan (example_env true 0 0) 0 0 0 true
      cache_empty_uniform.
Proof.
  intros H. specialize (H eq_refl (Binding.mk 65536 0 1) eq_refl).
  vm_compute in H. discriminate H.
Qed.

(** C5 (amended): whenever the skip size is 0, no graphics uniform bind of a
    non-empty binding takes the fast path: for every stage, index, binding
    index and buffer state, [BindHostGraphicsUniformBuffer] is the classic
    cached bind, and none of the calls it makes belongs to the fast path. *)
Theorem skip_zero_disables_fast_path_nonempty (P : Policy) (env : Env)
    (stage index binding_index : Z) (needs_bind : bool) (c : BufferCache)
    (binding : Binding.t) :
  c.(uniform_buffer_skip_cache_size) = 0 ->
  load2 c.(uniform_buffers) stage index = Ok binding ->
  0 < Binding.size binding ->
  (forall buffer, use_fast_buffer c binding buffer = false) /\
  BindHostGraphicsUniformBuffer P env stage index binding_index needs_bind c =
    classic_uniform_path P env stage binding_index needs_bind binding c /\
  forall c', BindHostGraphicsUniformBuffer P env stage index binding_index needs_bind c = Ok c' ->
    exists calls, c'.(runtime_calls) = c.(runtime_calls) ++ calls /\
                  forallb (fun e => negb (is_fast_call e)) calls = true.
Proof.
  intros Hskip Hload Hsize.
  assert (Hfast : forall buffer, use_fast_buffer c binding buffer = false).
  { intros buffer. unfold use_fast_buffer. rewrite Hskip.
    destruct (Z.leb_spec (Binding.size binding) 0); [lia|].
    rewrite andb_false_r. reflexivity. }
  assert (Heq : BindHostGraphicsUniformBuffer P env stage index binding_index needs_bind c =
                classic_uniform_path P env stage binding_index needs_bind binding c).
  { rewrite (BindHostGraphicsUniformBuffer_unfold _ _ _ _ _ _ _ _ Hload).
    destruct (slot_at c (Binding.buffer_id binding)) as [buffer| |] eqn:Hslot.
    - simpl. rewrite Hfast. reflexivity.
    - rewrite classic_uniform_path_no_slot by exact Hslot. reflexivity.
    - exfalso. eapply slot_at_not_OutOfFuel, Hslot. }
  split; [exact Hfast|]. split; [exact Heq|].
  intros c' Hc'. rewrite Heq in Hc'. eapply classic_uniform_path_calls, Hc'.
Qed.

Lemma skip_zero_disables_fast_path_nonempty_witness :
  let c := cache_small_uniform in
  let env := example_env true 0 0 in
  let binding := Binding.mk 65536 64 1 in
  c.(uniform_buffer_skip_cache_size) = 0 /\
  load2 c.(uniform_buffers) 0 0 = Ok binding /\
  (exists buffer, slot_at c 1 = Ok buffer /\
     use_fast_buffer (set_uniform_buffer_skip_cache_size 4096 c) binding buffer = true) /\
  (forall buffer, use_fast_buffer c binding buffer = false) /\
  BindHostGraphicsUniformBuffer policy_vulkan env 0 0 0 true c =
    classic_uniform_path policy_vulkan env 0 0 true binding c /\
  forall c', BindHostGraphicsUniformBuffer policy_vulkan env 0 0 0 true c = Ok c' ->
    exists calls, c'.(runtime_calls) = c.(runtime_calls) ++ calls /\
                  forallb (fun e => negb (is_fast_call e)) calls = true.
Proof.
  intros c env binding.
  split; [vm_compute; reflexivity|]. split; [vm_compute; reflexivity|].
  split.
  { exists {| Buffer.cpu_addr := 65536; Buffer.size_bytes := 64; Buffer.stream_score := 0;
              Buffer.is_picked := false; Buffer.cpu_modified := [(0, 64)];
              Buffer.gpu_modified := []; Buffer.cached_writes := [] |}.
    split; vm_compute; reflexivity. }
  apply (skip_zero_disables_fast_path_nonempty policy_vulkan env 0 0 0 true c binding);
    [vm_compute; reflexivity | vm_compute; reflexivity | simpl; lia].
Defined.

(** ** Page arithmetic *)

Lemma PAGE_SIZE_eq : PAGE_SIZE = 65536.
Proof. reflexivity. Qed.

Lemma NUM_PAGES_eq : NUM_PAGES = 8388608.
Proof. reflexivity. Qed.

Lemma shiftr_PAGE_BITS (a : Z) : Z.shiftr a PAGE_BITS = a / 65536.
Proof. unfold PAGE_BITS. rewrite Z.shiftr_div_pow2 by lia. reflexivity. Qed.

Lemma DivCeil_PAGE_SIZE (x : Z) :
  0 <= x < 2 ^ 63 -> DivCeil x PAGE_SIZE = (x + 65535) / 65536.
Proof.
  intros H. unfold DivCeil. rewrite PAGE_SIZE_eq.
  rewrite u64_id by (unfold is_u64; lia). f_equal. lia.
Qed.

Lemma lt_DivCeil (p x : Z) :
  0 <= x < 2 ^ 63 -> (p < DivCeil x PAGE_SIZE <-> p * 65536 < x).
Proof.
  intros H. rewrite DivCeil_PAGE_SIZE by exact H.
  pose proof (Z.div_mod (x + 65535) 65536 ltac:(lia)) as Hd.
  pose proof (Z.mod_pos_bound (x + 65535) 65536 ltac:(lia)) as Hm.
  lia.
Qed.

Lemma page_le (p a : Z) : p <= a / 65536 <-> p * 65536 <= a.
Proof.
  pose proof (Z.div_mod a 65536 ltac:(lia)) as Hd.
  pose proof (Z.mod_pos_bound a 65536 ltac:(lia)) as Hm.
  lia.
Qed.

Lemma page_lt (p a : Z) : a / 65536 < p <-> a < p * 65536.
Proof. pose proof (page_le p a). lia. Qed.

(** The pages of an extent, as inequalities on addresses. *)
Lemma covers_iff (sh : Shape.t) (p : Z) :
  0 <= Shape.addr sh < ADDRESS_SPACE -> 0 <= Shape.size sh < 2 ^ 32 ->
  (covers sh p <->
   Shape.addr sh < (p + 1) * 65536 /\ p * 65536 < Shape.addr sh + Shape.size sh).
Proof.
  intros Ha Hs. unfold covers, page_begin, page_end, ADDRESS_SPACE in *.
  rewrite PAGE_SIZE_eq.
  rewrite u64_id by (unfold is_u64; lia).
  rewrite lt_DivCeil by lia.
  pose proof (page_lt (p + 1) (Shape.addr sh)). lia.
Qed.

(** ** Slots and their shapes *)

Lemma same_layout_refl c : same_layout c c.
Proof. split; reflexivity. Qed.

Lemma same_layout_trans c1 c2 c3 :
  same_layout c1 c2 -> same_layout c2 c3 -> same_layout c1 c3.
Proof. intros [H1 H2] [H3 H4]. split; congruence. Qed.

Lemma same_layout_sym c1 c2 : same_layout c1 c2 -> same_layout c2 c1.
Proof. intros [H1 H2]. split; congruence. Qed.

Lemma same_layout_fields c c' :
  c'.(slot_buffers) = c.(slot_buffers) -> c'.(page_table) = c.(page_table) ->
  same_layout c c'.
Proof. intros H1 H2. split; congruence. Qed.

Lemma shape_at_same_layout c c' id : same_layout c c' -> shape_at c' id = shape_at c id.
Proof.
  intros [H _]. unfold shape_at. destruct (0 <=? id); [|done].
  rewrite <- !list_lookup_fmap. rewrite H. done.
Qed.

Lemma page_of_same_layout c c' p : same_layout c c' -> page_of c' p = page_of c p.
Proof. intros [_ H]. unfold page_of. rewrite H. done. Qed.

Lemma live_same_layout c c' id sh : same_layout c c' -> live c' id sh <-> live c id sh.
Proof. intros H. unfold live. rewrite (shape_at_same_layout _ _ _ H). done. Qed.

Lemma length_same_layout c c' :
  same_layout c c' -> length c'.(slot_buffers) = length c.(slot_buffers).
Proof.
  intros [H _]. apply (f_equal length) in H. rewrite !length_fmap in H. done.
Qed.

Lemma layout_wf_same_layout pending picks c c' :
  same_layout c c' -> layout_wf pending picks c -> layout_wf pending picks c'.
Proof.
  intros Hsame [W0 W1 Wp W2 W3 W4 W5 W6].
  assert (Hlive := fun id sh => live_same_layout c c' id sh Hsame).
  assert (Hpage := fun p => page_of_same_layout c c' p Hsame).
  split.
  - intros p id. destruct Hsame as [_ <-]. apply W0.
  - intros id sh Hl Hne p. rewrite Hpage. apply W1; [by apply Hlive | done].
  - intros id Hid. destruct (Wp id Hid) as [(sh & Hsh) Hno]. split.
    + exists sh. by apply Hlive.
    + intros p. rewrite Hpage. apply Hno.
  - intros p. rewrite Hpage. intros Hp. destruct (W2 p Hp) as (sh & Hsh).
    exists sh. by apply Hlive.
  - intros id sh Hl. apply W3. by apply Hlive.
  - intros id sh Hl. apply W4 with id. by apply Hlive.
  - rewrite (length_same_layout _ _ Hsame). done.
  - rewrite (shape_at_same_layout _ _ _ Hsame). done.
Qed.

Lemma shape_at_Some c id sh :
  shape_at c id = Some sh ->
  0 <= id < Z.of_nat (length c.(slot_buffers)) /\
  exists s, c.(slot_buffers) !! Z.to_nat id = Some s /\ sh = shape_of s.
Proof.
  unfold shape_at. destruct (Z.leb_spec 0 id); [|discriminate].
  destruct (slot_buffers c !! Z.to_nat id) as [s|] eqn:Hs; [|discriminate].
  intros [= <-]. split; [|eauto]. apply lookup_lt_Some in Hs. lia.
Qed.

Lemma slot_at_Ok c id b :
  slot_at c id = Ok b <->
  0 <= id /\ exists s, c.(slot_buffers) !! Z.to_nat id = Some s /\ b = Slot.object s.
Proof.
  unfold slot_at. rewrite fmap_Ok. split.
  - intros (s & Hs & ->). apply load_Ok in Hs as (? & ?). eauto.
  - intros (? & s & Hs & ->). exists s. split; [|done]. apply load_Ok. done.
Qed.

Lemma slot_at_shape c id b :
  slot_at c id = Ok b ->
  exists sh, shape_at c id = Some sh /\ Shape.addr sh = Buffer.cpu_addr b /\
             Shape.size sh = Buffer.size_bytes b /\ Shape.picked sh = Buffer.is_picked b.
Proof.
  rewrite slot_at_Ok. intros (Hid & s & Hs & ->).
  exists (shape_of s). unfold shape_at. destruct (Z.leb_spec 0 id); [|lia].
  rewrite Hs. done.
Qed.

Lemma shape_at_slot_at c id sh :
  shape_at c id = Some sh ->
  exists b, slot_at c id = Ok b /\ Shape.addr sh = Buffer.cpu_addr b /\
            Shape.size sh = Buffer.size_bytes b /\ Shape.picked sh = Buffer.is_picked b.
Proof.
  intros H. apply shape_at_Some in H as (Hid & s & Hs & ->).
  exists (Slot.object s). split; [|done]. apply slot_at_Ok. split; [lia|eauto].
Qed.

Lemma slot_update_Ok id f c c' :
  slot_update id f c = Ok c' <->
  0 <= id /\ exists s, c.(slot_buffers) !! Z.to_nat id = Some s /\
    c' = set_slot_buffers
           (<[Z.to_nat id := Slot.mk (f (Slot.object s)) (Slot.moved_from s)]>
              c.(slot_buffers)) c.
Proof.
  unfold slot_update. rewrite bind_Ok. split.
  - intros (s & Hs & H). apply load_Ok in Hs as (Hid & Hs).
    apply bind_Ok in H as (sb & Hsb & H). apply store_Ok in Hsb as (_ & ->).
    injection H as <-. eauto.
  - intros (Hid & s & Hs & ->). exists s. split; [by apply load_Ok|].
    apply bind_Ok. eexists. split; [|reflexivity]. apply store_Ok. split; [|done].
    apply lookup_lt_Some in Hs. lia.
Qed.

Lemma slot_update_same_layout id f c c' :
  keeps_shape f -> slot_update id f c = Ok c' -> same_layout c c'.
Proof.
  intros Hf. rewrite slot_update_Ok. intros (Hid & s & Hs & ->). split; [|reflexivity].
  simpl. rewrite list_fmap_insert. symmetry. apply list_insert_id.
  rewrite list_lookup_fmap, Hs. simpl. f_equal. unfold shape_of. simpl.
  destruct (Hf (Slot.object s)) as (-> & -> & ->). done.
Qed.

Lemma slot_update_shape_at id f c c' id' :
  slot_update id f c = Ok c' -> id' <> id -> shape_at c' id' = shape_at c id'.
Proof.
  rewrite slot_update_Ok. intros (Hid & s & Hs & ->) Hne. unfold shape_at. simpl.
  destruct (Z.leb_spec 0 id'); [|done]. rewrite list_lookup_insert_ne by lia. done.
Qed.

Lemma slot_update_page_table id f c c' :
  slot_update id f c = Ok c' -> c'.(page_table) = c.(page_table).
Proof. rewrite slot_update_Ok. intros (Hid & s & Hs & ->). reflexivity. Qed.

Lemma slot_update_length id f c c' :
  slot_update id f c = Ok c' -> length c'.(slot_buffers) = length c.(slot_buffers).
Proof.
  rewrite slot_update_Ok. intros (Hid & s & Hs & ->). simpl. apply length_insert.
Qed.

Lemma keeps_shape_MarkCpu addr size : keeps_shape (Buffer.MarkRegionAsCpuModified addr size).
Proof. intros b. done. Qed.

Lemma keeps_shape_MarkGpu addr size : keeps_shape (Buffer.MarkRegionAsGpuModified addr size).
Proof. intros b. done. Qed.

Lemma keeps_shape_UnmarkCpu addr size :
  keeps_shape (Buffer.UnmarkRegionAsCpuModified addr size).
Proof. intros b. done. Qed.

Lemma keeps_shape_IncreaseStreamScore n : keeps_shape (Buffer.IncreaseStreamScore n).
Proof. intros b. done. Qed.

Lemma keeps_shape_CachedCpuWrite addr size : keeps_shape (Buffer.CachedCpuWrite addr size).
Proof. intros b. done. Qed.

Lemma keeps_shape_FlushCachedWrites : keeps_shape Buffer.FlushCachedWrites.
Proof. intros b. done. Qed.

(** Replacing the buffer of a slot by the result of an enumeration of that
    same buffer keeps the layout. *)
Lemma slot_update_const_same_layout id b b' c c' :
  slot_at c id = Ok b ->
  Buffer.cpu_addr b' = Buffer.cpu_addr b ->
  Buffer.size_bytes b' = Buffer.size_bytes b ->
  Buffer.is_picked b' = Buffer.is_picked b ->
  slot_update id (fun _ => b') c = Ok c' -> same_layout c c'.
Proof.
  rewrite slot_at_Ok. intros (_ & s & Hs & ->) Ha Hsz Hp.
  rewrite slot_update_Ok. intros (Hid & s' & Hs' & ->). split; [|reflexivity].
  simpl. rewrite list_fmap_insert. symmetry. apply list_insert_id.
  rewrite list_lookup_fmap, Hs'. simpl. f_equal. unfold shape_of. simpl.
  assert (s' = s) as -> by congruence. rewrite Ha, Hsz, Hp. done.
Qed.

(** ** The overlap scan *)

Lemma page_table_at_Ok c page id :
  page_table_at c page = Ok id <-> page_in_range page = true /\ id = page_of c page.
Proof.
  unfold page_table_at, page_of. destruct (page_in_range page); split.
  - intros [= <-]. done.
  - intros (_ & ->). done.
  - discriminate.
  - intros (? & _). discriminate.
Qed.

Lemma page_in_range_iff page : page_in_range page = true <-> 0 <= page < 8388608.
Proof. unfold page_in_range. rewrite NUM_PAGES_eq. lia. Qed.

Lemma id_bool_false id : id_bool id = false <-> id = UNSET_BUFFER_ID.
Proof. unfold id_bool, UNSET_BUFFER_ID. rewrite negb_false_iff. lia. Qed.

(** The three ways one iteration of the scan can go. *)
Lemma ResolveOverlaps_body_cases s c s' c' :
  ResolveOverlaps_body s c = Ok (s', c') ->
  let page := Z.shiftr (Scan.cpu_addr s) PAGE_BITS in
  page_in_range page = true /\
  ((s' = next_page s /\ c' = c /\
    (page_of c page = UNSET_BUFFER_ID \/
     exists b, slot_at c (page_of c page) = Ok b /\ Buffer.is_picked b = true)) \/
   (exists overlap,
      page_of c page <> UNSET_BUFFER_ID /\
      slot_at c (page_of c page) = Ok overlap /\ Buffer.is_picked overlap = false /\
      slot_update (page_of c page) Buffer.Pick c = Ok c' /\
      s' = next_page (pick_overlap (page_of c page) overlap s))).
Proof.
  intros H page. unfold ResolveOverlaps_body in H.
  apply bind_Ok in H as (id & Hid & H). apply page_table_at_Ok in Hid as (Hr & ->).
  fold page in H |- *. split; [exact Hr|].
  destruct (id_bool (page_of c page)) eqn:Hb; simpl in H.
  - apply bind_Ok in H as (overlap & Hov & H).
    destruct (Buffer.IsPicked overlap) eqn:Hp.
    + injection H as <- <-. left. repeat split. right. eauto.
    + apply bind_Ok in H as (c1 & Hc1 & H). injection H as <- <-. right.
      exists overlap. repeat split; try done.
      intros Hu. apply id_bool_false in Hu. congruence.
  - injection H as <- <-. left. repeat split. left. by apply id_bool_false.
Qed.

Lemma slot_update_Pick_shape c id c' :
  slot_update id Buffer.Pick c = Ok c' ->
  exists sh, shape_at c id = Some sh /\
    shape_at c' id = Some (Shape.mk (Shape.addr sh) (Shape.size sh) true (Shape.moved sh)).
Proof.
  rewrite slot_update_Ok. intros (Hid & s & Hs & ->).
  exists (shape_of s). unfold shape_at. simpl. destruct (Z.leb_spec 0 id); [|lia].
  rewrite Hs. split; [done|].
  rewrite list_lookup_insert_eq by (by apply lookup_lt_Some in Hs). done.
Qed.

(** The null buffer owns no page. *)
Lemma layout_wf_null_no_page pending picks c page :
  layout_wf pending picks c -> pending <> Some NULL_BUFFER_ID ->
  page_of c page <> NULL_BUFFER_ID.
Proof.
  intros W Hp Hpage.
  assert (Hl : live c NULL_BUFFER_ID (Shape.mk 0 0 false false))
    by (split; [apply W | done]).
  apply (wf_pages _ _ _ W _ _ Hl Hp) in Hpage.
  apply covers_iff in Hpage; simpl in *; unfold ADDRESS_SPACE; lia.
Qed.

Lemma live_inj c id sh sh' : live c id sh -> live c id sh' -> sh = sh'.
Proof. intros [H _] [H' _]. congruence. Qed.

(** An id found in the page table is a live buffer. *)
Lemma layout_wf_owner_slot pending picks c page :
  layout_wf pending picks c -> page_of c page <> UNSET_BUFFER_ID ->
  exists sh b, live c (page_of c page) sh /\ slot_at c (page_of c page) = Ok b /\
               Shape.addr sh = Buffer.cpu_addr b /\ Shape.size sh = Buffer.size_bytes b /\
               Shape.picked sh = Buffer.is_picked b.
Proof.
  intros W Hp. destruct (wf_owner _ _ _ W _ Hp) as (sh & Hl).
  destruct (shape_at_slot_at _ _ _ (proj1 Hl)) as (b & Hb & ?).
  exists sh, b. done.
Qed.
Ltac div_facts a :=
  pose proof (Z.div_mod a 65536 ltac:(lia));
  pose proof (Z.mod_pos_bound a 65536 ltac:(lia)).

Lemma next_page_fields s :
  0 <= Scan.cpu_addr s < 2 ^ 40 ->
  Scan.cpu_addr (next_page s) = Scan.cpu_addr s + 65536 /\
  Scan.begin (next_page s) = Scan.begin s /\
  Scan.end_ (next_page s) = Scan.end_ s /\
  Scan.has_stream_leap (next_page s) = Scan.has_stream_leap s /\
  Scan.overlap_ids (next_page s) = Scan.overlap_ids s /\
  Scan.stream_score (next_page s) = Scan.stream_score s.
Proof.
  intros H. unfold next_page. simpl. rewrite PAGE_SIZE_eq.
  rewrite u64_id by (unfold is_u64; lia). done.
Qed.

Lemma scan_inv_next_page M a0 w s c :
  scan_inv M a0 w s c ->
  page_in_range (Z.shiftr (Scan.cpu_addr s) PAGE_BITS) = true ->
  (page_of c (Z.shiftr (Scan.cpu_addr s) PAGE_BITS) = UNSET_BUFFER_ID \/
   page_of c (Z.shiftr (Scan.cpu_addr s) PAGE_BITS) ∈ Scan.overlap_ids s) ->
  scan_inv M a0 w (next_page s) c.
Proof.
  intros [Wf Hb Hnd Hids Hbeg Hend Hcov] Hr Hp.
  rewrite shiftr_PAGE_BITS in *. apply page_in_range_iff in Hr.
  div_facts (Scan.cpu_addr s).
  destruct (next_page_fields s ltac:(lia)) as (E1 & E2 & E3 & E4 & E5 & E6).
  split; rewrite ?E1, ?E2, ?E3, ?E4, ?E5; try done.
  - lia.
  - intros page Hpage. div_facts (Scan.cpu_addr s + 65536).
    destruct (Z.eq_dec page (Scan.cpu_addr s / 65536)) as [->|Hne]; [exact Hp|].
    apply Hcov. lia.
Qed.

(** Marking a live, unmarked buffer as picked. *)
Lemma live_after_Pick c id c' :
  slot_update id Buffer.Pick c = Ok c' ->
  forall id' sh', live c' id' sh' <->
    exists sh, live c id' sh /\ Shape.addr sh' = Shape.addr sh /\
               Shape.size sh' = Shape.size sh /\ Shape.moved sh' = Shape.moved sh /\
               Shape.picked sh' = (if decide (id' = id) then true else Shape.picked sh).
Proof.
  intros Hup id' sh'. destruct (slot_update_Pick_shape _ _ _ Hup) as (sh0 & H0 & H0').
  unfold live. destruct (decide (id' = id)) as [->|Hne].
  - rewrite H0', H0. split.
    + intros ([= <-] & Hm). simpl in *. exists sh0. done.
    + intros (sh & ([= <-] & Hm) & Ha & Hs & Hmv & Hp). destruct sh' as [a z p m].
      simpl in *. subst. done.
  - rewrite (slot_update_shape_at _ _ _ _ _ Hup Hne). split.
    + intros (Hs & Hm). exists sh'. done.
    + intros (sh & (Hs & Hm) & Ha & Hz & Hmv & Hp). destruct sh' as [a z p m], sh as [a1 z1 p1 m1].
      simpl in *. subst. done.
Qed.

Lemma covers_same sh sh' p :
  Shape.addr sh' = Shape.addr sh -> Shape.size sh' = Shape.size sh ->
  covers sh' p <-> covers sh p.
Proof. unfold covers. intros -> ->. done. Qed.

Lemma layout_wf_Pick picks c id sh c' :
  layout_wf None picks c -> live c id sh -> id <> NULL_BUFFER_ID ->
  slot_update id Buffer.Pick c = Ok c' ->
  layout_wf None (picks ++ [id]) c'.
Proof.
  intros W Hl Hnull Hup.
  assert (Hlive := live_after_Pick _ _ _ Hup).
  assert (Hpt : forall p, page_of c' p = page_of c p).
  { intros p. unfold page_of. rewrite (slot_update_page_table _ _ _ _ Hup). done. }
  destruct W as [W0 W1 Wp W2 W3 W4 W5 W6]. split.
  - intros p i. rewrite (slot_update_page_table _ _ _ _ Hup). apply W0.
  - intros i sh' Hi _ p. apply Hlive in Hi as (sh0 & Hi & Ha & Hz & _).
    rewrite Hpt, (covers_same sh0 sh') by done. by apply W1.
  - discriminate.
  - intros p. rewrite Hpt. intros Hp. destruct (W2 p Hp) as (sh0 & Hsh0).
    eexists (Shape.mk _ _ _ _). apply Hlive. exists sh0. split; [exact Hsh0|]. simpl. done.
  - intros i sh' Hi. apply Hlive in Hi as (sh0 & Hi & _ & _ & _ & Hp).
    rewrite Hp, elem_of_app, list_elem_of_singleton. destruct (decide (i = id)) as [->|Hne].
    + tauto.
    + rewrite (W3 _ _ Hi). tauto.
  - intros i sh' Hi. apply Hlive in Hi as (sh0 & Hi & -> & -> & _). by apply W4 in Hi.
  - rewrite (slot_update_length _ _ _ _ Hup). done.
  - rewrite (slot_update_shape_at _ _ _ _ _ Hup) by done. done.
Qed.

Lemma scan_inv_pick M a0 w s c id overlap c' :
  M <= 2 ^ 62 ->
  scan_inv M a0 w s c ->
  page_in_range (Z.shiftr (Scan.cpu_addr s) PAGE_BITS) = true ->
  id = page_of c (Z.shiftr (Scan.cpu_addr s) PAGE_BITS) ->
  id <> UNSET_BUFFER_ID ->
  slot_at c id = Ok overlap -> Buffer.is_picked overlap = false ->
  slot_update id Buffer.Pick c = Ok c' ->
  scan_inv M a0 w (next_page (pick_overlap id overlap s)) c'.
Proof.
  intros HM [Wf Hb Hnd Hids Hbeg Hend Hcov] Hr Hid Hset Hslot Hunpicked Hup.
  rewrite shiftr_PAGE_BITS in *. apply page_in_range_iff in Hr.
  div_facts (Scan.cpu_addr s).
  assert (Hown : exists sh, live c id sh /\ Shape.addr sh = Buffer.cpu_addr overlap /\
                   Shape.size sh = Buffer.size_bytes overlap /\ Shape.picked sh = false).
  { rewrite Hid in Hset. destruct (layout_wf_owner_slot _ _ _ _ Wf Hset)
      as (sh & b & Hl & Hb' & Ha & Hz & Hp).
    rewrite <- Hid in *. assert (b = overlap) as -> by congruence.
    exists sh. rewrite Hp. done. }
  destruct Hown as (sh & Hl & Ha & Hz & Hp).
  assert (Hnull : id <> NULL_BUFFER_ID).
  { rewrite Hid. eapply layout_wf_null_no_page; [exact Wf | done]. }
  assert (Hnotin : id ∉ Scan.overlap_ids s).
  { intros Hin. apply (wf_picked _ _ _ Wf _ _ Hl) in Hin. congruence. }
  assert (Hext := wf_extent _ _ _ Wf _ _ Hl). unfold ADDRESS_SPACE in Hext.
  assert (HshM := Hb _ _ Hl).
  assert (Hcovers : covers sh (Scan.cpu_addr s / 65536)).
  { apply (wf_pages _ _ _ Wf _ _ Hl); done. }
  apply covers_iff in Hcovers; [|unfold ADDRESS_SPACE; lia|lia].
  assert (Hlive := live_after_Pick _ _ _ Hup).
  assert (Hpt : forall p, page_of c' p = page_of c p).
  { intros p. unfold page_of. rewrite (slot_update_page_table _ _ _ _ Hup). done. }
  assert (Hlive_old : forall i sh0, live c i sh0 ->
            exists sh', live c' i sh' /\ Shape.addr sh' = Shape.addr sh0 /\
                        Shape.size sh' = Shape.size sh0).
  { intros i sh0 Hi.
    exists (Shape.mk (Shape.addr sh0) (Shape.size sh0)
                     (if decide (i = id) then true else Shape.picked sh0) (Shape.moved sh0)).
    split; [|done]. apply Hlive. exists sh0. done. }
  assert (Wf' := layout_wf_Pick _ _ _ _ _ Wf Hl Hnull Hup).
  set (a := Buffer.cpu_addr overlap) in *. set (z := Buffer.size_bytes overlap) in *.
  rewrite Ha, Hz in *.
  assert (Hu : u64 (a + z) = a + z) by (apply u64_id; unfold is_u64; lia).
  set (s1 := pick_overlap id overlap s).
  assert (Hs1 : Scan.overlap_ids s1 = Scan.overlap_ids s ++ [id] /\
                Scan.begin s1 = Z.min (Scan.begin s) a /\
                Scan.cpu_addr s1 = (if a <? Scan.begin s then a else Scan.cpu_addr s) /\
                Z.max (Scan.end_ s) (a + z) <= Scan.end_ s1 /\
                Scan.end_ s1 <= M + (if Scan.has_stream_leap s1 then 2 ^ 24 else 0)).
  { subst s1. unfold pick_overlap. fold a z. unfold Buffer.CpuAddr, Buffer.SizeBytes.
    fold a z. rewrite Hu. rewrite PAGE_SIZE_eq.
    destruct (Z.ltb_spec a (Scan.begin s));
      destruct (_ && _) eqn:Hleap; simpl;
      rewrite ?u64_id by (unfold is_u64; destruct (Scan.has_stream_leap s); lia);
      repeat split; try done; try lia.
    all: try (apply andb_true_iff in Hleap as (_ & Hleap);
              apply negb_true_iff in Hleap; rewrite Hleap in Hend; lia).
    all: destruct (Scan.has_stream_leap s); lia. }
  destruct Hs1 as (I1 & I2 & I3 & I4 & I5).
  assert (Hc1 : 0 <= Scan.cpu_addr s1 < 2 ^ 40).
  { rewrite I3. destruct (a <? Scan.begin s); lia. }
  destruct (next_page_fields s1 Hc1) as (E1 & E2 & E3 & E4 & E5 & E6).
  split; rewrite ?E1, ?E2, ?E3, ?E4, ?E5, ?I1, ?I2; try done.
  - intros i sh' Hi. apply Hlive in Hi as (sh0 & Hi & -> & -> & _). eauto.
  - apply NoDup_app. split; [done|]. split; [|apply NoDup_singleton].
    intros x Hx Hx'. apply list_elem_of_singleton in Hx'. congruence.
  - intros i Hi. apply elem_of_app in Hi as [Hi|Hi].
    + destruct (Hids i Hi) as (sh0 & Hl0 & ? & ?).
      destruct (Hlive_old _ _ Hl0) as (sh' & Hl' & Ea & Ez).
      exists sh'. split; [done|]. rewrite Ea, Ez. lia.
    + apply list_elem_of_singleton in Hi as ->.
      destruct (Hlive_old _ _ Hl) as (sh' & Hl' & Ea & Ez).
      exists sh'. split; [done|]. rewrite Ea, Ez. lia.
  - rewrite I3. destruct (Z.ltb_spec a (Scan.begin s)); lia.
  - lia.
  - intros page Hpage. rewrite Hpt, elem_of_app, list_elem_of_singleton.
    rewrite I3 in Hpage.
    destruct (Z.ltb_spec a (Scan.begin s)).
    + right; right. rewrite Z.min_r in Hpage by lia.
      div_facts a. div_facts (a + 65536).
      assert (page = a / 65536) as -> by lia.
      apply (wf_pages _ _ _ Wf _ _ Hl); [done|].
      apply covers_iff; [unfold ADDRESS_SPACE; lia | lia |]. rewrite Ha, Hz. lia.
    + rewrite Z.min_l in Hpage by lia. div_facts (Scan.cpu_addr s + 65536).
      destruct (Z.eq_dec page (Scan.cpu_addr s / 65536)) as [->|Hne].
      * right; right. done.
      * destruct (Hcov page ltac:(lia)); tauto.
Qed.

Lemma scan_inv_body M a0 w s c s' c' :
  M <= 2 ^ 62 -> scan_inv M a0 w s c ->
  ResolveOverlaps_body s c = Ok (s', c') -> scan_inv M a0 w s' c'.
Proof.
  intros HM Hinv Hbody.
  apply ResolveOverlaps_body_cases in Hbody as (Hr & [(-> & -> & Hp)|Hpick]).
  - apply scan_inv_next_page; [done|done|].
    destruct (decide (page_of c (Z.shiftr (Scan.cpu_addr s) PAGE_BITS) = UNSET_BUFFER_ID))
      as [?|Hset]; [by left|].
    destruct Hp as [?|(b & Hb & Hpicked)]; [by left|]. right.
    destruct (layout_wf_owner_slot _ _ _ _ (si_wf _ _ _ _ _ Hinv) Hset)
      as (sh & b' & Hl & Hb' & _ & _ & Hp).
    apply (wf_picked _ _ _ (si_wf _ _ _ _ _ Hinv) _ _ Hl). congruence.
  - destruct Hpick as (overlap & Hset & Hslot & Hunpicked & Hup & ->).
    eapply scan_inv_pick; eauto.
Qed.

Lemma ResolveOverlaps_loop_inv M a0 w fuel : forall s c s' c',
  M <= 2 ^ 62 -> scan_inv M a0 w s c ->
  ResolveOverlaps_loop fuel s c = Ok (s', c') ->
  scan_inv M a0 w s' c' /\ scan_continues s' = false.
Proof.
  induction fuel as [|fuel IH]; intros s c s' c' HM Hinv H; simpl in H;
    destruct (scan_continues s) eqn:Hc; try discriminate.
  - injection H as <- <-. done.
  - apply bind_Ok in H as ([s1 c1] & Hbody & H).
    eapply IH; [done | | exact H]. eapply scan_inv_body; eauto.
  - injection H as <- <-. done.
Qed.

Lemma scan_inv_start M a0 w c :
  cache_wf c -> 0 <= a0 < 2 ^ 39 -> 0 <= w < 2 ^ 32 -> a0 + w <= M ->
  (forall id sh, live c id sh -> Shape.addr sh + Shape.size sh <= M) ->
  scan_inv M a0 w (scan_start a0 w) c.
Proof.
  intros W Ha Hw HM Hb. unfold scan_start. split; simpl.
  - exact W.
  - exact Hb.
  - apply NoDup_nil_2.
  - intros id Hid. by apply elem_of_nil in Hid.
  - lia.
  - rewrite u64_id by (unfold is_u64; lia). lia.
  - intros page Hp. lia.
Qed.

(** Every live buffer of a well-formed cache ends below [2 ^ 40]. *)
Lemma cache_wf_bound pending picks c id sh :
  layout_wf pending picks c -> live c id sh -> Shape.addr sh + Shape.size sh <= 2 ^ 40.
Proof.
  intros W Hl. apply (wf_extent _ _ _ W) in Hl. unfold ADDRESS_SPACE in Hl. lia.
Qed.

(** ** Registering and unregistering *)

Lemma page_table_store_Ok page id c c' :
  page_table_store page id c = Ok c' <->
  page_in_range page = true /\ c' = set_page_table (<[page := id]> c.(page_table)) c.
Proof.
  unfold page_table_store. destruct (page_in_range page); split.
  - intros [= <-]. done.
  - intros (_ & ->). done.
  - discriminate.
  - intros (? & _). discriminate.
Qed.

(** Writing [id] to every page of a list. *)
Lemma store_pages_Ok id pages : forall c c',
  for_each (fun page c => page_table_store page id c) pages c = Ok c' ->
  c'.(slot_buffers) = c.(slot_buffers) /\
  (forall page, page ∈ pages -> page_in_range page = true) /\
  (forall page, c'.(page_table) !! page =
                if decide (page ∈ pages) then Some id else c.(page_table) !! page).
Proof.
  induction pages as [|p pages IH]; intros c c' H; simpl in H.
  - injection H as <-. split; [done|]. split.
    + intros page Hp. by apply elem_of_nil in Hp.
    + intros page. destruct (decide _) as [Hp|]; [by apply elem_of_nil in Hp | done].
  - apply bind_Ok in H as (c1 & Hc1 & H). apply page_table_store_Ok in Hc1 as (Hr & ->).
    destruct (IH _ _ H) as (Hs & Hrange & Hpt). split; [|split].
    + rewrite Hs. done.
    + intros page Hp. apply elem_of_cons in Hp as [->|Hp]; [done | by apply Hrange].
    + intros page. rewrite Hpt. simpl.
      destruct (decide (page ∈ pages)) as [Hin|Hnin].
      * rewrite decide_True by (by right). done.
      * destruct (decide (page = p)) as [->|Hne].
        -- rewrite decide_True by (by left). apply lookup_insert_eq.
        -- rewrite decide_False by (intros [?|?]%elem_of_cons; done).
           by apply lookup_insert_ne.
Qed.

Lemma store_pages_fields id pages : forall c c',
  for_each (fun page c => page_table_store page id c) pages c = Ok c' ->
  c' = set_page_table c'.(page_table) c.
Proof.
  induction pages as [|p pages IH]; intros c c' H; simpl in H.
  - injection H as <-. by destruct c.
  - apply bind_Ok in H as (c1 & Hc1 & H). apply page_table_store_Ok in Hc1 as (Hr & ->).
    apply IH in H. rewrite H. reflexivity.
Qed.

(** What [ChangeRegister] does to the layout. *)
Lemma ChangeRegister_Ok insert id c c' :
  ChangeRegister insert id c = Ok c' ->
  exists sh, shape_at c id = Some sh /\
    c' = set_page_table c'.(page_table) c /\
    (forall page, covers sh page -> page_in_range page = true) /\
    (forall page, c'.(page_table) !! page =
                  if decide (covers sh page)
                  then Some (if insert then id else UNSET_BUFFER_ID)
                  else c.(page_table) !! page).
Proof.
  unfold ChangeRegister. intros H. apply bind_Ok in H as (b & Hb & H).
  destruct (slot_at_shape _ _ _ Hb) as (sh & Hsh & Ha & Hz & _).
  unfold Buffer.CpuAddr, Buffer.SizeBytes in H.
  destruct (Z.leb_spec (Buffer.cpu_addr b / PAGE_SIZE)
              (DivCeil (u64 (Buffer.cpu_addr b + Buffer.size_bytes b)) PAGE_SIZE));
    [|discriminate].
  exists sh. split; [exact Hsh|]. split; [eapply store_pages_fields, H|].
  destruct (store_pages_Ok _ _ _ _ H) as (_ & Hrange & Hpt).
  assert (Hcov : forall page, covers sh page <->
            page ∈ seqZ (Buffer.cpu_addr b / PAGE_SIZE)
                     (DivCeil (u64 (Buffer.cpu_addr b + Buffer.size_bytes b)) PAGE_SIZE -
                      Buffer.cpu_addr b / PAGE_SIZE)).
  { intros page. rewrite elem_of_seqZ. unfold covers, page_begin, page_end.
    rewrite Ha, Hz. lia. }
  split.
  - intros page Hp. apply Hrange, Hcov, Hp.
  - intros page. rewrite Hpt.
    destruct (decide (covers sh page)) as [Hc|Hc].
    + rewrite decide_True by (by apply Hcov). done.
    + rewrite decide_False by (by rewrite <- Hcov). done.
Qed.

Lemma ChangeRegister_page_of insert id c c' sh :
  ChangeRegister insert id c = Ok c' -> shape_at c id = Some sh ->
  forall page, page_of c' page =
               if decide (covers sh page)
               then (if insert then id else UNSET_BUFFER_ID) else page_of c page.
Proof.
  intros H Hsh page. destruct (ChangeRegister_Ok _ _ _ _ H) as (sh' & Hsh' & _ & _ & Hpt).
  assert (sh' = sh) as -> by congruence.
  unfold page_of. rewrite Hpt. destruct (decide _); done.
Qed.

(** ** Deleting a buffer *)

Lemma NotifyBufferDeletion_same_layout P c : same_layout c (NotifyBufferDeletion P c).
Proof.
  unfold NotifyBufferDeletion. destruct (HAS_PERSISTENT_UNIFORM_BUFFER_BINDINGS P);
    apply same_layout_fields; reflexivity.
Qed.

Lemma DeleteBuffer_layout P id c c' :
  DeleteBuffer P id c = Ok c' -> deleted_layout id c c'.
Proof.
  unfold DeleteBuffer. intros H.
  set (c0 := set_cached_write_buffer_ids _ _) in H.
  assert (H0 : same_layout c c0) by (apply same_layout_fields; reflexivity).
  clearbody c0.
  apply bind_Ok in H as (b & Hb & H). apply bind_Ok in H as (c1 & Hc1 & H).
  apply bind_Ok in H as (c2 & Hc2 & H). apply bind_Ok in H as (s & Hs & H).
  apply bind_Ok in H as (sb & Hsb & H). injection H as <-.
  assert (H1 : same_layout c c1).
  { eapply same_layout_trans; [exact H0|].
    eapply slot_update_same_layout; [|exact Hc1]. apply keeps_shape_MarkCpu. }
  unfold Unregister in Hc2.
  destruct (ChangeRegister_Ok _ _ _ _ Hc2) as (sh & Hsh & Hc2' & Hrange & Hpt).
  rewrite (shape_at_same_layout _ _ _ H1) in Hsh.
  assert (Hsb2 : c2.(slot_buffers) = c1.(slot_buffers)) by (rewrite Hc2'; reflexivity).
  apply load_Ok in Hs as (Hid & Hs). apply store_Ok in Hsb as (Hlen & ->).
  simpl in Hlen.
  assert (Hsh2 : forall i, shape_at c2 i = shape_at c i).
  { intros i. unfold shape_at. rewrite Hsb2. apply (shape_at_same_layout _ _ _ H1). }
  assert (Hshs : sh = shape_of s).
  { specialize (Hsh2 id). unfold shape_at in Hsh2 at 1.
    destruct (Z.leb_spec 0 id); [|lia]. rewrite Hs in Hsh2. simpl in Hsh2. congruence. }
  set (c3 := set_slot_buffers _ _).
  pose proof (NotifyBufferDeletion_same_layout P c3) as HN.
  exists sh. split; [exact Hsh|]. split; [|split; [|split; [|split]]].
  - rewrite (shape_at_same_layout _ _ _ HN). unfold shape_at, c3. simpl.
    destruct (Z.leb_spec 0 id); [|lia].
    rewrite list_lookup_insert_eq by lia. simpl. rewrite Hshs. done.
  - intros i Hne. rewrite (shape_at_same_layout _ _ _ HN).
    rewrite <- Hsh2. unfold shape_at, c3. simpl. destruct (Z.leb_spec 0 i); [|done].
    rewrite list_lookup_insert_ne by lia. done.
  - rewrite (length_same_layout _ _ HN). unfold c3. simpl.
    rewrite length_insert, Hsb2. apply (length_same_layout _ _ H1).
  - exact Hrange.
  - intros page. destruct HN as [_ <-]. unfold c3. simpl. rewrite Hpt.
    destruct H1 as [_ <-]. done.
Qed.

Lemma deleted_layout_after_same c c1 c' id :
  same_layout c c1 -> deleted_layout id c1 c' -> deleted_layout id c c'.
Proof.
  intros Hs (sh & H1 & H2 & H3 & H4 & H5 & H6). exists sh.
  rewrite (shape_at_same_layout _ _ _ Hs) in H1.
  split; [done|]. split; [done|]. split.
  - intros i Hi. rewrite H3 by done. apply (shape_at_same_layout _ _ _ Hs).
  - split; [rewrite H4; apply (length_same_layout _ _ Hs)|]. split; [done|].
    intros page. rewrite H6. destruct Hs as [_ <-]. done.
Qed.

Lemma ReplaceBufferDownloads_same_layout old new c :
  same_layout c (ReplaceBufferDownloads old new c).
Proof. apply same_layout_fields; reflexivity. Qed.

Lemma log_same_layout e c : same_layout c (log e c).
Proof. apply same_layout_fields; reflexivity. Qed.

Lemma ForEachDownloadRange_shape addr size b :
  let b' := snd (Buffer.ForEachDownloadRange addr size b) in
  Buffer.cpu_addr b' = Buffer.cpu_addr b /\ Buffer.size_bytes b' = Buffer.size_bytes b /\
  Buffer.is_picked b' = Buffer.is_picked b.
Proof. done. Qed.

Lemma ForEachUploadRange_shape addr size b :
  let b' := snd (Buffer.ForEachUploadRange addr size b) in
  Buffer.cpu_addr b' = Buffer.cpu_addr b /\ Buffer.size_bytes b' = Buffer.size_bytes b /\
  Buffer.is_picked b' = Buffer.is_picked b.
Proof. done. Qed.

Lemma keeps_shape_fold {A} (step : Buffer.t -> A -> Buffer.t) (l : list A) :
  (forall x, keeps_shape (fun b => step b x)) ->
  keeps_shape (fun b => fold_left step l b).
Proof.
  intros Hstep. induction l as [|x l IH]; intros b; cbn [fold_left]; [done|].
  destruct (IH (step b x)) as (E1 & E2 & E3). destruct (Hstep x b) as (F1 & F2 & F3).
  rewrite E1, E2, E3. done.
Qed.

Lemma keeps_shape_join_range range : keeps_shape (fun b => join_range b range).
Proof. intros b. destruct range. done. Qed.

Lemma slot_update_const_shape id b' c c' sh :
  shape_at c id = Some sh ->
  Shape.addr sh = Buffer.cpu_addr b' -> Shape.size sh = Buffer.size_bytes b' ->
  Shape.picked sh = Buffer.is_picked b' ->
  slot_update id (fun _ => b') c = Ok c' -> same_layout c c'.
Proof.
  intros Hsh Ha Hz Hp. apply shape_at_Some in Hsh as (_ & s & Hs & ->).
  rewrite slot_update_Ok. intros (Hid & s' & Hs' & ->). split; [|reflexivity].
  simpl. rewrite list_fmap_insert. symmetry. apply list_insert_id.
  rewrite list_lookup_fmap, Hs'. simpl. f_equal. unfold shape_of in *. simpl in *.
  assert (s' = s) as -> by congruence. rewrite <- Ha, <- Hz, <- Hp. done.
Qed.

(** Joining an overlap deletes it and touches nothing else of the layout. *)
Lemma JoinOverlap_layout P new_id id acc c c' :
  JoinOverlap P new_id id acc c = Ok c' -> deleted_layout id c c'.
Proof.
  unfold JoinOverlap. intros H.
  apply bind_Ok in H as (nb & Hnb & H). apply bind_Ok in H as (ov & Hov & H).
  apply bind_Ok in H as (c1 & Hc1 & H).
  assert (H1 : same_layout c c1).
  { destruct acc; [|by injection Hc1 as <-; apply same_layout_refl].
    eapply slot_update_same_layout; [|exact Hc1]. apply keeps_shape_IncreaseStreamScore. }
  unfold Buffer.ForEachDownloadRangeAll in H.
  pose proof (ForEachDownloadRange_shape (Buffer.cpu_addr ov) (Buffer.size_bytes ov) ov)
    as Hshape.
  destruct (Buffer.ForEachDownloadRange _ _ ov) as [ranges ov'] eqn:Hranges.
  simpl in Hshape. destruct Hshape as (Ea & Ez & Ep).
  apply bind_Ok in H as (c2 & Hc2 & H). apply bind_Ok in H as (c3 & Hc3 & H).
  destruct (slot_at_shape _ _ _ Hov) as (sh & Hsh & Sa & Sz & Sp).
  assert (H2 : same_layout c1 c2).
  { eapply (slot_update_const_shape id ov' c1 c2 sh); [|congruence..|exact Hc2].
    rewrite (shape_at_same_layout _ _ _ H1). exact Hsh. }
  assert (H3 : same_layout c2 c3).
  { eapply slot_update_same_layout; [|exact Hc3].
    apply (keeps_shape_fold join_range), keeps_shape_join_range. }
  apply DeleteBuffer_layout in H.
  eapply deleted_layout_after_same; [|exact H].
  eapply same_layout_trans; [exact H1|]. eapply same_layout_trans; [exact H2|].
  eapply same_layout_trans; [exact H3|]. eapply same_layout_trans.
  2: apply ReplaceBufferDownloads_same_layout.
  destruct (map _ ranges); [apply same_layout_refl | apply log_same_layout].
Qed.

(** ** Creating a buffer *)

Lemma live_id_range pending picks c id sh :
  layout_wf pending picks c -> live c id sh -> 0 <= id < INVALID_INDEX.
Proof.
  intros W [H _]. apply shape_at_Some in H as (H & _).
  pose proof (wf_slots _ _ _ W). lia.
Qed.

Lemma live_not_unset pending picks c id sh :
  layout_wf pending picks c -> live c id sh -> id <> UNSET_BUFFER_ID.
Proof. intros W Hl. pose proof (live_id_range _ _ _ _ _ W Hl). unfold UNSET_BUFFER_ID. lia. Qed.

Lemma slot_insert_Ok b c id c' :
  slot_insert b c = Ok (id, c') <->
  id = Z.of_nat (length c.(slot_buffers)) /\ id < INVALID_INDEX /\
  c' = set_slot_buffers (c.(slot_buffers) ++ [Slot.mk b false]) c.
Proof.
  unfold slot_insert. destruct (Z.ltb_spec (Z.of_nat (length (slot_buffers c))) INVALID_INDEX);
    split.
  - intros [= <- <-]. done.
  - intros (-> & _ & ->). done.
  - discriminate.
  - intros (-> & ? & _). lia.
Qed.

Lemma slot_insert_shape_at b c id c' :
  slot_insert b c = Ok (id, c') ->
  shape_at c' id =
    Some (Shape.mk (Buffer.cpu_addr b) (Buffer.size_bytes b) (Buffer.is_picked b) false) /\
  (forall i, i <> id -> shape_at c' i = shape_at c i) /\
  shape_at c id = None /\
  c'.(page_table) = c.(page_table).
Proof.
  rewrite slot_insert_Ok. intros (-> & Hlt & ->). unfold shape_at. simpl.
  split; [|split; [|split; [|done]]].
  - destruct (Z.leb_spec 0 (Z.of_nat (length (slot_buffers c)))); [|lia].
    rewrite Nat2Z.id, lookup_app_r, Nat.sub_diag by lia. done.
  - intros i Hi. destruct (Z.leb_spec 0 i); [|done].
    destruct (decide (Z.to_nat i < length (slot_buffers c))%nat).
    + rewrite lookup_app_l by lia. done.
    + rewrite !lookup_ge_None_2; [done | lia |]. rewrite length_app. simpl. lia.
  - destruct (Z.leb_spec 0 (Z.of_nat (length (slot_buffers c)))); [|done].
    rewrite lookup_ge_None_2; [done | lia].
Qed.

Lemma layout_wf_insert picks c b id c' :
  layout_wf None picks c ->
  (forall i, i ∈ picks -> exists sh, live c i sh) ->
  Buffer.is_picked b = false ->
  0 <= Buffer.cpu_addr b < ADDRESS_SPACE -> 0 <= Buffer.size_bytes b < 2 ^ 32 ->
  slot_insert b c = Ok (id, c') ->
  layout_wf (Some id) picks c'.
Proof.
  intros W Hpicks Hp Ha Hz Hins.
  destruct (slot_insert_shape_at _ _ _ _ Hins) as (Hnew & Hold & Hfresh & Hpt).
  apply slot_insert_Ok in Hins as (Hid & Hlt & Hc').
  assert (Hpage : forall p, page_of c' p = page_of c p).
  { intros p. unfold page_of. rewrite Hpt. done. }
  assert (Hlive : forall i sh, i <> id -> live c' i sh <-> live c i sh).
  { intros i sh Hi. unfold live. rewrite Hold by done. done. }
  assert (Hlive_old : forall i sh, live c i sh -> i <> id).
  { intros i sh [Hs _] ->. congruence. }
  destruct W as [W0 W1 Wp W2 W3 W4 W5 W6]. split.
  - intros p i. rewrite Hpt. apply W0.
  - intros i sh Hl Hne p. assert (i <> id) by congruence.
    rewrite Hpage. apply W1; [by apply Hlive | done].
  - intros i [= <-]. split.
    + eexists. split; [exact Hnew | done].
    + intros p. rewrite Hpage. intros Hpi.
      destruct (decide (page_of c p = UNSET_BUFFER_ID)) as [Hu|Hu].
      * rewrite Hu in Hpi. unfold UNSET_BUFFER_ID in Hpi. lia.
      * destruct (W2 p Hu) as (sh & Hsh). rewrite Hpi in Hsh.
        by apply Hlive_old in Hsh.
  - intros p. rewrite Hpage. intros Hu. destruct (W2 p Hu) as (sh & Hsh).
    exists sh. apply Hlive; [|done]. by eapply Hlive_old.
  - intros i sh Hl. destruct (decide (i = id)) as [->|Hne].
    + destruct Hl as [Hs _]. rewrite Hnew in Hs. injection Hs as <-. simpl. rewrite Hp.
      split; [discriminate|]. intros Hin. destruct (Hpicks _ Hin) as (sh & Hsh).
      by apply Hlive_old in Hsh.
    + apply W3. by apply Hlive.
  - intros i sh Hl. destruct (decide (i = id)) as [->|Hne].
    + destruct Hl as [Hs _]. rewrite Hnew in Hs. injection Hs as <-. simpl. done.
    + apply (W4 i). by apply Hlive.
  - rewrite Hc'. simpl. rewrite length_app. simpl. lia.
  - rewrite Hold; [done|]. intros <-. rewrite W6 in Hfresh. discriminate.
Qed.

(** Deleting a picked buffer while the new one is pending. *)
Lemma layout_wf_deleted n id rest c c' :
  layout_wf (Some n) (id :: rest) c ->
  id ∉ rest -> id <> n ->
  (exists sh, live c id sh) ->
  deleted_layout id c c' ->
  layout_wf (Some n) rest c'.
Proof.
  intros W Hnotin Hne (sh0 & Hl0) (sh & Hsh & Hsh' & Hothers & Hlen & Hrange & Hpt).
  assert (sh0 = sh) as -> by (destruct Hl0; congruence).
  assert (Hpage : forall p, page_of c' p =
            if decide (page_of c p = id) then UNSET_BUFFER_ID else page_of c p).
  { intros p. unfold page_of at 1. rewrite Hpt.
    pose proof (wf_pages _ _ _ W _ _ Hl0 ltac:(congruence) p) as Hiff.
    destruct (decide (covers sh p)) as [Hc|Hc];
      destruct (decide (page_of c p = id)) as [He|He]; try tauto. }
  assert (Hlive : forall i s, live c' i s <-> i <> id /\ live c i s).
  { intros i s. unfold live. destruct (decide (i = id)) as [->|Hi].
    - rewrite Hsh'. split; [|tauto]. intros ([= <-] & Hm). discriminate Hm.
    - rewrite Hothers by done. tauto. }
  assert (Hidnull : id <> NULL_BUFFER_ID).
  { intros ->. pose proof (wf_null _ _ _ W) as Hn.
    assert (Hl : live c NULL_BUFFER_ID (Shape.mk 0 0 false false)) by done.
    apply (wf_picked _ _ _ W) in Hl. simpl in Hl.
    assert (NULL_BUFFER_ID ∈ NULL_BUFFER_ID :: rest) by left. destruct Hl as [_ Hl].
    specialize (Hl H). discriminate. }
  destruct W as [W0 W1 Wp W2 W3 W4 W5 W6]. split.
  - intros p i. rewrite Hpt. destruct (decide (covers sh p)); [|apply W0].
    intros _. by apply Hrange.
  - intros i s Hl Hpend p. apply Hlive in Hl as (Hi & Hl). rewrite Hpage.
    destruct (decide (page_of c p = id)) as [He|He].
    + split.
      * intros Hu. exfalso. apply (live_not_unset _ _ _ _ _
          (mk_layout_wf _ _ _ W0 W1 Wp W2 W3 W4 W5 W6) Hl). done.
      * intros Hc. apply (W1 _ _ Hl Hpend) in Hc. congruence.
    + by apply W1.
  - intros i [= <-]. destruct (Wp n eq_refl) as ((s & Hs) & Hno). split.
    + exists s. apply Hlive. split; [congruence | done].
    + intros p. rewrite Hpage. destruct (decide _); [|apply Hno].
      intros Hu. apply (live_not_unset _ _ _ _ _
        (mk_layout_wf _ _ _ W0 W1 Wp W2 W3 W4 W5 W6) Hs). done.
  - intros p. rewrite Hpage. destruct (decide (page_of c p = id)) as [He|He]; [done|].
    intros Hu. destruct (W2 p Hu) as (s & Hs). exists s. apply Hlive. done.
  - intros i s Hl. apply Hlive in Hl as (Hi & Hl). rewrite (W3 _ _ Hl).
    rewrite elem_of_cons. split; [intros [?|?]; [congruence|done] | by right].
  - intros i s Hl. apply Hlive in Hl as (Hi & Hl). by apply (W4 i).
  - rewrite Hlen. done.
  - rewrite Hothers by done. done.
Qed.

(** Registering the pending buffer on pages that are all unset. *)
Lemma layout_wf_Register n c c' sh :
  layout_wf (Some n) [] c -> live c n sh ->
  (forall page, covers sh page -> page_of c page = UNSET_BUFFER_ID) ->
  Register n c = Ok c' ->
  layout_wf None [] c'.
Proof.
  intros W Hl Hfree Hreg. unfold Register in Hreg.
  pose proof (ChangeRegister_page_of _ _ _ _ _ Hreg (proj1 Hl)) as Hpage.
  destruct (ChangeRegister_Ok _ _ _ _ Hreg) as (sh' & Hsh' & Hc' & Hrange & Hpt).
  assert (sh' = sh) as -> by (destruct Hl; congruence).
  assert (Hshape : forall i, shape_at c' i = shape_at c i).
  { intros i. unfold shape_at. rewrite Hc'. done. }
  assert (Hlive : forall i s, live c' i s <-> live c i s).
  { intros i s. unfold live. rewrite Hshape. done. }
  pose proof (live_not_unset _ _ _ _ _ W Hl) as Hn.
  destruct W as [W0 W1 Wp W2 W3 W4 W5 W6]. split.
  - intros p i. rewrite Hpt. destruct (decide (covers sh p)); [|apply W0].
    intros _. by apply Hrange.
  - intros i s Hi _ p. apply Hlive in Hi. rewrite Hpage.
    destruct (decide (i = n)) as [->|Hne].
    + assert (s = sh) as -> by (eapply live_inj; eauto).
      destruct (decide (covers sh p)); [tauto|]. split; [|tauto].
      intros Hp. by apply (proj2 (Wp n eq_refl)) in Hp.
    + destruct (decide (covers sh p)) as [Hc|Hc].
      * split; [congruence|]. intros Hcs. apply (W1 _ _ Hi) in Hcs; [|congruence].
        rewrite (Hfree _ Hc) in Hcs.
        exfalso. eapply (live_not_unset _ _ _ _ _
          (mk_layout_wf _ _ _ W0 W1 Wp W2 W3 W4 W5 W6) Hi). done.
      * apply W1; [done | congruence].
  - discriminate.
  - intros p. rewrite Hpage. destruct (decide (covers sh p)).
    + intros _. exists sh. by apply Hlive.
    + intros Hu. destruct (W2 p Hu) as (s & Hs). exists s. by apply Hlive.
  - intros i s Hi. apply Hlive in Hi. by apply W3.
  - intros i s Hi. apply Hlive in Hi. by apply (W4 i).
  - rewrite Hc'. done.
  - rewrite Hshape. done.
Qed.

Lemma picked_only_refl c : picked_only c c.
Proof.
  split; [by destruct c|]. apply Forall2_same_length_lookup_2; [done|].
  intros i s s' H1 H2. left. congruence.
Qed.

Lemma picked_only_trans c1 c2 c3 :
  picked_only c1 c2 -> picked_only c2 c3 -> picked_only c1 c3.
Proof.
  intros [E1 F1] [E2 F2]. split.
  - rewrite E2 at 1. rewrite E1. reflexivity.
  - eapply Forall2_trans; [|exact F1|exact F2].
    intros x y z [-> | ->] [-> | ->]; auto.
Qed.

Lemma slot_update_Pick_picked_only id c c' :
  slot_update id Buffer.Pick c = Ok c' -> picked_only c c'.
Proof.
  rewrite slot_update_Ok. intros (Hid & s & Hs & ->). split; [reflexivity|]. simpl.
  apply Forall2_same_length_lookup_2; [by rewrite length_insert|].
  intros i x y Hx Hy. destruct (decide (i = Z.to_nat id)) as [->|Hne].
  - rewrite list_lookup_insert_eq in Hy by (by apply lookup_lt_Some in Hs).
    right. unfold pick_slot. congruence.
  - rewrite list_lookup_insert_ne in Hy by done. left. congruence.
Qed.

Lemma ResolveOverlaps_loop_picked_only fuel : forall s c s' c',
  ResolveOverlaps_loop fuel s c = Ok (s', c') -> picked_only c c'.
Proof.
  induction fuel as [|fuel IH]; intros s c s' c' H; simpl in H;
    destruct (scan_continues s); try discriminate.
  - injection H as <- <-. apply picked_only_refl.
  - apply bind_Ok in H as ([s1 c1] & Hbody & H).
    eapply picked_only_trans; [|eapply IH, H].
    apply ResolveOverlaps_body_cases in Hbody as (_ & [(_ & -> & _)|Hpick]).
    + apply picked_only_refl.
    + destruct Hpick as (? & _ & _ & _ & Hup & _).
      eapply slot_update_Pick_picked_only, Hup.
  - injection H as <- <-. apply picked_only_refl.
Qed.

Lemma picked_only_length c c' :
  picked_only c c' -> length c'.(slot_buffers) = length c.(slot_buffers).
Proof. intros [_ F]. symmetry. eapply Forall2_length, F. Qed.

Lemma picked_only_page_table c c' : picked_only c c' -> c'.(page_table) = c.(page_table).
Proof. intros [E _]. rewrite E. reflexivity. Qed.

Lemma deleted_layout_page_of n picks id c c' sh :
  layout_wf (Some n) picks c -> live c id sh -> id <> n ->
  deleted_layout id c c' ->
  forall p, page_of c' p = if decide (page_of c p = id) then UNSET_BUFFER_ID else page_of c p.
Proof.
  intros W Hl Hne (sh' & Hsh & _ & _ & _ & _ & Hpt) p.
  assert (sh' = sh) as -> by (destruct Hl; congruence).
  unfold page_of at 1. rewrite Hpt.
  pose proof (wf_pages _ _ _ W _ _ Hl ltac:(congruence) p) as Hiff.
  destruct (decide (covers sh p)) as [Hc|Hc];
    destruct (decide (page_of c p = id)) as [He|He]; try tauto.
Qed.

Lemma join_inv_step P n shn B E acc id rest c c' :
  join_inv n shn B E (id :: rest) c ->
  JoinOverlap P n id acc c = Ok c' ->
  join_inv n shn B E rest c'.
Proof.
  intros [W Hnd Hnew Hlive Hcov Hshape] Hjoin.
  apply JoinOverlap_layout in Hjoin.
  apply NoDup_cons in Hnd as (Hnotin & Hnd).
  assert (Hne : id <> n) by (intros ->; apply Hnew; left).
  destruct (Hlive id ltac:(left)) as (sh & Hl).
  pose proof (deleted_layout_page_of _ _ _ _ _ _ W Hl Hne Hjoin) as Hpage.
  split.
  - eapply layout_wf_deleted; eauto.
  - exact Hnd.
  - intros Hin. apply Hnew. by right.
  - intros i Hi. destruct (Hlive i ltac:(by right)) as (s & Hs & Hm).
    exists s. split; [|done]. destruct Hjoin as (? & _ & _ & Hothers & _).
    rewrite Hothers; [done|]. intros ->. done.
  - intros p Hp. rewrite Hpage. destruct (decide (page_of c p = id)) as [He|He]; [by left|].
    destruct (Hcov p Hp) as [?|Hin]; [by left|]. right.
    apply elem_of_cons in Hin as [?|?]; done.
  - destruct Hjoin as (? & _ & _ & Hothers & _). rewrite Hothers by congruence. done.
Qed.

Lemma join_inv_all P n shn B E acc : forall ids c c',
  join_inv n shn B E ids c ->
  for_each (fun overlap_id c => JoinOverlap P n overlap_id acc c) ids c = Ok c' ->
  join_inv n shn B E [] c'.
Proof.
  induction ids as [|id rest IH]; intros c c' Hinv H; simpl in H.
  - injection H as <-. done.
  - apply bind_Ok in H as (c1 & Hc1 & H). eapply IH; [|exact H].
    eapply join_inv_step; eauto.
Qed.

Lemma u32_le x : 0 <= x -> u32 x <= x.
Proof. intros H. unfold u32. apply Z.mod_le; lia. Qed.

(** What [CreateBuffer] establishes when it returns. *)
Lemma CreateBuffer_spec P fuel a0 wanted c id c' :
  cache_wf c -> 0 <= a0 < 2 ^ 39 ->
  CreateBuffer P fuel a0 wanted c = Ok (id, c') ->
  exists s cs,
    ResolveOverlaps_loop fuel (scan_start a0 (u32 wanted)) c = Ok (s, cs) /\
    scan_inv (2 ^ 40) a0 (u32 wanted) s cs /\ scan_continues s = false /\
    id = Z.of_nat (length c.(slot_buffers)) /\
    live c' id (Shape.mk (Scan.begin s) (u32 (Scan.end_ s - Scan.begin s)) false false) /\
    cache_wf c'.
Proof.
  intros W Ha H.
  assert (HM : 2 ^ 40 <= 2 ^ 62) by (clear; lia).
  unfold CreateBuffer, ResolveOverlaps in H. cbv zeta in H.
  pose proof (u32_range wanted) as Hw. unfold is_u32 in Hw.
  set (w := u32 wanted) in *.
  apply bind_Ok in H as ([r cs] & Hr & H).
  apply bind_Ok in Hr as ([s cs'] & Hloop & Hr). injection Hr as <- <-.
  assert (Hstart : scan_inv (2 ^ 40) a0 w (scan_start a0 w) c).
  { apply scan_inv_start; [done | done | done | clear -Ha Hw; lia |].
    intros i sh. apply cache_wf_bound with (1 := W). }
  destruct (ResolveOverlaps_loop_inv _ _ _ _ _ _ _ _ HM Hstart Hloop) as (Hinv & Hstop).
  exists s, cs'. split; [done|]. split; [done|]. split; [done|].
  simpl in H. apply bind_Ok in H as ([n c1] & Hins & H).
  apply bind_Ok in H as (c2 & Hjoin & H). apply bind_Ok in H as (c3 & Hreg & H).
  injection H as <- <-.
  destruct Hinv as [Wf Hb Hnd Hids Hbeg Hend Hcov].
  set (size := u32 (Scan.end_ s - Scan.begin s)) in *.
  set (shn := Shape.mk (Scan.begin s) size false false).
  assert (Hsize : 0 <= size < 2 ^ 32) by apply u32_range.
  assert (Hle : Scan.begin s <= Scan.end_ s) by lia.
  assert (Hsize' : size <= Scan.end_ s - Scan.begin s) by (apply u32_le; lia).
  destruct (slot_insert_shape_at _ _ _ _ Hins) as (Hnew & Hold & Hfresh & Hpt).
  assert (Hlive1 : forall i, i ∈ Scan.overlap_ids s -> exists sh, live cs' i sh /\ i <> n).
  { intros i Hi. destruct (Hids i Hi) as (sh & Hl & _). exists sh. split; [done|].
    intros ->. destruct Hl. congruence. }
  assert (W1 : layout_wf (Some n) (Scan.overlap_ids s) c1).
  { eapply layout_wf_insert; [exact Wf | | | | | exact Hins]; simpl.
    - intros i Hi. destruct (Hlive1 i Hi) as (sh & ? & _). eauto.
    - done.
    - unfold ADDRESS_SPACE. lia.
    - done. }
  assert (Hstop' : DivCeil (Scan.end_ s) PAGE_SIZE <= Scan.cpu_addr s / 65536).
  { unfold scan_continues in Hstop. rewrite shiftr_PAGE_BITS in Hstop. lia. }
  assert (Hend63 : 0 <= Scan.end_ s < 2 ^ 63) by (destruct (Scan.has_stream_leap s); lia).
  assert (J1 : join_inv n shn (Scan.begin s / 65536) (DivCeil (Scan.end_ s) PAGE_SIZE)
                 (Scan.overlap_ids s) c1).
  { split.
    - exact W1.
    - exact Hnd.
    - intros Hin. destruct (Hlive1 _ Hin) as (? & _ & ?). done.
    - intros i Hi. destruct (Hlive1 i Hi) as (sh & (Hs & Hm) & Hne). exists sh.
      split; [|done]. rewrite Hold by done. done.
    - intros p Hp. unfold page_of. rewrite Hpt. apply Hcov. lia.
    - exact Hnew. }
  apply join_inv_all with (1 := J1) in Hjoin.
  destruct Hjoin as [W2 _ _ _ Hcov2 Hshape2].
  assert (Hl2 : live c2 n shn) by done.
  assert (W3 : layout_wf None [] c3).
  { eapply layout_wf_Register; [exact W2 | exact Hl2 | | exact Hreg].
    intros p Hp. apply covers_iff in Hp; simpl; [|unfold ADDRESS_SPACE; lia | done].
    simpl in Hp. destruct (Hcov2 p) as [?|Hin]; [|done|by apply elem_of_nil in Hin].
    split; [pose proof (page_lt (p + 1) (Scan.begin s)); lia|]. apply lt_DivCeil; lia. }
  split.
  - apply slot_insert_Ok in Hins as (-> & _).
    rewrite (picked_only_length _ _ (ResolveOverlaps_loop_picked_only _ _ _ _ _ Hloop)). done.
  - split; [|exact W3]. unfold Register in Hreg.
    destruct (ChangeRegister_Ok _ _ _ _ Hreg) as (? & _ & Hc3 & _).
    split; [|done]. unfold shape_at. rewrite Hc3. exact Hshape2.
Qed.


(** ** Stream scores *)

Lemma accumulated_cons c id ids :
  accumulated c (id :: ids) = score_of c id + accumulated c ids.
Proof. reflexivity. Qed.

Lemma accumulated_app c ids1 ids2 :
  accumulated c (ids1 ++ ids2) = accumulated c ids1 + accumulated c ids2.
Proof.
  induction ids1 as [|id ids1 IH]; [reflexivity|].
  simpl. rewrite !accumulated_cons, IH. lia.
Qed.

Lemma leap_fold_fst c ids : forall st,
  fst (fold_left (leap_step c) ids st) = fst st + accumulated c ids.
Proof.
  induction ids as [|id ids IH]; intros st; simpl.
  - unfold accumulated. simpl. lia.
  - rewrite IH, accumulated_cons. simpl. lia.
Qed.

Lemma leap_fold_snd c ids : forall a b,
  snd (fold_left (leap_step c) ids (a, b)) = true <->
  b = true \/
  exists k, (0 < k <= length ids)%nat /\
            STREAM_LEAP_THRESHOLD < a + accumulated c (take k ids).
Proof.
  induction ids as [|id ids IH]; intros a b; simpl.
  - split; [auto|]. intros [H|(k & Hk & _)]; [done|lia].
  - unfold leap_step at 2. simpl. rewrite IH. rewrite orb_true_iff, Z.ltb_lt. split.
    + intros [[H|H]|(k & Hk & H)]; [by left| |].
      * right. exists 1%nat. split; [lia|].
        rewrite firstn_cons, take_0, accumulated_cons. unfold accumulated at 1. simpl. lia.
      * right. exists (S k). split; [lia|]. rewrite firstn_cons, accumulated_cons. lia.
    + intros [H|(k & Hk & H)]; [by left; left|].
      destruct k as [|k]; [lia|]. rewrite firstn_cons, accumulated_cons in H.
      destruct k as [|k].
      * left. right. rewrite take_0 in H. unfold accumulated in H. simpl in H. lia.
      * right. exists (S k). split; [lia|]. lia.
Qed.

Lemma leap_scan_prefix c ids :
  snd (leap_scan c ids) = true <->
  exists k, STREAM_LEAP_THRESHOLD < accumulated c (take k ids).
Proof.
  unfold leap_scan. rewrite leap_fold_snd. split.
  - intros [H|(k & _ & H)]; [done|]. exists k. lia.
  - intros (k & H). right.
    destruct k as [|k]; [rewrite take_0 in H; by vm_compute in H|].
    destruct (decide (S k <= length ids)%nat) as [Hle|Hgt].
    + exists (S k). split; [lia|]. lia.
    + rewrite take_ge in H by lia. destruct ids as [|id ids]; [by vm_compute in H|].
      exists (length (id :: ids)). split; [simpl; lia|]. rewrite firstn_all. lia.
Qed.

Lemma accumulated_take_le c ids k :
  (forall id, 0 <= score_of c id) -> accumulated c (take k ids) <= accumulated c ids.
Proof.
  intros Hnn. rewrite <- (take_drop k ids) at 2. rewrite accumulated_app.
  assert (0 <= accumulated c (drop k ids)); [|lia].
  induction (drop k ids) as [|id l IH]; [by vm_compute|].
  rewrite accumulated_cons. specialize (Hnn id). lia.
Qed.

Lemma leap_scan_total c ids :
  (forall id, 0 <= score_of c id) ->
  snd (leap_scan c ids) = true <-> STREAM_LEAP_THRESHOLD < accumulated c ids.
Proof.
  intros Hnn. rewrite leap_scan_prefix. split.
  - intros (k & H). pose proof (accumulated_take_le c ids k Hnn). lia.
  - intros H. exists (length ids). by rewrite firstn_all.
Qed.

Lemma leap_scan_snoc c ids id :
  leap_scan c (ids ++ [id]) = leap_step c (leap_scan c ids) id.
Proof. unfold leap_scan. by rewrite fold_left_app. Qed.

(** What a pick does to the score, the leap flag, the end and the ids. *)
Lemma pick_overlap_fields id overlap s :
  let s' := pick_overlap id overlap s in
  Scan.stream_score s' = Scan.stream_score s + Buffer.StreamScore overlap /\
  Scan.has_stream_leap s' =
    Scan.has_stream_leap s || (STREAM_LEAP_THRESHOLD <? Scan.stream_score s') /\
  Scan.overlap_ids s' = Scan.overlap_ids s ++ [id] /\
  Scan.end_ s' =
    (if negb (Scan.has_stream_leap s) && Scan.has_stream_leap s'
     then u64 (running_end overlap s + 256 * PAGE_SIZE)
     else running_end overlap s).
Proof.
  unfold pick_overlap, running_end.
  destruct (Buffer.CpuAddr overlap <? Scan.begin s);
    destruct (STREAM_LEAP_THRESHOLD <? _) eqn:Ht;
    destruct (Scan.has_stream_leap s) eqn:Hl; simpl; rewrite ?Ht, ?Hl;
    repeat split; try reflexivity; f_equal; lia.
Qed.

Lemma slot_at_score c id b : slot_at c id = Ok b -> score_of c id = Buffer.StreamScore b.
Proof.
  intros H. apply slot_at_Ok in H as (Hid & s & Hs & ->).
  unfold score_of, scores. destruct (Z.leb_spec 0 id); [|lia].
  by rewrite list_lookup_fmap, Hs.
Qed.

Lemma score_of_same c c' id : scores c = scores c' -> score_of c id = score_of c' id.
Proof. unfold score_of. by intros ->. Qed.

Lemma slot_update_scores id f c c' :
  slot_update id f c = Ok c' ->
  exists b, slot_at c id = Ok b /\
    scores c' = <[Z.to_nat id := Buffer.StreamScore (f b)]> (scores c).
Proof.
  intros H. apply slot_update_Ok in H as (Hid & s & Hs & ->).
  exists (Slot.object s). split; [apply slot_at_Ok; eauto|].
  unfold scores. simpl. by rewrite list_fmap_insert.
Qed.

Lemma slot_update_scores_same id f c c' :
  (forall b, Buffer.StreamScore (f b) = Buffer.StreamScore b) ->
  slot_update id f c = Ok c' -> scores c' = scores c.
Proof.
  intros Hf H. apply slot_update_scores in H as (b & Hb & ->). rewrite Hf.
  apply list_insert_id. apply slot_at_Ok in Hb as (Hid & s & Hs & ->).
  unfold scores. by rewrite list_lookup_fmap, Hs.
Qed.

Lemma leap_inv_body c0 s c s' c' :
  leap_inv c0 s c -> ResolveOverlaps_body s c = Ok (s', c') -> leap_inv c0 s' c'.
Proof.
  intros (Hs & Hl & Hids) H. apply ResolveOverlaps_body_cases in H as (_ & H).
  destruct H as [(-> & -> & _)|(overlap & Hne & Hov & Hp & Hup & ->)]; [done|].
  pose proof (pick_overlap_fields (page_of c (Z.shiftr (Scan.cpu_addr s) PAGE_BITS)) overlap s)
    as (Fs & Fl & Fi & _).
  set (id := page_of c _) in *. set (s1 := pick_overlap id overlap s) in *.
  split; [|split].
  - rewrite <- Hs. eapply slot_update_scores_same; [|exact Hup]. done.
  - simpl. rewrite Fi, leap_scan_snoc, <- Hl. unfold leap_step. simpl.
    rewrite <- (score_of_same c c0 id Hs), (slot_at_score _ _ _ Hov), <- Fs. by rewrite Fl.
  - simpl. rewrite Fi. intros i Hi. apply elem_of_app in Hi as [Hi|Hi]; [by apply Hids|].
    apply list_elem_of_singleton in Hi as ->.
    apply slot_at_Ok in Hov as (Hid & sl & Hsl & _). apply lookup_lt_Some in Hsl.
    rewrite <- Hs. unfold scores. rewrite length_fmap. lia.
Qed.

Lemma leap_inv_loop c0 fuel : forall s c s' c',
  leap_inv c0 s c -> ResolveOverlaps_loop fuel s c = Ok (s', c') -> leap_inv c0 s' c'.
Proof.
  induction fuel as [|fuel IH]; intros s c s' c' Hi H; simpl in H.
  - destruct (scan_continues s); [done|]. by injection H as <- <-.
  - destruct (scan_continues s); [|by injection H as <- <-].
    apply bind_Ok in H as ([s1 c1] & Hb & H). eapply IH; [|exact H].
    eapply leap_inv_body; eauto.
Qed.

Lemma leap_inv_start c cpu_addr wanted_size : leap_inv c (scan_start cpu_addr wanted_size) c.
Proof. split; [done|]. split; [done|]. intros id Hid. by apply elem_of_nil in Hid. Qed.

Lemma ChangeRegister_scores insert id c c' :
  ChangeRegister insert id c = Ok c' -> scores c' = scores c.
Proof.
  intros H. apply ChangeRegister_Ok in H as (_ & _ & -> & _). reflexivity.
Qed.

Lemma DeleteBuffer_scores P id c c' : DeleteBuffer P id c = Ok c' -> scores c' = scores c.
Proof.
  unfold DeleteBuffer. intros H.
  set (c0 := set_cached_write_buffer_ids _ _) in H.
  assert (H0 : scores c0 = scores c) by reflexivity.
  clearbody c0.
  apply bind_Ok in H as (b & Hb & H). apply bind_Ok in H as (c1 & Hc1 & H).
  apply bind_Ok in H as (c2 & Hc2 & H). apply bind_Ok in H as (s & Hs & H).
  apply bind_Ok in H as (sb & Hsb & H). injection H as <-.
  apply slot_update_scores_same in Hc1; [|done].
  apply ChangeRegister_scores in Hc2 as Hc2'.
  apply load_Ok in Hs as (Hid & Hs). apply store_Ok in Hsb as (Hlen & ->).
  rewrite <- H0, <- Hc1, <- Hc2'. unfold NotifyBufferDeletion, scores.
  destruct (HAS_PERSISTENT_UNIFORM_BUFFER_BINDINGS P); simpl;
    rewrite list_fmap_insert; simpl; apply list_insert_id;
    by rewrite list_lookup_fmap, Hs.
Qed.

Lemma fold_join_range_score ranges : forall b,
  Buffer.StreamScore (fold_left join_range ranges b) = Buffer.StreamScore b.
Proof.
  induction ranges as [|[begin size] ranges IH]; intros b; [done|].
  simpl. by rewrite IH.
Qed.

(** A join adds the score of the overlap, and 1, to the new buffer when it
    accumulates, and leaves every other score as it is. *)
Lemma JoinOverlap_scores P new_id id acc c c' :
  new_id <> id ->
  JoinOverlap P new_id id acc c = Ok c' ->
  scores c' =
    if acc then <[Z.to_nat new_id := score_of c new_id + (score_of c id + 1)]> (scores c)
    else scores c.
Proof.
  unfold JoinOverlap. intros Hne H.
  apply bind_Ok in H as (nb & Hnb & H). apply bind_Ok in H as (ov & Hov & H).
  apply bind_Ok in H as (c1 & Hc1 & H).
  assert (H1 : scores c1 =
    if acc then <[Z.to_nat new_id := score_of c new_id + (score_of c id + 1)]> (scores c)
    else scores c).
  { destruct acc; [|by injection Hc1 as <-].
    apply slot_update_scores in Hc1 as (b & Hb & ->).
    rewrite (slot_at_score _ _ _ Hnb), (slot_at_score _ _ _ Hov).
    assert (b = nb) as -> by congruence. done. }
  unfold Buffer.ForEachDownloadRangeAll in H.
  destruct (Buffer.ForEachDownloadRange _ _ ov) as [ranges ov'] eqn:Hranges.
  assert (Hov' : Buffer.StreamScore ov' = Buffer.StreamScore ov).
  { unfold Buffer.ForEachDownloadRange in Hranges. by injection Hranges as _ <-. }
  apply bind_Ok in H as (c2 & Hc2 & H). apply bind_Ok in H as (c3 & Hc3 & H).
  apply slot_update_scores in Hc2 as (b2 & Hb2 & Hc2).
  apply slot_update_scores_same in Hc3; [|intros b; apply fold_join_range_score].
  apply DeleteBuffer_scores in H. rewrite H.
  transitivity (scores c3); [by destruct (map _ ranges)|].
  rewrite Hc3, Hc2, Hov', <- H1. apply list_insert_id.
  apply slot_at_Ok in Hov as (Hid & so & Hso & ->).
  apply slot_at_Ok in Hnb as (Hnid & sn & Hsn & ->).
  rewrite H1. destruct acc.
  - rewrite list_lookup_insert_ne by lia. unfold scores. by rewrite list_lookup_fmap, Hso.
  - unfold scores. by rewrite list_lookup_fmap, Hso.
Qed.

(** The joins of one [CreateBuffer]: the new buffer is the last slot. *)
Lemma join_all_scores P acc S0 : forall ids c c' a,
  (forall id, id ∈ ids -> 0 <= id < Z.of_nat (length S0)) ->
  scores c = S0 ++ [a] ->
  for_each (fun id c => JoinOverlap P (Z.of_nat (length S0)) id acc c) ids c = Ok c' ->
  scores c' =
    S0 ++ [a + (if acc
                then foldr Z.add 0 ((fun id => default 0 (S0 !! Z.to_nat id) + 1) <$> ids)
                else 0)].
Proof.
  induction ids as [|id ids IH]; intros c c' a Hids Hc H; simpl in H.
  - injection H as <-. rewrite Hc. destruct acc; simpl; by rewrite Z.add_0_r.
  - apply bind_Ok in H as (c1 & Hj & H).
    assert (Hid : 0 <= id < Z.of_nat (length S0)) by (apply Hids; left).
    apply JoinOverlap_scores in Hj; [|lia].
    assert (Hn : score_of c (Z.of_nat (length S0)) = a).
    { unfold score_of. destruct (Z.leb_spec 0 (Z.of_nat (length S0))); [|lia].
      rewrite Hc, Nat2Z.id, lookup_app_r by lia. by rewrite Nat.sub_diag. }
    assert (Ho : score_of c id = default 0 (S0 !! Z.to_nat id)).
    { unfold score_of. destruct (Z.leb_spec 0 id); [|lia].
      rewrite Hc, lookup_app_l by lia. done. }
    rewrite Hn, Ho, Hc, Nat2Z.id in Hj.
    rewrite <- (Nat.add_0_r (length S0)) in Hj at 1. rewrite insert_app_r in Hj.
    simpl in Hj.
    assert (Hids' : forall i, i ∈ ids -> 0 <= i < Z.of_nat (length S0))
      by (intros i Hi; apply Hids; by right).
    destruct acc.
    + rewrite (IH _ _ _ Hids' Hj H). rewrite fmap_cons. cbn [foldr]. do 2 f_equal. lia.
    + rewrite (IH _ _ _ Hids' Hj H). done.
Qed.

Lemma joined_score_eq c S0 (acc : bool) ids :
  scores c = S0 ->
  (forall id, id ∈ ids -> 0 <= id) ->
  (if acc then foldr Z.add 0 ((fun id => default 0 (S0 !! Z.to_nat id) + 1) <$> ids) else 0)
  = joined_score c acc ids.
Proof.
  intros <- Hids. unfold joined_score. destruct acc; [|done]. f_equal.
  apply list_fmap_ext. intros i id Hi. unfold score_of.
  destruct (Z.leb_spec 0 id); [done|].
  assert (0 <= id); [|lia]. apply Hids. eapply list_elem_of_lookup_2, Hi.
Qed.

(** The overlap scan of [CreateBuffer] and the score it leaves in the new
    buffer. *)
Lemma CreateBuffer_scores P fuel cpu_addr wanted_size c id c' :
  CreateBuffer P fuel cpu_addr wanted_size c = Ok (id, c') ->
  exists r c1,
    ResolveOverlaps fuel cpu_addr (u32 wanted_size) c = Ok (r, c1) /\
    (accumulated c (OverlapResult.ids r), OverlapResult.has_stream_leap r)
      = leap_scan c (OverlapResult.ids r) /\
    id = Z.of_nat (length c.(slot_buffers)) /\
    scores c' =
      scores c ++ [joined_score c (negb (OverlapResult.has_stream_leap r))
                                (OverlapResult.ids r)].
Proof.
  unfold CreateBuffer. cbv zeta. intros H.
  apply bind_Ok in H as ([r c1] & Hr & H). exists r, c1. split; [exact Hr|].
  unfold ResolveOverlaps in Hr. apply bind_Ok in Hr as ([s cs] & Hl & Hr).
  injection Hr as <- <-.
  pose proof (leap_inv_loop c _ _ _ _ _ (leap_inv_start c cpu_addr (u32 wanted_size)) Hl)
    as (Hs & Hleap & Hids).
  simpl in H |- *.
  apply bind_Ok in H as ([n c2] & Hins & H). apply bind_Ok in H as (c3 & Hj & H).
  apply bind_Ok in H as (c4 & Hreg & H). injection H as <- <-.
  apply slot_insert_Ok in Hins as (-> & _ & ->).
  assert (Hlen : length (slot_buffers cs) = length (scores c))
    by (rewrite <- Hs; unfold scores; by rewrite length_fmap).
  split; [|split].
  - rewrite <- Hleap. f_equal. symmetry.
    pose proof (leap_fold_fst c (Scan.overlap_ids s) (0, false)) as Hf.
    fold (leap_scan c (Scan.overlap_ids s)) in Hf. rewrite <- Hleap in Hf. simpl in Hf. lia.
  - rewrite Hlen. unfold scores. by rewrite length_fmap.
  - apply ChangeRegister_scores in Hreg. rewrite Hreg. rewrite Hlen in Hj.
    assert (Hc2 : scores (set_slot_buffers
                            (slot_buffers cs ++
                             [Slot.mk (Buffer.create (Scan.begin s)
                                         (u32 (Scan.end_ s - Scan.begin s))) false]) cs)
                  = scores c ++ [0]).
    { unfold scores at 1. simpl. rewrite fmap_app. fold (scores cs). by rewrite Hs. }
    rewrite (join_all_scores _ _ (scores c) _ _ _ 0 Hids Hc2 Hj).
    rewrite Z.add_0_l. f_equal. f_equal. apply joined_score_eq; [done|].
    intros i Hi. apply Hids in Hi. lia.
Qed.

Lemma score_of_nonneg c id : Forall (fun x => 0 <= x) (scores c) -> 0 <= score_of c id.
Proof.
  intros H. unfold score_of. destruct (0 <=? id); [|done].
  destruct (scores c !! Z.to_nat id) as [x|] eqn:Hx; [|done].
  simpl. rewrite Forall_forall in H. apply H. eapply list_elem_of_lookup_2, Hx.
Qed.


Lemma joined_score_nonneg c acc ids : scores_ok c -> 0 <= joined_score c acc ids.
Proof.
  intros Hok. unfold joined_score. destruct acc; [|done].
  induction ids as [|id ids IH]; [done|].
  rewrite fmap_cons. cbn [foldr]. pose proof (score_of_nonneg c id Hok). lia.
Qed.

(** A new buffer starts from the score 0 and takes up the scores of the
    buffers joined into it: no score becomes negative. *)
Lemma CreateBuffer_scores_ok P fuel cpu_addr wanted_size c id c' :
  CreateBuffer P fuel cpu_addr wanted_size c = Ok (id, c') -> scores_ok c -> scores_ok c'.
Proof.
  intros H Hok. apply CreateBuffer_scores in H as (r & _ & _ & _ & _ & Hs).
  unfold scores_ok. rewrite Hs. apply Forall_app. split; [exact Hok|].
  apply Forall_singleton. by apply joined_score_nonneg.
Qed.
(** ** Operations that keep the layout and the download queues *)

Lemma same_core_refl c : same_core c c.
Proof. split; [apply same_layout_refl | done]. Qed.

Lemma same_core_trans c1 c2 c3 : same_core c1 c2 -> same_core c2 c3 -> same_core c1 c3.
Proof.
  intros (L1 & U1 & C1 & S1) (L2 & U2 & C2 & S2).
  split; [eapply same_layout_trans; eauto|]. repeat split; congruence.
Qed.

Lemma same_core_fields c c' :
  c'.(slot_buffers) = c.(slot_buffers) -> c'.(page_table) = c.(page_table) ->
  c'.(uncommitted_downloads) = c.(uncommitted_downloads) ->
  c'.(committed_downloads) = c.(committed_downloads) ->
  same_core c c'.
Proof.
  intros H1 H2 H3 H4. split; [by apply same_layout_fields|].
  unfold scores. rewrite H1. done.
Qed.

Lemma cache_inv_same_core c c' : same_core c c' -> cache_inv c -> cache_inv c'.
Proof.
  intros (L & U & C & S) (W & D & N). split; [|split].
  - eapply layout_wf_same_layout; eauto.
  - unfold downloads_wf. rewrite U, C. exact D.
  - unfold scores_ok. rewrite S. exact N.
Qed.

Ltac same_fields := apply same_core_fields; reflexivity.

Lemma ForEachDownloadRange_score addr size b :
  Buffer.StreamScore (snd (Buffer.ForEachDownloadRange addr size b)) = Buffer.StreamScore b.
Proof. done. Qed.

Lemma ForEachUploadRange_score addr size b :
  Buffer.StreamScore (snd (Buffer.ForEachUploadRange addr size b)) = Buffer.StreamScore b.
Proof. done. Qed.

Lemma slot_update_same_core id f c c' :
  keeps_shape f -> keeps_score f -> slot_update id f c = Ok c' -> same_core c c'.
Proof.
  intros Hf Hs H. split; [eapply slot_update_same_layout; eauto|].
  pose proof (slot_update_scores_same _ _ _ _ Hs H) as Hscores.
  apply slot_update_Ok in H as (_ & s & _ & ->). done.
Qed.

Lemma slot_update_const_same_core id b b' c c' :
  slot_at c id = Ok b ->
  Buffer.cpu_addr b' = Buffer.cpu_addr b ->
  Buffer.size_bytes b' = Buffer.size_bytes b ->
  Buffer.is_picked b' = Buffer.is_picked b ->
  Buffer.StreamScore b' = Buffer.StreamScore b ->
  slot_update id (fun _ => b') c = Ok c' -> same_core c c'.
Proof.
  intros Hb Ha Hz Hp Hs H. split; [eapply slot_update_const_same_layout; eauto|].
  apply slot_update_scores in H as Hscores. destruct Hscores as (b0 & Hb0 & Hscores).
  assert (Hid : scores c' = scores c).
  { rewrite Hscores, Hs. apply list_insert_id.
    apply slot_at_Ok in Hb as (_ & s & Hs' & ->). unfold scores.
    by rewrite list_lookup_fmap, Hs'. }
  apply slot_update_Ok in H as (_ & s & _ & ->). done.
Qed.

Lemma log_same_core e c : same_core c (log e c).
Proof. same_fields. Qed.

Lemma ImmediateBuffer_same_core n c : same_core c (ImmediateBuffer n c).
Proof. unfold ImmediateBuffer. destruct (_ <? _); [same_fields | apply same_core_refl]. Qed.

Lemma for_each_same_core {A} (body : A -> BufferCache -> Res BufferCache) (l : list A) :
  (forall x c c', body x c = Ok c' -> same_core c c') ->
  forall c c', for_each body l c = Ok c' -> same_core c c'.
Proof.
  intros Hbody c c' H.
  eapply (for_each_Ok_ind body (same_core c)); [| apply same_core_refl | exact H].
  intros x s s' _ Hs Hx. eapply same_core_trans; [exact Hs|]. eapply Hbody, Hx.
Qed.

Lemma fold_left_same_core {A} (step : BufferCache -> A -> BufferCache) (l : list A) :
  (forall c x, same_core c (step c x)) -> forall c, same_core c (fold_left step l c).
Proof.
  intros Hstep. induction l as [|x l IH]; intros c; simpl; [apply same_core_refl|].
  eapply same_core_trans; [apply Hstep | apply IH].
Qed.

Lemma TickFrame_same_core c : same_core c (TickFrame c).
Proof. same_fields. Qed.

Lemma ForEachBufferInRange_loop_same_core fuel func :
  (forall id c c', func id c = Ok c' -> same_core c c') ->
  forall page page_end c c',
    ForEachBufferInRange_loop fuel func page page_end c = Ok c' -> same_core c c'.
Proof.
  intros Hfunc. induction fuel as [|fuel IH]; intros page page_end c c' H; simpl in H;
    destruct (page <? page_end); try discriminate; try (injection H as <-; apply same_core_refl).
  apply bind_Ok in H as (id & _ & H). destruct (negb (id_bool id)); [eapply IH, H|].
  apply bind_Ok in H as (_ & _ & H). apply bind_Ok in H as (c1 & Hc1 & H).
  apply bind_Ok in H as (b & _ & H).
  eapply same_core_trans; [eapply Hfunc, Hc1 | eapply IH, H].
Qed.

Lemma WriteMemory_same_core fuel cpu_addr size c c' :
  WriteMemory fuel cpu_addr size c = Ok c' -> same_core c c'.
Proof.
  apply ForEachBufferInRange_loop_same_core. intros id c0 c0'.
  apply slot_update_same_core; [apply keeps_shape_MarkCpu | done].
Qed.

Lemma CachedWriteMemory_same_core fuel cpu_addr size c c' :
  CachedWriteMemory fuel cpu_addr size c = Ok c' -> same_core c c'.
Proof.
  apply ForEachBufferInRange_loop_same_core. intros id c0 c0' H.
  apply bind_Ok in H as (b & _ & H).
  eapply same_core_trans;
    [|eapply slot_update_same_core; [apply keeps_shape_CachedCpuWrite | done | exact H]].
  destruct (negb _); [same_fields | apply same_core_refl].
Qed.

Lemma DownloadMemory_same_core P env fuel cpu_addr size c c' :
  DownloadMemory P env fuel cpu_addr size c = Ok c' -> same_core c c'.
Proof.
  apply ForEachBufferInRange_loop_same_core. intros id c0 c0' H.
  apply bind_Ok in H as (b & Hb & H).
  pose proof (ForEachDownloadRange_shape cpu_addr size b) as Hshape.
  pose proof (ForEachDownloadRange_score cpu_addr size b) as Es.
  destruct (Buffer.ForEachDownloadRange cpu_addr size b) as [ranges b'].
  simpl in Hshape, Es. destruct Hshape as (Ea & Ez & Ep).
  apply bind_Ok in H as (c1 & Hc1 & H).
  eapply same_core_trans; [eapply slot_update_const_same_core; eauto|].
  destruct (fold_left push_copy ranges ([], 0, 0)) as [[copies total] largest].
  destruct (total =? 0); [injection H as <-; apply same_core_refl|].
  destruct (USE_MEMORY_MAPS P); injection H as <-.
  - eapply same_core_trans; [|apply fold_left_same_core; intros; apply log_same_core].
    eapply same_core_trans; [|apply log_same_core].
    eapply same_core_trans; apply log_same_core.
  - eapply same_core_trans; [apply ImmediateBuffer_same_core|].
    apply fold_left_same_core. intros.
    eapply same_core_trans; apply log_same_core.
Qed.

Lemma BindGraphicsUniformBuffer_same_core env stage index gpu_addr size c c' :
  BindGraphicsUniformBuffer env stage index gpu_addr size c = Ok c' -> same_core c c'.
Proof. unfold BindGraphicsUniformBuffer. intros H. res_inv H. subst. same_fields. Qed.

Lemma DisableGraphicsUniformBuffer_same_core stage index c c' :
  DisableGraphicsUniformBuffer stage index c = Ok c' -> same_core c c'.
Proof. unfold DisableGraphicsUniformBuffer. intros H. res_inv H. subst. same_fields. Qed.

Lemma SetEnabledUniformBuffers_same_core P stage enabled c c' :
  SetEnabledUniformBuffers P stage enabled c = Ok c' -> same_core c c'.
Proof.
  unfold SetEnabledUniformBuffers. intros H. apply bind_Ok in H as (c1 & Hc1 & H).
  res_inv H. subst. apply (same_core_trans _ c1); [|same_fields].
  destruct (HAS_PERSISTENT_UNIFORM_BUFFER_BINDINGS P); [|injection Hc1 as <-; apply same_core_refl].
  res_inv Hc1. destruct (negb _); res_inv Hc1; subst; [same_fields | apply same_core_refl].
Qed.

Lemma UnbindGraphicsStorageBuffers_same_core stage c c' :
  UnbindGraphicsStorageBuffers stage c = Ok c' -> same_core c c'.
Proof. unfold UnbindGraphicsStorageBuffers. intros H. res_inv H. subst. same_fields. Qed.

Lemma BindGraphicsStorageBuffer_same_core env stage ssbo cbuf off w c c' :
  BindGraphicsStorageBuffer env stage ssbo cbuf off w c = Ok c' -> same_core c c'.
Proof. unfold BindGraphicsStorageBuffer. intros H. res_inv H. subst. same_fields. Qed.

Lemma BindComputeStorageBuffer_same_core env ssbo cbuf off w c c' :
  BindComputeStorageBuffer env ssbo cbuf off w c = Ok c' -> same_core c c'.
Proof.
  unfold BindComputeStorageBuffer. intros H. destruct (negb _); [discriminate|].
  res_inv H. subst. same_fields.
Qed.

Lemma FlushCachedWrites_same_core c c' : FlushCachedWrites c = Ok c' -> same_core c c'.
Proof.
  unfold FlushCachedWrites. intros H. apply bind_Ok in H as (c1 & Hc1 & H).
  injection H as <-. apply (same_core_trans _ c1); [|same_fields].
  eapply for_each_same_core; [|exact Hc1]. intros id c0 c0'.
  apply slot_update_same_core; [apply keeps_shape_FlushCachedWrites | done].
Qed.

Lemma ImmediateUploadMemory_loop_same_core env id buffer largest copies : forall ib c,
  same_core c (ImmediateUploadMemory_loop env id buffer largest copies ib c).
Proof.
  induction copies as [|copy copies IH]; intros ib c; simpl; [apply same_core_refl|].
  destruct (IsRangeGranular _ _ _).
  - eapply same_core_trans; [|apply IH].
    eapply same_core_trans; apply log_same_core.
  - destruct (ib =? 0); (eapply same_core_trans; [|apply IH]).
    + eapply same_core_trans; [|apply log_same_core].
      eapply same_core_trans; [|apply log_same_core]. apply ImmediateBuffer_same_core.
    + eapply same_core_trans; apply log_same_core.
Qed.

Lemma UploadMemory_same_core P env id buffer total largest copies c :
  same_core c (UploadMemory P env id buffer total largest copies c).
Proof.
  unfold UploadMemory. destruct (USE_MEMORY_MAPS P).
  - unfold MappedUploadMemory. cbv zeta.
    eapply same_core_trans; [|apply log_same_core].
    eapply same_core_trans; [apply log_same_core|].
    apply fold_left_same_core. intros. apply log_same_core.
  - apply ImmediateUploadMemory_loop_same_core.
Qed.

Lemma SynchronizeBuffer_same_core P env id cpu_addr size c r c' :
  SynchronizeBuffer P env id cpu_addr size c = Ok (r, c') -> same_core c c'.
Proof.
  unfold SynchronizeBuffer, SynchronizeBufferImpl. intros H.
  apply bind_Ok in H as (b & Hb & H).
  destruct (Buffer.CpuAddr b =? 0); [injection H as _ <-; apply same_core_refl|].
  apply bind_Ok in H as (b0 & Hb0 & H).
  pose proof (ForEachUploadRange_shape cpu_addr size b0) as Hshape.
  pose proof (ForEachUploadRange_score cpu_addr size b0) as Es.
  destruct (Buffer.ForEachUploadRange cpu_addr size b0) as [ranges b'].
  simpl in Hshape, Es. destruct Hshape as (Ea & Ez & Ep).
  apply bind_Ok in H as (c1 & Hc1 & H).
  eapply same_core_trans; [eapply slot_update_const_same_core; eauto|].
  destruct (fold_left _ ranges _) as [[copies total] largest].
  destruct (total =? 0); injection H as _ <-; [apply same_core_refl|].
  apply UploadMemory_same_core.
Qed.

Lemma ImmediateBufferWithData_same_core env cpu_addr size c :
  same_core c (ImmediateBufferWithData env cpu_addr size c).
Proof.
  unfold ImmediateBufferWithData. destruct (IsRangeGranular _ _ _); [apply log_same_core|].
  destruct (pointers_contiguous _ _ _).
  - eapply same_core_trans; apply log_same_core.
  - eapply same_core_trans; [|apply log_same_core].
    eapply same_core_trans; [|apply ImmediateBuffer_same_core].
    eapply same_core_trans; apply log_same_core.
Qed.

Lemma fast_uniform_path_same_core P env stage binding_index binding c c' :
  fast_uniform_path P env stage binding_index binding c = Ok c' -> same_core c c'.
Proof.
  unfold fast_uniform_path. intros H. destruct (_ && _).
  - apply bind_Ok in H as (bound & _ & H). injection H as <-.
    eapply same_core_trans; [|apply log_same_core].
    eapply same_core_trans; [|apply ImmediateBufferWithData_same_core].
    destruct (negb bound); [apply log_same_core | apply same_core_refl].
  - res_inv H. subst.
    eapply same_core_trans; [|apply log_same_core].
    eapply same_core_trans; [|apply log_same_core]. same_fields.
Qed.

Lemma classic_uniform_path_same_core P env stage binding_index needs_bind binding c c' :
  classic_uniform_path P env stage binding_index needs_bind binding c = Ok c' ->
  same_core c c'.
Proof.
  unfold classic_uniform_path. intros H.
  apply bind_Ok in H as ([sync c1] & Hsync & H).
  apply SynchronizeBuffer_same_core in Hsync.
  eapply same_core_trans; [exact Hsync|].
  apply bind_Ok in H as (c2 & Hc2 & H).
  assert (H12 : same_core c1 c2).
  { destruct sync; res_inv Hc2; subst; [same_fields | apply same_core_refl]. }
  eapply same_core_trans; [exact H12|].
  apply bind_Ok in H as (shots & _ & H). apply bind_Ok in H as (bound & _ & H).
  destruct (negb needs_bind && negb bound).
  - injection H as <-. same_fields.
  - res_inv H. destruct (NEEDS_BIND_UNIFORM_INDEX P); injection H as <-;
      (eapply same_core_trans; [|apply log_same_core]); same_fields.
Qed.

Lemma BindHostGraphicsUniformBuffer_same_core P env stage index binding_index needs_bind
    c c' :
  BindHostGraphicsUniformBuffer P env stage index binding_index needs_bind c = Ok c' ->
  same_core c c'.
Proof.
  unfold BindHostGraphicsUniformBuffer. intros H.
  apply bind_Ok in H as (binding & _ & H). apply bind_Ok in H as (buffer & _ & H).
  destruct (use_fast_buffer c binding buffer).
  - eapply fast_uniform_path_same_core, H.
  - eapply classic_uniform_path_same_core, H.
Qed.

(** Loops that carry a binding index next to the cache. *)
Lemma with_binding_index_same_core advance body indices :
  (forall index binding_index c c', body index binding_index c = Ok c' -> same_core c c') ->
  forall s s', for_each (with_binding_index advance body) indices s = Ok s' ->
               same_core (snd s) (snd s').
Proof.
  intros Hbody s s' H.
  eapply (for_each_Ok_ind _ (fun t => same_core (snd s) (snd t)));
    [| apply same_core_refl | exact H].
  intros index t t' _ Ht Hstep. unfold with_binding_index in Hstep.
  apply bind_Ok in Hstep as (c1 & Hc1 & Hstep). injection Hstep as <-. simpl.
  eapply same_core_trans; [exact Ht | eapply Hbody, Hc1].
Qed.

Lemma ForEachEnabledBit_indexed_same_core advance body mask s s' :
  (forall index binding_index c c', body index binding_index c = Ok c' -> same_core c c') ->
  ForEachEnabledBit mask (with_binding_index advance body) s = Ok s' ->
  same_core (snd s) (snd s').
Proof. intros Hbody. apply with_binding_index_same_core, Hbody. Qed.

Lemma ForEachEnabledBit_same_core body mask c c' :
  (forall index c c', body index c = Ok c' -> same_core c c') ->
  ForEachEnabledBit mask body c = Ok c' -> same_core c c'.
Proof. intros Hbody. apply for_each_same_core, Hbody. Qed.

Lemma BindHostIndexBuffer_same_core P env c c' :
  BindHostIndexBuffer P env c = Ok c' -> same_core c c'.
Proof.
  unfold BindHostIndexBuffer. intros H. apply bind_Ok in H as (b & _ & H).
  apply bind_Ok in H as ([r c1] & Hsync & H). apply SynchronizeBuffer_same_core in Hsync.
  eapply same_core_trans; [exact Hsync|].
  destruct (HAS_FULL_INDEX_AND_PRIMITIVE_SUPPORT P); injection H as <-; apply log_same_core.
Qed.

Lemma BindHostVertexBuffers_same_core P env c c' :
  BindHostVertexBuffers P env c = Ok c' -> same_core c c'.
Proof.
  apply for_each_same_core. intros index c0 c0' H.
  apply bind_Ok in H as (binding & _ & H). apply bind_Ok in H as (b & _ & H).
  apply bind_Ok in H as ([r c1] & Hsync & H). apply SynchronizeBuffer_same_core in Hsync.
  eapply same_core_trans; [exact Hsync|].
  apply bind_Ok in H as (dirty & _ & H).
  destruct (negb dirty); [injection H as <-; apply same_core_refl|].
  res_inv H. subst. eapply same_core_trans; [|apply log_same_core]. same_fields.
Qed.

Lemma BindHostGraphicsUniformBuffers_same_core P env stage c c' :
  BindHostGraphicsUniformBuffers P env stage c = Ok c' -> same_core c c'.
Proof.
  unfold BindHostGraphicsUniformBuffers. intros H.
  apply bind_Ok in H as ([dirty c1] & Hd & H).
  assert (H1 : same_core c c1).
  { destruct (HAS_PERSISTENT_UNIFORM_BUFFER_BINDINGS P); res_inv Hd; subst;
      [same_fields | apply same_core_refl]. }
  apply bind_Ok in H as (enabled & _ & H). apply fmap_Ok in H as ([bi c2] & H & ->).
  eapply same_core_trans; [exact H1|].
  apply ForEachEnabledBit_indexed_same_core in H; [exact H|].
  intros index binding_index c0 c0'. apply BindHostGraphicsUniformBuffer_same_core.
Qed.

Lemma BindHostGraphicsStorageBuffers_same_core P env stage c c' :
  BindHostGraphicsStorageBuffers P env stage c = Ok c' -> same_core c c'.
Proof.
  unfold BindHostGraphicsStorageBuffers. intros H.
  apply bind_Ok in H as (enabled & _ & H). apply fmap_Ok in H as ([bi c2] & H & ->).
  apply ForEachEnabledBit_indexed_same_core in H; [exact H|].
  intros index binding_index c0 c0' H0.
  apply bind_Ok in H0 as (binding & _ & H0). apply bind_Ok in H0 as (b & _ & H0).
  apply bind_Ok in H0 as ([r c1] & Hsync & H0). apply SynchronizeBuffer_same_core in Hsync.
  eapply same_core_trans; [exact Hsync|]. apply bind_Ok in H0 as (written & _ & H0).
  destruct (NEEDS_BIND_STORAGE_INDEX P); injection H0 as <-; apply log_same_core.
Qed.

Lemma BindHostTransformFeedbackBuffers_same_core P env c c' :
  BindHostTransformFeedbackBuffers P env c = Ok c' -> same_core c c'.
Proof.
  unfold BindHostTransformFeedbackBuffers. intros H.
  destruct (tfb_enabled env =? 0); [injection H as <-; apply same_core_refl|].
  revert c c' H. apply for_each_same_core. intros index c0 c0' H.
  apply bind_Ok in H as (binding & _ & H). apply bind_Ok in H as (b & _ & H).
  apply bind_Ok in H as ([r c1] & Hsync & H). apply SynchronizeBuffer_same_core in Hsync.
  eapply same_core_trans; [exact Hsync|]. injection H as <-. apply log_same_core.
Qed.

Lemma BindHostComputeUniformBuffers_same_core P env c c' :
  BindHostComputeUniformBuffers P env c = Ok c' -> same_core c c'.
Proof.
  unfold BindHostComputeUniformBuffers. intros H. apply fmap_Ok in H as ([bi c2] & H & ->).
  apply ForEachEnabledBit_indexed_same_core in H.
  - eapply same_core_trans; [|exact H]. simpl.
    destruct (HAS_PERSISTENT_UNIFORM_BUFFER_BINDINGS P); [same_fields | apply same_core_refl].
  - intros index binding_index c0 c0' H0.
    apply bind_Ok in H0 as (binding & _ & H0). apply bind_Ok in H0 as (b & _ & H0).
    apply bind_Ok in H0 as ([r c1] & Hsync & H0). apply SynchronizeBuffer_same_core in Hsync.
    eapply same_core_trans; [exact Hsync|].
    destruct (NEEDS_BIND_UNIFORM_INDEX P); injection H0 as <-; apply log_same_core.
Qed.

Lemma BindHostComputeStorageBuffers_same_core P env c c' :
  BindHostComputeStorageBuffers P env c = Ok c' -> same_core c c'.
Proof.
  unfold BindHostComputeStorageBuffers. intros H. apply fmap_Ok in H as ([bi c2] & H & ->).
  apply ForEachEnabledBit_indexed_same_core in H; [exact H|].
  intros index binding_index c0 c0' H0.
  apply bind_Ok in H0 as (binding & _ & H0). apply bind_Ok in H0 as (b & _ & H0).
  apply bind_Ok in H0 as ([r c1] & Hsync & H0). apply SynchronizeBuffer_same_core in Hsync.
  eapply same_core_trans; [exact Hsync|].
  destruct (NEEDS_BIND_STORAGE_INDEX P); injection H0 as <-; apply log_same_core.
Qed.

Lemma BindHostGeometryBuffers_same_core P env is_indexed c c' :
  BindHostGeometryBuffers P env is_indexed c = Ok c' -> same_core c c'.
Proof.
  unfold BindHostGeometryBuffers. intros H. apply bind_Ok in H as (c1 & Hc1 & H).
  apply bind_Ok in H as (c2 & Hc2 & H).
  eapply same_core_trans; [|eapply same_core_trans;
    [eapply BindHostVertexBuffers_same_core, Hc2
    |eapply BindHostTransformFeedbackBuffers_same_core, H]].
  destruct is_indexed; [eapply BindHostIndexBuffer_same_core, Hc1|].
  destruct (_ && _); injection Hc1 as <-; [apply log_same_core | apply same_core_refl].
Qed.

Lemma BindHostStageBuffers_same_core P env stage c c' :
  BindHostStageBuffers P env stage c = Ok c' -> same_core c c'.
Proof.
  unfold BindHostStageBuffers. intros H. apply bind_Ok in H as (c1 & Hc1 & H).
  eapply same_core_trans; [eapply BindHostGraphicsUniformBuffers_same_core, Hc1|].
  eapply BindHostGraphicsStorageBuffers_same_core, H.
Qed.

Lemma BindHostComputeBuffers_same_core P env c c' :
  BindHostComputeBuffers P env c = Ok c' -> same_core c c'.
Proof.
  unfold BindHostComputeBuffers. intros H. apply bind_Ok in H as (c1 & Hc1 & H).
  eapply same_core_trans; [eapply BindHostComputeUniformBuffers_same_core, Hc1|].
  eapply BindHostComputeStorageBuffers_same_core, H.
Qed.

(** ** The download queues *)

Lemma erase_remove_elem value buffers id :
  id ∈ erase_remove value buffers <-> id ∈ buffers /\ id <> value.
Proof.
  unfold erase_remove. rewrite !list_elem_of_In, filter_In, negb_true_iff, Z.eqb_neq. done.
Qed.

Lemma erase_remove_NoDup value buffers : NoDup buffers -> NoDup (erase_remove value buffers).
Proof. rewrite !NoDup_ListNoDup. apply List.NoDup_filter. Qed.

Lemma erase_after_first_elem new_id buffers id :
  id ∈ erase_after_first new_id buffers -> id ∈ buffers.
Proof.
  induction buffers as [|x rest IH]; simpl; [done|].
  destruct (Z.eqb_spec x new_id) as [->|Hne]; intros [->|Hin]%elem_of_cons; try (by left).
  - right. by apply erase_remove_elem in Hin as (? & _).
  - right. by apply IH.
Qed.

Lemma erase_after_first_other new_id buffers id :
  id <> new_id -> id ∈ erase_after_first new_id buffers ->
  id ∈ erase_remove new_id buffers.
Proof.
  intros Hid. induction buffers as [|x rest IH]; simpl; [done|].
  unfold erase_remove in *. simpl.
  destruct (Z.eqb_spec x new_id) as [->|Hne]; simpl; intros [->|Hin]%elem_of_cons;
    try done; try (by left).
  right. by apply IH.
Qed.

(** Erasing after the first occurrence needs only the other ids to be
    distinct. *)
Lemma erase_after_first_NoDup new_id buffers :
  NoDup (erase_remove new_id buffers) -> NoDup (erase_after_first new_id buffers).
Proof.
  induction buffers as [|x rest IH]; simpl; [done|].
  unfold erase_remove in *. simpl.
  destruct (Z.eqb_spec x new_id) as [->|Hne]; simpl; intros Hnd.
  - apply NoDup_cons. split; [|exact Hnd].
    intros Hin. apply (erase_remove_elem new_id rest new_id) in Hin as (_ & ?). done.
  - apply NoDup_cons in Hnd as (Hx & Hnd). apply NoDup_cons. split; [|by apply IH].
    intros Hin. apply Hx. by apply (erase_after_first_other new_id rest x).
Qed.

Lemma erase_remove_ranges_replace old_id new_id buffers :
  erase_remove new_id (ranges_replace old_id new_id buffers) =
  erase_remove new_id (erase_remove old_id buffers).
Proof.
  unfold erase_remove, ranges_replace. induction buffers as [|x rest IH]; simpl; [done|].
  destruct (Z.eqb_spec x old_id) as [->|Hne]; simpl.
  - rewrite Z.eqb_refl. simpl. exact IH.
  - destruct (Z.eqb_spec x new_id); simpl; [exact IH | by rewrite IH].
Qed.

Lemma replace_downloads_NoDup old_id new_id buffers :
  NoDup buffers -> NoDup (replace_downloads old_id new_id buffers).
Proof.
  intros Hnd. unfold replace_downloads. apply erase_after_first_NoDup.
  rewrite erase_remove_ranges_replace. by do 2 apply erase_remove_NoDup.
Qed.

(** After the relink the new id occurs at most once, whatever the list. *)
Lemma erase_after_first_count new_id buffers :
  (count_occ Z.eq_dec (erase_after_first new_id buffers) new_id <= 1)%nat.
Proof.
  induction buffers as [|x rest IH]; simpl; [lia|].
  destruct (Z.eqb_spec x new_id) as [->|Hne]; simpl.
  - destruct (Z.eq_dec new_id new_id); [|done].
    assert (Hz : count_occ Z.eq_dec (erase_remove new_id rest) new_id = 0%nat).
    { apply count_occ_not_In. rewrite <- list_elem_of_In.
      intros (_ & ?)%erase_remove_elem. done. }
    rewrite Hz. lia.
  - destruct (Z.eq_dec x new_id); [done | exact IH].
Qed.

Lemma replace_downloads_old_gone old_id new_id buffers :
  old_id <> new_id -> old_id ∉ replace_downloads old_id new_id buffers.
Proof.
  intros Hne Hin. unfold replace_downloads in Hin. apply erase_after_first_elem in Hin.
  unfold ranges_replace in Hin. apply list_elem_of_In, in_map_iff in Hin as (x & Hx & _).
  destruct (Z.eqb_spec x old_id); congruence.
Qed.

Lemma same_downloads_refl c : same_downloads c c.
Proof. done. Qed.

Lemma same_downloads_trans c1 c2 c3 :
  same_downloads c1 c2 -> same_downloads c2 c3 -> same_downloads c1 c3.
Proof. intros [? ?] [? ?]. split; congruence. Qed.

Lemma same_core_downloads c c' : same_core c c' -> same_downloads c c'.
Proof. intros (_ & ? & ? & _). done. Qed.

Lemma downloads_wf_same c c' : same_downloads c c' -> downloads_wf c -> downloads_wf c'.
Proof. intros [U C]. unfold downloads_wf. rewrite U, C. done. Qed.

Lemma slot_update_same_downloads id f c c' :
  slot_update id f c = Ok c' -> same_downloads c c'.
Proof. rewrite slot_update_Ok. intros (_ & s & _ & ->). done. Qed.

Lemma ChangeRegister_same_downloads insert id c c' :
  ChangeRegister insert id c = Ok c' -> same_downloads c c'.
Proof.
  intros H. destruct (ChangeRegister_Ok _ _ _ _ H) as (sh & _ & -> & _). done.
Qed.

Lemma DeleteBuffer_same_downloads P id c c' :
  DeleteBuffer P id c = Ok c' -> same_downloads c c'.
Proof.
  unfold DeleteBuffer. intros H.
  set (c0 := set_cached_write_buffer_ids _ _) in H.
  assert (H0 : same_downloads c c0) by done. clearbody c0.
  apply bind_Ok in H as (b & Hb & H). apply bind_Ok in H as (c1 & Hc1 & H).
  apply bind_Ok in H as (c2 & Hc2 & H). apply bind_Ok in H as (s & Hs & H).
  apply bind_Ok in H as (sb & Hsb & H). injection H as <-.
  apply slot_update_same_downloads in Hc1. apply ChangeRegister_same_downloads in Hc2.
  eapply same_downloads_trans; [exact H0|]. eapply same_downloads_trans; [exact Hc1|].
  eapply same_downloads_trans; [exact Hc2|].
  unfold NotifyBufferDeletion. destruct (HAS_PERSISTENT_UNIFORM_BUFFER_BINDINGS P); done.
Qed.

Lemma JoinOverlap_downloads P new_id id acc c c' :
  JoinOverlap P new_id id acc c = Ok c' ->
  c'.(uncommitted_downloads) = replace_downloads id new_id c.(uncommitted_downloads) /\
  c'.(committed_downloads) = map (replace_downloads id new_id) c.(committed_downloads).
Proof.
  unfold JoinOverlap. intros H.
  apply bind_Ok in H as (nb & Hnb & H). apply bind_Ok in H as (ov & Hov & H).
  apply bind_Ok in H as (c1 & Hc1 & H).
  assert (H1 : same_downloads c c1).
  { destruct acc; [eapply slot_update_same_downloads, Hc1 | by injection Hc1 as <-]. }
  destruct (Buffer.ForEachDownloadRangeAll ov) as [ranges ov'].
  apply bind_Ok in H as (c2 & Hc2 & H). apply bind_Ok in H as (c3 & Hc3 & H).
  apply slot_update_same_downloads in Hc2, Hc3.
  apply DeleteBuffer_same_downloads in H. destruct H as [E1 E2]. rewrite E1, E2.
  destruct H1 as [<- <-], Hc2 as [<- <-], Hc3 as [<- <-].
  destruct (map _ ranges); done.
Qed.

Lemma JoinOverlap_downloads_wf P new_id id acc c c' :
  JoinOverlap P new_id id acc c = Ok c' -> downloads_wf c -> downloads_wf c'.
Proof.
  intros H [U C]. unfold downloads_wf. apply JoinOverlap_downloads in H as [-> ->]. split.
  - by apply replace_downloads_NoDup.
  - apply Forall_forall. intros l Hl. apply list_elem_of_In, in_map_iff in Hl as (l0 & <- & Hl0).
    apply replace_downloads_NoDup. rewrite Forall_forall in C. by apply C, list_elem_of_In.
Qed.

Lemma picked_only_same_downloads c c' : picked_only c c' -> same_downloads c c'.
Proof. intros [-> _]. done. Qed.

Lemma CreateBuffer_downloads_wf P fuel cpu_addr wanted c id c' :
  CreateBuffer P fuel cpu_addr wanted c = Ok (id, c') -> downloads_wf c -> downloads_wf c'.
Proof.
  unfold CreateBuffer, ResolveOverlaps. cbv zeta. intros H D.
  apply bind_Ok in H as ([r cs] & Hr & H).
  apply bind_Ok in Hr as ([s cs'] & Hloop & Hr). injection Hr as <- <-.
  apply ResolveOverlaps_loop_picked_only, picked_only_same_downloads in Hloop.
  apply bind_Ok in H as ([n c1] & Hins & H).
  apply bind_Ok in H as (c2 & Hjoin & H). apply bind_Ok in H as (c3 & Hreg & H).
  injection H as <- <-.
  apply slot_insert_Ok in Hins as (_ & _ & ->).
  apply ChangeRegister_same_downloads in Hreg.
  eapply downloads_wf_same; [exact Hreg|].
  eapply (for_each_Ok_ind _ downloads_wf); [| |exact Hjoin].
  - intros x t t' _ Ht Hx. simpl in Hx. eapply JoinOverlap_downloads_wf; [exact Hx | exact Ht].
  - eapply downloads_wf_same; [|exact D]. destruct Hloop as [U C]. done.
Qed.

Lemma MarkWrittenBuffer_inv env id cpu_addr size c c' :
  MarkWrittenBuffer env id cpu_addr size c = Ok c' -> cache_inv c -> cache_inv c'.
Proof.
  unfold MarkWrittenBuffer. intros H Hinv.
  apply bind_Ok in H as (c1 & Hc1 & H).
  pose proof (slot_update_same_core _ _ _ _ (keeps_shape_MarkGpu cpu_addr size)
                (fun _ => eq_refl) Hc1) as Hs.
  pose proof (cache_inv_same_core _ _ Hs Hinv) as Hinv1.
  destruct (_ || _); [by injection H as <-|].
  destruct (existsb _ _) eqn:Hex; injection H as <-; [done|].
  destruct Hinv1 as (W1 & D1 & N1).
  split; [eapply layout_wf_same_layout; [|exact W1]; by apply same_layout_fields|].
  split; [|exact N1].
  destruct D1 as [U C]. split; [|exact C]. simpl.
  apply NoDup_app. split; [exact U|]. split; [|apply NoDup_singleton].
  intros x Hx ->%list_elem_of_singleton.
  assert (existsb (Z.eqb id) (uncommitted_downloads c1) = true); [|congruence].
  apply existsb_exists. exists id. split; [by apply list_elem_of_In | apply Z.eqb_refl].
Qed.

Lemma FindBuffer_inv P fuel cpu_addr size c id c' :
  FindBuffer P fuel cpu_addr size c = Ok (id, c') -> cache_inv c -> cache_inv c'.
Proof.
  unfold FindBuffer. cbv zeta. intros H (W & D & N).
  destruct (cpu_addr =? 0); [by injection H as <- <-|].
  apply bind_Ok in H as (buffer_id & Hpage & H).
  apply page_table_at_Ok in Hpage as (Hr & _). apply page_in_range_iff in Hr.
  rewrite shiftr_PAGE_BITS in Hr.
  assert (Ha : 0 <= cpu_addr < 2 ^ 39).
  { pose proof (Z.div_mod cpu_addr 65536 ltac:(lia)).
    pose proof (Z.mod_pos_bound cpu_addr 65536 ltac:(lia)). lia. }
  assert (Hcreate : forall r, CreateBuffer P fuel cpu_addr (u32 size) c = Ok r ->
                              cache_inv (snd r)).
  { intros [i ci] Hc. split; [|split].
    - destruct (CreateBuffer_spec _ _ _ _ _ _ _ W Ha Hc) as (? & ? & _ & _ & _ & _ & _ & ?).
      done.
    - eapply CreateBuffer_downloads_wf; eauto.
    - eapply CreateBuffer_scores_ok; eauto. }
  destruct (negb (id_bool buffer_id)); [apply (Hcreate _ H)|].
  apply bind_Ok in H as (buffer & _ & H).
  destruct (Buffer.IsInBounds buffer cpu_addr (u32 size)); [by injection H as <- <-|].
  apply (Hcreate _ H).
Qed.

(** ** Resolving bindings keeps the invariants *)

Lemma for_each_inv {A} (body : A -> BufferCache -> Res BufferCache) (l : list A) :
  (forall x c c', body x c = Ok c' -> cache_inv c -> cache_inv c') ->
  forall c c', for_each body l c = Ok c' -> cache_inv c -> cache_inv c'.
Proof.
  intros Hbody c c' H Hc.
  eapply (for_each_Ok_ind body cache_inv); [| exact Hc | exact H].
  intros x s s' _ Hs Hx. eapply Hbody; eauto.
Qed.

Lemma ForEachEnabledBit_inv body mask c c' :
  (forall index c c', body index c = Ok c' -> cache_inv c -> cache_inv c') ->
  ForEachEnabledBit mask body c = Ok c' -> cache_inv c -> cache_inv c'.
Proof. intros Hbody. apply for_each_inv, Hbody. Qed.

Ltac inv_from H := eapply cache_inv_same_core; [|exact H]; same_fields.

Lemma UpdateIndexBuffer_inv P env fuel c c' :
  UpdateIndexBuffer P env fuel c = Ok c' -> cache_inv c -> cache_inv c'.
Proof.
  unfold UpdateIndexBuffer. intros H Hc. destruct (_ && _); [by injection H as <-|].
  cbv zeta in H. destruct (GpuToCpuAddress env _).
  - destruct (_ =? 0).
    + injection H as <-. inv_from Hc.
    + apply bind_Ok in H as ([id c1] & Hfind & H). injection H as <-.
      apply FindBuffer_inv in Hfind; [|inv_from Hc].
      inv_from Hfind.
  - injection H as <-. inv_from Hc.
Qed.

Lemma UpdateVertexBuffer_inv P env fuel index c c' :
  UpdateVertexBuffer P env fuel index c = Ok c' -> cache_inv c -> cache_inv c'.
Proof.
  unfold UpdateVertexBuffer. intros H Hc. apply bind_Ok in H as (dirty & _ & H).
  destruct (negb dirty); [by injection H as <-|].
  cbv zeta in H. destruct (GpuToCpuAddress env _).
  - destruct (_ || _).
    + res_inv H. subst. inv_from Hc.
    + apply bind_Ok in H as ([id c1] & Hfind & H). res_inv H. subst.
      apply FindBuffer_inv in Hfind; [|exact Hc]. inv_from Hfind.
  - res_inv H. subst. inv_from Hc.
Qed.

Lemma UpdateVertexBuffers_inv P env fuel c c' :
  UpdateVertexBuffers P env fuel c = Ok c' -> cache_inv c -> cache_inv c'.
Proof.
  unfold UpdateVertexBuffers. intros H Hc. destruct (negb _); [by injection H as <-|].
  eapply for_each_inv; [|exact H|inv_from Hc].
  intros x t t'. apply UpdateVertexBuffer_inv.
Qed.

Lemma UpdateUniformBuffers_inv P fuel stage c c' :
  UpdateUniformBuffers P fuel stage c = Ok c' -> cache_inv c -> cache_inv c'.
Proof.
  unfold UpdateUniformBuffers. intros H Hc. apply bind_Ok in H as (enabled & _ & H).
  eapply ForEachEnabledBit_inv; [|exact H|exact Hc].
  intros index t t' Ht Hinv. apply bind_Ok in Ht as (binding & _ & Ht).
  destruct (id_bool _); [by injection Ht as <-|].
  apply bind_Ok in Ht as (t1 & Ht1 & Ht).
  assert (H1 : cache_inv t1).
  { destruct (HAS_PERSISTENT_UNIFORM_BUFFER_BINDINGS P); res_inv Ht1; subst;
      [inv_from Hinv | exact Hinv]. }
  apply bind_Ok in Ht as ([id t2] & Hfind & Ht). res_inv Ht. subst.
  apply FindBuffer_inv in Hfind; [|exact H1]. inv_from Hfind.
Qed.

Lemma UpdateStorageBuffers_inv P env fuel stage c c' :
  UpdateStorageBuffers P env fuel stage c = Ok c' -> cache_inv c -> cache_inv c'.
Proof.
  unfold UpdateStorageBuffers. intros H Hc. apply bind_Ok in H as (written & _ & H).
  apply bind_Ok in H as (enabled & _ & H).
  eapply ForEachEnabledBit_inv; [|exact H|exact Hc].
  intros index t t' Ht Hinv. apply bind_Ok in Ht as (binding & _ & Ht).
  apply bind_Ok in Ht as ([id t2] & Hfind & Ht).
  apply FindBuffer_inv in Hfind; [|exact Hinv].
  apply bind_Ok in Ht as (binding' & _ & Ht). apply bind_Ok in Ht as (sb & _ & Ht).
  cbv zeta in Ht.
  assert (H2 : cache_inv (set_storage_buffers sb t2)) by (inv_from Hfind).
  destruct (bit_set written index); [|by injection Ht as <-].
  eapply MarkWrittenBuffer_inv; eauto.
Qed.

Lemma UpdateTransformFeedbackBuffer_inv P env fuel index c c' :
  UpdateTransformFeedbackBuffer P env fuel index c = Ok c' -> cache_inv c -> cache_inv c'.
Proof.
  unfold UpdateTransformFeedbackBuffer. intros H Hc. cbv zeta in H.
  destruct (GpuToCpuAddress env _).
  - destruct (_ || _).
    + res_inv H. subst. inv_from Hc.
    + apply bind_Ok in H as ([id c1] & Hfind & H).
      apply FindBuffer_inv in Hfind; [|exact Hc].
      apply bind_Ok in H as (tfb & _ & H).
      eapply MarkWrittenBuffer_inv; [exact H|]. inv_from Hfind.
  - res_inv H. subst. inv_from Hc.
Qed.

Lemma UpdateTransformFeedbackBuffers_inv P env fuel c c' :
  UpdateTransformFeedbackBuffers P env fuel c = Ok c' -> cache_inv c -> cache_inv c'.
Proof.
  unfold UpdateTransformFeedbackBuffers. intros H Hc.
  destruct (_ =? 0); [by injection H as <-|].
  eapply for_each_inv; [|exact H|exact Hc].
  intros x t t'. apply UpdateTransformFeedbackBuffer_inv.
Qed.

Lemma UpdateComputeUniformBuffers_inv P env fuel c c' :
  UpdateComputeUniformBuffers P env fuel c = Ok c' -> cache_inv c -> cache_inv c'.
Proof.
  unfold UpdateComputeUniformBuffers. intros H Hc.
  eapply ForEachEnabledBit_inv; [|exact H|exact Hc].
  intros index t t' Ht Hinv. apply bind_Ok in Ht as (old & _ & Ht).
  cbv zeta in Ht. apply bind_Ok in Ht as (cu & _ & Ht).
  apply bind_Ok in Ht as ([id t2] & Hfind & Ht).
  apply FindBuffer_inv in Hfind; [|inv_from Hinv].
  res_inv Ht. subst. inv_from Hfind.
Qed.

Lemma UpdateComputeStorageBuffers_inv P env fuel c c' :
  UpdateComputeStorageBuffers P env fuel c = Ok c' -> cache_inv c -> cache_inv c'.
Proof.
  unfold UpdateComputeStorageBuffers. intros H Hc.
  eapply ForEachEnabledBit_inv; [|exact H|exact Hc].
  intros index t t' Ht Hinv. apply bind_Ok in Ht as (binding & _ & Ht).
  apply bind_Ok in Ht as ([id t2] & Hfind & Ht).
  apply FindBuffer_inv in Hfind; [|exact Hinv].
  apply bind_Ok in Ht as (binding' & _ & Ht). apply bind_Ok in Ht as (cs & _ & Ht).
  cbv zeta in Ht.
  assert (H2 : cache_inv (set_compute_storage_buffers cs t2)) by (inv_from Hfind).
  destruct (bit_set _ index); [|by injection Ht as <-].
  eapply MarkWrittenBuffer_inv; eauto.
Qed.

Lemma DoUpdateGraphicsBuffers_inv P env fuel is_indexed c c' :
  DoUpdateGraphicsBuffers P env fuel is_indexed c = Ok c' -> cache_inv c -> cache_inv c'.
Proof.
  unfold DoUpdateGraphicsBuffers. intros H Hc.
  apply bind_Ok in H as (c1 & Hc1 & H). apply bind_Ok in H as (c2 & Hc2 & H).
  apply bind_Ok in H as (c3 & Hc3 & H).
  assert (H1 : cache_inv c1).
  { destruct is_indexed; [eapply UpdateIndexBuffer_inv; eauto | by injection Hc1 as <-]. }
  apply UpdateVertexBuffers_inv in Hc2; [|exact H1].
  apply UpdateTransformFeedbackBuffers_inv in Hc3; [|exact Hc2].
  eapply for_each_inv; [|exact H|exact Hc3].
  intros stage t t' Ht Hinv. apply bind_Ok in Ht as (t1 & Ht1 & Ht).
  eapply UpdateStorageBuffers_inv; [exact Ht|].
  eapply UpdateUniformBuffers_inv; eauto.
Qed.

Lemma DoUpdateComputeBuffers_inv P env fuel c c' :
  DoUpdateComputeBuffers P env fuel c = Ok c' -> cache_inv c -> cache_inv c'.
Proof.
  unfold DoUpdateComputeBuffers. intros H Hc. apply bind_Ok in H as (c1 & Hc1 & H).
  eapply UpdateComputeStorageBuffers_inv; [exact H|].
  eapply UpdateComputeUniformBuffers_inv; eauto.
Qed.

Lemma update_until_stable_inv pass rounds :
  (forall c c', pass c = Ok c' -> cache_inv c -> cache_inv c') ->
  forall c c', update_until_stable pass rounds c = Ok c' -> cache_inv c -> cache_inv c'.
Proof.
  intros Hpass. induction rounds as [|rounds IH]; intros c c' H Hc; simpl in H;
    [discriminate|].
  apply bind_Ok in H as (c1 & Hc1 & H).
  apply Hpass in Hc1; [|inv_from Hc].
  destruct (has_deleted_buffers c1); [eapply IH; eauto | by injection H as <-].
Qed.

Lemma CommitAsyncFlushes_inv c : cache_inv c -> cache_inv (CommitAsyncFlushes c).
Proof.
  intros (W & (U & C) & N). split; [|split].
  - eapply layout_wf_same_layout; [|exact W]. by apply same_layout_fields.
  - split; simpl; [apply NoDup_nil_2 | by apply Forall_cons].
  - exact N.
Qed.

Lemma Forall_removelast {A} (Q : A -> Prop) (l : list A) :
  Forall Q l -> Forall Q (removelast l).
Proof.
  induction l as [|x l IH]; simpl; [done|]. intros [Hx Hl]%Forall_cons.
  destruct l; [constructor|]. apply Forall_cons. split; [done | by apply IH].
Qed.

Lemma gather_downloads_same_core ids : forall acc c r c',
  gather_downloads ids acc c = Ok (r, c') -> same_core c c'.
Proof.
  induction ids as [|id ids IH]; intros acc c r c' H; simpl in H.
  - injection H as _ <-. apply same_core_refl.
  - apply bind_Ok in H as (b & Hb & H). apply bind_Ok in H as (c1 & Hc1 & H).
    eapply same_core_trans; [|eapply IH, H].
    eapply slot_update_const_same_core; [exact Hb | | | | | exact Hc1]; reflexivity.
Qed.

Lemma PopAsyncFlushes_inv P env c c' :
  PopAsyncFlushes P env c = Ok c' -> cache_inv c -> cache_inv c'.
Proof.
  unfold PopAsyncFlushes. intros H Hc.
  destruct (committed_downloads c) as [|front rest] eqn:Hq; [by injection H as <-|].
  assert (Hpop : forall c0 q, same_core c c0 -> q = pop_back (committed_downloads c0) ->
            cache_inv (set_committed_downloads q c0)).
  { intros c0 q (L & U & C & S) ->. destruct Hc as (W & D & N). split; [|split].
    - eapply layout_wf_same_layout; [|exact W].
      eapply same_layout_trans; [exact L|]. by apply same_layout_fields.
    - destruct D as [D1 D2]. split; simpl; [by rewrite U|].
      rewrite C. by apply Forall_removelast.
    - unfold scores_ok, scores. simpl. fold (scores c0). rewrite S. exact N. }
  cbv zeta in H. destruct (List.last (front :: rest) []) as [|d ds].
  - injection H as <-. apply Hpop; [apply same_core_refl | by rewrite Hq].
  - apply bind_Ok in H as ([[[downloads total] largest] c1] & Hg & H).
    apply gather_downloads_same_core in Hg.
    destruct downloads as [|dl dls]; [injection H as <-; by apply Hpop|].
    destruct (USE_MEMORY_MAPS P).
    + apply bind_Ok in H as (c2 & Hc2 & H). apply bind_Ok in H as (c3 & Hc3 & H).
      injection H as <-. apply Hpop; [|done].
      eapply same_core_trans; [exact Hg|]. eapply same_core_trans; [apply log_same_core|].
      eapply same_core_trans.
      { eapply for_each_same_core; [|exact Hc2]. intros x t t' Hx.
        apply bind_Ok in Hx as (? & _ & Hx). injection Hx as <-. apply log_same_core. }
      eapply same_core_trans; [apply log_same_core|].
      eapply for_each_same_core; [|exact Hc3]. intros x t t' Hx.
      apply bind_Ok in Hx as (b & _ & Hx). injection Hx as <-. apply log_same_core.
    + apply bind_Ok in H as (c2 & Hc2 & H). injection H as <-. apply Hpop; [|done].
      eapply same_core_trans; [exact Hg|].
      eapply same_core_trans; [apply ImmediateBuffer_same_core|].
      eapply for_each_same_core; [|exact Hc2]. intros x t t' Hx.
      apply bind_Ok in Hx as (b & _ & Hx). injection Hx as <-.
      eapply same_core_trans; apply log_same_core.
Qed.

(** ** The invariants hold after every public call *)

Lemma cache_inv_init : cache_inv BufferCache_init.
Proof.
  assert (Hshape : forall id sh, live BufferCache_init id sh ->
            id = 0 /\ sh = Shape.mk 0 0 false false).
  { intros id sh [Hs _]. apply shape_at_Some in Hs as (Hid & s & Hs & ->).
    simpl in Hid. assert (id = 0) as -> by lia. simpl in Hs. injection Hs as <-. done. }
  assert (Hpage : forall p, page_of BufferCache_init p = UNSET_BUFFER_ID) by done.
  split; [split|split; [split|]].
  - intros p id. simpl. rewrite lookup_empty. discriminate.
  - intros id sh Hl _ p. apply Hshape in Hl as (-> & ->). rewrite Hpage. split.
    + discriminate.
    + intros Hc. apply covers_iff in Hc; simpl in *; unfold ADDRESS_SPACE; lia.
  - discriminate.
  - intros p Hp. by rewrite Hpage in Hp.
  - intros id sh Hl. apply Hshape in Hl as (-> & ->). simpl. split; [discriminate|].
    intros Hin. by apply elem_of_nil in Hin.
  - intros id sh Hl. apply Hshape in Hl as (-> & ->). simpl. unfold ADDRESS_SPACE. lia.
  - simpl. unfold INVALID_INDEX. lia.
  - reflexivity.
  - apply NoDup_nil_2.
  - constructor.
  - repeat constructor. done.
Qed.

Lemma run_inv P env fuel op c c' : run P env fuel op c = Ok c' -> cache_inv c -> cache_inv c'.
Proof.
  destruct op; simpl; intros H Hc.
  - injection H as <-. eapply cache_inv_same_core; [apply TickFrame_same_core | exact Hc].
  - eapply cache_inv_same_core; [eapply WriteMemory_same_core, H | exact Hc].
  - eapply cache_inv_same_core; [eapply CachedWriteMemory_same_core, H | exact Hc].
  - eapply cache_inv_same_core; [eapply DownloadMemory_same_core, H | exact Hc].
  - eapply cache_inv_same_core; [eapply BindGraphicsUniformBuffer_same_core, H | exact Hc].
  - eapply cache_inv_same_core; [eapply DisableGraphicsUniformBuffer_same_core, H | exact Hc].
  - eapply update_until_stable_inv; [|exact H|exact Hc].
    intros t t'. apply DoUpdateGraphicsBuffers_inv.
  - eapply update_until_stable_inv; [|exact H|exact Hc].
    intros t t'. apply DoUpdateComputeBuffers_inv.
  - eapply cache_inv_same_core; [eapply BindHostGeometryBuffers_same_core, H | exact Hc].
  - eapply cache_inv_same_core; [eapply BindHostStageBuffers_same_core, H | exact Hc].
  - eapply cache_inv_same_core; [eapply BindHostComputeBuffers_same_core, H | exact Hc].
  - eapply cache_inv_same_core; [eapply SetEnabledUniformBuffers_same_core, H | exact Hc].
  - injection H as <-. eapply cache_inv_same_core; [|exact Hc]. same_fields.
  - eapply cache_inv_same_core; [eapply UnbindGraphicsStorageBuffers_same_core, H | exact Hc].
  - eapply cache_inv_same_core; [eapply BindGraphicsStorageBuffer_same_core, H | exact Hc].
  - injection H as <-. eapply cache_inv_same_core; [|exact Hc]. same_fields.
  - eapply cache_inv_same_core; [eapply BindComputeStorageBuffer_same_core, H | exact Hc].
  - eapply cache_inv_same_core; [eapply FlushCachedWrites_same_core, H | exact Hc].
  - injection H as <-. by apply CommitAsyncFlushes_inv.
  - eapply PopAsyncFlushes_inv; eauto.
Qed.

Lemma reachable_inv P c : reachable P c -> cache_inv c.
Proof.
  induction 1 as [|env fuel op c c' _ IH Hrun|f c _ IH].
  - apply cache_inv_init.
  - eapply run_inv; eauto.
  - eapply cache_inv_same_core; [|exact IH]. same_fields.
Qed.

(** Stream scores are never negative in a cache that the public operations
    reach. *)
Lemma reachable_scores_nonneg P c :
  reachable P c -> Forall (fun score => 0 <= score) (scores c).
Proof. intros Hr. apply (reachable_inv _ _ Hr). Qed.

Lemma run_all_reachable P env fuel ops : forall c c',
  reachable P c -> run_all P env fuel ops c = Ok c' -> reachable P c'.
Proof.
  induction ops as [|op ops IH]; intros c c' Hc H; simpl in H.
  - by injection H as <-.
  - apply bind_Ok in H as (c1 & Hc1 & H). eapply IH; [|exact H].
    eapply reachable_run; eauto.
Qed.

Lemma cache_storage_bound_reachable : reachable policy_vulkan cache_storage_bound.
Proof.
  eapply (run_all_reachable _ (example_env true 65536 256) 8 storage_bound);
    [apply reachable_init | vm_compute; reflexivity].
Qed.

Lemma page_table_matches_disjoint c : cache_wf c -> page_table_matches c -> page_disjoint c.
Proof.
  intros W Hm id1 sh1 id2 sh2 H1 H2 Hne p [C1 C2].
  apply (Hm _ _ H1) in C1. apply (Hm _ _ H2) in C2. congruence.
Qed.

(** C6, as stated, fails in its last part: in the cache after
    [storage_bound] buffer 1 owns page 1; [Unregister] leaves on that page
    the unset id [BufferId{}], 0xffffffff, and not the id 0 of the null
    buffer. *)
Lemma Unregister_clears_to_null_fails :
  ~ Unregister_clears_to_null 1 cache_storage_bound.
Proof.
  intros H.
  pose (c' := match Unregister 1 cache_storage_bound with
              | Ok c => c
              | _ => BufferCache_init
              end).
  assert (Hl : live cache_storage_bound 1 (Shape.mk 65536 49408 false false))
    by (split; vm_compute; reflexivity).
  assert (E : Unregister 1 cache_storage_bound = Ok c') by (vm_compute; reflexivity).
  assert (Hc : covers (Shape.mk 65536 49408 false false) 1)
    by (vm_compute; split; [discriminate | reflexivity]).
  assert (Hp : page_of c' 1 = UNSET_BUFFER_ID) by (vm_compute; reflexivity).
  specialize (H _ c' Hl E 1 Hc). rewrite Hp in H. discriminate H.
Qed.

(** C6 (amended): after every public operation returns, every live buffer
    [id] with extent [a, a + s) owns exactly the pages
    [a / PAGE_SIZE, ceil((a + s) / PAGE_SIZE)): the page table holds [id] on
    each of them and on no other page.  Consequently the extents of two
    distinct live buffers are page-disjoint.  [Unregister] resets exactly
    the pages of the buffer, which are the pages that held its id, to the
    unset id [BufferId{}] -- the value of a page without a buffer, which
    converts to false and is not the id of the null buffer -- and leaves
    every other page as it was. *)
Theorem page_table_invariant (P : Policy) (c : BufferCache) :
  reachable P c ->
  page_table_matches c /\
  page_disjoint c /\
  forall id sh c', live c id sh -> Unregister id c = Ok c' ->
    forall page,
      page_of c' page =
        (if decide (covers sh page) then UNSET_BUFFER_ID else page_of c page) /\
      (covers sh page <-> page_of c page = id) /\
      id_bool UNSET_BUFFER_ID = false.
Proof.
  intros Hr. destruct (reachable_inv _ _ Hr) as (W & _).
  assert (Hm : page_table_matches c).
  { intros id sh Hl p. apply (wf_pages _ _ _ W _ _ Hl). discriminate. }
  split; [exact Hm|]. split; [by apply page_table_matches_disjoint|].
  intros id sh c' Hl Hun page. split; [|split].
  - unfold Unregister in Hun. apply (ChangeRegister_page_of _ _ _ _ _ Hun (proj1 Hl)).
  - symmetry. apply (Hm _ _ Hl).
  - reflexivity.
Qed.

Lemma page_table_invariant_witness :
  page_table_matches cache_storage_bound /\
  page_disjoint cache_storage_bound /\
  forall id sh c', live cache_storage_bound id sh -> Unregister id cache_storage_bound = Ok c' ->
    forall page,
      page_of c' page =
        (if decide (covers sh page) then UNSET_BUFFER_ID
         else page_of cache_storage_bound page) /\
      (covers sh page <-> page_of cache_storage_bound page = id) /\
      id_bool UNSET_BUFFER_ID = false.
Proof.
  apply (page_table_invariant policy_vulkan cache_storage_bound).
  eapply (run_all_reachable _ (example_env true 65536 256) 8 storage_bound);
    [apply reachable_init | vm_compute; reflexivity].
Defined.

(** The example: buffer 1 spans [0x10000, 0x1c100) and owns page 1 alone. *)
Lemma cache_storage_bound_page :
  live cache_storage_bound 1 (Shape.mk 65536 49408 false false) /\
  page_of cache_storage_bound 1 = 1 /\
  page_of cache_storage_bound 0 = UNSET_BUFFER_ID /\
  page_of cache_storage_bound 2 = UNSET_BUFFER_ID.
Proof. repeat split; vm_compute; reflexivity. Qed.

(** ** No duplicates in the download queues *)

Lemma MarkWrittenBuffer_uncommitted env id cpu_addr size c c' :
  MarkWrittenBuffer env id cpu_addr size c = Ok c' ->
  c'.(committed_downloads) = c.(committed_downloads) /\
  (c'.(uncommitted_downloads) = c.(uncommitted_downloads) \/
   (id ∉ c.(uncommitted_downloads)) /\
   c'.(uncommitted_downloads) = c.(uncommitted_downloads) ++ [id]).
Proof.
  unfold MarkWrittenBuffer. intros H. apply bind_Ok in H as (c1 & Hc1 & H).
  apply slot_update_same_downloads in Hc1 as [U C]. rewrite <- U, <- C.
  destruct (_ || _); [injection H as <-; auto|].
  destruct (existsb _ _) eqn:Hex; injection H as <-; [auto|]. split; [done|]. right.
  split; [|done]. intros Hin.
  assert (existsb (Z.eqb id) (uncommitted_downloads c1) = true); [|congruence].
  apply existsb_exists. exists id. split; [by apply list_elem_of_In | apply Z.eqb_refl].
Qed.

(** C9: after every public operation returns, [uncommitted_downloads] holds
    no id twice and neither does any list of [committed_downloads].
    [MarkWrittenBuffer] appends the id only if it is not in the list yet,
    and [ReplaceBufferDownloads] leaves the new id at most once in every
    list, without the old id, and keeps lists free of duplicates. *)
Theorem downloads_without_duplicates (P : Policy) (c : BufferCache) :
  reachable P c ->
  NoDup c.(uncommitted_downloads) /\
  Forall NoDup c.(committed_downloads) /\
  (forall env id cpu_addr size c',
     MarkWrittenBuffer env id cpu_addr size c = Ok c' ->
     (c'.(uncommitted_downloads) = c.(uncommitted_downloads) \/
      (id ∉ c.(uncommitted_downloads)) /\
      c'.(uncommitted_downloads) = c.(uncommitted_downloads) ++ [id]) /\
     NoDup c'.(uncommitted_downloads)) /\
  (forall old_id new_id,
     let c' := ReplaceBufferDownloads old_id new_id c in
     Forall (fun l => (count_occ Z.eq_dec l new_id <= 1)%nat /\ NoDup l /\
                      (old_id <> new_id -> old_id ∉ l))
            (c'.(uncommitted_downloads) :: c'.(committed_downloads))).
Proof.
  intros Hr. pose proof (reachable_inv _ _ Hr) as Hinv.
  destruct Hinv as (W & (U & C) & N).
  split; [exact U|]. split; [exact C|]. split.
  - intros env id cpu_addr size c' Hm. split.
    + apply (MarkWrittenBuffer_uncommitted _ _ _ _ _ _ Hm).
    + eapply MarkWrittenBuffer_inv in Hm as (_ & (? & _) & _); [done|].
      split; [exact W|]. split; [by split | exact N].
  - intros old_id new_id c'. subst c'. simpl. apply Forall_cons. split.
    + split; [apply erase_after_first_count|]. split; [by apply replace_downloads_NoDup|].
      apply replace_downloads_old_gone.
    + apply Forall_forall. intros l Hl.
      apply list_elem_of_In, in_map_iff in Hl as (l0 & <- & Hl0).
      split; [apply erase_after_first_count|]. split.
      * apply replace_downloads_NoDup. rewrite Forall_forall in C.
        by apply C, list_elem_of_In.
      * apply replace_downloads_old_gone.
Qed.

Lemma downloads_without_duplicates_witness :
  let c := cache_storage_bound in
  NoDup c.(uncommitted_downloads) /\
  Forall NoDup c.(committed_downloads) /\
  (forall env id cpu_addr size c',
     MarkWrittenBuffer env id cpu_addr size c = Ok c' ->
     (c'.(uncommitted_downloads) = c.(uncommitted_downloads) \/
      (id ∉ c.(uncommitted_downloads)) /\
      c'.(uncommitted_downloads) = c.(uncommitted_downloads) ++ [id]) /\
     NoDup c'.(uncommitted_downloads)) /\
  (forall old_id new_id,
     let c' := ReplaceBufferDownloads old_id new_id c in
     Forall (fun l => (count_occ Z.eq_dec l new_id <= 1)%nat /\ NoDup l /\
                      (old_id <> new_id -> old_id ∉ l))
            (c'.(uncommitted_downloads) :: c'.(committed_downloads))).
Proof.
  apply (downloads_without_duplicates policy_vulkan cache_storage_bound).
  eapply (run_all_reachable _ (example_env true 65536 256) 8 storage_bound);
    [apply reachable_init | vm_compute; reflexivity].
Defined.

(** A relink that meets the new id twice: the list [[1; 2; 1]] with 1
    replaced by 3 and 2 untouched, and [[1; 3]] with 1 replaced by 3. *)
Lemma replace_downloads_examples :
  replace_downloads 1 3 [1; 2; 1] = [3; 2] /\ replace_downloads 1 3 [1; 3] = [3].
Proof. split; reflexivity. Qed.

(** ** Joining an overlap *)

(** C7: [JoinOverlap] at buffer 2 over [0x14000, 0x2c100) and buffer 1 over
    [0x20000, 0x2c100), all of which is GPU-modified.  The copy from buffer 1
    to buffer 2 is enqueued at the destination offset
    0x20000 - 0x14000 + 0 = 0xc000, but the range is marked in the new buffer
    with its offset 0 in the place of a guest address, which lies below the
    new buffer: no byte of buffer 2 becomes GPU-modified and all of it stays
    CPU-modified.  The same holds when the join is reached through the
    public operations. *)
Theorem JoinOverlap_loses_gpu_modified :
  exists c old new c' new',
    cache_before_join = Ok c /\
    slot_at c 1 = Ok old /\ slot_at c 2 = Ok new /\
    Buffer.IsInBounds new (Buffer.CpuAddr old) (Buffer.SizeBytes old) = true /\
    Buffer.gpu_modified old = [(0, 49408)] /\
    JoinOverlap policy_vulkan 2 1 true c = Ok c' /\
    slot_at c' 2 = Ok new' /\
    c'.(runtime_calls) =
      [Call.CopyBuffer (CachedBuffer 2) (CachedBuffer 1) [BufferCopy.mk 0 49152 49408]] /\
    Buffer.gpu_modified new' = [] /\
    Buffer.cpu_modified new' = [(0, 98560)] /\
    gpu_modified_carried old new' [131072] = false /\
    exists c2 rebound,
      cache_rebound = Ok c2 /\ slot_at c2 2 = Ok rebound /\
      c2.(runtime_calls) = c'.(runtime_calls) /\
      Buffer.gpu_modified rebound = [] /\
      gpu_modified_carried old rebound [131072] = false.
Proof.
  eexists _, _, _, _, _.
  repeat (split; [vm_compute; reflexivity|]).
  eexists _, _. repeat (split; [vm_compute; reflexivity|]).
  vm_compute; reflexivity.
Qed.

(** ** The stream leap *)

Lemma pick_overlap_leap overlap_id overlap s :
  let s' := pick_overlap overlap_id overlap s in
  Scan.stream_score s' = Scan.stream_score s + Buffer.StreamScore overlap /\
  if Scan.has_stream_leap s
  then Scan.has_stream_leap s' = true /\ Scan.end_ s' = running_end overlap s
  else (Scan.has_stream_leap s' = true <->
        STREAM_LEAP_THRESHOLD < Scan.stream_score s') /\
       (Scan.has_stream_leap s' = true ->
        Scan.end_ s' = u64 (running_end overlap s + 256 * PAGE_SIZE) /\
        (running_end overlap s + 256 * PAGE_SIZE < 2 ^ 64 ->
         Scan.end_ s' = running_end overlap s + 256 * PAGE_SIZE)) /\
       (Scan.has_stream_leap s' = false -> Scan.end_ s' = running_end overlap s).
Proof.
  intros s'. destruct (pick_overlap_fields overlap_id overlap s) as (Fs & Fl & _ & Fe).
  fold s' in Fs, Fl, Fe. split; [exact Fs|].
  destruct (Scan.has_stream_leap s); simpl in Fl, Fe.
  - rewrite Fl in *. done.
  - split; [by rewrite Fl, Z.ltb_lt|]. split.
    + intros Ht. rewrite Ht in Fe. split; [exact Fe|]. intros Hlt. rewrite Fe.
      apply u64_id. unfold is_u64. rewrite PAGE_SIZE_eq in *.
      assert (0 <= running_end overlap s); [|lia].
      pose proof (u64_range (Buffer.CpuAddr overlap + Buffer.SizeBytes overlap)) as Hu.
      unfold running_end, is_u64 in *. lia.
    + intros Hf. by rewrite Hf in Fe.
Qed.

(** C8: in [ResolveOverlaps] every pick adds the score of the overlap to the
    accumulated stream score.  While no leap was taken, the pick takes it
    exactly when the accumulated score exceeds 16: it sets [has_stream_leap]
    and moves [end] to the running end plus 256 pages; once the flag is
    set a pick only takes the running end, so a resolve leaps at most once.
    The resolve of a [CreateBuffer] therefore ends with the flag set exactly
    when the score accumulated over some first overlaps exceeded 16, which,
    stream scores not being negative (as in every cache that the public
    operations reach, [reachable_scores_nonneg]), is when the score
    accumulated over all its overlaps exceeds 16.  Every [JoinOverlap] of that create is told to
    accumulate exactly when the flag is not set: after a leap the new buffer
    keeps the stream score 0, otherwise it gets the score of each overlap
    plus 1. *)
Theorem stream_leap_at_most_once (P : Policy) (fuel : nat) (cpu_addr wanted_size : Z)
    (c : BufferCache) (id : BufferId) (c' : BufferCache) :
  CreateBuffer P fuel cpu_addr wanted_size c = Ok (id, c') ->
  STREAM_LEAP_THRESHOLD = 16 /\
  (forall overlap_id overlap s,
     let s' := pick_overlap overlap_id overlap s in
     Scan.stream_score s' = Scan.stream_score s + Buffer.StreamScore overlap /\
     if Scan.has_stream_leap s
     then Scan.has_stream_leap s' = true /\ Scan.end_ s' = running_end overlap s
     else (Scan.has_stream_leap s' = true <->
           STREAM_LEAP_THRESHOLD < Scan.stream_score s') /\
          (Scan.has_stream_leap s' = true ->
           Scan.end_ s' = u64 (running_end overlap s + 256 * PAGE_SIZE) /\
           (running_end overlap s + 256 * PAGE_SIZE < 2 ^ 64 ->
            Scan.end_ s' = running_end overlap s + 256 * PAGE_SIZE)) /\
          (Scan.has_stream_leap s' = false -> Scan.end_ s' = running_end overlap s)) /\
  exists r c1,
    ResolveOverlaps fuel cpu_addr (u32 wanted_size) c = Ok (r, c1) /\
    (OverlapResult.has_stream_leap r = true <->
     exists k, STREAM_LEAP_THRESHOLD < accumulated c (take k (OverlapResult.ids r))) /\
    (Forall (fun score => 0 <= score) (scores c) ->
     (OverlapResult.has_stream_leap r = true <->
      STREAM_LEAP_THRESHOLD < accumulated c (OverlapResult.ids r))) /\
    score_of c' id =
      joined_score c (negb (OverlapResult.has_stream_leap r)) (OverlapResult.ids r) /\
    (OverlapResult.has_stream_leap r = true -> score_of c' id = 0).
Proof.
  intros H. split; [reflexivity|]. split; [apply pick_overlap_leap|].
  apply CreateBuffer_scores in H as (r & c1 & Hr & Hleap & -> & Hs).
  exists r, c1. split; [exact Hr|].
  assert (Hscore : score_of c' (Z.of_nat (length (slot_buffers c))) =
                   joined_score c (negb (OverlapResult.has_stream_leap r))
                                (OverlapResult.ids r)).
  { unfold score_of. destruct (Z.leb_spec 0 (Z.of_nat (length (slot_buffers c)))); [|lia].
    rewrite Hs, Nat2Z.id, lookup_app_r by (unfold scores; rewrite length_fmap; lia).
    unfold scores. by rewrite length_fmap, Nat.sub_diag. }
  assert (Hflag : OverlapResult.has_stream_leap r = snd (leap_scan c (OverlapResult.ids r)))
    by (by rewrite <- Hleap).
  split; [|split; [|split; [exact Hscore|]]].
  - rewrite Hflag. apply leap_scan_prefix.
  - intros Hnn. rewrite Hflag. apply leap_scan_total. intros i. by apply score_of_nonneg.
  - intros Ht. by rewrite Hscore, Ht.
Qed.

Lemma cache_streamed_reachable : reachable policy_vulkan cache_streamed.
Proof.
  eapply (run_all_reachable _ (example_env true 0 0) 400 (stream_ops 18));
    [apply reachable_init | vm_compute; reflexivity].
Qed.

Lemma stream_leap_at_most_once_witness :
  exists id c' r c1,
    CreateBuffer policy_vulkan 400 2949120 65537 cache_streamed = Ok (id, c') /\
    ResolveOverlaps 400 2949120 (u32 65537) cache_streamed = Ok (r, c1) /\
    OverlapResult.ids r = [18] /\
    accumulated cache_streamed (OverlapResult.ids r) = 17 /\
    OverlapResult.has_stream_leap r = true /\
    OverlapResult.end_ r = 4194305 + 256 * PAGE_SIZE /\
    score_of c' id = 0.
Proof.
  destruct (CreateBuffer policy_vulkan 400 2949120 65537 cache_streamed)
    as [[id c']| |] eqn:Hc; [|by vm_compute in Hc..].
  destruct (stream_leap_at_most_once policy_vulkan 400 2949120 65537 cache_streamed id c' Hc)
    as (_ & _ & r & c1 & Hr & _ & Hleap & Hscore & Hzero).
  specialize (Hleap (reachable_scores_nonneg _ _ cache_streamed_reachable)).
  exists id, c', r, c1. split; [reflexivity|]. split; [exact Hr|].
  assert (Hr' := Hr). vm_compute in Hr'. injection Hr' as <- <-.
  assert (Hacc : accumulated cache_streamed [18] = 17) by (vm_compute; reflexivity).
  split; [reflexivity|]. split; [exact Hacc|].
  split; [|split; [reflexivity|apply Hzero; reflexivity]].
  reflexivity.
Defined.

(** The same rebinding through the public operations: the 19th draw finds a
    stream score of 17 and leaps.  Buffer 19 spans 256 pages more than the
    range needs and starts again from the stream score 0. *)
Lemma stream_leap_example :
  exists c buffer,
    run_all policy_vulkan (example_env true 0 0) 400 (rebind_at 19) cache_streamed = Ok c /\
    scores cache_streamed = [0; 0; 1; 2; 3; 4; 5; 6; 7; 8; 9; 10; 11; 12; 13; 14; 15; 16; 17] /\
    slot_at c 19 = Ok buffer /\
    Buffer.CpuAddr buffer = 2949120 /\
    Buffer.SizeBytes buffer = 4194305 - 2949120 + 256 * PAGE_SIZE /\
    Buffer.StreamScore buffer = 0.
Proof.
  eexists _, _. split; [vm_compute; reflexivity|].
  repeat split; vm_compute; reflexivity.
Qed.

(** ** Looking up a buffer: the operations return *)

Lemma bind_returns {A B} (m : Res A) (k : A -> Res B) a :
  m = Ok a -> (exists r, k a = Ok r) -> exists r, (x ← m; k x) = Ok r.
Proof. intros -> (r & Hr). exists r. exact Hr. Qed.

Lemma slot_in_range c id sh :
  shape_at c id = Some sh -> 0 <= id < Z.of_nat (length c.(slot_buffers)).
Proof. intros H. by apply shape_at_Some in H as (H & _). Qed.

Lemma slot_update_returns id f c :
  0 <= id < Z.of_nat (length c.(slot_buffers)) -> exists c', slot_update id f c = Ok c'.
Proof.
  intros Hid. destruct (lookup_lt_is_Some_2 c.(slot_buffers) (Z.to_nat id)) as [s Hs]; [lia|].
  eexists. apply slot_update_Ok. split; [lia|]. exists s. split; [exact Hs|reflexivity].
Qed.

Lemma slot_at_returns c id :
  0 <= id < Z.of_nat (length c.(slot_buffers)) -> exists b, slot_at c id = Ok b.
Proof.
  intros Hid. destruct (lookup_lt_is_Some_2 c.(slot_buffers) (Z.to_nat id)) as [s Hs]; [lia|].
  eexists. apply slot_at_Ok. split; [lia|]. exists s. split; [exact Hs|reflexivity].
Qed.

Lemma store_pages_returns id pages : forall c,
  (forall page, page ∈ pages -> page_in_range page = true) ->
  exists c', for_each (fun page c => page_table_store page id c) pages c = Ok c'.
Proof.
  induction pages as [|p pages IH]; intros c Hp; simpl; [by eexists|].
  eapply bind_returns.
  - apply page_table_store_Ok. split; [apply Hp; left|reflexivity].
  - apply IH. intros q Hq. apply Hp. by right.
Qed.

Lemma ChangeRegister_returns insert id c sh :
  shape_at c id = Some sh ->
  0 <= Shape.addr sh -> 0 <= Shape.size sh -> Shape.addr sh + Shape.size sh < 2 ^ 63 ->
  (forall page, covers sh page -> page_in_range page = true) ->
  exists c', ChangeRegister insert id c = Ok c'.
Proof.
  intros Hsh Ha Hz Hlt Hcov. unfold ChangeRegister.
  destruct (shape_at_slot_at _ _ _ Hsh) as (b & Hb & Ea & Ez & _).
  eapply bind_returns; [exact Hb|]. cbv zeta. unfold Buffer.CpuAddr, Buffer.SizeBytes.
  rewrite <- Ea, <- Ez.
  assert (Hu : u64 (Shape.addr sh + Shape.size sh) = Shape.addr sh + Shape.size sh)
    by (apply u64_id; unfold is_u64; lia).
  rewrite Hu, DivCeil_PAGE_SIZE, PAGE_SIZE_eq by lia.
  destruct (Z.leb_spec (Shape.addr sh / 65536) ((Shape.addr sh + Shape.size sh + 65535) / 65536))
    as [Hle|Hgt].
  - apply store_pages_returns. intros p Hp. apply Hcov. unfold covers, page_begin, page_end.
    rewrite Hu, DivCeil_PAGE_SIZE, PAGE_SIZE_eq by lia.
    apply elem_of_seqZ in Hp. lia.
  - exfalso. assert (Shape.addr sh / 65536 <= (Shape.addr sh + Shape.size sh + 65535) / 65536);
      [|lia].
    apply Z.div_le_mono; lia.
Qed.

Lemma DeleteBuffer_returns P id c sh :
  shape_at c id = Some sh ->
  0 <= Shape.addr sh -> 0 <= Shape.size sh -> Shape.addr sh + Shape.size sh < 2 ^ 63 ->
  (forall page, covers sh page -> page_in_range page = true) ->
  exists c', DeleteBuffer P id c = Ok c'.
Proof.
  intros Hsh Ha Hz Hlt Hcov. unfold DeleteBuffer.
  set (c0 := set_cached_write_buffer_ids _ _).
  assert (H0 : same_layout c c0) by (apply same_layout_fields; reflexivity).
  clearbody c0.
  rewrite <- (shape_at_same_layout _ _ _ H0) in Hsh.
  destruct (shape_at_slot_at _ _ _ Hsh) as (b & Hb & _).
  eapply bind_returns; [exact Hb|].
  destruct (slot_update_returns id
              (Buffer.MarkRegionAsCpuModified (Buffer.CpuAddr b) (Buffer.SizeBytes b)) c0)
    as (c1 & Hc1); [eapply slot_in_range, Hsh|].
  eapply bind_returns; [exact Hc1|].
  assert (H1 : same_layout c0 c1)
    by (eapply slot_update_same_layout; [apply keeps_shape_MarkCpu | exact Hc1]).
  rewrite <- (shape_at_same_layout _ _ _ H1) in Hsh.
  destruct (ChangeRegister_returns false id c1 sh Hsh Ha Hz Hlt Hcov) as (c2 & Hc2).
  eapply bind_returns; [exact Hc2|].
  destruct (ChangeRegister_Ok _ _ _ _ Hc2) as (_ & _ & Hc2' & _).
  assert (Hsb : c2.(slot_buffers) = c1.(slot_buffers)) by (rewrite Hc2'; reflexivity).
  apply shape_at_Some in Hsh as (Hid & s & Hs & _).
  eapply bind_returns; [apply load_Ok; rewrite Hsb; split; [lia|exact Hs]|].
  eapply bind_returns; [|by eexists].
  apply store_Ok. split; [|reflexivity]. simpl. rewrite Hsb. lia.
Qed.

Lemma JoinOverlap_returns P new_id id acc c shn sh :
  shape_at c new_id = Some shn -> shape_at c id = Some sh ->
  0 <= Shape.addr sh -> 0 <= Shape.size sh -> Shape.addr sh + Shape.size sh < 2 ^ 63 ->
  (forall page, covers sh page -> page_in_range page = true) ->
  exists c', JoinOverlap P new_id id acc c = Ok c'.
Proof.
  intros Hn Hsh Ha Hz Hlt Hcov. unfold JoinOverlap.
  destruct (shape_at_slot_at _ _ _ Hn) as (nb & Hnb & _).
  destruct (shape_at_slot_at _ _ _ Hsh) as (ov & Hov & Ea & Ez & Ep).
  eapply bind_returns; [exact Hnb|]. eapply bind_returns; [exact Hov|].
  assert (H1 : exists c1,
    (if acc then slot_update new_id
                   (Buffer.IncreaseStreamScore (Buffer.StreamScore ov + 1)) c
     else Ok c) = Ok c1 /\ same_layout c c1).
  { destruct acc; [|eexists; split; [reflexivity|apply same_layout_refl]].
    destruct (slot_update_returns new_id
                (Buffer.IncreaseStreamScore (Buffer.StreamScore ov + 1)) c) as (c1 & Hc1);
      [eapply slot_in_range, Hn|].
    exists c1. split; [exact Hc1|].
    eapply slot_update_same_layout; [apply keeps_shape_IncreaseStreamScore | exact Hc1]. }
  destruct H1 as (c1 & Hc1 & H1). eapply bind_returns; [exact Hc1|].
  unfold Buffer.ForEachDownloadRangeAll.
  pose proof (ForEachDownloadRange_shape (Buffer.cpu_addr ov) (Buffer.size_bytes ov) ov)
    as Hshape.
  destruct (Buffer.ForEachDownloadRange _ _ ov) as [ranges ov'] eqn:Hranges.
  simpl in Hshape. destruct Hshape as (Fa & Fz & Fp).
  rewrite <- (shape_at_same_layout _ _ id H1) in Hsh.
  rewrite <- (shape_at_same_layout _ _ new_id H1) in Hn.
  destruct (slot_update_returns id (fun _ => ov') c1) as (c2 & Hc2);
    [eapply slot_in_range, Hsh|].
  eapply bind_returns; [exact Hc2|].
  assert (H2 : same_layout c1 c2).
  { eapply (slot_update_const_shape id ov' c1 c2 sh); [exact Hsh|congruence..|exact Hc2]. }
  rewrite <- (shape_at_same_layout _ _ id H2) in Hsh.
  rewrite <- (shape_at_same_layout _ _ new_id H2) in Hn.
  destruct (slot_update_returns new_id (fun b => fold_left join_range ranges b) c2)
    as (c3 & Hc3); [eapply slot_in_range, Hn|].
  eapply bind_returns; [exact Hc3|].
  assert (H3 : same_layout c2 c3).
  { eapply slot_update_same_layout; [|exact Hc3].
    apply (keeps_shape_fold join_range), keeps_shape_join_range. }
  rewrite <- (shape_at_same_layout _ _ _ H3) in Hsh.
  eapply DeleteBuffer_returns; [|exact Ha|exact Hz|exact Hlt|exact Hcov].
  rewrite <- Hsh. apply shape_at_same_layout.
  eapply same_layout_trans; [|apply ReplaceBufferDownloads_same_layout].
  destruct (map _ ranges); [apply same_layout_refl | apply log_same_layout].
Qed.

Lemma filter_insert_length {A} (f : A -> bool) (y : A) : forall (l : list A) (i : nat) (x : A),
  l !! i = Some x -> f x = true -> f y = false ->
  length (List.filter f l) = S (length (List.filter f (<[i := y]> l))).
Proof.
  induction l as [|a l IH]; intros i x Hi Hx Hy; [done|].
  destruct i as [|i]; simpl in *.
  - injection Hi as ->. by rewrite Hx, Hy.
  - destruct (f a); simpl; erewrite IH; eauto.
Qed.

Lemma unpicked_Pick c id b c' :
  slot_at c id = Ok b -> Buffer.is_picked b = false -> slot_update id Buffer.Pick c = Ok c' ->
  unpicked c = S (unpicked c').
Proof.
  intros Hb Hp Hc. apply slot_at_Ok in Hb as (Hid & s & Hs & ->).
  apply slot_update_Ok in Hc as (_ & s' & Hs' & ->).
  assert (s' = s) as -> by congruence. unfold unpicked. simpl.
  eapply filter_insert_length; [exact Hs| |done].
  unfold Buffer.IsPicked. by rewrite Hp.
Qed.

Lemma scan_budget_nonneg s c : 0 <= scan_budget s c.
Proof. unfold scan_budget. rewrite NUM_PAGES_eq. lia. Qed.

Lemma scan_budget_next_page s c :
  0 <= Scan.cpu_addr s -> Z.shiftr (Scan.cpu_addr s) PAGE_BITS < NUM_PAGES ->
  scan_budget (next_page s) c < scan_budget s c.
Proof.
  unfold scan_budget, next_page. simpl. rewrite !shiftr_PAGE_BITS, NUM_PAGES_eq, PAGE_SIZE_eq.
  intros H0 Hlt.
  assert (Scan.cpu_addr s < 8388608 * 65536) by (apply page_lt; lia).
  rewrite u64_id by (unfold is_u64; lia).
  replace (Scan.cpu_addr s + 65536) with (Scan.cpu_addr s + 1 * 65536) by lia.
  rewrite Z.div_add by lia.
  assert (0 <= Scan.cpu_addr s / 65536) by (apply Z.div_pos; lia). lia.
Qed.

Lemma scan_budget_pick s s' c c' :
  unpicked c = S (unpicked c') -> scan_budget s' c' < scan_budget s c.
Proof. unfold scan_budget. intros ->. rewrite NUM_PAGES_eq. lia. Qed.

(** An iteration of the scan returns and uses up budget. *)
Lemma ResolveOverlaps_body_returns M a0 w s c :
  M + 2 ^ 24 <= 2 ^ 39 -> 0 <= w -> scan_inv M a0 w s c -> scan_continues s = true ->
  exists s' c', ResolveOverlaps_body s c = Ok (s', c') /\
                scan_budget s' c' < scan_budget s c.
Proof.
  intros HM Hw Hinv Hcont. destruct Hinv as [Wf Hb Hnd Hids Hbeg Hend Hcov].
  unfold scan_continues in Hcont. apply Z.ltb_lt in Hcont.
  assert (Hend' : 0 <= Scan.end_ s <= 2 ^ 39) by (destruct (Scan.has_stream_leap s); lia).
  assert (Hp : Z.shiftr (Scan.cpu_addr s) PAGE_BITS < NUM_PAGES).
  { apply lt_DivCeil in Hcont; [|lia]. rewrite shiftr_PAGE_BITS in *. rewrite NUM_PAGES_eq.
    lia. }
  assert (Hp0 : 0 <= Z.shiftr (Scan.cpu_addr s) PAGE_BITS)
    by (rewrite shiftr_PAGE_BITS; apply Z.div_pos; lia).
  assert (Hnext : scan_budget (next_page s) c < scan_budget s c)
    by (apply scan_budget_next_page; lia).
  unfold ResolveOverlaps_body.
  set (page := Z.shiftr (Scan.cpu_addr s) PAGE_BITS) in *.
  assert (Hpt : page_table_at c page = Ok (page_of c page)).
  { apply page_table_at_Ok. split; [|done]. apply page_in_range_iff.
    rewrite NUM_PAGES_eq in Hp. lia. }
  rewrite Hpt. simpl.
  destruct (id_bool (page_of c page)) eqn:Hid; simpl; [|by eexists _, _].
  assert (Hne : page_of c page <> UNSET_BUFFER_ID).
  { intros Hu. apply id_bool_false in Hu. congruence. }
  destruct (layout_wf_owner_slot _ _ _ _ Wf Hne) as (sh & b & Hl & Hslot & _ & _ & Hpk).
  rewrite Hslot. simpl. destruct (Buffer.IsPicked b) eqn:Hpicked; [by eexists _, _|].
  destruct (slot_update_returns (page_of c page) Buffer.Pick c) as (c' & Hc');
    [destruct Hl as [Hl _]; eapply slot_in_range, Hl|].
  rewrite Hc'. simpl. eexists _, _. split; [reflexivity|].
  apply scan_budget_pick. eapply unpicked_Pick; eauto.
Qed.

Lemma ResolveOverlaps_loop_returns M a0 w fuel : forall s c,
  M + 2 ^ 24 <= 2 ^ 39 -> 0 <= w -> scan_inv M a0 w s c -> scan_budget s c < Z.of_nat fuel ->
  exists s' c', ResolveOverlaps_loop fuel s c = Ok (s', c').
Proof.
  induction fuel as [|fuel IH]; intros s c HM Hw Hinv Hfuel.
  - pose proof (scan_budget_nonneg s c). lia.
  - simpl. destruct (scan_continues s) eqn:Hcont; [|by eexists _, _].
    destruct (ResolveOverlaps_body_returns _ _ _ _ _ HM Hw Hinv Hcont) as (s1 & c1 & Hb & Hlt).
    rewrite Hb. simpl. apply IH; [done|done| |lia].
    eapply scan_inv_body; [|exact Hinv|exact Hb]. lia.
Qed.

Lemma scan_budget_start c cpu_addr wanted_size fuel :
  enough_fuel c fuel -> scan_budget (scan_start cpu_addr wanted_size) c < Z.of_nat fuel.
Proof. unfold enough_fuel, scan_budget. rewrite NUM_PAGES_eq. lia. Qed.

Lemma LEAP_ROOM_eq : LEAP_ROOM + 2 ^ 24 = 2 ^ 39.
Proof. reflexivity. Qed.

(** The state in which [CreateBuffer] starts to join the overlaps. *)
Lemma join_inv_insert M a0 w s cs n c1 :
  M + 2 ^ 24 <= 2 ^ 39 -> 0 <= w -> a0 < 2 ^ 39 ->
  scan_inv M a0 w s cs -> scan_continues s = false ->
  slot_insert (Buffer.create (Scan.begin s) (u32 (Scan.end_ s - Scan.begin s))) cs
    = Ok (n, c1) ->
  join_inv n (Shape.mk (Scan.begin s) (u32 (Scan.end_ s - Scan.begin s)) false false)
           (Scan.begin s / 65536) (DivCeil (Scan.end_ s) PAGE_SIZE)
           (Scan.overlap_ids s) c1.
Proof.
  intros HM Hw Ha [Wf Hb Hnd Hids Hbeg Hend Hcov] Hstop Hins.
  set (size := u32 (Scan.end_ s - Scan.begin s)) in *.
  assert (Hsize : 0 <= size < 2 ^ 32) by apply u32_range.
  assert (Hend' : 0 <= Scan.end_ s <= 2 ^ 39) by (destruct (Scan.has_stream_leap s); lia).
  destruct (slot_insert_shape_at _ _ _ _ Hins) as (Hnew & Hold & Hfresh & Hpt).
  assert (Hlive1 : forall i, i ∈ Scan.overlap_ids s -> exists sh, live cs i sh /\ i <> n).
  { intros i Hi. destruct (Hids i Hi) as (sh & Hl & _). exists sh. split; [done|].
    intros ->. destruct Hl. congruence. }
  assert (Hstop' : DivCeil (Scan.end_ s) PAGE_SIZE <= Scan.cpu_addr s / 65536).
  { unfold scan_continues in Hstop. rewrite shiftr_PAGE_BITS in Hstop. lia. }
  split.
  - eapply layout_wf_insert; [exact Wf | | | | | exact Hins]; simpl.
    + intros i Hi. destruct (Hlive1 i Hi) as (sh & ? & _). eauto.
    + done.
    + unfold ADDRESS_SPACE. lia.
    + done.
  - exact Hnd.
  - intros Hin. destruct (Hlive1 _ Hin) as (? & _ & ?). done.
  - intros i Hi. destruct (Hlive1 i Hi) as (sh & (Hs & Hm) & Hne). exists sh.
    split; [|done]. rewrite Hold by done. done.
  - intros p Hp. unfold page_of. rewrite Hpt. apply Hcov. lia.
  - exact Hnew.
Qed.

Lemma registered_pages_in_range pending picks c id sh page :
  layout_wf pending picks c -> live c id sh -> pending <> Some id ->
  covers sh page -> page_in_range page = true.
Proof.
  intros W Hl Hp Hcov. apply (wf_pages _ _ _ W _ _ Hl Hp) in Hcov.
  pose proof (live_not_unset _ _ _ _ _ W Hl) as Hne.
  unfold page_of in Hcov. destruct (c.(page_table) !! page) as [i|] eqn:Hi; simpl in Hcov.
  - eapply wf_keys; eauto.
  - congruence.
Qed.

Lemma join_all_returns P n shn B E acc : forall ids c,
  join_inv n shn B E ids c ->
  exists c', for_each (fun overlap_id c => JoinOverlap P n overlap_id acc c) ids c = Ok c'.
Proof.
  induction ids as [|id ids IH]; intros c J; simpl; [by eexists|].
  destruct (ji_live _ _ _ _ _ _ J id) as (sh & Hl); [left|].
  assert (Hne : Some n <> Some id).
  { intros Heq. injection Heq as ->. apply (ji_new _ _ _ _ _ _ J). left. }
  pose proof (wf_extent _ _ _ (ji_wf _ _ _ _ _ _ J) _ _ Hl) as (Ha & Hz).
  unfold ADDRESS_SPACE in Ha.
  destruct (JoinOverlap_returns P n id acc c shn sh) as (c1 & Hc1).
  - apply (ji_shape _ _ _ _ _ _ J).
  - apply Hl.
  - lia.
  - lia.
  - lia.
  - intros p. eapply registered_pages_in_range; [apply (ji_wf _ _ _ _ _ _ J)|exact Hl|exact Hne].
  - rewrite Hc1. simpl. apply IH. eapply join_inv_step; eauto.
Qed.

Lemma has_room_live c id sh :
  has_room c -> live c id sh -> Shape.addr sh + Shape.size sh <= LEAP_ROOM.
Proof.
  intros [Hroom _] [Hsh Hm]. apply shape_at_Some in Hsh as (_ & s & Hs & ->).
  rewrite Forall_forall in Hroom. apply (Hroom s); [|exact Hm].
  eapply list_elem_of_lookup_2, Hs.
Qed.

(** [CreateBuffer] returns when the cache has room and the fuel is enough. *)
Lemma CreateBuffer_returns P fuel a0 wanted c :
  cache_wf c -> has_room c -> 0 <= a0 -> a0 + u32 wanted <= LEAP_ROOM ->
  enough_fuel c fuel ->
  exists id c', CreateBuffer P fuel a0 wanted c = Ok (id, c').
Proof.
  intros W Hr Ha Hfit Hfuel.
  assert (Hroom : forall id sh, live c id sh -> Shape.addr sh + Shape.size sh <= LEAP_ROOM)
    by (intros i sh; by apply has_room_live).
  destruct Hr as [_ Hfree].
  pose proof LEAP_ROOM_eq as HM.
  pose proof (u32_range wanted) as Hw. unfold is_u32 in Hw.
  unfold CreateBuffer, ResolveOverlaps. cbv zeta.
  set (w := u32 wanted) in *.
  assert (Hstart : scan_inv LEAP_ROOM a0 w (scan_start a0 w) c).
  { apply scan_inv_start; [done | lia | done | done | exact Hroom]. }
  destruct (ResolveOverlaps_loop_returns LEAP_ROOM a0 w fuel (scan_start a0 w) c)
    as (s & cs & Hloop);
    [lia | lia | exact Hstart | by apply scan_budget_start |].
  rewrite Hloop. simpl.
  assert (HM62 : LEAP_ROOM <= 2 ^ 62) by lia.
  destruct (ResolveOverlaps_loop_inv _ _ _ _ _ _ _ _ HM62 Hstart Hloop) as (Hinv & Hstop).
  set (size := u32 (Scan.end_ s - Scan.begin s)).
  assert (Hins : exists n c1, slot_insert (Buffer.create (Scan.begin s) size) cs = Ok (n, c1)).
  { eexists _, _. apply slot_insert_Ok. split; [reflexivity|]. split; [|reflexivity].
    rewrite (picked_only_length _ _ (ResolveOverlaps_loop_picked_only _ _ _ _ _ Hloop)).
    exact Hfree. }
  destruct Hins as (n & c1 & Hins). rewrite Hins. simpl.
  assert (HM39 : LEAP_ROOM + 2 ^ 24 <= 2 ^ 39) by lia.
  assert (Ha39 : a0 < 2 ^ 39) by lia.
  pose proof (join_inv_insert _ _ _ _ _ _ _ HM39 (proj1 Hw) Ha39 Hinv Hstop Hins) as J1.
  destruct (join_all_returns P _ _ _ _ (negb (Scan.has_stream_leap s)) _ _ J1) as (c2 & Hc2).
  rewrite Hc2. simpl.
  pose proof (join_inv_all _ _ _ _ _ _ _ _ _ J1 Hc2) as J2.
  destruct Hinv as [_ _ _ _ Hbeg Hend _].
  assert (Hend' : 0 <= Scan.end_ s <= 2 ^ 39) by (destruct (Scan.has_stream_leap s); lia).
  assert (Hsize : 0 <= size < 2 ^ 32) by apply u32_range.
  assert (Hsize' : size <= Scan.end_ s - Scan.begin s) by (apply u32_le; lia).
  destruct (ChangeRegister_returns true n c2 _ (ji_shape _ _ _ _ _ _ J2)) as (c3 & Hc3);
    simpl; [lia | lia | lia | |].
  - intros p Hp. apply covers_iff in Hp; simpl; [|unfold ADDRESS_SPACE; lia | done].
    simpl in Hp. apply page_in_range_iff.
    pose proof (page_le p (Scan.begin s)). split; [|lia].
    assert (0 <= Scan.begin s / 65536) by (apply Z.div_pos; lia).
    destruct (Z.le_gt_cases 0 p); [done|]. lia.
  - unfold Register. rewrite Hc3. simpl. by eexists _, _.
Qed.

Lemma u32_u32 x : u32 (u32 x) = u32 x.
Proof. apply u32_id, u32_range. Qed.

(** What [CreateBuffer] returns for a range of [size] bytes. *)
Lemma CreateBuffer_created P fuel cpu_addr size c id c' :
  cache_wf c -> 0 <= cpu_addr < 2 ^ 39 -> is_u32 size ->
  CreateBuffer P fuel cpu_addr size c = Ok (id, c') ->
  cache_wf c' /\
  id = Z.of_nat (length c.(slot_buffers)) /\
  exists r c1 buffer,
    ResolveOverlaps fuel cpu_addr size c = Ok (r, c1) /\
    slot_at c' id = Ok buffer /\
    Buffer.CpuAddr buffer = OverlapResult.begin r /\
    Buffer.SizeBytes buffer = u32 (OverlapResult.end_ r - OverlapResult.begin r) /\
    (OverlapResult.end_ r - OverlapResult.begin r < 2 ^ 32 ->
     Buffer.IsInBounds buffer cpu_addr size = true).
Proof.
  intros W Ha Hz H.
  destruct (CreateBuffer_spec _ _ _ _ _ _ _ W Ha H) as (s & cs & Hloop & Hinv & _ & Hid & Hl & W').
  rewrite (u32_id size Hz) in *. split; [exact W'|]. split; [exact Hid|].
  exists (scan_result s), cs.
  destruct Hl as [Hsh _]. destruct (shape_at_slot_at _ _ _ Hsh) as (b & Hb & Ea & Es & _).
  simpl in Ea, Es. exists b. split; [unfold ResolveOverlaps; by rewrite Hloop|].
  split; [exact Hb|]. split; [done|]. split; [done|]. simpl. intros Hlt.
  destruct Hinv as [_ _ _ _ Hbeg Hend _]. unfold is_u32 in Hz.
  unfold Buffer.IsInBounds. rewrite <- Ea, <- Es.
  rewrite u32_id by (unfold is_u32; lia).
  apply andb_true_intro. split; apply Z.leb_le; lia.
Qed.

(** The three ways out of [FindBuffer]. *)
Lemma FindBuffer_cases P fuel cpu_addr size c id c' :
  cache_wf c -> is_u32 size ->
  FindBuffer P fuel cpu_addr size c = Ok (id, c') ->
  (cpu_addr = 0 /\ id = NULL_BUFFER_ID /\ c' = c) \/
  (cpu_addr <> 0 /\
   (found_resident cpu_addr size c id c' \/ created_buffer P fuel cpu_addr size c id c')).
Proof.
  intros W Hz H. unfold FindBuffer in H. cbv zeta in H. rewrite (u32_id size Hz) in H.
  destruct (Z.eqb_spec cpu_addr 0) as [->|Hne]; [left; by injection H as <- <-|].
  right. split; [exact Hne|].
  apply bind_Ok in H as (resident & Hres & H).
  apply page_table_at_Ok in Hres as (Hrange & ->).
  assert (Ha : 0 <= cpu_addr < 2 ^ 39).
  { apply page_in_range_iff in Hrange. rewrite shiftr_PAGE_BITS in Hrange.
    pose proof (page_lt 8388608 cpu_addr). pose proof (page_le 0 cpu_addr). lia. }
  assert (Hcreate : no_resident cpu_addr size c ->
                    CreateBuffer P fuel cpu_addr size c = Ok (id, c') ->
                    created_buffer P fuel cpu_addr size c id c').
  { intros Hno Hc. split; [exact Hno|]. split; [exact Hc|].
    by destruct (CreateBuffer_created _ _ _ _ _ _ _ W Ha Hz Hc) as (_ & ? & ?). }
  destruct (id_bool (page_of c (Z.shiftr cpu_addr PAGE_BITS))) eqn:Hid; simpl in H.
  - apply bind_Ok in H as (b & Hb & H).
    destruct (Buffer.IsInBounds b cpu_addr size) eqn:Hin.
    + injection H as <- <-. left. split; [done|]. split; [|split; [done|by exists b]].
      intros Hu. apply id_bool_false in Hu. congruence.
    + right. apply Hcreate; [|exact H]. right. by exists b.
  - right. apply Hcreate; [|exact H]. left. by apply id_bool_false.
Qed.

(** [FindBuffer] returns when the cache has room and the fuel is enough. *)
Lemma FindBuffer_returns P fuel cpu_addr size c :
  cache_wf c -> has_room c -> enough_fuel c fuel -> is_u32 size ->
  0 <= cpu_addr -> cpu_addr + size <= LEAP_ROOM ->
  exists id c', FindBuffer P fuel cpu_addr size c = Ok (id, c').
Proof.
  intros W Hroom Hfuel Hz Ha Hfit. unfold FindBuffer. cbv zeta.
  rewrite (u32_id size Hz).
  destruct (Z.eqb_spec cpu_addr 0) as [->|Hne]; [by eexists _, _|].
  pose proof LEAP_ROOM_eq as HM. unfold is_u32 in Hz.
  assert (Hcreate : exists id c', CreateBuffer P fuel cpu_addr size c = Ok (id, c')).
  { apply CreateBuffer_returns; try done. rewrite u32_id by done. done. }
  assert (Hpt : page_table_at c (Z.shiftr cpu_addr PAGE_BITS)
                = Ok (page_of c (Z.shiftr cpu_addr PAGE_BITS))).
  { apply page_table_at_Ok. split; [|done]. apply page_in_range_iff.
    rewrite shiftr_PAGE_BITS. split; [apply Z.div_pos; lia|].
    apply Z.div_lt_upper_bound; lia. }
  rewrite Hpt. simpl.
  destruct (id_bool (page_of c (Z.shiftr cpu_addr PAGE_BITS))) eqn:Hid; simpl;
    [|exact Hcreate].
  assert (Hu : page_of c (Z.shiftr cpu_addr PAGE_BITS) <> UNSET_BUFFER_ID).
  { intros Hu. apply id_bool_false in Hu. congruence. }
  destruct (layout_wf_owner_slot _ _ _ _ W Hu) as (sh & b & _ & Hb & _).
  rewrite Hb. simpl. destruct (Buffer.IsInBounds b cpu_addr size); [by eexists _, _|].
  exact Hcreate.
Qed.

(** C4, as stated, fails: for the address 0 [FindBuffer] answers with the
    null buffer, whose extent is empty, so the 64 bytes asked for at address
    0 are not in its bounds. *)
Lemma FindBuffer_in_bounds_fails :
  FindBuffer policy_vulkan 8 0 64 BufferCache_init = Ok (NULL_BUFFER_ID, BufferCache_init) /\
  slot_at BufferCache_init NULL_BUFFER_ID = Ok Buffer.null /\
  Buffer.IsInBounds Buffer.null 0 64 = false /\
  ~ FindBuffer_in_bounds policy_vulkan 8 0 64 BufferCache_init.
Proof.
  split; [reflexivity|]. split; [reflexivity|]. split; [reflexivity|].
  intros H. specialize (H NULL_BUFFER_ID BufferCache_init Buffer.null eq_refl eq_refl).
  discriminate H.
Qed.

(** C4 (amended): on a cache that satisfies the layout invariant (as every
    cache between public calls does), what [FindBuffer(cpu_addr, size)]
    returns is: for [cpu_addr = 0] the null buffer id, the cache left as it
    is; otherwise the buffer that the page table records at the page of
    [cpu_addr] if the extent of that buffer contains
    [cpu_addr, cpu_addr + size), and the id of a newly created buffer, in a
    slot that the cache did not have, otherwise.  A buffer found holds the
    range, and so does a created buffer whenever the extent that
    [ResolveOverlaps] returned is shorter than 2^32 bytes.  [FindBuffer]
    does return when the cache has room for the range and a stream leap,
    and the fuel is enough for the overlap scan. *)
Theorem FindBuffer_result (P : Policy) (fuel : nat) (cpu_addr size : Z) (c : BufferCache) :
  cache_wf c -> is_u32 size ->
  (forall id c',
     FindBuffer P fuel cpu_addr size c = Ok (id, c') ->
     (cpu_addr = 0 /\ id = NULL_BUFFER_ID /\ c' = c) \/
     (cpu_addr <> 0 /\
      (found_resident cpu_addr size c id c' \/
       created_buffer P fuel cpu_addr size c id c'))) /\
  (has_room c -> enough_fuel c fuel -> 0 <= cpu_addr -> cpu_addr + size <= LEAP_ROOM ->
   exists id c', FindBuffer P fuel cpu_addr size c = Ok (id, c')).
Proof.
  intros W Hz. split.
  - intros id c'. by apply FindBuffer_cases.
  - intros Hroom Hfuel Ha Hfit. by apply FindBuffer_returns.
Qed.

Lemma FindBuffer_result_witness :
  (forall id c',
     FindBuffer policy_vulkan (Z.to_nat (2 ^ 25)) 196608 64 cache_storage_bound
       = Ok (id, c') ->
     (196608 = 0 /\ id = NULL_BUFFER_ID /\ c' = cache_storage_bound) \/
     (196608 <> 0 /\
      (found_resident 196608 64 cache_storage_bound id c' \/
       created_buffer policy_vulkan (Z.to_nat (2 ^ 25)) 196608 64 cache_storage_bound
                      id c'))) /\
  exists id c',
    FindBuffer policy_vulkan (Z.to_nat (2 ^ 25)) 196608 64 cache_storage_bound
      = Ok (id, c').
Proof.
  destruct (FindBuffer_result policy_vulkan (Z.to_nat (2 ^ 25)) 196608 64
              cache_storage_bound) as (Hcases & Hreturns).
  - apply (reachable_inv policy_vulkan), cache_storage_bound_reachable.
  - unfold is_u32. lia.
  - split; [exact Hcases|]. apply Hreturns.
    + split; [|vm_compute; reflexivity].
      match goal with
      | |- Forall ?room ?slots =>
          let slots' := eval vm_compute in slots in change (Forall room slots')
      end.
      repeat (constructor; [intros _; vm_compute; discriminate|]). constructor.
    + unfold enough_fuel. rewrite Z2Nat.id by lia. vm_compute. reflexivity.
    + lia.
    + vm_compute. discriminate.
Defined.

(** The same lookups on small caches, run: the buffer of the written storage
    binding is found again, and a range that begins below it makes a new
    buffer 2 over both. *)
Lemma FindBuffer_examples :
  FindBuffer policy_vulkan 8 65536 256 cache_storage_bound = Ok (1, cache_storage_bound) /\
  exists c' buffer,
    FindBuffer policy_vulkan 8 60000 6000 cache_storage_bound = Ok (2, c') /\
    slot_at c' 2 = Ok buffer /\
    Buffer.CpuAddr buffer = 60000 /\ Buffer.SizeBytes buffer = 54944 /\
    Buffer.IsInBounds buffer 60000 6000 = true.
Proof.
  split; [vm_compute; reflexivity|].
  eexists _, _. split; [vm_compute; reflexivity|].
  split; [vm_compute; reflexivity|]. repeat split; vm_compute; reflexivity.
Qed.

(** * Further properties *)

(** ** The loop over the enabled bits of a mask *)

Lemma countr_zero_from_spec fuel : forall mask j,
  0 <= j < Z.of_nat fuel -> Z.testbit mask j = true ->
  let t := countr_zero_from fuel mask in
  0 <= t <= j /\ Z.testbit mask t = true /\
  forall k, 0 <= k < t -> Z.testbit mask k = false.
Proof.
  induction fuel as [|fuel IH]; intros mask j Hj Hbit; [lia|].
  cbn [countr_zero_from]. destruct (Z.testbit mask 0) eqn:H0.
  - split; [lia|]. split; [exact H0|]. intros k Hk. lia.
  - assert (Hj1 : j <> 0) by (intros ->; congruence).
    destruct (IH (Z.shiftr mask 1) (j - 1)) as (Ht & Hb & Hlow).
    + lia.
    + rewrite Z.shiftr_spec by lia. by replace (j - 1 + 1) with j by lia.
    + split; [lia|]. split.
      * rewrite Z.shiftr_spec in Hb by lia.
        by replace (1 + countr_zero_from fuel (Z.shiftr mask 1))
          with (countr_zero_from fuel (Z.shiftr mask 1) + 1) by lia.
      * intros k Hk. destruct (decide (k = 0)) as [->|Hk0]; [exact H0|].
        specialize (Hlow (k - 1) ltac:(lia)). rewrite Z.shiftr_spec in Hlow by lia.
        by replace (k - 1 + 1) with k in Hlow by lia.
Qed.

Lemma testbit_above mask n j : 0 <= mask < 2 ^ n -> n <= j -> Z.testbit mask j = false.
Proof.
  intros Hm Hj. destruct (decide (mask = 0)) as [->|Hne]; [apply Z.bits_0|].
  apply Z.bits_above_log2; [lia|].
  assert (Z.log2 mask < n); [|lia]. apply Z.log2_lt_pow2; lia.
Qed.

Lemma lowest_set_bit mask n :
  0 <= n <= 32 -> 0 <= mask < 2 ^ n -> mask <> 0 ->
  let t := countr_zero mask in
  0 <= t < n /\ Z.testbit mask t = true /\ forall k, 0 <= k < t -> Z.testbit mask k = false.
Proof.
  intros Hn Hm Hne t.
  assert (Hlog : Z.testbit mask (Z.log2 mask) = true) by (apply Z.bit_log2; lia).
  assert (Hlt : Z.log2 mask < n) by (apply Z.log2_lt_pow2; lia).
  pose proof (Z.log2_nonneg mask) as Hnn.
  destruct (countr_zero_from_spec 32 mask (Z.log2 mask)) as (Ht & Hb & Hlow);
    [lia | exact Hlog |].
  fold (countr_zero mask) in Ht, Hb, Hlow. fold t in Ht, Hb, Hlow.
  split; [lia|]. split; [exact Hb | exact Hlow].
Qed.

Lemma shiftr_small mask n t :
  0 <= t -> 0 <= mask < 2 ^ (n + 1) -> 0 <= n ->
  0 <= Z.shiftr (Z.shiftr mask t) 1 < 2 ^ n.
Proof.
  intros Ht Hm Hn. rewrite Z.shiftr_shiftr, Z.shiftr_div_pow2 by lia.
  assert (Hp : 2 ^ (n + 1) = 2 ^ n * 2) by (rewrite Z.pow_add_r; lia).
  assert (Hq : 2 ^ (t + 1) = 2 * 2 ^ t) by (rewrite Z.pow_add_r; lia).
  assert (Hpos : 0 < 2 ^ t) by (apply Z.pow_pos_nonneg; lia).
  split; [apply Z.div_pos; lia|].
  apply Z.div_lt_upper_bound; [lia|]. nia.
Qed.

Lemma enabled_bits_from_spec fuel : forall index mask,
  Z.of_nat fuel <= 32 -> 0 <= mask < 2 ^ Z.of_nat fuel ->
  let l := enabled_bits_from fuel index mask in
  (forall i, i ∈ l <-> index <= i /\ Z.testbit mask (i - index) = true) /\
  StronglySorted Z.lt l.
Proof.
  induction fuel as [|fuel IH]; intros index mask Hfuel Hm.
  - assert (mask = 0) as -> by (simpl in Hm; lia). simpl. split; [|constructor].
    intros i. rewrite Z.bits_0. split; [intros H; by apply elem_of_nil in H | intros [_ H]; done].
  - cbn [enabled_bits_from]. destruct (Z.eqb_spec mask 0) as [->|Hne].
    + split; [|constructor]. intros i. rewrite Z.bits_0.
      split; [intros H; by apply elem_of_nil in H | intros [_ H]; done].
    + cbv zeta.
      destruct (lowest_set_bit mask (Z.of_nat (S fuel))) as (Ht & Hb & Hlow); [lia..|].
      set (t := countr_zero mask) in *.
      destruct (IH (index + t + 1) (Z.shiftr (Z.shiftr mask t) 1)) as (Hin & Hsorted).
      * lia.
      * apply shiftr_small; [lia| |lia]. by replace (Z.of_nat fuel + 1) with (Z.of_nat (S fuel)) by lia.
      * assert (Hshift : forall k, 0 <= k ->
                  Z.testbit (Z.shiftr (Z.shiftr mask t) 1) k = Z.testbit mask (k + t + 1)).
        { intros k Hk. rewrite !Z.shiftr_spec by lia. f_equal. lia. }
        split.
        -- intros i. rewrite elem_of_cons, Hin. split.
           ++ intros [->|[Hi Hbit]].
              ** split; [lia|]. by replace (index + t - index) with t by lia.
              ** split; [lia|]. rewrite Hshift in Hbit by lia.
                 by replace (i - (index + t + 1) + t + 1) with (i - index) in Hbit by lia.
           ++ intros [Hi Hbit].
              destruct (Z.lt_trichotomy (i - index) t) as [Hlt|[Heq|Hgt]].
              ** rewrite Hlow in Hbit by lia. done.
              ** left. lia.
              ** right. split; [lia|]. rewrite Hshift by lia.
                 by replace (i - (index + t + 1) + t + 1) with (i - index) by lia.
        -- constructor; [exact Hsorted|]. apply Forall_forall. intros i Hi.
           apply Hin in Hi as [Hi _]. lia.
Qed.

Lemma for_each_log {A} (l seen : list A) :
  for_each (fun x s => Ok (s ++ [x])) l seen = Ok (seen ++ l).
Proof.
  revert seen. induction l as [|x l IH]; intros seen; simpl.
  - by rewrite app_nil_r.
  - rewrite IH. by rewrite <- app_assoc.
Qed.


Lemma enabled_bits_spec mask :
  is_u32 mask ->
  (forall index, index ∈ enabled_bits mask <-> is_set_bit mask index) /\
  StronglySorted Z.lt (enabled_bits mask).
Proof.
  intros Hm. unfold is_u32 in Hm.
  assert (H32 : Z.of_nat 32 = 32) by reflexivity.
  pose proof (enabled_bits_from_spec 32 0 mask) as H.
  rewrite H32 in H. specialize (H ltac:(lia) Hm). cbv zeta in H.
  destruct H as (Hin & Hsorted). split; [|exact Hsorted].
  intros index. unfold is_set_bit. 
  etransitivity; [apply Hin|]. rewrite Z.sub_0_r. split.
  - intros [H0 Hb]. split; [|done]. split; [done|].
    destruct (Z.lt_ge_cases index 32); [done|].
    rewrite (testbit_above mask 32) in Hb by lia. done.
  - intros [[H0 _] Hb]. done.
Qed.


(** X1: [ForEachEnabledBit] hands to its callback the position of every set
    bit of a 32-bit mask, each once and in ascending order, and no other
    position. *)
Theorem ForEachEnabledBit_visits_set_bits (enabled_mask : Z) :
  is_u32 enabled_mask ->
  exists visited,
    (forall seen,
       ForEachEnabledBit enabled_mask (fun index seen => Ok (seen ++ [index])) seen
       = Ok (seen ++ visited)) /\
    (forall index, index ∈ visited <-> is_set_bit enabled_mask index) /\
    StronglySorted Z.lt visited.
Proof.
  intros Hm. exists (enabled_bits enabled_mask). split.
  - intros seen. unfold ForEachEnabledBit. exact (for_each_log _ seen).
  - by apply enabled_bits_spec.
Qed.

Lemma ForEachEnabledBit_visits_set_bits_witness :
  is_u32 0x15 /\
  exists visited,
    (forall seen,
       ForEachEnabledBit 0x15 (fun index seen => Ok (seen ++ [index])) seen
       = Ok (seen ++ visited)) /\
    (forall index, index ∈ visited <-> is_set_bit 0x15 index) /\
    StronglySorted Z.lt visited.
Proof.
  assert (H : is_u32 0x15) by (unfold is_u32; lia).
  split; [exact H | exact (ForEachEnabledBit_visits_set_bits 0x15 H)].
Defined.

(** ** Storage buffer masks *)

Lemma bit_set_testbit mask index : 0 <= index -> bit_set mask index = Z.testbit mask index.
Proof.
  intros Hi. unfold bit_set.
  assert (E : Z.testbit (Z.shiftr mask index) 0 = Z.testbit mask index)
    by (rewrite Z.shiftr_spec by lia; f_equal; lia).
  replace (Z.land (Z.shiftr mask index) 1) with (Z.b2z (Z.testbit mask index)).
  - by destruct (Z.testbit mask index).
  - rewrite <- E, Z.bit0_mod. change 1 with (Z.ones 1). by rewrite Z.land_ones by lia.
Qed.

Lemma testbit_u32 x index : 0 <= index < 32 -> Z.testbit (u32 x) index = Z.testbit x index.
Proof. intros Hi. unfold u32. apply Z.mod_pow2_bits_low. lia. Qed.

Lemma bit_set_bit_or mask index j :
  0 <= index < 32 -> 0 <= j < 32 ->
  bit_set (bit_or mask index) j = bit_set mask j || (j =? index).
Proof.
  intros Hi Hj. rewrite !bit_set_testbit by lia. unfold bit_or.
  rewrite testbit_u32, Z.lor_spec, testbit_u32 by lia.
  rewrite Z.shiftl_1_l, Z.pow2_bits_eqb by lia. by rewrite (Z.eqb_sym index j).
Qed.

Lemma enabled_bits_0 : enabled_bits 0 = [].
Proof. reflexivity. Qed.

Lemma ForEachEnabledBit_0 {S} (func : Z -> S -> Res S) (s : S) :
  ForEachEnabledBit 0 func s = Ok s.
Proof. reflexivity. Qed.

(** X2: [BindGraphicsStorageBuffer] sets the bit of the slot in the enabled
    mask of the stage and, when the buffer is written, in the written mask;
    it clears no bit, so a slot bound as written keeps its written mark when
    it is bound again for reading.  The slot receives the binding read from
    the descriptor, which is the null binding or has an unset buffer id. *)
Theorem BindGraphicsStorageBuffer_marks (env : Env)
    (stage ssbo_index cbuf_index cbuf_offset : Z) (is_written : bool) (c c' : BufferCache) :
  ssbo_index < 32 ->
  BindGraphicsStorageBuffer env stage ssbo_index cbuf_index cbuf_offset is_written c = Ok c' ->
  exists enabled written enabled' written' binding,
    load c.(enabled_storage_buffers) stage = Ok enabled /\
    load c.(written_storage_buffers) stage = Ok written /\
    load c'.(enabled_storage_buffers) stage = Ok enabled' /\
    load c'.(written_storage_buffers) stage = Ok written' /\
    (forall index, 0 <= index < 32 ->
       bit_set enabled' index = bit_set enabled index || (index =? ssbo_index)) /\
    (forall index, 0 <= index < 32 ->
       bit_set written' index =
       bit_set written index || (is_written && (index =? ssbo_index))) /\
    load2 c'.(storage_buffers) stage ssbo_index = Ok binding /\
    binding =
      StorageBufferBinding env (u64 (const_buffers_address env stage cbuf_index + cbuf_offset)) /\
    (binding = NULL_BINDING \/ Binding.buffer_id binding = UNSET_BUFFER_ID).
Proof.
  intros Hlt H. unfold BindGraphicsStorageBuffer in H.
  apply bind_Ok in H as (enabled & He & H). apply bind_Ok in H as (e' & He' & H).
  apply bind_Ok in H as (written & Hw & H). apply bind_Ok in H as (w' & Hw' & H).
  apply bind_Ok in H as (sb & Hsb & H). injection H as <-. simpl in *.
  assert (Hidx : 0 <= ssbo_index).
  { unfold store2 in Hsb. apply bind_Ok in Hsb as (row & _ & Hsb).
    apply bind_Ok in Hsb as (row' & Hrow' & _). apply store_Ok in Hrow'. lia. }
  eexists enabled, written, _, _, _.
  split; [exact He|]. split; [exact Hw|].
  split; [exact (load_store_eq _ _ _ _ He')|].
  split; [exact (load_store_eq _ _ _ _ Hw')|].
  split; [intros index Hi; apply bit_set_bit_or; lia|].
  split.
  { intros index Hi. destruct is_written; simpl.
    - apply bit_set_bit_or; lia.
    - by rewrite orb_false_r. }
  split; [exact (load2_store2_eq _ _ _ _ _ Hsb)|]. split; [done|].
  unfold StorageBufferBinding.
  destruct (GpuToCpuAddress env _); [|by left].
  destruct (_ =? 0); [by left | by right].
Qed.

Lemma BindGraphicsStorageBuffer_marks_witness :
  let env := example_env true 65536 256 in
  let c' := match BindGraphicsStorageBuffer env 0 3 0 0 true BufferCache_init with
            | Ok c' => c'
            | _ => BufferCache_init
            end in
  3 < 32 /\
  BindGraphicsStorageBuffer env 0 3 0 0 true BufferCache_init = Ok c' /\
  exists enabled written enabled' written' binding,
    load BufferCache_init.(enabled_storage_buffers) 0 = Ok enabled /\
    load BufferCache_init.(written_storage_buffers) 0 = Ok written /\
    load c'.(enabled_storage_buffers) 0 = Ok enabled' /\
    load c'.(written_storage_buffers) 0 = Ok written' /\
    (forall index, 0 <= index < 32 ->
       bit_set enabled' index = bit_set enabled index || (index =? 3)) /\
    (forall index, 0 <= index < 32 ->
       bit_set written' index = bit_set written index || (true && (index =? 3))) /\
    load2 c'.(storage_buffers) 0 3 = Ok binding /\
    binding = StorageBufferBinding env (u64 (const_buffers_address env 0 0 + 0)) /\
    (binding = NULL_BINDING \/ Binding.buffer_id binding = UNSET_BUFFER_ID).
Proof.
  intros env c'.
  assert (Hlt : 3 < 32) by lia.
  assert (Hrun : BindGraphicsStorageBuffer env 0 3 0 0 true BufferCache_init = Ok c')
    by (vm_compute; reflexivity).
  split; [exact Hlt|]. split; [exact Hrun|].
  exact (BindGraphicsStorageBuffer_marks env 0 3 0 0 true BufferCache_init c' Hlt Hrun).
Defined.

(** X3: after [UnbindGraphicsStorageBuffers] both masks of the stage are
    zero, so the next update resolves no storage buffer of the stage and the
    next host bind binds none: both leave the cache as it is. *)
Theorem UnbindGraphicsStorageBuffers_disables (P : Policy) (env : Env) (fuel : nat)
    (stage : Z) (c c' : BufferCache) :
  UnbindGraphicsStorageBuffers stage c = Ok c' ->
  load c'.(enabled_storage_buffers) stage = Ok 0 /\
  load c'.(written_storage_buffers) stage = Ok 0 /\
  c'.(storage_buffers) = c.(storage_buffers) /\
  UpdateStorageBuffers P env fuel stage c' = Ok c' /\
  BindHostGraphicsStorageBuffers P env stage c' = Ok c'.
Proof.
  intros H. unfold UnbindGraphicsStorageBuffers in H.
  apply bind_Ok in H as (e & He & H). apply bind_Ok in H as (w & Hw & H).
  injection H as <-. simpl in *.
  pose proof (load_store_eq _ _ _ _ He) as He'. pose proof (load_store_eq _ _ _ _ Hw) as Hw'.
  split; [exact He'|]. split; [exact Hw'|]. split; [done|]. split.
  - unfold UpdateStorageBuffers. simpl. rewrite Hw'. simpl. rewrite He'. simpl.
    apply ForEachEnabledBit_0.
  - unfold BindHostGraphicsStorageBuffers. simpl. rewrite He'. simpl.
    reflexivity.
Qed.

Lemma UnbindGraphicsStorageBuffers_disables_witness :
  let c := cache_storage_bound in
  let c' := match UnbindGraphicsStorageBuffers 0 c with Ok c' => c' | _ => c end in
  UnbindGraphicsStorageBuffers 0 c = Ok c' /\
  load c.(enabled_storage_buffers) 0 = Ok 1 /\
  load c'.(enabled_storage_buffers) 0 = Ok 0 /\
  load c'.(written_storage_buffers) 0 = Ok 0 /\
  c'.(storage_buffers) = c.(storage_buffers) /\
  UpdateStorageBuffers policy_vulkan (example_env true 65536 256) 8 0 c' = Ok c' /\
  BindHostGraphicsStorageBuffers policy_vulkan (example_env true 65536 256) 0 c' = Ok c'.
Proof.
  intros c c'.
  assert (Hrun : UnbindGraphicsStorageBuffers 0 c = Ok c') by (vm_compute; reflexivity).
  split; [exact Hrun|]. split; [vm_compute; reflexivity|].
  exact (UnbindGraphicsStorageBuffers_disables policy_vulkan (example_env true 65536 256) 8 0
           c c' Hrun).
Defined.

(** ** The download queues as a queue *)

Lemma PopAsyncFlushes_core P env c c' :
  PopAsyncFlushes P env c = Ok c' ->
  c.(committed_downloads) = [] /\ c' = c \/
  c.(committed_downloads) <> [] /\
  exists c0, same_core c c0 /\
             c' = set_committed_downloads (pop_back c0.(committed_downloads)) c0.
Proof.
  unfold PopAsyncFlushes. intros H.
  destruct (committed_downloads c) as [|front rest] eqn:Hq; [left; by injection H as <-|].
  right. split; [done|]. cbv zeta in H.
  destruct (List.last (front :: rest) []) as [|d ds].
  - injection H as <-. exists c. split; [apply same_core_refl | by rewrite Hq].
  - apply bind_Ok in H as ([[[downloads total] largest] c1] & Hg & H).
    apply gather_downloads_same_core in Hg.
    destruct downloads as [|dl dls]; [injection H as <-; by exists c1|].
    destruct (USE_MEMORY_MAPS P).
    + apply bind_Ok in H as (c2 & Hc2 & H). apply bind_Ok in H as (c3 & Hc3 & H).
      injection H as <-. exists c3. split; [|done].
      eapply same_core_trans; [exact Hg|]. eapply same_core_trans; [apply log_same_core|].
      eapply same_core_trans.
      { eapply for_each_same_core; [|exact Hc2]. intros x t t' Hx.
        apply bind_Ok in Hx as (? & _ & Hx). injection Hx as <-. apply log_same_core. }
      eapply same_core_trans; [apply log_same_core|].
      eapply for_each_same_core; [|exact Hc3]. intros x t t' Hx.
      apply bind_Ok in Hx as (b & _ & Hx). injection Hx as <-. apply log_same_core.
    + apply bind_Ok in H as (c2 & Hc2 & H). injection H as <-. exists c2. split; [|done].
      eapply same_core_trans; [exact Hg|].
      eapply same_core_trans; [apply ImmediateBuffer_same_core|].
      eapply for_each_same_core; [|exact Hc2]. intros x t t' Hx.
      apply bind_Ok in Hx as (b & _ & Hx). injection Hx as <-.
      eapply same_core_trans; apply log_same_core.
Qed.

(** X4: the committed download lists form a queue.  [CommitAsyncFlushes]
    puts the uncommitted list at the front and empties it; a
    [PopAsyncFlushes] that returns removes exactly the list at the back, the
    one committed first, and touches neither the other lists, nor the
    uncommitted list, nor the page table.  On an empty queue it changes
    nothing. *)
Theorem PopAsyncFlushes_pops_oldest (P : Policy) (env : Env) (c c' : BufferCache) :
  PopAsyncFlushes P env c = Ok c' ->
  c'.(committed_downloads) = removelast c.(committed_downloads) /\
  c'.(uncommitted_downloads) = c.(uncommitted_downloads) /\
  c'.(page_table) = c.(page_table) /\
  (c.(committed_downloads) = [] -> c' = c) /\
  (forall c0, c = CommitAsyncFlushes c0 ->
     c'.(uncommitted_downloads) = [] /\
     c'.(committed_downloads) =
       match c0.(committed_downloads) with
       | [] => []
       | _ :: _ => c0.(uncommitted_downloads) :: removelast c0.(committed_downloads)
       end).
Proof.
  intros H.
  assert (Hmain : c'.(committed_downloads) = removelast c.(committed_downloads) /\
                  c'.(uncommitted_downloads) = c.(uncommitted_downloads) /\
                  c'.(page_table) = c.(page_table)).
  { destruct (PopAsyncFlushes_core _ _ _ _ H) as [(Hq & ->)|(Hq & c0 & Hc0 & ->)].
    - rewrite Hq. done.
    - destruct Hc0 as ((_ & Hpt) & U & C & _). simpl. unfold pop_back. by rewrite C, U, Hpt. }
  destruct Hmain as (Hc & Hu & Hpt). split; [exact Hc|]. split; [exact Hu|].
  split; [exact Hpt|]. split.
  - intros Hq. destruct (PopAsyncFlushes_core _ _ _ _ H) as [(_ & ->)|(Hne & _)]; done.
  - intros c0 ->. rewrite Hc, Hu. simpl. split; [done|].
    destruct (committed_downloads c0); done.
Qed.

Lemma PopAsyncFlushes_pops_oldest_witness :
  let env := example_env true 65536 256 in
  let c := match run_all policy_vulkan env 8 two_commits BufferCache_init with
           | Ok c => c
           | _ => BufferCache_init
           end in
  let c' := match PopAsyncFlushes policy_vulkan env c with Ok c' => c' | _ => c end in
  PopAsyncFlushes policy_vulkan env c = Ok c' /\
  c.(committed_downloads) = [[]; [1]] /\
  c'.(committed_downloads) = removelast c.(committed_downloads) /\
  c'.(uncommitted_downloads) = c.(uncommitted_downloads) /\
  c'.(page_table) = c.(page_table) /\
  (c.(committed_downloads) = [] -> c' = c) /\
  (forall c0, c = CommitAsyncFlushes c0 ->
     c'.(uncommitted_downloads) = [] /\
     c'.(committed_downloads) =
       match c0.(committed_downloads) with
       | [] => []
       | _ :: _ => c0.(uncommitted_downloads) :: removelast c0.(committed_downloads)
       end).
Proof.
  intros env c c'.
  assert (Hrun : PopAsyncFlushes policy_vulkan env c = Ok c') by (vm_compute; reflexivity).
  split; [exact Hrun|]. split; [vm_compute; reflexivity|].
  exact (PopAsyncFlushes_pops_oldest policy_vulkan env c c' Hrun).
Defined.

(** ** Relinking the download lists *)

Lemma erase_after_first_elem_iff new_id buffers id :
  id ∈ erase_after_first new_id buffers <-> id ∈ buffers.
Proof.
  split; [apply erase_after_first_elem|].
  induction buffers as [|x rest IH]; simpl; [done|].
  destruct (Z.eqb_spec x new_id) as [->|Hne]; intros [->|Hin]%elem_of_cons.
  - by left.
  - destruct (decide (id = new_id)) as [->|Hid]; [by left|].
    right. by apply erase_remove_elem.
  - by left.
  - right. by apply IH.
Qed.

Lemma ranges_replace_elem old_id new_id buffers id :
  id ∈ ranges_replace old_id new_id buffers <->
  (id ∈ buffers /\ id <> old_id) \/ (id = new_id /\ old_id ∈ buffers).
Proof.
  unfold ranges_replace. rewrite list_elem_of_In, in_map_iff. split.
  - intros (x & Hx & Hin). apply list_elem_of_In in Hin.
    destruct (Z.eqb_spec x old_id) as [E|Hne]; subst; [by right | by left].
  - intros [(Hin & Hne)|(-> & Hin)].
    + exists id. split; [|by apply list_elem_of_In].
      destruct (Z.eqb_spec id old_id); done.
    + exists old_id. split; [|by apply list_elem_of_In]. by rewrite Z.eqb_refl.
Qed.

Lemma replace_downloads_relinked old_id new_id buffers :
  relinked old_id new_id buffers (replace_downloads old_id new_id buffers).
Proof.
  intros id. unfold replace_downloads.
  rewrite erase_after_first_elem_iff. apply ranges_replace_elem.
Qed.

(** X5: [ReplaceBufferDownloads] loses no pending download: in the
    uncommitted list and in every committed list, each id other than the
    old one stays, and the new id is there exactly when the old or the new
    one was.  The number of committed lists does not change. *)
Theorem ReplaceBufferDownloads_keeps_ids (old_buffer_id new_buffer_id : BufferId)
    (c : BufferCache) :
  Forall2 (relinked old_buffer_id new_buffer_id)
    (c.(uncommitted_downloads) :: c.(committed_downloads))
    ((ReplaceBufferDownloads old_buffer_id new_buffer_id c).(uncommitted_downloads) ::
     (ReplaceBufferDownloads old_buffer_id new_buffer_id c).(committed_downloads)).
Proof.
  simpl. constructor; [apply replace_downloads_relinked|].
  induction (committed_downloads c) as [|l ls IH]; simpl; constructor;
    [apply replace_downloads_relinked | exact IH].
Qed.

(** ** What the page table and the slots never hold *)

(** X6: in every cache that the public operations reach, an entry of the
    page table is unset or names a live buffer whose extent covers that
    page; it never names the null buffer or a deleted buffer, and every
    written entry lies inside the table.  Slot 0 holds the null buffer, of
    address 0 and size 0; no live buffer is left with the picked mark of the
    overlap scan; every live buffer starts below 2^39 and is shorter than
    2^32 bytes. *)
Theorem page_table_never_dangles (P : Policy) (c : BufferCache) :
  reachable P c ->
  (forall page,
     page_of c page = UNSET_BUFFER_ID \/
     page_of c page <> NULL_BUFFER_ID /\
     exists sh, live c (page_of c page) sh /\ covers sh page) /\
  (forall page id, c.(page_table) !! page = Some id -> 0 <= page < NUM_PAGES) /\
  (exists null_buffer, slot_at c NULL_BUFFER_ID = Ok null_buffer /\
     Buffer.CpuAddr null_buffer = 0 /\ Buffer.SizeBytes null_buffer = 0) /\
  (forall id sh, live c id sh ->
     Shape.picked sh = false /\
     0 <= Shape.addr sh < 2 ^ 39 /\ 0 <= Shape.size sh < 2 ^ 32 /\
     0 <= id < INVALID_INDEX).
Proof.
  intros Hr. destruct (reachable_inv _ _ Hr) as (W & _). split; [|split; [|split]].
  - intros page. destruct (decide (page_of c page = UNSET_BUFFER_ID)) as [|Hset]; [by left|].
    right. split; [by apply (layout_wf_null_no_page _ _ _ _ W)|].
    destruct (wf_owner _ _ _ W _ Hset) as (sh & Hl). exists sh. split; [exact Hl|].
    by apply (wf_pages _ _ _ W _ _ Hl).
  - intros page id Hp. rewrite NUM_PAGES_eq. apply page_in_range_iff.
    apply (wf_keys _ _ _ W _ _ Hp).
  - destruct (shape_at_slot_at _ _ _ (wf_null _ _ _ W)) as (b & Hb & Ha & Hs & _).
    exists b. split; [exact Hb|]. unfold Buffer.CpuAddr, Buffer.SizeBytes.
    simpl in Ha, Hs. done.
  - intros id sh Hl. split; [|split; [|split]].
    + destruct (Shape.picked sh) eqn:Hp; [|done].
      apply (wf_picked _ _ _ W _ _ Hl) in Hp. by apply elem_of_nil in Hp.
    + apply (wf_extent _ _ _ W _ _ Hl).
    + apply (wf_extent _ _ _ W _ _ Hl).
    + apply (live_id_range _ _ _ _ _ W Hl).
Qed.

Lemma page_table_never_dangles_witness :
  let c := cache_storage_bound in
  reachable policy_vulkan c /\
  page_of c 1 = 1 /\
  (forall page,
     page_of c page = UNSET_BUFFER_ID \/
     page_of c page <> NULL_BUFFER_ID /\
     exists sh, live c (page_of c page) sh /\ covers sh page) /\
  (forall page id, c.(page_table) !! page = Some id -> 0 <= page < NUM_PAGES) /\
  (exists null_buffer, slot_at c NULL_BUFFER_ID = Ok null_buffer /\
     Buffer.CpuAddr null_buffer = 0 /\ Buffer.SizeBytes null_buffer = 0) /\
  (forall id sh, live c id sh ->
     Shape.picked sh = false /\
     0 <= Shape.addr sh < 2 ^ 39 /\ 0 <= Shape.size sh < 2 ^ 32 /\
     0 <= id < INVALID_INDEX).
Proof.
  intros c.
  assert (Hr : reachable policy_vulkan c).
  { eapply (run_all_reachable _ (example_env true 65536 256) 8 storage_bound);
      [apply reachable_init | vm_compute; reflexivity]. }
  split; [exact Hr|]. split; [vm_compute; reflexivity|].
  exact (page_table_never_dangles policy_vulkan c Hr).
Defined.

(** ** Ranges inside one page of guest memory *)

Lemma land_page_mask x :
  0 <= x < 2 ^ 64 -> Z.land x (u64 (Z.lnot 4095)) = 4096 * (x / 4096).
Proof.
  intros Hx.
  replace (4096 * (x / 4096)) with (Z.shiftl (Z.shiftr x 12) 12)
    by (rewrite Z.shiftl_mul_pow2, Z.shiftr_div_pow2 by lia; change (2 ^ 12) with 4096; lia).
  apply Z.bits_inj'. intros n Hn. rewrite Z.land_spec.
  destruct (Z.lt_ge_cases n 12) as [Hlow|Hhigh].
  - rewrite Z.shiftl_spec_low by lia.
    unfold u64. rewrite Z.mod_pow2_bits_low by lia.
    rewrite Z.lnot_spec by lia. change 4095 with (Z.ones 12).
    rewrite Z.ones_spec_low by lia. simpl. apply andb_false_r.
  - rewrite Z.shiftl_spec, Z.shiftr_spec by lia. replace (n - 12 + 12) with n by lia.
    destruct (Z.lt_ge_cases n 64) as [H64|H64].
    + unfold u64. rewrite Z.mod_pow2_bits_low by lia.
      rewrite Z.lnot_spec by lia. change 4095 with (Z.ones 12).
      rewrite Z.ones_spec_high by lia. simpl. apply andb_true_r.
    + rewrite (testbit_above x 64) by lia. done.
Qed.

(** X7: with the guest page mask 0xfff, [IsRangeGranular] tells whether the
    first byte of the range and the byte after its last one lie in the same
    4 KiB page of guest memory.  So an empty range is always granular, and a
    range that ends exactly on a page boundary is not. *)
Theorem IsRangeGranular_same_page (env : Env) (cpu_addr size : Z) :
  env.(CORE_PAGE_MASK) = 4095 -> is_u64 cpu_addr ->
  IsRangeGranular env cpu_addr size =
  bool_decide (cpu_addr / 4096 = u64 (cpu_addr + size) / 4096).
Proof.
  intros Hmask Ha. unfold IsRangeGranular. rewrite Hmask.
  assert (Hb : 0 <= u64 (cpu_addr + size) < 2 ^ 64) by (unfold u64; apply Z.mod_pos_bound; lia).
  rewrite !land_page_mask by done.
  destruct (Z.eqb_spec (4096 * (cpu_addr / 4096)) (4096 * (u64 (cpu_addr + size) / 4096))).
  - rewrite bool_decide_eq_true_2; [done | lia].
  - rewrite bool_decide_eq_false_2; [done | lia].
Qed.

Lemma IsRangeGranular_same_page_witness :
  let env := example_env true 0 0 in
  env.(CORE_PAGE_MASK) = 4095 /\ is_u64 8128 /\
  IsRangeGranular env 8128 64 = bool_decide (8128 / 4096 = u64 (8128 + 64) / 4096) /\
  IsRangeGranular env 8128 64 = false /\
  IsRangeGranular env 8128 63 = true.
Proof.
  intros env.
  assert (Hmask : env.(CORE_PAGE_MASK) = 4095) by reflexivity.
  assert (Ha : is_u64 8128) by (unfold is_u64; lia).
  split; [exact Hmask|]. split; [exact Ha|].
  split; [exact (IsRangeGranular_same_page env 8128 64 Hmask Ha)|].
  split; vm_compute; reflexivity.
Defined.

(** ** Deleting a buffer *)

Lemma scalar_replace_id buffer_id binding :
  buffer_id <> UNSET_BUFFER_ID ->
  Binding.buffer_id (scalar_replace buffer_id binding) <> buffer_id.
Proof.
  intros Hne. unfold scalar_replace.
  destruct (Z.eqb_spec (Binding.buffer_id binding) buffer_id); simpl; congruence.
Qed.

Lemma scalar_replace_other buffer_id binding :
  Binding.buffer_id binding <> buffer_id -> scalar_replace buffer_id binding = binding.
Proof.
  intros Hne. unfold scalar_replace.
  destruct (Z.eqb_spec (Binding.buffer_id binding) buffer_id); done.
Qed.

Lemma fmap_concat {A B} (f : A -> B) (ls : list (list A)) :
  f <$> concat ls = concat (map (map f) ls).
Proof.
  induction ls as [|l ls IH]; simpl; [done|]. by rewrite fmap_app, IH.
Qed.

Lemma replace_bindings_bindings buffer_id c :
  bindings (replace_bindings buffer_id c) = scalar_replace buffer_id <$> bindings c.
Proof.
  unfold bindings, replace_bindings. simpl.
  rewrite !fmap_app, !fmap_concat. done.
Qed.


Lemma bindings_fields c c' :
  c'.(index_buffer) = c.(index_buffer) -> c'.(vertex_buffers) = c.(vertex_buffers) ->
  c'.(uniform_buffers) = c.(uniform_buffers) -> c'.(storage_buffers) = c.(storage_buffers) ->
  c'.(transform_feedback_buffers) = c.(transform_feedback_buffers) ->
  c'.(compute_uniform_buffers) = c.(compute_uniform_buffers) ->
  c'.(compute_storage_buffers) = c.(compute_storage_buffers) ->
  bindings c' = bindings c.
Proof. unfold bindings. by intros -> -> -> -> -> -> ->. Qed.


Lemma DeleteBuffer_tail P buffer_id c0 c' :
  (buffer ← slot_at c0 buffer_id;
   c ← slot_update buffer_id
         (Buffer.MarkRegionAsCpuModified (Buffer.CpuAddr buffer) (Buffer.SizeBytes buffer)) c0;
   c ← Unregister buffer_id c;
   s ← load c.(slot_buffers) buffer_id;
   let c := set_delayed_destruction_ring
              (Ring.Push (Slot.object s) c.(delayed_destruction_ring)) c in
   sb ← store c.(slot_buffers) buffer_id (Slot.mk (Slot.object s) true);
   let c := set_slot_buffers sb c in
   Ok (NotifyBufferDeletion P c)) = Ok c' ->
  bindings c' = bindings c0 /\
  c'.(cached_write_buffer_ids) = c0.(cached_write_buffer_ids) /\
  c'.(has_deleted_buffers) = true /\
  c'.(flags) = Dirty.mk true true (replicate (length (Dirty.VertexBuffer0 c0.(flags))) true).
Proof.
  intros H.
  apply bind_Ok in H as (b & Hb & H). apply bind_Ok in H as (c1 & Hc1 & H).
  apply bind_Ok in H as (c2 & Hc2 & H). apply bind_Ok in H as (s & Hs & H).
  apply bind_Ok in H as (sb & Hsb & H). injection H as <-.
  apply slot_update_Ok in Hc1 as (_ & s1 & _ & Hc1).
  unfold Unregister in Hc2.
  destruct (ChangeRegister_Ok _ _ _ _ Hc2) as (sh & _ & Hc2' & _).
  assert (B2 : bindings c2 = bindings c0) by (rewrite Hc2', Hc1; reflexivity).
  assert (W2 : c2.(cached_write_buffer_ids) = c0.(cached_write_buffer_ids))
    by (rewrite Hc2', Hc1; reflexivity).
  assert (F2 : c2.(flags) = c0.(flags)) by (rewrite Hc2', Hc1; reflexivity).
  clear Hc2' Hc1 Hc2 Hb Hs Hsb.
  rewrite <- B2, <- W2, <- F2.
  unfold NotifyBufferDeletion.
  destruct (HAS_PERSISTENT_UNIFORM_BUFFER_BINDINGS P); repeat split; reflexivity.
Qed.

Lemma DeleteBuffer_fields P buffer_id c c' :
  DeleteBuffer P buffer_id c = Ok c' ->
  bindings c' = scalar_replace buffer_id <$> bindings c /\
  c'.(cached_write_buffer_ids) = erase_remove buffer_id c.(cached_write_buffer_ids) /\
  c'.(has_deleted_buffers) = true /\
  c'.(flags) = Dirty.mk true true (replicate (length (Dirty.VertexBuffer0 c.(flags))) true).
Proof.
  intros H. apply DeleteBuffer_tail in H. rewrite <- replace_bindings_bindings. exact H.
Qed.

(** X8: when [DeleteBuffer] returns, no binding of the seven tables refers
    to the deleted buffer any more: each binding that did has its id unset,
    with address and size kept, and every other binding is as before.  The
    id is gone from the list of buffers with cached writes, the other ids of
    that list stay, the slot holds a moved-from object, and the deletion is
    announced: [has_deleted_buffers] is set and the index buffer and all
    vertex buffers are flagged dirty. *)
Theorem DeleteBuffer_scrubs (P : Policy) (buffer_id : BufferId) (c c' : BufferCache) :
  buffer_id <> UNSET_BUFFER_ID ->
  DeleteBuffer P buffer_id c = Ok c' ->
  bindings c' = scalar_replace buffer_id <$> bindings c /\
  Forall (fun binding => Binding.buffer_id binding <> buffer_id) (bindings c') /\
  (forall id, id ∈ c'.(cached_write_buffer_ids) <->
              id ∈ c.(cached_write_buffer_ids) /\ id <> buffer_id) /\
  (exists sh, shape_at c' buffer_id = Some sh /\ Shape.moved sh = true) /\
  c'.(has_deleted_buffers) = true /\
  Dirty.IndexBuffer c'.(flags) = true /\
  Dirty.VertexBuffers c'.(flags) = true /\
  Forall (fun dirty => dirty = true) (Dirty.VertexBuffer0 c'.(flags)).
Proof.
  intros Hne H. destruct (DeleteBuffer_fields _ _ _ _ H) as (Hb & Hw & Hd & Hf).
  split; [exact Hb|]. split; [|split; [|split]].
  - rewrite Hb. apply Forall_fmap, Forall_forall. intros b _. simpl.
    by apply scalar_replace_id.
  - intros id. rewrite Hw. apply erase_remove_elem.
  - destruct (DeleteBuffer_layout _ _ _ _ H) as (sh & _ & Hsh & _). eexists. split; [exact Hsh|done].
  - rewrite Hf. simpl. split; [exact Hd|]. split; [done|]. split; [done|].
    apply Forall_forall. intros d Hin. by apply elem_of_replicate in Hin as [-> _].
Qed.

Lemma DeleteBuffer_scrubs_witness :
  let c := cache_storage_bound in
  let c' := match DeleteBuffer policy_vulkan 1 c with Ok c' => c' | _ => c end in
  1 <> UNSET_BUFFER_ID /\
  DeleteBuffer policy_vulkan 1 c = Ok c' /\
  load2 c.(storage_buffers) 0 0 = Ok (Binding.mk 65536 49408 1) /\
  load2 c'.(storage_buffers) 0 0 = Ok (Binding.mk 65536 49408 UNSET_BUFFER_ID) /\
  bindings c' = scalar_replace 1 <$> bindings c /\
  Forall (fun binding => Binding.buffer_id binding <> 1) (bindings c') /\
  (forall id, id ∈ c'.(cached_write_buffer_ids) <->
              id ∈ c.(cached_write_buffer_ids) /\ id <> 1) /\
  (exists sh, shape_at c' 1 = Some sh /\ Shape.moved sh = true) /\
  c'.(has_deleted_buffers) = true /\
  Dirty.IndexBuffer c'.(flags) = true /\
  Dirty.VertexBuffers c'.(flags) = true /\
  Forall (fun dirty => dirty = true) (Dirty.VertexBuffer0 c'.(flags)).
Proof.
  intros c c'.
  assert (Hne : 1 <> UNSET_BUFFER_ID) by discriminate.
  assert (Hrun : DeleteBuffer policy_vulkan 1 c = Ok c') by (vm_compute; reflexivity).
  split; [exact Hne|]. split; [exact Hrun|].
  split; [vm_compute; reflexivity|]. split; [vm_compute; reflexivity|].
  exact (DeleteBuffer_scrubs policy_vulkan 1 c c' Hne Hrun).
Defined.

(** ** The buffers of a range of guest memory *)

Lemma owners_nil c page last : last <= page -> owners c page last = [].
Proof. intros H. unfold owners. rewrite seqZ_nil by lia. reflexivity. Qed.

Lemma owners_unset c page last :
  page < last -> page_of c page = UNSET_BUFFER_ID ->
  owners c page last = owners c (page + 1) last.
Proof.
  intros Hlt Hu. unfold owners. rewrite (seqZ_cons page) by lia.
  rewrite fmap_cons. cbn [List.filter]. rewrite Hu.
  change (id_bool UNSET_BUFFER_ID) with false. cbv iota.
  replace (Z.succ page) with (page + 1) by lia.
  replace (Z.pred (last - page)) with (last - (page + 1)) by lia. done.
Qed.

Lemma filter_replicate_true {A} (f : A -> bool) (n : nat) (x : A) :
  f x = true -> List.filter f (replicate n x) = replicate n x.
Proof. intros Hx. induction n as [|n IH]; simpl; [done|]. by rewrite Hx, IH. Qed.

Lemma remove_dups_block (n : nat) (x : Z) (l : list Z) :
  x ∉ l -> remove_dups (replicate (S n) x ++ l) = x :: remove_dups l.
Proof.
  intros Hx. induction n as [|n IH].
  - simpl. by destruct (decide_rel _ x l).
  - change (replicate (S (S n)) x ++ l) with (x :: (replicate (S n) x ++ l)).
    cbn [remove_dups]. destruct (decide_rel _ x (replicate (S n) x ++ l)) as [_|Hn]; [exact IH|].
    exfalso. apply Hn. simpl. by left.
Qed.

Lemma fmap_const_replicate {A B} (f : A -> B) (y : B) (l : list A) :
  (forall x, x ∈ l -> f x = y) -> f <$> l = replicate (length l) y.
Proof.
  induction l as [|x l IH]; intros H; simpl; [done|]. rewrite H by (by left).
  f_equal. apply IH. intros z Hz. apply H. by right.
Qed.

Lemma owners_set c page last sh :
  cache_wf c -> page < last -> page_of c page <> UNSET_BUFFER_ID ->
  live c (page_of c page) sh ->
  page < page_end (Shape.addr sh) (Shape.size sh) /\
  owners c page last =
  page_of c page :: owners c (page_end (Shape.addr sh) (Shape.size sh)) last.
Proof.
  intros W Hlt Hset Hl. set (id0 := page_of c page) in *.
  set (next := page_end (Shape.addr sh) (Shape.size sh)).
  assert (Hpages : forall q, page_of c q = id0 <-> covers sh q)
    by (intros q; by apply (wf_pages _ _ _ W _ _ Hl)).
  assert (Hcov : covers sh page) by (by apply Hpages).
  assert (Hnext : page < next) by apply Hcov.
  split; [exact Hnext|].
  set (m := Z.min next last).
  assert (Hm : owners c next last = owners c m last).
  { destruct (Z.le_gt_cases next last) as [Hle|Hgt].
    - unfold m. by rewrite Z.min_l by lia.
    - unfold m. rewrite Z.min_r by lia. by rewrite !owners_nil by lia. }
  rewrite Hm. unfold owners.
  replace (last - page) with ((m - page) + (last - m)) by lia.
  rewrite seqZ_app by (unfold m; lia).
  replace (page + (m - page)) with m by lia.
  rewrite fmap_app, List.filter_app.
  rewrite (fmap_const_replicate _ id0).
  2:{ intros q Hq. apply elem_of_seqZ in Hq. apply Hpages.
      destruct Hcov as [Hb _]. split; [lia | unfold m in Hq; fold next; lia]. }
  rewrite filter_replicate_true by (unfold id_bool, UNSET_BUFFER_ID in *; apply negb_true_iff; lia).
  rewrite length_seqZ.
  replace (Z.to_nat (m - page)) with (S (Z.to_nat (m - page - 1))) by (unfold m; lia).
  apply remove_dups_block.
  intros Hin. apply list_elem_of_In, filter_In in Hin as (Hin & _).
  apply list_elem_of_In, list_elem_of_fmap in Hin as (q & Hq & Hin).
  apply elem_of_seqZ in Hin. symmetry in Hq. apply Hpages in Hq.
  destruct Hq as [_ Hq]. fold next in Hq. unfold m in Hin. lia.
Qed.

Lemma owners_same_layout c c' page last :
  same_layout c c' -> owners c' page last = owners c page last.
Proof.
  intros Hs. unfold owners. do 2 f_equal. apply list_fmap_ext.
  intros ? q _. by apply page_of_same_layout.
Qed.

Lemma elem_of_owners c page last id :
  id ∈ owners c page last <->
  id <> UNSET_BUFFER_ID /\ exists q, page <= q < last /\ page_of c q = id.
Proof.
  unfold owners. rewrite elem_of_remove_dups, list_elem_of_In, filter_In.
  rewrite <- list_elem_of_In, list_elem_of_fmap. split.
  - intros ((q & -> & Hq) & Hid). apply elem_of_seqZ in Hq. split.
    + intros Hu. apply id_bool_false in Hu. congruence.
    + exists q. split; [lia | done].
  - intros (Hid & q & Hq & <-). split.
    + exists q. split; [done|]. apply elem_of_seqZ. lia.
    + destruct (id_bool (page_of c q)) eqn:E; [done|]. by apply id_bool_false in E.
Qed.

Lemma ForEachBufferInRange_loop_owners func last :
  (forall id c c', func id c = Ok c' -> same_layout c c') ->
  last <= NUM_PAGES ->
  forall fuel page c,
    cache_wf c -> 0 <= page -> last - page <= Z.of_nat fuel ->
    ForEachBufferInRange_loop fuel func page last c = for_each func (owners c page last) c.
Proof.
  intros Hfunc Hlast. rewrite NUM_PAGES_eq in Hlast.
  induction fuel as [|fuel IH]; intros page c W Hp Hfuel.
  - cbn [ForEachBufferInRange_loop]. destruct (Z.ltb_spec page last); [lia|].
    by rewrite owners_nil by lia.
  - cbn [ForEachBufferInRange_loop]. destruct (Z.ltb_spec page last) as [Hlt|Hge];
      [|by rewrite owners_nil by lia].
    assert (Hpt : page_table_at c page = Ok (page_of c page)).
    { apply page_table_at_Ok. split; [|done]. apply page_in_range_iff. lia. }
    rewrite Hpt. simpl.
    destruct (id_bool (page_of c page)) eqn:Hid; simpl.
    + assert (Hset : page_of c page <> UNSET_BUFFER_ID).
      { intros Hu. apply id_bool_false in Hu. congruence. }
      destruct (layout_wf_owner_slot _ _ _ _ W Hset) as (sh & b & Hl & Hb & Ha & Hs & _).
      destruct (owners_set c page last sh W Hlt Hset Hl) as (Hnext & ->).
      rewrite Hb. simpl. destruct (func (page_of c page) c) as [c1| |] eqn:Hf; simpl; try done.
      pose proof (Hfunc _ _ _ Hf) as Hsame.
      assert (Hl1 : live c1 (page_of c page) sh) by (by apply (live_same_layout c c1)).
      destruct (shape_at_slot_at _ _ _ (proj1 Hl1)) as (b1 & Hb1 & Ha1 & Hs1 & _).
      rewrite Hb1. simpl. unfold Buffer.CpuAddr, Buffer.SizeBytes.
      rewrite <- Ha1, <- Hs1. fold (page_end (Shape.addr sh) (Shape.size sh)).
      rewrite <- (owners_same_layout c c1) by done.
      apply IH; [by apply (layout_wf_same_layout _ _ c c1) | lia | lia].
    + apply id_bool_false in Hid. rewrite owners_unset by done.
      rewrite u64_id by (unfold is_u64; lia). apply IH; [done | lia | lia].
Qed.

Lemma last_page_bound cpu_addr size :
  in_address_space cpu_addr size ->
  0 <= first_page_of cpu_addr /\ last_page_of cpu_addr size <= NUM_PAGES.
Proof.
  intros (Ha & Hs & Hfit). unfold first_page_of, last_page_of, ADDRESS_SPACE in *.
  rewrite shiftr_PAGE_BITS, NUM_PAGES_eq. split; [apply Z.div_pos; lia|].
  rewrite u64_id by (unfold is_u64; lia).
  pose proof (lt_DivCeil 8388608 (cpu_addr + size) ltac:(lia)). lia.
Qed.

(** X9: on a cache with a sound layout and for a range inside the address
    space, [ForEachBufferInRange] calls [func] -- any callback that keeps the
    layout, as those of [WriteMemory], [CachedWriteMemory] and
    [DownloadMemory] do -- once for each buffer registered in a page of
    the range, in page order, and for nothing else: the call equals the
    plain iteration of [func] over these buffers, which are distinct live
    buffers. *)
Theorem ForEachBufferInRange_visits_owners (fuel : nat) (cpu_addr size : Z)
    (func : BufferId -> BufferCache -> Res BufferCache) (c : BufferCache) :
  cache_wf c -> in_address_space cpu_addr size ->
  last_page_of cpu_addr size - first_page_of cpu_addr <= Z.of_nat fuel ->
  (forall id c1 c2, func id c1 = Ok c2 -> same_layout c1 c2) ->
  let ids := owners c (first_page_of cpu_addr) (last_page_of cpu_addr size) in
  ForEachBufferInRange fuel cpu_addr size func c = for_each func ids c /\
  NoDup ids /\
  (forall id, id ∈ ids <->
     id <> UNSET_BUFFER_ID /\
     exists page, first_page_of cpu_addr <= page < last_page_of cpu_addr size /\
                  page_of c page = id) /\
  (forall id, id ∈ ids -> exists sh, live c id sh).
Proof.
  intros W Hin Hfuel Hfunc ids. destruct (last_page_bound _ _ Hin) as (Hfirst & Hlast).
  split; [|split; [|split]].
  - unfold ForEachBufferInRange. by apply ForEachBufferInRange_loop_owners.
  - apply NoDup_remove_dups.
  - intros id. apply elem_of_owners.
  - intros id Hid. apply elem_of_owners in Hid as (Hset & q & _ & <-).
    by apply (wf_owner _ _ _ W).
Qed.

Lemma ForEachBufferInRange_visits_owners_witness :
  let c := cache_storage_bound in
  let func := fun (id : BufferId) (c : BufferCache) =>
                slot_update id (Buffer.MarkRegionAsCpuModified 65536 64) c in
  let ids := owners c (first_page_of 65536) (last_page_of 65536 64) in
  cache_wf c /\ in_address_space 65536 64 /\
  last_page_of 65536 64 - first_page_of 65536 <= Z.of_nat 8 /\
  (forall id c1 c2, func id c1 = Ok c2 -> same_layout c1 c2) /\
  ids = [1] /\
  ForEachBufferInRange 8 65536 64 func c = for_each func ids c /\
  NoDup ids /\
  (forall id, id ∈ ids <->
     id <> UNSET_BUFFER_ID /\
     exists page, first_page_of 65536 <= page < last_page_of 65536 64 /\
                  page_of c page = id) /\
  (forall id, id ∈ ids -> exists sh, live c id sh).
Proof.
  intros c func ids.
  assert (W : cache_wf c)
    by apply (reachable_inv policy_vulkan), cache_storage_bound_reachable.
  assert (Hin : in_address_space 65536 64) by (unfold in_address_space, ADDRESS_SPACE; lia).
  assert (Hfuel : last_page_of 65536 64 - first_page_of 65536 <= Z.of_nat 8)
    by (vm_compute; discriminate).
  assert (Hfunc : forall id c1 c2, func id c1 = Ok c2 -> same_layout c1 c2).
  { intros id c1 c2. apply slot_update_same_layout, keeps_shape_MarkCpu. }
  split; [exact W|]. split; [exact Hin|]. split; [exact Hfuel|]. split; [exact Hfunc|].
  split; [vm_compute; reflexivity|].
  exact (ForEachBufferInRange_visits_owners 8 65536 64 func c W Hin Hfuel Hfunc).
Defined.

(** ** Writes of the guest CPU *)

Lemma slot_update_slots_after id change c c' :
  slot_update id change c = Ok c' -> slots_after id change c c'.
Proof.
  intros H id' b Hb. apply slot_update_Ok in H as (Hid & s & Hs & ->).
  apply slot_at_Ok in Hb as (Hid' & s' & Hs' & ->). apply slot_at_Ok. split; [done|]. simpl.
  destruct (decide (id' = id)) as [->|Hne].
  - rewrite list_lookup_insert_eq by (apply lookup_lt_Some in Hs; lia).
    eexists. split; [done|]. simpl. congruence.
  - rewrite list_lookup_insert_ne by lia. eauto.
Qed.

Lemma for_each_slots_after func change ids :
  (forall id c c', func id c = Ok c' -> slots_after id change c c') ->
  NoDup ids ->
  forall c c', for_each func ids c = Ok c' ->
    forall id buffer, slot_at c id = Ok buffer ->
      slot_at c' id = Ok (if decide (id ∈ ids) then change buffer else buffer).
Proof.
  intros Hfunc. induction ids as [|id0 ids IH]; intros Hnd c c' H id b Hb; simpl in H.
  - injection H as <-. rewrite decide_False by apply not_elem_of_nil. done.
  - apply bind_Ok in H as (c1 & Hc1 & H). apply NoDup_cons in Hnd as (Hnotin & Hnd).
    pose proof (Hfunc _ _ _ Hc1 id b Hb) as Hb1.
    rewrite (IH Hnd _ _ H _ _ Hb1).
    destruct (decide (id = id0)) as [->|Hne].
    + rewrite decide_False by done. rewrite decide_True by (by left). done.
    + destruct (decide (id ∈ ids)) as [Hi|Hi].
      * rewrite decide_True by (by right). done.
      * rewrite decide_False; [done|]. intros [?|?]%elem_of_cons; done.
Qed.

Lemma for_each_returns {A} (func : A -> BufferCache -> Res BufferCache) (Inv : BufferCache -> Prop)
    (ids : list A) :
  (forall id c, id ∈ ids -> Inv c -> exists c', func id c = Ok c' /\ Inv c') ->
  forall c, Inv c -> exists c', for_each func ids c = Ok c' /\ Inv c'.
Proof.
  induction ids as [|id ids IH]; intros Hfunc c Hc; simpl.
  - by exists c.
  - destruct (Hfunc id c ltac:(by left) Hc) as (c1 & -> & Hc1). simpl.
    apply IH; [|exact Hc1]. intros i c0 Hi. apply Hfunc. by right.
Qed.

(** X10: on a cache with a sound layout, [WriteMemory] over a range inside
    the address space returns; it marks the range as CPU-modified in exactly
    the buffers registered in the pages of the range and changes no other
    buffer and nothing else of the cache. *)
Theorem WriteMemory_marks_owners (fuel : nat) (cpu_addr size : Z) (c : BufferCache) :
  cache_wf c -> in_address_space cpu_addr size ->
  last_page_of cpu_addr size - first_page_of cpu_addr <= Z.of_nat fuel ->
  exists c',
    WriteMemory fuel cpu_addr size c = Ok c' /\
    c' = set_slot_buffers c'.(slot_buffers) c /\
    same_layout c c' /\
    forall id buffer, slot_at c id = Ok buffer ->
      slot_at c' id =
      Ok (if decide (id ∈ owners c (first_page_of cpu_addr) (last_page_of cpu_addr size))
          then Buffer.MarkRegionAsCpuModified cpu_addr size buffer
          else buffer).
Proof.
  intros W Hin Hfuel. destruct (last_page_bound _ _ Hin) as (Hfirst & Hlast).
  set (func := fun id c => slot_update id (Buffer.MarkRegionAsCpuModified cpu_addr size) c).
  set (ids := owners c (first_page_of cpu_addr) (last_page_of cpu_addr size)).
  assert (Hfunc : forall id c1 c2, func id c1 = Ok c2 -> same_layout c1 c2).
  { intros id c1 c2. apply slot_update_same_layout, keeps_shape_MarkCpu. }
  assert (Heq : WriteMemory fuel cpu_addr size c = for_each func ids c).
  { unfold WriteMemory, ForEachBufferInRange. by apply ForEachBufferInRange_loop_owners. }
  destruct (for_each_returns func
              (fun c0 => same_layout c c0 /\ c0 = set_slot_buffers c0.(slot_buffers) c) ids)
    with (c := c) as (c' & Hc' & Hsame & Hfields).
  { intros id c0 Hid (Hs & Hf). apply elem_of_owners in Hid as (Hset & q & _ & <-).
    destruct (wf_owner _ _ _ W _ Hset) as (sh & Hl).
    apply (live_same_layout c c0) in Hl; [|done].
    destruct (slot_update_returns (page_of c q)
                (Buffer.MarkRegionAsCpuModified cpu_addr size) c0) as (c1 & Hc1).
    { apply (slot_in_range _ _ sh), Hl. }
    exists c1. split; [exact Hc1|]. split.
    - eapply same_layout_trans; [exact Hs | by apply (Hfunc _ _ _ Hc1)].
    - apply slot_update_Ok in Hc1 as (_ & s & _ & ->). rewrite Hf at 2. reflexivity. }
  { split; [apply same_layout_refl | by destruct c]. }
  exists c'. rewrite Heq. split; [exact Hc'|]. split; [exact Hfields|]. split; [exact Hsame|].
  apply (for_each_slots_after func _ ids); [|apply NoDup_remove_dups | exact Hc'].
  intros id c1 c2. apply slot_update_slots_after.
Qed.

Lemma WriteMemory_marks_owners_witness :
  let c := cache_storage_bound in
  cache_wf c /\ in_address_space 65536 64 /\
  last_page_of 65536 64 - first_page_of 65536 <= Z.of_nat 8 /\
  exists c',
    WriteMemory 8 65536 64 c = Ok c' /\
    c' = set_slot_buffers c'.(slot_buffers) c /\
    same_layout c c' /\
    forall id buffer, slot_at c id = Ok buffer ->
      slot_at c' id =
      Ok (if decide (id ∈ owners c (first_page_of 65536) (last_page_of 65536 64))
          then Buffer.MarkRegionAsCpuModified 65536 64 buffer
          else buffer).
Proof.
  intros c.
  assert (W : cache_wf c)
    by apply (reachable_inv policy_vulkan), cache_storage_bound_reachable.
  assert (Hin : in_address_space 65536 64) by (unfold in_address_space, ADDRESS_SPACE; lia).
  assert (Hfuel : last_page_of 65536 64 - first_page_of 65536 <= Z.of_nat 8)
    by (vm_compute; discriminate).
  split; [exact W|]. split; [exact Hin|]. split; [exact Hfuel|].
  exact (WriteMemory_marks_owners 8 65536 64 c W Hin Hfuel).
Defined.

(** ** Bytes that the GPU modified *)

Lemma buffer_of_slot_at c id buffer : slot_at c id = Ok buffer -> buffer_of c id = buffer.
Proof. unfold buffer_of. by intros ->. Qed.

Lemma IsRegionGpuModified_loop_owners addr size last :
  last <= NUM_PAGES ->
  forall fuel page c,
    cache_wf c -> 0 <= page -> last - page <= Z.of_nat fuel ->
    IsRegionGpuModified_loop fuel addr size page last c =
    Ok (existsb (fun id => Buffer.IsRegionGpuModified (buffer_of c id) addr size)
                (owners c page last)).
Proof.
  intros Hlast. rewrite NUM_PAGES_eq in Hlast.
  induction fuel as [|fuel IH]; intros page c W Hp Hfuel.
  - cbn [IsRegionGpuModified_loop]. destruct (Z.ltb_spec page last); [lia|].
    by rewrite owners_nil by lia.
  - cbn [IsRegionGpuModified_loop]. destruct (Z.ltb_spec page last) as [Hlt|Hge];
      [|by rewrite owners_nil by lia].
    assert (Hpt : page_table_at c page = Ok (page_of c page)).
    { apply page_table_at_Ok. split; [|done]. apply page_in_range_iff. lia. }
    rewrite Hpt. simpl.
    destruct (id_bool (page_of c page)) eqn:Hid; simpl.
    + assert (Hset : page_of c page <> UNSET_BUFFER_ID).
      { intros Hu. apply id_bool_false in Hu. congruence. }
      destruct (layout_wf_owner_slot _ _ _ _ W Hset) as (sh & b & Hl & Hb & Ha & Hs & _).
      destruct (owners_set c page last sh W Hlt Hset Hl) as (Hnext & ->).
      rewrite Hb. simpl. rewrite (buffer_of_slot_at _ _ _ Hb).
      destruct (Buffer.IsRegionGpuModified b addr size); [done|]. simpl.
      unfold Buffer.CpuAddr, Buffer.SizeBytes.
      rewrite <- Ha, <- Hs. fold (page_end (Shape.addr sh) (Shape.size sh)).
      apply IH; [done | lia | lia].
    + apply id_bool_false in Hid. rewrite owners_unset by done.
      rewrite u64_id by (unfold is_u64; lia). apply IH; [done | lia | lia].
Qed.

(** X11: on a cache with a sound layout and for a range inside the address
    space, the public [IsRegionGpuModified] returns, and it answers true
    exactly when one of the buffers registered in the pages of the range has
    GPU-modified bytes in the range. *)
Theorem IsRegionGpuModified_owners (fuel : nat) (addr size : Z) (c : BufferCache) :
  cache_wf c -> in_address_space addr size ->
  last_page_of addr size - first_page_of addr <= Z.of_nat fuel ->
  exists answer,
    IsRegionGpuModified fuel addr size c = Ok answer /\
    (answer = true <->
     exists id buffer,
       id ∈ owners c (first_page_of addr) (last_page_of addr size) /\
       slot_at c id = Ok buffer /\
       Buffer.IsRegionGpuModified buffer addr size = true).
Proof.
  intros W Hin Hfuel. destruct (last_page_bound _ _ Hin) as (Hfirst & Hlast).
  eexists. split.
  - unfold IsRegionGpuModified. by apply IsRegionGpuModified_loop_owners.
  - rewrite existsb_exists. split.
    + intros (id & Hid & Hm). apply list_elem_of_In in Hid.
      pose proof Hid as Hid'. apply elem_of_owners in Hid' as (Hset & q & _ & <-).
      destruct (layout_wf_owner_slot _ _ _ _ W Hset) as (sh & b & _ & Hb & _).
      exists (page_of c q), b. rewrite (buffer_of_slot_at _ _ _ Hb) in Hm. done.
    + intros (id & b & Hid & Hb & Hm). exists id. split; [by apply list_elem_of_In|].
      by rewrite (buffer_of_slot_at _ _ _ Hb).
Qed.

Lemma IsRegionGpuModified_owners_witness :
  let c := cache_storage_bound in
  cache_wf c /\ in_address_space 65536 64 /\
  last_page_of 65536 64 - first_page_of 65536 <= Z.of_nat 8 /\
  IsRegionGpuModified 8 65536 64 c = Ok true /\
  exists answer,
    IsRegionGpuModified 8 65536 64 c = Ok answer /\
    (answer = true <->
     exists id buffer,
       id ∈ owners c (first_page_of 65536) (last_page_of 65536 64) /\
       slot_at c id = Ok buffer /\
       Buffer.IsRegionGpuModified buffer 65536 64 = true).
Proof.
  intros c.
  assert (W : cache_wf c)
    by apply (reachable_inv policy_vulkan), cache_storage_bound_reachable.
  assert (Hin : in_address_space 65536 64) by (unfold in_address_space, ADDRESS_SPACE; lia).
  assert (Hfuel : last_page_of 65536 64 - first_page_of 65536 <= Z.of_nat 8)
    by (vm_compute; discriminate).
  split; [exact W|]. split; [exact Hin|]. split; [exact Hfuel|].
  split; [vm_compute; reflexivity|].
  exact (IsRegionGpuModified_owners 8 65536 64 c W Hin Hfuel).
Defined.

Lemma inter_sub lo hi rs : Ranges.inter lo hi (Ranges.sub lo hi rs) = [].
Proof.
  unfold Ranges.inter, Ranges.sub. induction rs as [|[a b] rs IH]; simpl; [done|].
  rewrite !flat_map_app, IH, app_nil_r.
  destruct (Z.ltb_spec a (Z.min b lo)); destruct (Z.ltb_spec (Z.max a hi) b); simpl;
    repeat match goal with
    | |- context [?x <? ?y] => destruct (Z.ltb_spec x y); [lia|]
    end; done.
Qed.

Lemma downloaded_clean addr size buffer :
  Buffer.IsRegionGpuModified (downloaded addr size buffer) addr size = false.
Proof.
  unfold downloaded, Buffer.ForEachDownloadRange, Buffer.IsRegionGpuModified,
    Buffer.region_lo, Buffer.region_hi. simpl. by rewrite inter_sub.
Qed.

Lemma log_slots e c : (log e c).(slot_buffers) = c.(slot_buffers).
Proof. reflexivity. Qed.

Lemma fold_left_slots {A} (step : BufferCache -> A -> BufferCache) (l : list A) :
  (forall c x, (step c x).(slot_buffers) = c.(slot_buffers)) ->
  forall c, (fold_left step l c).(slot_buffers) = c.(slot_buffers).
Proof.
  intros Hstep. induction l as [|x l IH]; intros c; simpl; [done|]. by rewrite IH, Hstep.
Qed.

Lemma ImmediateBuffer_slots n c : (ImmediateBuffer n c).(slot_buffers) = c.(slot_buffers).
Proof. unfold ImmediateBuffer. by destruct (_ <? _). Qed.

Lemma slots_after_same_slots id change c c1 c2 :
  slots_after id change c c1 -> c2.(slot_buffers) = c1.(slot_buffers) ->
  slots_after id change c c2.
Proof. intros H E id' b Hb. unfold slot_at. rewrite E. by apply H. Qed.

Lemma fold_left_page_table {A} (step : BufferCache -> A -> BufferCache) (l : list A) :
  (forall c x, (step c x).(page_table) = c.(page_table)) ->
  forall c, (fold_left step l c).(page_table) = c.(page_table).
Proof.
  intros Hstep. induction l as [|x l IH]; intros c; simpl; [done|]. by rewrite IH, Hstep.
Qed.

Lemma ImmediateBuffer_page_table n c : (ImmediateBuffer n c).(page_table) = c.(page_table).
Proof. unfold ImmediateBuffer. by destruct (_ <? _). Qed.

Lemma fold_left_log {A} (call : A -> Call.t) (l : list A) : forall c,
  (fold_left (fun c x => log (call x) c) l c).(runtime_calls)
  = c.(runtime_calls) ++ map call l.
Proof.
  induction l as [|x l IH]; intros c; simpl; [by rewrite app_nil_r|].
  rewrite IH. simpl. by rewrite <- app_assoc.
Qed.

Lemma fold_left_log2 {A} (call1 call2 : A -> Call.t) (l : list A) : forall c,
  (fold_left (fun c x => log (call2 x) (log (call1 x) c)) l c).(runtime_calls)
  = c.(runtime_calls) ++ concat (map (fun x => [call1 x; call2 x]) l).
Proof.
  induction l as [|x l IH]; intros c; simpl; [by rewrite app_nil_r|].
  rewrite IH. simpl. by rewrite <- !app_assoc.
Qed.

(** The calls of a loop over distinct buffers, each step of which changes
    only its own buffer. *)
Lemma for_each_calls (func : BufferId -> BufferCache -> Res BufferCache)
    (change : Buffer.t -> Buffer.t) (calls_of : BufferId -> Buffer.t -> list Call.t)
    (c : BufferCache) :
  (forall id c1 c2, func id c1 = Ok c2 ->
     slots_after id change c1 c2 /\
     forall b, slot_at c1 id = Ok b -> c2.(runtime_calls) = c1.(runtime_calls) ++ calls_of id b) ->
  forall ids, NoDup ids ->
  forall c0 c', for_each func ids c0 = Ok c' ->
    (forall id, id ∈ ids -> exists b, slot_at c id = Ok b /\ slot_at c0 id = Ok b) ->
    c'.(runtime_calls)
    = c0.(runtime_calls) ++ concat ((fun id => calls_of id (buffer_of c id)) <$> ids).
Proof.
  intros Hfunc. induction ids as [|id ids IH]; intros Hnd c0 c' H Hids; simpl in H.
  - injection H as <-. simpl. by rewrite app_nil_r.
  - apply bind_Ok in H as (c1 & Hc1 & H). apply NoDup_cons in Hnd as (Hnotin & Hnd).
    destruct (Hfunc _ _ _ Hc1) as (Hslots & Hcalls).
    destruct (Hids id ltac:(by left)) as (b & Hb & Hb0).
    rewrite fmap_cons. simpl. rewrite (buffer_of_slot_at _ _ _ Hb), app_assoc.
    rewrite <- (Hcalls _ Hb0). apply (IH Hnd _ _ H).
    intros id' Hid'. destruct (Hids id' ltac:(by right)) as (b' & Hb' & Hb0').
    exists b'. split; [done|]. rewrite (Hslots _ _ Hb0').
    rewrite decide_False; [done|]. intros ->. done.
Qed.

(** X12: on a cache with a sound layout, [DownloadMemory] over a range
    inside the address space returns and keeps the layout; in each buffer
    registered in the pages of the range it hands out and clears the
    GPU-modified bytes of the range, and it changes no other buffer.  The
    calls it adds to those made before are, buffer after buffer in page
    order, the calls of one download of these bytes: a staging buffer, one
    copy command, a wait and a write to guest memory per range (or, without
    memory maps, a download and a write per range), and nothing for a buffer
    without GPU-modified bytes in the range.  Afterwards
    [IsRegionGpuModified] answers false for the same range. *)
Theorem DownloadMemory_clears (P : Policy) (env : Env) (fuel : nat) (cpu_addr size : Z)
    (c : BufferCache) :
  cache_wf c -> in_address_space cpu_addr size ->
  last_page_of cpu_addr size - first_page_of cpu_addr <= Z.of_nat fuel ->
  exists c',
    DownloadMemory P env fuel cpu_addr size c = Ok c' /\
    same_layout c c' /\
    (forall id buffer, slot_at c id = Ok buffer ->
       slot_at c' id =
       Ok (if decide (id ∈ owners c (first_page_of cpu_addr) (last_page_of cpu_addr size))
           then downloaded cpu_addr size buffer
           else buffer)) /\
    c'.(runtime_calls) =
      c.(runtime_calls) ++
      concat ((fun id => download_calls P env cpu_addr size id (buffer_of c id))
                <$> owners c (first_page_of cpu_addr) (last_page_of cpu_addr size)) /\
    IsRegionGpuModified fuel cpu_addr size c' = Ok false.
Proof.
  intros W Hin Hfuel. destruct (last_page_bound _ _ Hin) as (Hfirst & Hlast).
  unfold DownloadMemory, ForEachBufferInRange.
  match goal with
  | |- context [ForEachBufferInRange_loop _ ?f _ _ _] => set (func := f)
  end.
  fold (first_page_of cpu_addr). fold (last_page_of cpu_addr size).
  set (ids := owners c (first_page_of cpu_addr) (last_page_of cpu_addr size)).
  assert (Heffect : forall id c0 c0', func id c0 = Ok c0' ->
            same_layout c0 c0' /\ slots_after id (downloaded cpu_addr size) c0 c0').
  { intros id c0 c0' H. unfold func in H. apply bind_Ok in H as (b & Hb & H).
    pose proof (ForEachDownloadRange_shape cpu_addr size b) as Hshape.
    assert (Hd : downloaded cpu_addr size b
                 = snd (Buffer.ForEachDownloadRange cpu_addr size b)) by reflexivity.
    destruct (Buffer.ForEachDownloadRange cpu_addr size b) as [ranges b'].
    simpl in Hshape, Hd. destruct Hshape as (Ea & Ez & Ep).
    apply bind_Ok in H as (c1 & Hc1 & H).
    assert (L1 : same_layout c0 c1)
      by (eapply slot_update_const_same_layout; [exact Hb | | | | exact Hc1]; done).
    assert (S1 : slots_after id (downloaded cpu_addr size) c0 c1).
    { intros id' b0 Hb0. rewrite (slot_update_slots_after _ _ _ _ Hc1 _ _ Hb0).
      destruct (decide (id' = id)) as [->|]; [|done]. rewrite Hb0 in Hb. injection Hb as ->.
      by rewrite Hd. }
    destruct (fold_left push_copy ranges ([], 0, 0)) as [[copies total] largest].
    destruct (total =? 0); [by injection H as <-|].
    destruct (USE_MEMORY_MAPS P); injection H as <-; split.
    - eapply same_layout_trans; [exact L1|]. apply same_layout_fields.
      + rewrite fold_left_slots by (intros; reflexivity). reflexivity.
      + rewrite fold_left_page_table by done. reflexivity.
    - eapply slots_after_same_slots; [exact S1|].
      rewrite fold_left_slots by (intros; reflexivity). reflexivity.
    - eapply same_layout_trans; [exact L1|]. apply same_layout_fields.
      + rewrite fold_left_slots by (intros; reflexivity). apply ImmediateBuffer_slots.
      + rewrite fold_left_page_table by done. apply ImmediateBuffer_page_table.
    - eapply slots_after_same_slots; [exact S1|].
      rewrite fold_left_slots by (intros; reflexivity). apply ImmediateBuffer_slots. }
  assert (Hcalls : forall id c0 c0' b, func id c0 = Ok c0' -> slot_at c0 id = Ok b ->
            c0'.(runtime_calls)
            = c0.(runtime_calls) ++ download_calls P env cpu_addr size id b).
  { intros id c0 c0' b0 H Hb0. unfold func in H. apply bind_Ok in H as (b & Hb & H).
    assert (b = b0) as -> by congruence. unfold download_calls.
    pose proof (ForEachDownloadRange_shape cpu_addr size b0) as Hshape.
    destruct (Buffer.ForEachDownloadRange cpu_addr size b0) as [ranges b'].
    simpl in Hshape. destruct Hshape as (Ea & _). cbv zeta. cbn [fst].
    apply bind_Ok in H as (c1 & Hc1 & H). apply slot_update_calls in Hc1.
    destruct (fold_left push_copy ranges ([], 0, 0)) as [[copies total] largest].
    destruct (total =? 0); [injection H as <-; by rewrite app_nil_r, Hc1|].
    unfold Buffer.CpuAddr in *.
    destruct (USE_MEMORY_MAPS P); injection H as <-.
    - rewrite fold_left_log. simpl. rewrite Hc1, Ea, <- !app_assoc. reflexivity.
    - rewrite fold_left_log2, ImmediateBuffer_calls, Hc1, Ea. reflexivity. }
  assert (Hret : forall id c0, 0 <= id < Z.of_nat (length c0.(slot_buffers)) ->
            exists c0', func id c0 = Ok c0').
  { intros id c0 Hid. unfold func. destruct (slot_at_returns c0 id Hid) as (b & Hb).
    eapply bind_returns; [exact Hb|].
    destruct (Buffer.ForEachDownloadRange cpu_addr size b) as [ranges b'].
    destruct (slot_update_returns id (fun _ => b') c0 Hid) as (c1 & Hc1).
    eapply bind_returns; [exact Hc1|].
    destruct (fold_left push_copy ranges ([], 0, 0)) as [[copies total] largest].
    destruct (total =? 0); [by eexists|]. destruct (USE_MEMORY_MAPS P); by eexists. }
  rewrite ForEachBufferInRange_loop_owners;
    [|intros id c1 c2 H; apply (Heffect _ _ _ H)|done..].
  fold ids.
  destruct (for_each_returns func (fun c0 => same_layout c c0) ids) with (c := c)
    as (c' & Hc' & Hsame).
  { intros id c0 Hid Hs. apply elem_of_owners in Hid as (Hset & q & _ & <-).
    destruct (wf_owner _ _ _ W _ Hset) as (sh & Hl).
    apply (live_same_layout c c0) in Hl; [|done].
    destruct (Hret (page_of c q) c0) as (c1 & Hc1); [apply (slot_in_range _ _ sh), Hl|].
    exists c1. split; [exact Hc1|].
    eapply same_layout_trans; [exact Hs | by apply (Heffect _ _ _ Hc1)]. }
  { apply same_layout_refl. }
  assert (Hslots : forall id buffer, slot_at c id = Ok buffer ->
            slot_at c' id =
            Ok (if decide (id ∈ ids) then downloaded cpu_addr size buffer else buffer)).
  { apply (for_each_slots_after func _ ids); [|apply NoDup_remove_dups | exact Hc'].
    intros id c1 c2 H. apply (Heffect _ _ _ H). }
  assert (Hlog : c'.(runtime_calls)
                 = c.(runtime_calls) ++
                   concat ((fun id => download_calls P env cpu_addr size id (buffer_of c id))
                             <$> ids)).
  { apply (for_each_calls func (downloaded cpu_addr size)
             (download_calls P env cpu_addr size) c) with (ids := ids) (c0 := c);
      [|apply NoDup_remove_dups | exact Hc'|].
    - intros id c1 c2 H. split; [apply (Heffect _ _ _ H)|].
      intros b Hb. by apply (Hcalls _ _ _ _ H).
    - intros id Hid. apply elem_of_owners in Hid as (Hset & q & _ & <-).
      destruct (layout_wf_owner_slot _ _ _ _ W Hset) as (sh & b & _ & Hb & _).
      by exists b. }
  exists c'. split; [exact Hc'|]. split; [exact Hsame|]. split; [exact Hslots|].
  split; [exact Hlog|].
  assert (W' : cache_wf c') by (by apply (layout_wf_same_layout _ _ c c')).
  unfold IsRegionGpuModified. fold (first_page_of cpu_addr). fold (last_page_of cpu_addr size).
  rewrite IsRegionGpuModified_loop_owners by done. f_equal.
  rewrite (owners_same_layout c c') by done. fold ids.
  destruct (existsb _ ids) eqn:E; [|done]. exfalso.
  apply existsb_exists in E as (id & Hid & Hm). apply list_elem_of_In in Hid.
  pose proof Hid as Hid'. apply elem_of_owners in Hid' as (Hset & q & _ & <-).
  destruct (layout_wf_owner_slot _ _ _ _ W Hset) as (sh & b & _ & Hb & _).
  pose proof (Hslots _ _ Hb) as Hb'. rewrite decide_True in Hb' by done.
  rewrite (buffer_of_slot_at _ _ _ Hb'), downloaded_clean in Hm. done.
Qed.

Lemma DownloadMemory_clears_witness :
  let c := cache_storage_bound in
  let env := example_env true 65536 256 in
  cache_wf c /\ in_address_space 65536 64 /\
  last_page_of 65536 64 - first_page_of 65536 <= Z.of_nat 8 /\
  IsRegionGpuModified 8 65536 64 c = Ok true /\
  concat ((fun id => download_calls policy_vulkan env 65536 64 id (buffer_of c id))
            <$> owners c (first_page_of 65536) (last_page_of 65536 64))
  = [Call.DownloadStagingBuffer 64;
     Call.CopyBuffer DownloadStaging (CachedBuffer 1) [BufferCopy.mk 0 0 64];
     Call.Finish;
     Call.WriteBlockUnsafe 65536 64] /\
  exists c',
    DownloadMemory policy_vulkan env 8 65536 64 c = Ok c' /\
    same_layout c c' /\
    (forall id buffer, slot_at c id = Ok buffer ->
       slot_at c' id =
       Ok (if decide (id ∈ owners c (first_page_of 65536) (last_page_of 65536 64))
           then downloaded 65536 64 buffer
           else buffer)) /\
    c'.(runtime_calls) =
      c.(runtime_calls) ++
      concat ((fun id => download_calls policy_vulkan env 65536 64 id (buffer_of c id))
                <$> owners c (first_page_of 65536) (last_page_of 65536 64)) /\
    IsRegionGpuModified 8 65536 64 c' = Ok false.
Proof.
  intros c env.
  assert (W : cache_wf c)
    by apply (reachable_inv policy_vulkan), cache_storage_bound_reachable.
  assert (Hin : in_address_space 65536 64) by (unfold in_address_space, ADDRESS_SPACE; lia).
  assert (Hfuel : last_page_of 65536 64 - first_page_of 65536 <= Z.of_nat 8)
    by (vm_compute; discriminate).
  split; [exact W|]. split; [exact Hin|]. split; [exact Hfuel|].
  split; [vm_compute; reflexivity|]. split; [vm_compute; reflexivity|].
  exact (DownloadMemory_clears policy_vulkan env 8 65536 64 c W Hin Hfuel).
Defined.

Lemma marked_gpu_modified buffer addr size :
  Buffer.cpu_addr buffer <= addr -> 0 < size ->
  addr + size <= Buffer.cpu_addr buffer + Buffer.size_bytes buffer ->
  Buffer.IsRegionGpuModified (Buffer.MarkRegionAsGpuModified addr size buffer) addr size = true.
Proof.
  intros Hlo Hsize Hhi.
  unfold Buffer.IsRegionGpuModified, Buffer.MarkRegionAsGpuModified, Buffer.region_lo,
    Buffer.region_hi. simpl.
  rewrite Z.max_l, Z.min_l by lia. unfold Ranges.add.
  destruct (Z.ltb_spec (addr - Buffer.cpu_addr buffer) (addr + size - Buffer.cpu_addr buffer));
    [|lia].
  unfold Ranges.inter. simpl. rewrite Z.max_id, Z.min_id.
  destruct (Z.ltb_spec (addr - Buffer.cpu_addr buffer) (addr + size - Buffer.cpu_addr buffer));
    [done | lia].
Qed.

(** X13: when [MarkWrittenBuffer] returns for a live buffer that holds the
    non-empty range, [IsRegionGpuModified] answers true for that range.  The
    layout and the committed download lists are unchanged; the buffer id is
    in [uncommitted_downloads] afterwards if the GPU accuracy is high and the
    emulation asynchronous, and otherwise that list is unchanged too. *)
Theorem MarkWrittenBuffer_marks_region (env : Env) (fuel : nat) (buffer_id : BufferId)
    (cpu_addr size : Z) (c c' : BufferCache) (sh : Shape.t) :
  cache_wf c -> live c buffer_id sh -> in_address_space cpu_addr size -> 0 < size ->
  Shape.addr sh <= cpu_addr -> cpu_addr + size <= Shape.addr sh + Shape.size sh ->
  last_page_of cpu_addr size - first_page_of cpu_addr <= Z.of_nat fuel ->
  MarkWrittenBuffer env buffer_id cpu_addr size c = Ok c' ->
  IsRegionGpuModified fuel cpu_addr size c' = Ok true /\
  same_layout c c' /\
  c'.(committed_downloads) = c.(committed_downloads) /\
  (if env.(IsGPULevelHigh) && env.(use_asynchronous_gpu_emulation)
   then buffer_id ∈ c'.(uncommitted_downloads) /\
        forall id, id ∈ c.(uncommitted_downloads) -> id ∈ c'.(uncommitted_downloads)
   else c'.(uncommitted_downloads) = c.(uncommitted_downloads)).
Proof.
  intros W Hl Hin Hsize Hlo Hhi Hfuel H.
  destruct (last_page_bound _ _ Hin) as (Hfirst & Hlast).
  unfold MarkWrittenBuffer in H. apply bind_Ok in H as (c1 & Hc1 & H).
  pose proof (slot_update_same_layout _ _ _ _ (keeps_shape_MarkGpu cpu_addr size) Hc1) as L1.
  pose proof (slot_update_slots_after _ _ _ _ Hc1) as S1.
  pose proof (slot_update_same_downloads _ _ _ _ Hc1) as [U1 C1].
  assert (Hc' : c'.(slot_buffers) = c1.(slot_buffers) /\ c'.(page_table) = c1.(page_table) /\
                c'.(committed_downloads) = c1.(committed_downloads)).
  { destruct (_ || _); [by injection H as <-|].
    destruct (existsb _ _); by injection H as <-. }
  destruct Hc' as (Es & Ep & Ec).
  assert (L : same_layout c c').
  { eapply same_layout_trans; [exact L1|]. by apply same_layout_fields. }
  split; [|split; [exact L|split; [congruence|]]].
  - assert (W' : cache_wf c') by (by apply (layout_wf_same_layout _ _ c c')).
    unfold IsRegionGpuModified. fold (first_page_of cpu_addr). fold (last_page_of cpu_addr size).
    rewrite IsRegionGpuModified_loop_owners by done. f_equal.
    rewrite (owners_same_layout c c') by done.
    apply existsb_exists. exists buffer_id.
    destruct (wf_extent _ _ _ W _ _ Hl) as (Ha & Hz).
    destruct (shape_at_slot_at _ _ _ (proj1 Hl)) as (b & Hb & Eb & Ez & _).
    destruct Hin as (Hin0 & Hin1 & Hin2). unfold ADDRESS_SPACE in *.
    assert (Hcov : covers sh (first_page_of cpu_addr)).
    { apply covers_iff; [done | done |]. unfold first_page_of. rewrite shiftr_PAGE_BITS.
      pose proof (page_lt (cpu_addr / 65536 + 1) cpu_addr).
      pose proof (page_le (cpu_addr / 65536) cpu_addr). lia. }
    split.
    + apply list_elem_of_In, elem_of_owners. split; [by apply (live_not_unset _ _ _ _ _ W Hl)|].
      exists (first_page_of cpu_addr). split.
      * split; [lia|]. unfold last_page_of, first_page_of.
        rewrite shiftr_PAGE_BITS, u64_id by (unfold is_u64; lia).
        apply lt_DivCeil; [lia|]. pose proof (page_le (cpu_addr / 65536) cpu_addr). lia.
      * by apply (wf_pages _ _ _ W _ _ Hl).
    + assert (Hb' : slot_at c' buffer_id
                    = Ok (Buffer.MarkRegionAsGpuModified cpu_addr size b)).
      { unfold slot_at. rewrite Es. fold (slot_at c1 buffer_id).
        rewrite (S1 _ _ Hb). by rewrite decide_True. }
      rewrite (buffer_of_slot_at _ _ _ Hb'). apply marked_gpu_modified; lia.
  - destruct (IsGPULevelHigh env); destruct (use_asynchronous_gpu_emulation env); simpl in *;
      try (injection H as <-; exact U1).
    destruct (existsb _ _) eqn:Hex; injection H as <-; simpl; rewrite <- U1.
    + apply existsb_exists in Hex as (x & Hx & ->%Z.eqb_eq). split; [|done].
      by apply list_elem_of_In.
    + split; [apply elem_of_app; right; by left|]. intros id Hid. apply elem_of_app. by left.
Qed.

Lemma MarkWrittenBuffer_marks_region_witness :
  let c := cache_storage_bound in
  let env := example_env true 65536 256 in
  let sh := Shape.mk 65536 49408 false false in
  let c' := match MarkWrittenBuffer env 1 69632 16 c with Ok c' => c' | _ => c end in
  cache_wf c /\ live c 1 sh /\ in_address_space 69632 16 /\ 0 < 16 /\
  Shape.addr sh <= 69632 /\ 69632 + 16 <= Shape.addr sh + Shape.size sh /\
  last_page_of 69632 16 - first_page_of 69632 <= Z.of_nat 8 /\
  MarkWrittenBuffer env 1 69632 16 c = Ok c' /\
  IsRegionGpuModified 8 69632 16 c' = Ok true /\
  same_layout c c' /\
  c'.(committed_downloads) = c.(committed_downloads) /\
  (if env.(IsGPULevelHigh) && env.(use_asynchronous_gpu_emulation)
   then 1 ∈ c'.(uncommitted_downloads) /\
        forall id, id ∈ c.(uncommitted_downloads) -> id ∈ c'.(uncommitted_downloads)
   else c'.(uncommitted_downloads) = c.(uncommitted_downloads)).
Proof.
  intros c env sh c'.
  assert (W : cache_wf c)
    by apply (reachable_inv policy_vulkan), cache_storage_bound_reachable.
  assert (Hl : live c 1 sh) by (split; vm_compute; reflexivity).
  assert (Hin : in_address_space 69632 16) by (unfold in_address_space, ADDRESS_SPACE; lia).
  assert (Hsize : 0 < 16) by lia.
  assert (Hlo : Shape.addr sh <= 69632) by (simpl; lia).
  assert (Hhi : 69632 + 16 <= Shape.addr sh + Shape.size sh) by (simpl; lia).
  assert (Hfuel : last_page_of 69632 16 - first_page_of 69632 <= Z.of_nat 8)
    by (vm_compute; discriminate).
  assert (Hrun : MarkWrittenBuffer env 1 69632 16 c = Ok c') by (vm_compute; reflexivity).
  do 7 (split; [assumption|]). split; [exact Hrun|].
  exact (MarkWrittenBuffer_marks_region env 8 1 69632 16 c c' sh W Hl Hin Hsize Hlo Hhi
           Hfuel Hrun).
Defined.

(** ** Looking a buffer up twice *)

(** X14: [FindBuffer] is stable.  On a cache with a sound layout, when a
    lookup of a non-empty range returned a buffer that holds the range (as
    every buffer found does, and every buffer created whose extent was not
    cut to 32 bits), the same lookup on the resulting cache returns the same
    buffer and leaves that cache unchanged, whatever the fuel. *)
Theorem FindBuffer_stable (P : Policy) (fuel fuel' : nat) (cpu_addr size : Z)
    (c c' : BufferCache) (buffer_id : BufferId) (buffer : Buffer.t) :
  cache_wf c -> is_u32 size -> 0 < size ->
  FindBuffer P fuel cpu_addr size c = Ok (buffer_id, c') ->
  slot_at c' buffer_id = Ok buffer ->
  Buffer.IsInBounds buffer cpu_addr size = true ->
  FindBuffer P fuel' cpu_addr size c' = Ok (buffer_id, c').
Proof.
  intros W Hz Hsize H Hb Hin.
  destruct (FindBuffer_cases _ _ _ _ _ _ _ W Hz H) as [(-> & -> & ->)|(Hne & Hcase)];
    [reflexivity|].
  assert (Hrange : page_in_range (Z.shiftr cpu_addr PAGE_BITS) = true).
  { unfold FindBuffer in H. cbv zeta in H. destruct (Z.eqb_spec cpu_addr 0); [done|].
    apply bind_Ok in H as (r & Hr & _). by apply page_table_at_Ok in Hr as (? & _). }
  assert (Hfound : page_of c' (Z.shiftr cpu_addr PAGE_BITS) = buffer_id /\
                   buffer_id <> UNSET_BUFFER_ID).
  { destruct Hcase as [(-> & Hset & -> & _)|(_ & Hc & _)]; [done|].
    assert (Ha : 0 <= cpu_addr < 2 ^ 39).
    { apply page_in_range_iff in Hrange. rewrite shiftr_PAGE_BITS in Hrange.
      pose proof (page_lt 8388608 cpu_addr). pose proof (page_le 0 cpu_addr). lia. }
    destruct (CreateBuffer_spec _ _ _ _ _ _ _ W Ha Hc) as (s & cs & _ & _ & _ & _ & Hl & W').
    split; [|by apply (live_not_unset _ _ _ _ _ W' Hl)].
    apply (wf_pages _ _ _ W' _ _ Hl); [done|].
    destruct (slot_at_shape _ _ _ Hb) as (sh & Hsh & Ea & Es & _).
    assert (sh = Shape.mk (Scan.begin s) (u32 (Scan.end_ s - Scan.begin s)) false false)
      as Esh by (destruct Hl as [Hl _]; congruence).
    destruct (wf_extent _ _ _ W' _ _ Hl) as (Hext & Hext').
    apply covers_iff; [done | done |].
    unfold Buffer.IsInBounds in Hin. apply andb_true_iff in Hin as (H1 & H2).
    apply Z.leb_le in H1, H2. rewrite <- Ea in H1, H2. rewrite <- Es in H2.
    subst sh. simpl in H1, H2 |- *.
    rewrite shiftr_PAGE_BITS.
    pose proof (page_lt (cpu_addr / 65536 + 1) cpu_addr).
    pose proof (page_le (cpu_addr / 65536) cpu_addr). lia. }
  destruct Hfound as (Hpage & Hset).
  unfold FindBuffer. cbv zeta. rewrite (u32_id size Hz).
  destruct (Z.eqb_spec cpu_addr 0); [done|].
  assert (Hpt : page_table_at c' (Z.shiftr cpu_addr PAGE_BITS) = Ok buffer_id)
    by (by apply page_table_at_Ok).
  rewrite Hpt. simpl.
  destruct (id_bool buffer_id) eqn:Hid; [|by apply id_bool_false in Hid].
  simpl. rewrite Hb. simpl. by rewrite Hin.
Qed.

Lemma FindBuffer_stable_witness :
  let c := cache_storage_bound in
  let c' := match FindBuffer policy_vulkan 8 60000 6000 c with Ok (_, c') => c' | _ => c end in
  let buffer := buffer_of c' 2 in
  cache_wf c /\ is_u32 6000 /\ 0 < 6000 /\
  FindBuffer policy_vulkan 8 60000 6000 c = Ok (2, c') /\
  slot_at c' 2 = Ok buffer /\
  Buffer.IsInBounds buffer 60000 6000 = true /\
  FindBuffer policy_vulkan 0 60000 6000 c' = Ok (2, c').
Proof.
  intros c c' buffer.
  assert (W : cache_wf c)
    by apply (reachable_inv policy_vulkan), cache_storage_bound_reachable.
  assert (Hz : is_u32 6000) by (unfold is_u32; lia).
  assert (Hsize : 0 < 6000) by lia.
  assert (Hrun : FindBuffer policy_vulkan 8 60000 6000 c = Ok (2, c'))
    by (vm_compute; reflexivity).
  assert (Hb : slot_at c' 2 = Ok buffer) by (vm_compute; reflexivity).
  assert (Hin : Buffer.IsInBounds buffer 60000 6000 = true) by (vm_compute; reflexivity).
  do 3 (split; [assumption|]). split; [exact Hrun|]. split; [exact Hb|]. split; [exact Hin|].
  exact (FindBuffer_stable policy_vulkan 8 0 60000 6000 c c' 2 buffer W Hz Hsize Hrun Hb Hin).
Defined.

(** ** Steps that leave the bindings alone *)

Lemma quiet_refl c : quiet c c.
Proof. by split. Qed.

Lemma quiet_trans c1 c2 c3 : quiet c1 c2 -> quiet c2 c3 -> quiet c1 c3.
Proof. intros [] []. split; congruence. Qed.

Ltac quiet_fields := split; reflexivity.

Lemma quiet_bindings c c' : quiet c c' -> bindings c' = bindings c.
Proof. intros []. by apply bindings_fields. Qed.

Lemma slot_update_quiet id f c c' : slot_update id f c = Ok c' -> quiet c c'.
Proof. intros H. apply slot_update_Ok in H as (_ & s & _ & ->). quiet_fields. Qed.

Lemma log_quiet e c : quiet c (log e c).
Proof. quiet_fields. Qed.

Lemma ImmediateBuffer_quiet n c : quiet c (ImmediateBuffer n c).
Proof. unfold ImmediateBuffer. destruct (_ <? _); [quiet_fields | apply quiet_refl]. Qed.

Lemma for_each_quiet {A} (body : A -> BufferCache -> Res BufferCache) (l : list A) :
  (forall x c c', body x c = Ok c' -> quiet c c') ->
  forall c c', for_each body l c = Ok c' -> quiet c c'.
Proof.
  intros Hbody c c' H.
  eapply (for_each_Ok_ind body (quiet c)); [| apply quiet_refl | exact H].
  intros x s s' _ Hs Hx. eapply quiet_trans; [exact Hs|]. eapply Hbody, Hx.
Qed.

Lemma fold_left_quiet {A} (step : BufferCache -> A -> BufferCache) (l : list A) :
  (forall c x, quiet c (step c x)) -> forall c, quiet c (fold_left step l c).
Proof.
  intros Hstep. induction l as [|x l IH]; intros c; simpl; [apply quiet_refl|].
  eapply quiet_trans; [apply Hstep | apply IH].
Qed.

Lemma TickFrame_quiet c : quiet c (TickFrame c).
Proof. quiet_fields. Qed.

Lemma ChangeRegister_quiet insert id c c' : ChangeRegister insert id c = Ok c' -> quiet c c'.
Proof.
  intros H. destruct (ChangeRegister_Ok _ _ _ _ H) as (sh & _ & -> & _). quiet_fields.
Qed.

Lemma ReplaceBufferDownloads_quiet old new c : quiet c (ReplaceBufferDownloads old new c).
Proof. quiet_fields. Qed.

Lemma ForEachBufferInRange_loop_quiet fuel func :
  (forall id c c', func id c = Ok c' -> quiet c c') ->
  forall page page_end c c',
    ForEachBufferInRange_loop fuel func page page_end c = Ok c' -> quiet c c'.
Proof.
  intros Hfunc. induction fuel as [|fuel IH]; intros page page_end c c' H; simpl in H;
    destruct (page <? page_end); try discriminate; try (injection H as <-; apply quiet_refl).
  apply bind_Ok in H as (id & _ & H). destruct (negb (id_bool id)); [eapply IH, H|].
  apply bind_Ok in H as (_ & _ & H). apply bind_Ok in H as (c1 & Hc1 & H).
  apply bind_Ok in H as (b & _ & H).
  eapply quiet_trans; [eapply Hfunc, Hc1 | eapply IH, H].
Qed.

Lemma WriteMemory_quiet fuel cpu_addr size c c' :
  WriteMemory fuel cpu_addr size c = Ok c' -> quiet c c'.
Proof.
  apply ForEachBufferInRange_loop_quiet. intros id c0 c0'. apply slot_update_quiet.
Qed.

Lemma DownloadMemory_quiet P env fuel cpu_addr size c c' :
  DownloadMemory P env fuel cpu_addr size c = Ok c' -> quiet c c'.
Proof.
  apply ForEachBufferInRange_loop_quiet. intros id c0 c0' H.
  apply bind_Ok in H as (b & Hb & H).
  destruct (Buffer.ForEachDownloadRange cpu_addr size b) as [ranges b'].
  apply bind_Ok in H as (c1 & Hc1 & H).
  eapply quiet_trans; [eapply slot_update_quiet, Hc1|].
  destruct (fold_left push_copy ranges ([], 0, 0)) as [[copies total] largest].
  destruct (total =? 0); [injection H as <-; apply quiet_refl|].
  destruct (USE_MEMORY_MAPS P); injection H as <-.
  - eapply quiet_trans; [|apply fold_left_quiet; intros; apply log_quiet].
    eapply quiet_trans; [|apply log_quiet].
    eapply quiet_trans; apply log_quiet.
  - eapply quiet_trans; [apply ImmediateBuffer_quiet|].
    apply fold_left_quiet. intros.
    eapply quiet_trans; apply log_quiet.
Qed.

Lemma ImmediateUploadMemory_loop_quiet env id buffer largest copies : forall ib c,
  quiet c (ImmediateUploadMemory_loop env id buffer largest copies ib c).
Proof.
  induction copies as [|copy copies IH]; intros ib c; simpl; [apply quiet_refl|].
  destruct (IsRangeGranular _ _ _).
  - eapply quiet_trans; [|apply IH].
    eapply quiet_trans; apply log_quiet.
  - destruct (ib =? 0); (eapply quiet_trans; [|apply IH]).
    + eapply quiet_trans; [|apply log_quiet].
      eapply quiet_trans; [|apply log_quiet]. apply ImmediateBuffer_quiet.
    + eapply quiet_trans; apply log_quiet.
Qed.

Lemma UploadMemory_quiet P env id buffer total largest copies c :
  quiet c (UploadMemory P env id buffer total largest copies c).
Proof.
  unfold UploadMemory. destruct (USE_MEMORY_MAPS P).
  - unfold MappedUploadMemory. cbv zeta.
    eapply quiet_trans; [|apply log_quiet].
    eapply quiet_trans; [apply log_quiet|].
    apply fold_left_quiet. intros. apply log_quiet.
  - apply ImmediateUploadMemory_loop_quiet.
Qed.

Lemma SynchronizeBuffer_quiet P env id cpu_addr size c r c' :
  SynchronizeBuffer P env id cpu_addr size c = Ok (r, c') -> quiet c c'.
Proof.
  unfold SynchronizeBuffer, SynchronizeBufferImpl. intros H.
  apply bind_Ok in H as (b & Hb & H).
  destruct (Buffer.CpuAddr b =? 0); [injection H as _ <-; apply quiet_refl|].
  apply bind_Ok in H as (b0 & Hb0 & H).
  destruct (Buffer.ForEachUploadRange cpu_addr size b0) as [ranges b'].
  apply bind_Ok in H as (c1 & Hc1 & H).
  eapply quiet_trans; [eapply slot_update_quiet, Hc1|].
  destruct (fold_left _ ranges _) as [[copies total] largest].
  destruct (total =? 0); injection H as _ <-; [apply quiet_refl|].
  apply UploadMemory_quiet.
Qed.

Lemma ImmediateBufferWithData_quiet env cpu_addr size c :
  quiet c (ImmediateBufferWithData env cpu_addr size c).
Proof.
  unfold ImmediateBufferWithData. destruct (IsRangeGranular _ _ _); [apply log_quiet|].
  destruct (pointers_contiguous _ _ _).
  - eapply quiet_trans; apply log_quiet.
  - eapply quiet_trans; [|apply log_quiet].
    eapply quiet_trans; [|apply ImmediateBuffer_quiet].
    eapply quiet_trans; apply log_quiet.
Qed.

Lemma fast_uniform_path_quiet P env stage binding_index binding c c' :
  fast_uniform_path P env stage binding_index binding c = Ok c' -> quiet c c'.
Proof.
  unfold fast_uniform_path. intros H. destruct (_ && _).
  - apply bind_Ok in H as (bound & _ & H). injection H as <-.
    eapply quiet_trans; [|apply log_quiet].
    eapply quiet_trans; [|apply ImmediateBufferWithData_quiet].
    destruct (negb bound); [apply log_quiet | apply quiet_refl].
  - res_inv H. subst.
    eapply quiet_trans; [|apply log_quiet].
    eapply quiet_trans; [|apply log_quiet]. quiet_fields.
Qed.

Lemma classic_uniform_path_quiet P env stage binding_index needs_bind binding c c' :
  classic_uniform_path P env stage binding_index needs_bind binding c = Ok c' ->
  quiet c c'.
Proof.
  unfold classic_uniform_path. intros H.
  apply bind_Ok in H as ([sync c1] & Hsync & H).
  apply SynchronizeBuffer_quiet in Hsync.
  eapply quiet_trans; [exact Hsync|].
  apply bind_Ok in H as (c2 & Hc2 & H).
  assert (H12 : quiet c1 c2).
  { destruct sync; res_inv Hc2; subst; [quiet_fields | apply quiet_refl]. }
  eapply quiet_trans; [exact H12|].
  apply bind_Ok in H as (shots & _ & H). apply bind_Ok in H as (bound & _ & H).
  destruct (negb needs_bind && negb bound).
  - injection H as <-. quiet_fields.
  - res_inv H. destruct (NEEDS_BIND_UNIFORM_INDEX P); injection H as <-;
      (eapply quiet_trans; [|apply log_quiet]); quiet_fields.
Qed.

Lemma BindHostGraphicsUniformBuffer_quiet P env stage index binding_index needs_bind
    c c' :
  BindHostGraphicsUniformBuffer P env stage index binding_index needs_bind c = Ok c' ->
  quiet c c'.
Proof.
  unfold BindHostGraphicsUniformBuffer. intros H.
  apply bind_Ok in H as (binding & _ & H). apply bind_Ok in H as (buffer & _ & H).
  destruct (use_fast_buffer c binding buffer).
  - eapply fast_uniform_path_quiet, H.
  - eapply classic_uniform_path_quiet, H.
Qed.

Lemma with_binding_index_quiet advance body indices :
  (forall index binding_index c c', body index binding_index c = Ok c' -> quiet c c') ->
  forall s s', for_each (with_binding_index advance body) indices s = Ok s' ->
               quiet (snd s) (snd s').
Proof.
  intros Hbody s s' H.
  eapply (for_each_Ok_ind _ (fun t => quiet (snd s) (snd t)));
    [| apply quiet_refl | exact H].
  intros index t t' _ Ht Hstep. unfold with_binding_index in Hstep.
  apply bind_Ok in Hstep as (c1 & Hc1 & Hstep). injection Hstep as <-. simpl.
  eapply quiet_trans; [exact Ht | eapply Hbody, Hc1].
Qed.

Lemma ForEachEnabledBit_indexed_quiet advance body mask s s' :
  (forall index binding_index c c', body index binding_index c = Ok c' -> quiet c c') ->
  ForEachEnabledBit mask (with_binding_index advance body) s = Ok s' ->
  quiet (snd s) (snd s').
Proof. intros Hbody. apply with_binding_index_quiet, Hbody. Qed.

Lemma ForEachEnabledBit_quiet body mask c c' :
  (forall index c c', body index c = Ok c' -> quiet c c') ->
  ForEachEnabledBit mask body c = Ok c' -> quiet c c'.
Proof. intros Hbody. apply for_each_quiet, Hbody. Qed.

Lemma BindHostIndexBuffer_quiet P env c c' :
  BindHostIndexBuffer P env c = Ok c' -> quiet c c'.
Proof.
  unfold BindHostIndexBuffer. intros H. apply bind_Ok in H as (b & _ & H).
  apply bind_Ok in H as ([r c1] & Hsync & H). apply SynchronizeBuffer_quiet in Hsync.
  eapply quiet_trans; [exact Hsync|].
  destruct (HAS_FULL_INDEX_AND_PRIMITIVE_SUPPORT P); injection H as <-; apply log_quiet.
Qed.

Lemma BindHostVertexBuffers_quiet P env c c' :
  BindHostVertexBuffers P env c = Ok c' -> quiet c c'.
Proof.
  apply for_each_quiet. intros index c0 c0' H.
  apply bind_Ok in H as (binding & _ & H). apply bind_Ok in H as (b & _ & H).
  apply bind_Ok in H as ([r c1] & Hsync & H). apply SynchronizeBuffer_quiet in Hsync.
  eapply quiet_trans; [exact Hsync|].
  apply bind_Ok in H as (dirty & _ & H).
  destruct (negb dirty); [injection H as <-; apply quiet_refl|].
  res_inv H. subst. eapply quiet_trans; [|apply log_quiet]. quiet_fields.
Qed.

Lemma BindHostGraphicsUniformBuffers_quiet P env stage c c' :
  BindHostGraphicsUniformBuffers P env stage c = Ok c' -> quiet c c'.
Proof.
  unfold BindHostGraphicsUniformBuffers. intros H.
  apply bind_Ok in H as ([dirty c1] & Hd & H).
  assert (H1 : quiet c c1).
  { destruct (HAS_PERSISTENT_UNIFORM_BUFFER_BINDINGS P); res_inv Hd; subst;
      [quiet_fields | apply quiet_refl]. }
  apply bind_Ok in H as (enabled & _ & H). apply fmap_Ok in H as ([bi c2] & H & ->).
  eapply quiet_trans; [exact H1|].
  apply ForEachEnabledBit_indexed_quiet in H; [exact H|].
  intros index binding_index c0 c0'. apply BindHostGraphicsUniformBuffer_quiet.
Qed.

Lemma BindHostGraphicsStorageBuffers_quiet P env stage c c' :
  BindHostGraphicsStorageBuffers P env stage c = Ok c' -> quiet c c'.
Proof.
  unfold BindHostGraphicsStorageBuffers. intros H.
  apply bind_Ok in H as (enabled & _ & H). apply fmap_Ok in H as ([bi c2] & H & ->).
  apply ForEachEnabledBit_indexed_quiet in H; [exact H|].
  intros index binding_index c0 c0' H0.
  apply bind_Ok in H0 as (binding & _ & H0). apply bind_Ok in H0 as (b & _ & H0).
  apply bind_Ok in H0 as ([r c1] & Hsync & H0). apply SynchronizeBuffer_quiet in Hsync.
  eapply quiet_trans; [exact Hsync|]. apply bind_Ok in H0 as (written & _ & H0).
  destruct (NEEDS_BIND_STORAGE_INDEX P); injection H0 as <-; apply log_quiet.
Qed.

Lemma BindHostTransformFeedbackBuffers_quiet P env c c' :
  BindHostTransformFeedbackBuffers P env c = Ok c' -> quiet c c'.
Proof.
  unfold BindHostTransformFeedbackBuffers. intros H.
  destruct (tfb_enabled env =? 0); [injection H as <-; apply quiet_refl|].
  revert c c' H. apply for_each_quiet. intros index c0 c0' H.
  apply bind_Ok in H as (binding & _ & H). apply bind_Ok in H as (b & _ & H).
  apply bind_Ok in H as ([r c1] & Hsync & H). apply SynchronizeBuffer_quiet in Hsync.
  eapply quiet_trans; [exact Hsync|]. injection H as <-. apply log_quiet.
Qed.

Lemma BindHostComputeUniformBuffers_quiet P env c c' :
  BindHostComputeUniformBuffers P env c = Ok c' -> quiet c c'.
Proof.
  unfold BindHostComputeUniformBuffers. intros H. apply fmap_Ok in H as ([bi c2] & H & ->).
  apply ForEachEnabledBit_indexed_quiet in H.
  - eapply quiet_trans; [|exact H]. simpl.
    destruct (HAS_PERSISTENT_UNIFORM_BUFFER_BINDINGS P); [quiet_fields | apply quiet_refl].
  - intros index binding_index c0 c0' H0.
    apply bind_Ok in H0 as (binding & _ & H0). apply bind_Ok in H0 as (b & _ & H0).
    apply bind_Ok in H0 as ([r c1] & Hsync & H0). apply SynchronizeBuffer_quiet in Hsync.
    eapply quiet_trans; [exact Hsync|].
    destruct (NEEDS_BIND_UNIFORM_INDEX P); injection H0 as <-; apply log_quiet.
Qed.

Lemma BindHostComputeStorageBuffers_quiet P env c c' :
  BindHostComputeStorageBuffers P env c = Ok c' -> quiet c c'.
Proof.
  unfold BindHostComputeStorageBuffers. intros H. apply fmap_Ok in H as ([bi c2] & H & ->).
  apply ForEachEnabledBit_indexed_quiet in H; [exact H|].
  intros index binding_index c0 c0' H0.
  apply bind_Ok in H0 as (binding & _ & H0). apply bind_Ok in H0 as (b & _ & H0).
  apply bind_Ok in H0 as ([r c1] & Hsync & H0). apply SynchronizeBuffer_quiet in Hsync.
  eapply quiet_trans; [exact Hsync|].
  destruct (NEEDS_BIND_STORAGE_INDEX P); injection H0 as <-; apply log_quiet.
Qed.

Lemma BindHostGeometryBuffers_quiet P env is_indexed c c' :
  BindHostGeometryBuffers P env is_indexed c = Ok c' -> quiet c c'.
Proof.
  unfold BindHostGeometryBuffers. intros H. apply bind_Ok in H as (c1 & Hc1 & H).
  apply bind_Ok in H as (c2 & Hc2 & H).
  eapply quiet_trans; [|eapply quiet_trans;
    [eapply BindHostVertexBuffers_quiet, Hc2
    |eapply BindHostTransformFeedbackBuffers_quiet, H]].
  destruct is_indexed; [eapply BindHostIndexBuffer_quiet, Hc1|].
  destruct (_ && _); injection Hc1 as <-; [apply log_quiet | apply quiet_refl].
Qed.

Lemma BindHostStageBuffers_quiet P env stage c c' :
  BindHostStageBuffers P env stage c = Ok c' -> quiet c c'.
Proof.
  unfold BindHostStageBuffers. intros H. apply bind_Ok in H as (c1 & Hc1 & H).
  eapply quiet_trans; [eapply BindHostGraphicsUniformBuffers_quiet, Hc1|].
  eapply BindHostGraphicsStorageBuffers_quiet, H.
Qed.

Lemma BindHostComputeBuffers_quiet P env c c' :
  BindHostComputeBuffers P env c = Ok c' -> quiet c c'.
Proof.
  unfold BindHostComputeBuffers. intros H. apply bind_Ok in H as (c1 & Hc1 & H).
  eapply quiet_trans; [eapply BindHostComputeUniformBuffers_quiet, Hc1|].
  eapply BindHostComputeStorageBuffers_quiet, H.
Qed.

Lemma gather_downloads_quiet ids : forall acc c r c',
  gather_downloads ids acc c = Ok (r, c') -> quiet c c'.
Proof.
  induction ids as [|id ids IH]; intros acc c r c' H; simpl in H.
  - injection H as _ <-. apply quiet_refl.
  - apply bind_Ok in H as (b & Hb & H). apply bind_Ok in H as (c1 & Hc1 & H).
    eapply quiet_trans; [|eapply IH, H].
    eapply slot_update_quiet, Hc1.
Qed.


(** ** No binding refers to a buffer that is gone *)

Lemma keeps_live_refl c : keeps_live c c.
Proof. intros id sh H. eauto. Qed.

Lemma keeps_live_trans c1 c2 c3 : keeps_live c1 c2 -> keeps_live c2 c3 -> keeps_live c1 c3.
Proof. intros H1 H2 id sh H. destruct (H1 _ _ H) as (sh' & H'). eauto. Qed.

Lemma same_layout_keeps_live c c' : same_layout c c' -> keeps_live c c'.
Proof. intros Hs id sh H. exists sh. by apply (live_same_layout c c'). Qed.

Lemma binding_sound_keeps_live c c' binding :
  keeps_live c c' -> binding_sound c binding -> binding_sound c' binding.
Proof. intros Hk [Hu|(sh & Hl)]; [by left|]. right. eapply Hk, Hl. Qed.

Lemma refs_ok_step c c' :
  keeps_live c c' ->
  (forall binding, binding ∈ bindings c' -> binding ∈ bindings c \/ binding_sound c' binding) ->
  (forall id, id ∈ c'.(cached_write_buffer_ids) ->
     id ∈ c.(cached_write_buffer_ids) \/ exists sh, live c' id sh) ->
  refs_ok c -> refs_ok c'.
Proof.
  intros Hk Hb Hw [B C]. split.
  - apply Forall_forall. intros b Hin. destruct (Hb b Hin) as [Hold|Hnew]; [|done].
    unfold bindings_ok in B. rewrite Forall_forall in B.
    eapply binding_sound_keeps_live; [exact Hk | by apply B].
  - apply Forall_forall. intros id Hin. destruct (Hw id Hin) as [Hold|Hnew]; [|done].
    unfold cached_writes_ok in C. rewrite Forall_forall in C.
    destruct (C id Hold) as (sh & Hl). eapply Hk, Hl.
Qed.

Lemma refs_ok_quiet c c' : keeps_live c c' -> quiet c c' -> refs_ok c -> refs_ok c'.
Proof.
  intros Hk Hq. apply refs_ok_step; [exact Hk | |].
  - intros b Hb. left. by rewrite <- (quiet_bindings _ _ Hq).
  - intros id Hid. left. by rewrite <- (q_cached_write_buffer_ids _ _ Hq).
Qed.

Lemma refs_ok_same c c' : same_layout c c' -> quiet c c' -> refs_ok c -> refs_ok c'.
Proof. intros Hs. by apply refs_ok_quiet, same_layout_keeps_live. Qed.

Lemma cache_sound_same c c' : same_core c c' -> quiet c c' -> cache_sound c -> cache_sound c'.
Proof.
  intros Hs Hq [I R]. split; [by apply (cache_inv_same_core c) |].
  eapply refs_ok_same; [apply Hs | exact Hq | exact R].
Qed.

(** Writing one binding into a table. *)
Lemma store_elem {A} (arr arr' : list A) (i : Z) (x y : A) :
  store arr i x = Ok arr' -> y ∈ arr' -> y = x \/ y ∈ arr.
Proof.
  intros H Hy. apply store_Ok in H as (Hi & ->).
  apply list_elem_of_lookup in Hy as (k & Hk).
  destruct (decide (k = Z.to_nat i)) as [->|Hne].
  - left. rewrite list_lookup_insert_eq in Hk by lia. by injection Hk.
  - right. rewrite list_lookup_insert_ne in Hk by done. by eapply list_elem_of_lookup_2.
Qed.

Lemma elem_of_concat {A} (y : A) (ls : list (list A)) :
  y ∈ concat ls <-> exists l, y ∈ l /\ l ∈ ls.
Proof.
  rewrite list_elem_of_In, in_concat. split; intros (l & H1 & H2); exists l;
    rewrite ?list_elem_of_In in *; done.
Qed.

Lemma store2_elem {A} (arr arr' : list (list A)) (i j : Z) (x y : A) :
  store2 arr i j x = Ok arr' -> y ∈ concat arr' -> y = x \/ y ∈ concat arr.
Proof.
  unfold store2. intros H Hy. apply bind_Ok in H as (row & Hrow & H).
  apply bind_Ok in H as (row' & Hrow' & H).
  apply elem_of_concat in Hy as (r & Hy & Hr).
  destruct (store_elem _ _ _ _ _ H Hr) as [->|Hr'].
  - destruct (store_elem _ _ _ _ _ Hrow' Hy) as [->|Hy']; [by left|]. right.
    apply elem_of_concat. exists row. split; [done|].
    apply load_Ok in Hrow as (_ & Hrow). by eapply list_elem_of_lookup_2.
  - right. apply elem_of_concat. eauto.
Qed.

Lemma bindings_elem c binding :
  binding ∈ bindings c <->
  binding = c.(index_buffer) \/ binding ∈ c.(vertex_buffers) \/
  binding ∈ concat c.(uniform_buffers) \/ binding ∈ concat c.(storage_buffers) \/
  binding ∈ c.(transform_feedback_buffers) \/ binding ∈ c.(compute_uniform_buffers) \/
  binding ∈ c.(compute_storage_buffers).
Proof. unfold bindings. rewrite elem_of_cons, !elem_of_app. tauto. Qed.

Lemma refs_ok_write c c' x :
  same_layout c c' -> c'.(cached_write_buffer_ids) = c.(cached_write_buffer_ids) ->
  binding_sound c x ->
  (forall y, y ∈ bindings c' -> y = x \/ y ∈ bindings c) ->
  refs_ok c -> refs_ok c'.
Proof.
  intros Hs Hw Hx Hb. apply refs_ok_step.
  - by apply same_layout_keeps_live.
  - intros b Hin. destruct (Hb b Hin) as [->|?]; [|by left]. right.
    eapply binding_sound_keeps_live; [by apply same_layout_keeps_live | exact Hx].
  - intros id Hid. left. by rewrite <- Hw.
Qed.

Lemma null_binding_sound c : cache_wf c -> binding_sound c NULL_BINDING.
Proof. intros W. right. eexists. split; [apply (wf_null _ _ _ W) | done]. Qed.

Lemma unset_binding_sound c cpu_addr size :
  binding_sound c (Binding.mk cpu_addr size UNSET_BUFFER_ID).
Proof. by left. Qed.

Lemma StorageBufferBinding_sound env c ssbo_addr :
  cache_wf c -> binding_sound c (StorageBufferBinding env ssbo_addr).
Proof.
  intros W. unfold StorageBufferBinding. destruct (GpuToCpuAddress env _);
    [|by apply null_binding_sound].
  destruct (_ =? 0); [by apply null_binding_sound | by left].
Qed.

(** Deleting a buffer unsets the bindings that referred to it. *)
Lemma JoinOverlap_fields P new_id id acc c c' :
  JoinOverlap P new_id id acc c = Ok c' ->
  bindings c' = scalar_replace id <$> bindings c /\
  c'.(cached_write_buffer_ids) = erase_remove id c.(cached_write_buffer_ids) /\
  c'.(has_deleted_buffers) = true.
Proof.
  unfold JoinOverlap. intros H.
  apply bind_Ok in H as (nb & Hnb & H). apply bind_Ok in H as (ov & Hov & H).
  apply bind_Ok in H as (c1 & Hc1 & H).
  assert (Q1 : quiet c c1).
  { destruct acc; [eapply slot_update_quiet, Hc1 | injection Hc1 as <-; apply quiet_refl]. }
  destruct (Buffer.ForEachDownloadRangeAll ov) as [ranges ov'].
  apply bind_Ok in H as (c2 & Hc2 & H). apply bind_Ok in H as (c3 & Hc3 & H).
  apply slot_update_quiet in Hc2, Hc3.
  apply DeleteBuffer_fields in H as (Hb & Hw & Hd & _).
  assert (Q : quiet c (ReplaceBufferDownloads id new_id
                         match map (join_copy (u64 (Buffer.CpuAddr ov - Buffer.CpuAddr nb)))
                                   ranges with
                         | [] => c3
                         | _ :: _ =>
                             log (Call.CopyBuffer (CachedBuffer new_id) (CachedBuffer id)
                                    (map (join_copy (u64 (Buffer.CpuAddr ov - Buffer.CpuAddr nb)))
                                         ranges)) c3
                         end)).
  { eapply quiet_trans; [exact Q1|]. eapply quiet_trans; [exact Hc2|].
    eapply quiet_trans; [exact Hc3|]. eapply quiet_trans; [|apply ReplaceBufferDownloads_quiet].
    destruct (map _ ranges); [apply quiet_refl | apply log_quiet]. }
  rewrite Hb, Hw, (quiet_bindings _ _ Q), (q_cached_write_buffer_ids _ _ Q). done.
Qed.

Lemma deleted_layout_live id c c' id' sh :
  deleted_layout id c c' -> id' <> id -> live c id' sh -> live c' id' sh.
Proof.
  intros (sh0 & _ & _ & Hother & _) Hne [Hs Hm]. split; [|done]. by rewrite Hother.
Qed.

Lemma deleted_refs id c c' :
  id <> UNSET_BUFFER_ID -> deleted_layout id c c' ->
  bindings c' = scalar_replace id <$> bindings c ->
  c'.(cached_write_buffer_ids) = erase_remove id c.(cached_write_buffer_ids) ->
  refs_ok c -> refs_ok c'.
Proof.
  intros Hid Hd Hb Hw [B C]. split.
  - unfold bindings_ok. rewrite Hb. apply Forall_fmap. unfold bindings_ok in B.
    eapply Forall_impl; [exact B|]. intros b Hs. simpl. unfold scalar_replace.
    destruct (Z.eqb_spec (Binding.buffer_id b) id) as [E|Hne]; [by left|].
    destruct Hs as [Hu|(sh & Hl)]; [by left|]. right. exists sh.
    by apply (deleted_layout_live id c c').
  - unfold cached_writes_ok. rewrite Hw. apply Forall_forall. intros i Hi.
    apply erase_remove_elem in Hi as (Hi & Hne).
    unfold cached_writes_ok in C. rewrite Forall_forall in C.
    destruct (C i Hi) as (sh & Hl). exists sh. by apply (deleted_layout_live id c c').
Qed.

Lemma JoinOverlap_refs P new_id id acc c c' :
  Z.of_nat (length c.(slot_buffers)) <= INVALID_INDEX ->
  JoinOverlap P new_id id acc c = Ok c' -> refs_ok c -> refs_ok c'.
Proof.
  intros Hlen H. destruct (JoinOverlap_fields _ _ _ _ _ _ H) as (Hb & Hw & _).
  pose proof (JoinOverlap_layout _ _ _ _ _ _ H) as Hd.
  apply deleted_refs with id; try done.
  destruct Hd as (sh & Hsh & _). apply shape_at_Some in Hsh as (Hr & _).
  unfold UNSET_BUFFER_ID. lia.
Qed.

Lemma picked_only_keeps_live c c' : picked_only c c' -> keeps_live c c'.
Proof.
  intros [_ F] id sh [Hs Hm]. apply shape_at_Some in Hs as (Hid & s & Hs & ->).
  destruct (Forall2_lookup_l _ _ _ _ _ F Hs) as (s' & Hs' & Hrel).
  exists (shape_of s'). split.
  - unfold shape_at. destruct (Z.leb_spec 0 id); [|lia]. by rewrite Hs'.
  - destruct Hrel as [->| ->]; done.
Qed.

Lemma picked_only_quiet c c' : picked_only c c' -> quiet c c'.
Proof. intros [-> _]. quiet_fields. Qed.

Lemma slot_insert_keeps_live b c id c' : slot_insert b c = Ok (id, c') -> keeps_live c c'.
Proof.
  intros H id' sh [Hs Hm]. destruct (slot_insert_shape_at _ _ _ _ H) as (_ & Hold & Hnone & _).
  exists sh. split; [|done]. rewrite Hold; [done|]. intros ->. congruence.
Qed.

Lemma slot_insert_quiet b c id c' : slot_insert b c = Ok (id, c') -> quiet c c'.
Proof. intros H. apply slot_insert_Ok in H as (_ & _ & ->). quiet_fields. Qed.

Lemma deleted_layout_length id c c' :
  deleted_layout id c c' -> length c'.(slot_buffers) = length c.(slot_buffers).
Proof. by intros (sh & _ & _ & _ & Hlen & _). Qed.

Lemma CreateBuffer_refs P fuel cpu_addr wanted c id c' :
  Z.of_nat (length c.(slot_buffers)) <= INVALID_INDEX ->
  CreateBuffer P fuel cpu_addr wanted c = Ok (id, c') -> refs_ok c -> refs_ok c'.
Proof.
  unfold CreateBuffer, ResolveOverlaps. cbv zeta. intros Hlen H R.
  apply bind_Ok in H as ([r cs] & Hr & H).
  apply bind_Ok in Hr as ([s cs'] & Hloop & Hr). injection Hr as <- <-.
  apply ResolveOverlaps_loop_picked_only in Hloop.
  apply bind_Ok in H as ([n c1] & Hins & H).
  apply bind_Ok in H as (c2 & Hjoin & H). apply bind_Ok in H as (c3 & Hreg & H).
  injection H as <- <-.
  assert (R0 : refs_ok cs').
  { eapply refs_ok_quiet; [by apply picked_only_keeps_live | by apply picked_only_quiet | done]. }
  assert (R1 : refs_ok c1).
  { eapply refs_ok_quiet; [eapply slot_insert_keeps_live, Hins
                          | eapply slot_insert_quiet, Hins | done]. }
  assert (L1 : Z.of_nat (length c1.(slot_buffers)) <= INVALID_INDEX).
  { apply slot_insert_Ok in Hins as (Hn & Hlt & ->). simpl. rewrite length_app. simpl. lia. }
  assert (R2 : refs_ok c2 /\ Z.of_nat (length c2.(slot_buffers)) <= INVALID_INDEX).
  { eapply (for_each_Ok_ind _ (fun c0 => refs_ok c0 /\
              Z.of_nat (length c0.(slot_buffers)) <= INVALID_INDEX)); [| |exact Hjoin].
    - intros x t t' _ [Rt Lt] Hx. simpl in Hx. split.
      + eapply JoinOverlap_refs; eauto.
      + rewrite (deleted_layout_length _ _ _ (JoinOverlap_layout _ _ _ _ _ _ Hx)). done.
    - done. }
  destruct R2 as [R2 _]. unfold Register in Hreg.
  pose proof (ChangeRegister_quiet _ _ _ _ Hreg) as Q3.
  destruct (ChangeRegister_Ok _ _ _ _ Hreg) as (sh & _ & E3 & _).
  eapply refs_ok_quiet; [|exact Q3|exact R2].
  intros i shi [Hs Hm]. exists shi. split; [|done]. unfold shape_at in *. by rewrite E3.
Qed.

Lemma FindBuffer_sound P fuel cpu_addr size c id c' :
  FindBuffer P fuel cpu_addr size c = Ok (id, c') -> cache_sound c ->
  cache_sound c' /\ exists sh, live c' id sh.
Proof.
  intros H [I R]. pose proof (FindBuffer_inv _ _ _ _ _ _ _ H I) as I'.
  destruct I as (W & D & N).
  unfold FindBuffer in H. cbv zeta in H.
  destruct (cpu_addr =? 0).
  { injection H as <- <-. split; [done|]. eexists. split; [apply (wf_null _ _ _ W) | done]. }
  apply bind_Ok in H as (buffer_id & Hpage & H).
  apply page_table_at_Ok in Hpage as (Hr & ->).
  assert (Ha : 0 <= cpu_addr < 2 ^ 39).
  { apply page_in_range_iff in Hr. rewrite shiftr_PAGE_BITS in Hr.
    pose proof (page_lt 8388608 cpu_addr). pose proof (page_le 0 cpu_addr). lia. }
  assert (Hcreate : CreateBuffer P fuel cpu_addr (u32 size) c = Ok (id, c') ->
                    cache_sound c' /\ exists sh, live c' id sh).
  { intros Hc. split.
    - split; [exact I'|]. eapply CreateBuffer_refs; [apply (wf_slots _ _ _ W) | exact Hc | exact R].
    - destruct (CreateBuffer_spec _ _ _ _ _ _ _ W Ha Hc) as (? & ? & _ & _ & _ & _ & Hl & _).
      eauto. }
  destruct (id_bool (page_of c (Z.shiftr cpu_addr PAGE_BITS))) eqn:Hid; simpl in H;
    [|by apply Hcreate].
  apply bind_Ok in H as (buffer & _ & H).
  destruct (Buffer.IsInBounds buffer cpu_addr (u32 size)); [|by apply Hcreate].
  injection H as <- <-. split; [done|]. apply (wf_owner _ _ _ W).
  intros Hu. apply id_bool_false in Hu. congruence.
Qed.

Lemma MarkWrittenBuffer_quiet env id cpu_addr size c c' :
  MarkWrittenBuffer env id cpu_addr size c = Ok c' -> quiet c c' /\ same_layout c c'.
Proof.
  unfold MarkWrittenBuffer. intros H. apply bind_Ok in H as (c1 & Hc1 & H).
  pose proof (slot_update_quiet _ _ _ _ Hc1) as Q1.
  pose proof (slot_update_same_layout _ _ _ _ (keeps_shape_MarkGpu cpu_addr size) Hc1) as L1.
  destruct (_ || _); [by injection H as <-|].
  destruct (existsb _ _); injection H as <-; [done|]. split.
  - eapply quiet_trans; [exact Q1|]. quiet_fields.
  - eapply same_layout_trans; [exact L1|]. by apply same_layout_fields.
Qed.

Lemma MarkWrittenBuffer_sound env id cpu_addr size c c' :
  MarkWrittenBuffer env id cpu_addr size c = Ok c' -> cache_sound c -> cache_sound c'.
Proof.
  intros H [I R]. split; [eapply MarkWrittenBuffer_inv; eauto|].
  destruct (MarkWrittenBuffer_quiet _ _ _ _ _ _ H) as [Q L]. by apply (refs_ok_same c).
Qed.

(** Storing a sound binding keeps the invariants. *)
Ltac sound_store Hstore :=
  let I := fresh "I" in let R := fresh "R" in let Hx := fresh "Hx" in
  intros [I R] Hx; split;
  [eapply cache_inv_same_core; [|exact I]; same_fields|];
  match type of Hx with
  | binding_sound ?c ?x => eapply (refs_ok_write c _ x)
  end; [by apply same_layout_fields | reflexivity | exact Hx | | exact R];
  let y := fresh "y" in let Hy := fresh "Hy" in
  intros y Hy; apply bindings_elem in Hy; simpl in Hy; rewrite bindings_elem;
  Hstore y Hy.

Lemma sound_set_index_buffer x c :
  cache_sound c -> binding_sound c x -> cache_sound (set_index_buffer x c).
Proof. sound_store ltac:(fun y Hy => tauto). Qed.

Lemma sound_set_vertex_buffers vb index x c :
  store c.(vertex_buffers) index x = Ok vb ->
  cache_sound c -> binding_sound c x -> cache_sound (set_vertex_buffers vb c).
Proof.
  intros Hs. sound_store ltac:(fun y Hy =>
    destruct Hy as [?|[Hy|?]]; [tauto | | tauto];
    destruct (store_elem _ _ _ _ _ Hs Hy); tauto).
Qed.

Lemma sound_set_uniform_buffers ub stage index x c :
  store2 c.(uniform_buffers) stage index x = Ok ub ->
  cache_sound c -> binding_sound c x -> cache_sound (set_uniform_buffers ub c).
Proof.
  intros Hs. sound_store ltac:(fun y Hy =>
    destruct Hy as [?|[?|[Hy|?]]]; [tauto | tauto | | tauto];
    destruct (store2_elem _ _ _ _ _ _ Hs Hy); tauto).
Qed.

Lemma sound_set_storage_buffers sb stage index x c :
  store2 c.(storage_buffers) stage index x = Ok sb ->
  cache_sound c -> binding_sound c x -> cache_sound (set_storage_buffers sb c).
Proof.
  intros Hs. sound_store ltac:(fun y Hy =>
    destruct Hy as [?|[?|[?|[Hy|?]]]]; [tauto | tauto | tauto | | tauto];
    destruct (store2_elem _ _ _ _ _ _ Hs Hy); tauto).
Qed.

Lemma sound_set_transform_feedback_buffers tfb index x c :
  store c.(transform_feedback_buffers) index x = Ok tfb ->
  cache_sound c -> binding_sound c x -> cache_sound (set_transform_feedback_buffers tfb c).
Proof.
  intros Hs. sound_store ltac:(fun y Hy =>
    destruct Hy as [?|[?|[?|[?|[Hy|?]]]]]; [tauto | tauto | tauto | tauto | | tauto];
    destruct (store_elem _ _ _ _ _ Hs Hy); tauto).
Qed.

Lemma sound_set_compute_uniform_buffers cu index x c :
  store c.(compute_uniform_buffers) index x = Ok cu ->
  cache_sound c -> binding_sound c x -> cache_sound (set_compute_uniform_buffers cu c).
Proof.
  intros Hs. sound_store ltac:(fun y Hy =>
    destruct Hy as [?|[?|[?|[?|[?|[Hy|?]]]]]];
      [tauto | tauto | tauto | tauto | tauto | | tauto];
    destruct (store_elem _ _ _ _ _ Hs Hy); tauto).
Qed.

Lemma sound_set_compute_storage_buffers cs index x c :
  store c.(compute_storage_buffers) index x = Ok cs ->
  cache_sound c -> binding_sound c x -> cache_sound (set_compute_storage_buffers cs c).
Proof.
  intros Hs. sound_store ltac:(fun y Hy =>
    destruct Hy as [?|[?|[?|[?|[?|[?|Hy]]]]]];
      [tauto | tauto | tauto | tauto | tauto | tauto |];
    destruct (store_elem _ _ _ _ _ Hs Hy); tauto).
Qed.

Lemma live_binding_sound c cpu_addr size id sh :
  live c id sh -> binding_sound c (Binding.mk cpu_addr size id).
Proof. intros Hl. right. by exists sh. Qed.

Lemma sound_null c : cache_sound c -> binding_sound c NULL_BINDING.
Proof. intros [(W & _) _]. by apply null_binding_sound. Qed.

Ltac sound_from H :=
  match type of H with
  | cache_sound ?c => eapply (cache_sound_same c); [same_fields | quiet_fields | exact H]
  end.

Lemma for_each_sound {A} (body : A -> BufferCache -> Res BufferCache) (l : list A) :
  (forall x c c', body x c = Ok c' -> cache_sound c -> cache_sound c') ->
  forall c c', for_each body l c = Ok c' -> cache_sound c -> cache_sound c'.
Proof.
  intros Hbody c c' H Hc.
  eapply (for_each_Ok_ind body cache_sound); [| exact Hc | exact H].
  intros x s s' _ Hs Hx. eapply Hbody; eauto.
Qed.

Lemma ForEachEnabledBit_sound body mask c c' :
  (forall index c c', body index c = Ok c' -> cache_sound c -> cache_sound c') ->
  ForEachEnabledBit mask body c = Ok c' -> cache_sound c -> cache_sound c'.
Proof. intros Hbody. apply for_each_sound, Hbody. Qed.

Lemma UpdateIndexBuffer_sound P env fuel c c' :
  UpdateIndexBuffer P env fuel c = Ok c' -> cache_sound c -> cache_sound c'.
Proof.
  unfold UpdateIndexBuffer. intros H Hc. destruct (_ && _); [by injection H as <-|].
  cbv zeta in H. destruct (GpuToCpuAddress env _).
  - destruct (_ =? 0).
    + injection H as <-. apply sound_set_index_buffer; [sound_from Hc|].
      apply sound_null. sound_from Hc.
    + apply bind_Ok in H as ([id c1] & Hfind & H). injection H as <-.
      apply FindBuffer_sound in Hfind as (S1 & sh & Hl); [|sound_from Hc].
      apply sound_set_index_buffer; [exact S1 | by apply (live_binding_sound _ _ _ _ sh)].
  - injection H as <-. apply sound_set_index_buffer; [sound_from Hc|].
    apply sound_null. sound_from Hc.
Qed.

Lemma UpdateVertexBuffer_sound P env fuel index c c' :
  UpdateVertexBuffer P env fuel index c = Ok c' -> cache_sound c -> cache_sound c'.
Proof.
  unfold UpdateVertexBuffer. intros H Hc. apply bind_Ok in H as (dirty & _ & H).
  destruct (negb dirty); [by injection H as <-|].
  cbv zeta in H. destruct (GpuToCpuAddress env _).
  - destruct (_ || _).
    + apply bind_Ok in H as (vb & Hvb & H). injection H as <-.
      eapply sound_set_vertex_buffers; [exact Hvb | exact Hc | by apply sound_null].
    + apply bind_Ok in H as ([id c1] & Hfind & H).
      apply bind_Ok in H as (vb & Hvb & H). injection H as <-.
      apply FindBuffer_sound in Hfind as (S1 & sh & Hl); [|exact Hc].
      eapply sound_set_vertex_buffers; [exact Hvb | exact S1 |].
      by apply (live_binding_sound _ _ _ _ sh).
  - apply bind_Ok in H as (vb & Hvb & H). injection H as <-.
    eapply sound_set_vertex_buffers; [exact Hvb | exact Hc | by apply sound_null].
Qed.

Lemma UpdateVertexBuffers_sound P env fuel c c' :
  UpdateVertexBuffers P env fuel c = Ok c' -> cache_sound c -> cache_sound c'.
Proof.
  unfold UpdateVertexBuffers. intros H Hc. destruct (negb _); [by injection H as <-|].
  eapply for_each_sound; [|exact H|sound_from Hc].
  intros x t t'. apply UpdateVertexBuffer_sound.
Qed.

Lemma set_buffer_id_sound c id sh binding :
  live c id sh -> binding_sound c (set_buffer_id id binding).
Proof. intros Hl. right. by exists sh. Qed.

Lemma UpdateUniformBuffers_sound P fuel stage c c' :
  UpdateUniformBuffers P fuel stage c = Ok c' -> cache_sound c -> cache_sound c'.
Proof.
  unfold UpdateUniformBuffers. intros H Hc. apply bind_Ok in H as (enabled & _ & H).
  eapply ForEachEnabledBit_sound; [|exact H|exact Hc].
  intros index t t' Ht Hinv. apply bind_Ok in Ht as (binding & _ & Ht).
  destruct (id_bool _); [by injection Ht as <-|].
  apply bind_Ok in Ht as (t1 & Ht1 & Ht).
  assert (H1 : cache_sound t1).
  { destruct (HAS_PERSISTENT_UNIFORM_BUFFER_BINDINGS P); res_inv Ht1; subst;
      [sound_from Hinv | exact Hinv]. }
  apply bind_Ok in Ht as ([id t2] & Hfind & Ht).
  apply bind_Ok in Ht as (binding' & _ & Ht). apply bind_Ok in Ht as (ub & Hub & Ht).
  injection Ht as <-.
  apply FindBuffer_sound in Hfind as (S2 & sh & Hl); [|exact H1].
  eapply sound_set_uniform_buffers; [exact Hub | exact S2 | by apply (set_buffer_id_sound _ _ sh)].
Qed.

Lemma UpdateStorageBuffers_sound P env fuel stage c c' :
  UpdateStorageBuffers P env fuel stage c = Ok c' -> cache_sound c -> cache_sound c'.
Proof.
  unfold UpdateStorageBuffers. intros H Hc. apply bind_Ok in H as (written & _ & H).
  apply bind_Ok in H as (enabled & _ & H).
  eapply ForEachEnabledBit_sound; [|exact H|exact Hc].
  intros index t t' Ht Hinv. apply bind_Ok in Ht as (binding & _ & Ht).
  apply bind_Ok in Ht as ([id t2] & Hfind & Ht).
  apply FindBuffer_sound in Hfind as (S2 & sh & Hl); [|exact Hinv].
  apply bind_Ok in Ht as (binding' & _ & Ht). apply bind_Ok in Ht as (sb & Hsb & Ht).
  cbv zeta in Ht.
  assert (H2 : cache_sound (set_storage_buffers sb t2)).
  { eapply sound_set_storage_buffers; [exact Hsb | exact S2 |].
    by apply (set_buffer_id_sound _ _ sh). }
  destruct (bit_set written index); [|by injection Ht as <-].
  eapply MarkWrittenBuffer_sound; eauto.
Qed.

Lemma UpdateTransformFeedbackBuffer_sound P env fuel index c c' :
  UpdateTransformFeedbackBuffer P env fuel index c = Ok c' -> cache_sound c -> cache_sound c'.
Proof.
  unfold UpdateTransformFeedbackBuffer. intros H Hc. cbv zeta in H.
  destruct (GpuToCpuAddress env _).
  - destruct (_ || _).
    + apply bind_Ok in H as (tfb & Htfb & H). injection H as <-.
      eapply sound_set_transform_feedback_buffers; [exact Htfb | exact Hc | by apply sound_null].
    + apply bind_Ok in H as ([id c1] & Hfind & H).
      apply FindBuffer_sound in Hfind as (S1 & sh & Hl); [|exact Hc].
      apply bind_Ok in H as (tfb & Htfb & H).
      eapply MarkWrittenBuffer_sound; [exact H|].
      eapply sound_set_transform_feedback_buffers; [exact Htfb | exact S1 |].
      by apply (live_binding_sound _ _ _ _ sh).
  - apply bind_Ok in H as (tfb & Htfb & H). injection H as <-.
    eapply sound_set_transform_feedback_buffers; [exact Htfb | exact Hc | by apply sound_null].
Qed.

Lemma UpdateTransformFeedbackBuffers_sound P env fuel c c' :
  UpdateTransformFeedbackBuffers P env fuel c = Ok c' -> cache_sound c -> cache_sound c'.
Proof.
  unfold UpdateTransformFeedbackBuffers. intros H Hc.
  destruct (_ =? 0); [by injection H as <-|].
  eapply for_each_sound; [|exact H|exact Hc].
  intros x t t'. apply UpdateTransformFeedbackBuffer_sound.
Qed.

Lemma UpdateComputeUniformBuffers_sound P env fuel c c' :
  UpdateComputeUniformBuffers P env fuel c = Ok c' -> cache_sound c -> cache_sound c'.
Proof.
  unfold UpdateComputeUniformBuffers. intros H Hc.
  eapply ForEachEnabledBit_sound; [|exact H|exact Hc].
  intros index t t' Ht Hinv. apply bind_Ok in Ht as (old & _ & Ht).
  cbv zeta in Ht. apply bind_Ok in Ht as (cu & Hcu & Ht).
  apply bind_Ok in Ht as ([id t2] & Hfind & Ht).
  apply bind_Ok in Ht as (binding' & _ & Ht). apply bind_Ok in Ht as (cu' & Hcu' & Ht).
  injection Ht as <-.
  apply FindBuffer_sound in Hfind as (S2 & sh & Hl).
  - eapply sound_set_compute_uniform_buffers; [exact Hcu' | exact S2 |].
    by apply (set_buffer_id_sound _ _ sh).
  - eapply sound_set_compute_uniform_buffers; [exact Hcu | exact Hinv |].
    destruct (bit_set _ _); [|by apply sound_null].
    destruct (GpuToCpuAddress env _); [|by apply sound_null].
    right. destruct Hinv as [(W & _) _]. eexists. split; [apply (wf_null _ _ _ W) | done].
Qed.

Lemma UpdateComputeStorageBuffers_sound P env fuel c c' :
  UpdateComputeStorageBuffers P env fuel c = Ok c' -> cache_sound c -> cache_sound c'.
Proof.
  unfold UpdateComputeStorageBuffers. intros H Hc.
  eapply ForEachEnabledBit_sound; [|exact H|exact Hc].
  intros index t t' Ht Hinv. apply bind_Ok in Ht as (binding & _ & Ht).
  apply bind_Ok in Ht as ([id t2] & Hfind & Ht).
  apply FindBuffer_sound in Hfind as (S2 & sh & Hl); [|exact Hinv].
  apply bind_Ok in Ht as (binding' & _ & Ht). apply bind_Ok in Ht as (cs & Hcs & Ht).
  cbv zeta in Ht.
  assert (H2 : cache_sound (set_compute_storage_buffers cs t2)).
  { eapply sound_set_compute_storage_buffers; [exact Hcs | exact S2 |].
    by apply (set_buffer_id_sound _ _ sh). }
  destruct (bit_set _ index); [|by injection Ht as <-].
  eapply MarkWrittenBuffer_sound; eauto.
Qed.

Lemma DoUpdateGraphicsBuffers_sound P env fuel is_indexed c c' :
  DoUpdateGraphicsBuffers P env fuel is_indexed c = Ok c' -> cache_sound c -> cache_sound c'.
Proof.
  unfold DoUpdateGraphicsBuffers. intros H Hc.
  apply bind_Ok in H as (c1 & Hc1 & H). apply bind_Ok in H as (c2 & Hc2 & H).
  apply bind_Ok in H as (c3 & Hc3 & H).
  assert (H1 : cache_sound c1).
  { destruct is_indexed; [eapply UpdateIndexBuffer_sound; eauto | by injection Hc1 as <-]. }
  apply UpdateVertexBuffers_sound in Hc2; [|exact H1].
  apply UpdateTransformFeedbackBuffers_sound in Hc3; [|exact Hc2].
  eapply for_each_sound; [|exact H|exact Hc3].
  intros stage t t' Ht Hinv. apply bind_Ok in Ht as (t1 & Ht1 & Ht).
  eapply UpdateStorageBuffers_sound; [exact Ht|].
  eapply UpdateUniformBuffers_sound; eauto.
Qed.

Lemma DoUpdateComputeBuffers_sound P env fuel c c' :
  DoUpdateComputeBuffers P env fuel c = Ok c' -> cache_sound c -> cache_sound c'.
Proof.
  unfold DoUpdateComputeBuffers. intros H Hc. apply bind_Ok in H as (c1 & Hc1 & H).
  eapply UpdateComputeStorageBuffers_sound; [exact H|].
  eapply UpdateComputeUniformBuffers_sound; eauto.
Qed.

Lemma update_until_stable_sound pass rounds :
  (forall c c', pass c = Ok c' -> cache_sound c -> cache_sound c') ->
  forall c c', update_until_stable pass rounds c = Ok c' -> cache_sound c -> cache_sound c'.
Proof.
  intros Hpass. induction rounds as [|rounds IH]; intros c c' H Hc; simpl in H;
    [discriminate|].
  apply bind_Ok in H as (c1 & Hc1 & H).
  apply Hpass in Hc1.
  - destruct (has_deleted_buffers c1); [eapply IH; eauto | by injection H as <-].
  - destruct Hc as [I R]. split; [eapply cache_inv_same_core; [|exact I]; same_fields|].
    eapply refs_ok_step; [| | |exact R].
    + apply same_layout_keeps_live. by apply same_layout_fields.
    + intros b Hb. by left.
    + intros id Hid. by left.
Qed.

Lemma refs_ok_fields c c' :
  same_layout c c' -> bindings c' = bindings c ->
  c'.(cached_write_buffer_ids) = c.(cached_write_buffer_ids) ->
  refs_ok c -> refs_ok c'.
Proof.
  intros Hs Hb Hw. apply refs_ok_step.
  - by apply same_layout_keeps_live.
  - intros b Hin. left. by rewrite <- Hb.
  - intros id Hid. left. by rewrite <- Hw.
Qed.

Lemma cache_sound_fields c c' :
  same_core c c' -> bindings c' = bindings c ->
  c'.(cached_write_buffer_ids) = c.(cached_write_buffer_ids) ->
  cache_sound c -> cache_sound c'.
Proof.
  intros Hs Hb Hw [I R]. split; [by apply (cache_inv_same_core c)|].
  eapply refs_ok_fields; [apply Hs | exact Hb | exact Hw | exact R].
Qed.

Ltac sound_from_masks H :=
  match type of H with
  | cache_sound ?c =>
      eapply (cache_sound_fields c); [same_fields | reflexivity | reflexivity | exact H]
  end.

Lemma ForEachBufferInRange_loop_sound fuel func :
  (forall id c c', (exists sh, live c id sh) -> func id c = Ok c' ->
                   cache_sound c -> cache_sound c') ->
  forall page page_end c c',
    ForEachBufferInRange_loop fuel func page page_end c = Ok c' ->
    cache_sound c -> cache_sound c'.
Proof.
  intros Hfunc. induction fuel as [|fuel IH]; intros page page_end c c' H Hc; simpl in H;
    destruct (page <? page_end); try discriminate; try (by injection H as <-).
  apply bind_Ok in H as (id & Hid & H). apply page_table_at_Ok in Hid as (_ & ->).
  destruct (id_bool (page_of c page)) eqn:Hset; simpl in H; [|eapply IH; eauto].
  apply bind_Ok in H as (_ & _ & H). apply bind_Ok in H as (c1 & Hc1 & H).
  apply bind_Ok in H as (b & _ & H). eapply IH; [exact H|].
  eapply Hfunc; [|exact Hc1|exact Hc].
  destruct Hc as [(W & _) _]. apply (wf_owner _ _ _ W).
  intros Hu. apply id_bool_false in Hu. congruence.
Qed.

Lemma CachedWriteMemory_sound fuel cpu_addr size c c' :
  CachedWriteMemory fuel cpu_addr size c = Ok c' -> cache_sound c -> cache_sound c'.
Proof.
  apply ForEachBufferInRange_loop_sound. intros id c0 c0' (sh & Hl) H [I R].
  apply bind_Ok in H as (b & _ & H).
  pose proof (slot_update_same_core _ _ _ _ (keeps_shape_CachedCpuWrite cpu_addr size)
                (fun _ => eq_refl) H) as Hs.
  pose proof (slot_update_quiet _ _ _ _ H) as Hq.
  split.
  - eapply cache_inv_same_core; [exact Hs|]. destruct (negb _); [|exact I].
    eapply cache_inv_same_core; [|exact I]. same_fields.
  - eapply refs_ok_quiet; [apply same_layout_keeps_live, Hs | exact Hq |].
    destruct (negb _); [|exact R]. eapply refs_ok_step; [| | |exact R].
    + apply same_layout_keeps_live. by apply same_layout_fields.
    + intros x Hx. by left.
    + intros i Hi. simpl in Hi. apply elem_of_app in Hi as [Hi|Hi]; [by left|].
      apply list_elem_of_singleton in Hi as ->. right. exists sh.
      apply (live_same_layout c0); [by apply same_layout_fields | done].
Qed.

Lemma FlushCachedWrites_sound c c' :
  FlushCachedWrites c = Ok c' -> cache_sound c -> cache_sound c'.
Proof.
  intros H [I R]. pose proof (FlushCachedWrites_same_core _ _ H) as Hs.
  split; [by apply (cache_inv_same_core c)|].
  unfold FlushCachedWrites in H. apply bind_Ok in H as (c1 & Hc1 & H). injection H as <-.
  assert (Q : quiet c c1).
  { eapply for_each_quiet; [|exact Hc1]. intros id c0 c0'. apply slot_update_quiet. }
  destruct R as [B _]. split.
  - unfold bindings_ok in *.
    assert (E : bindings (set_cached_write_buffer_ids [] c1) = bindings c)
      by (rewrite <- (quiet_bindings _ _ Q); reflexivity).
    rewrite E. eapply Forall_impl; [exact B|]. intros b Hb.
    eapply binding_sound_keeps_live; [|exact Hb]. apply same_layout_keeps_live, Hs.
  - constructor.
Qed.

Lemma BindGraphicsUniformBuffer_sound env stage index gpu_addr size c c' :
  BindGraphicsUniformBuffer env stage index gpu_addr size c = Ok c' ->
  cache_sound c -> cache_sound c'.
Proof.
  unfold BindGraphicsUniformBuffer. intros H Hc. apply bind_Ok in H as (a & _ & H).
  apply bind_Ok in H as (ub & Hub & H). injection H as <-.
  eapply sound_set_uniform_buffers; [exact Hub | exact Hc | by left].
Qed.

Lemma DisableGraphicsUniformBuffer_sound stage index c c' :
  DisableGraphicsUniformBuffer stage index c = Ok c' -> cache_sound c -> cache_sound c'.
Proof.
  unfold DisableGraphicsUniformBuffer. intros H Hc.
  apply bind_Ok in H as (ub & Hub & H). injection H as <-.
  eapply sound_set_uniform_buffers; [exact Hub | exact Hc | by apply sound_null].
Qed.

Lemma sound_StorageBufferBinding env c ssbo_addr :
  cache_sound c -> binding_sound c (StorageBufferBinding env ssbo_addr).
Proof. intros [(W & _) _]. by apply StorageBufferBinding_sound. Qed.

Lemma BindGraphicsStorageBuffer_sound env stage ssbo cbuf off w c c' :
  BindGraphicsStorageBuffer env stage ssbo cbuf off w c = Ok c' ->
  cache_sound c -> cache_sound c'.
Proof.
  unfold BindGraphicsStorageBuffer. intros H Hc.
  apply bind_Ok in H as (e & _ & H). apply bind_Ok in H as (e' & _ & H).
  apply bind_Ok in H as (wr & _ & H). apply bind_Ok in H as (wr' & _ & H).
  apply bind_Ok in H as (sb & Hsb & H). injection H as <-.
  eapply sound_set_storage_buffers; [exact Hsb | sound_from_masks Hc |].
  apply sound_StorageBufferBinding. sound_from_masks Hc.
Qed.

Lemma BindComputeStorageBuffer_sound env ssbo cbuf off w c c' :
  BindComputeStorageBuffer env ssbo cbuf off w c = Ok c' -> cache_sound c -> cache_sound c'.
Proof.
  unfold BindComputeStorageBuffer. intros H Hc. destruct (negb _); [discriminate|].
  apply bind_Ok in H as (sb & Hsb & H). injection H as <-.
  eapply sound_set_compute_storage_buffers; [exact Hsb | sound_from_masks Hc |].
  apply sound_StorageBufferBinding. sound_from_masks Hc.
Qed.

Lemma SetEnabledUniformBuffers_sound P stage enabled c c' :
  SetEnabledUniformBuffers P stage enabled c = Ok c' -> cache_sound c -> cache_sound c'.
Proof.
  unfold SetEnabledUniformBuffers. intros H Hc. apply bind_Ok in H as (c1 & Hc1 & H).
  apply bind_Ok in H as (e & _ & H). injection H as <-.
  assert (H1 : cache_sound c1).
  { destruct (HAS_PERSISTENT_UNIFORM_BUFFER_BINDINGS P); [|by injection Hc1 as <-].
    apply bind_Ok in Hc1 as (old & _ & Hc1).
    destruct (negb _); [|by injection Hc1 as <-].
    apply bind_Ok in Hc1 as (d & _ & Hc1). injection Hc1 as <-. sound_from_masks Hc. }
  sound_from_masks H1.
Qed.

Lemma UnbindGraphicsStorageBuffers_sound stage c c' :
  UnbindGraphicsStorageBuffers stage c = Ok c' -> cache_sound c -> cache_sound c'.
Proof.
  unfold UnbindGraphicsStorageBuffers. intros H Hc.
  apply bind_Ok in H as (e & _ & H). apply bind_Ok in H as (w & _ & H). injection H as <-.
  sound_from_masks Hc.
Qed.

Lemma PopAsyncFlushes_quiet P env c c' :
  PopAsyncFlushes P env c = Ok c' -> quiet c c' /\ same_layout c c'.
Proof.
  intros H.
  assert (L : same_layout c c').
  { destruct (PopAsyncFlushes_core _ _ _ _ H) as [(_ & ->)|(_ & c0 & Hs & ->)];
      [apply same_layout_refl|].
    eapply same_layout_trans; [apply Hs | by apply same_layout_fields]. }
  split; [|exact L]. clear L. unfold PopAsyncFlushes in H.
  destruct (committed_downloads c) as [|front rest] eqn:Hq; [injection H as <-; quiet_fields|].
  cbv zeta in H. destruct (List.last (front :: rest) []) as [|d ds].
  - injection H as <-. quiet_fields.
  - apply bind_Ok in H as ([[[downloads total] largest] c1] & Hg & H).
    apply gather_downloads_quiet in Hg.
    destruct downloads as [|dl dls];
      [injection H as <-; eapply quiet_trans; [exact Hg | quiet_fields]|].
    destruct (USE_MEMORY_MAPS P).
    + apply bind_Ok in H as (c2 & Hc2 & H). apply bind_Ok in H as (c3 & Hc3 & H).
      injection H as <-.
      eapply quiet_trans; [exact Hg|]. eapply quiet_trans; [apply log_quiet|].
      eapply quiet_trans.
      { eapply for_each_quiet; [|exact Hc2]. intros x t t' Hx.
        apply bind_Ok in Hx as (? & _ & Hx). injection Hx as <-. apply log_quiet. }
      eapply quiet_trans; [apply log_quiet|].
      eapply (quiet_trans _ c3); [|quiet_fields].
      eapply for_each_quiet; [|exact Hc3]. intros x t t' Hx.
      apply bind_Ok in Hx as (b & _ & Hx). injection Hx as <-. apply log_quiet.
    + apply bind_Ok in H as (c2 & Hc2 & H). injection H as <-.
      eapply quiet_trans; [exact Hg|].
      eapply quiet_trans; [apply ImmediateBuffer_quiet|].
      eapply (quiet_trans _ c2); [|quiet_fields].
      eapply for_each_quiet; [|exact Hc2]. intros x t t' Hx.
      apply bind_Ok in Hx as (b & _ & Hx). injection Hx as <-.
      eapply quiet_trans; apply log_quiet.
Qed.

Lemma refs_ok_init : refs_ok BufferCache_init.
Proof.
  split; [|constructor]. apply Forall_forall. intros b Hb. left.
  assert (E : bindings BufferCache_init = replicate 231 Binding.default)
    by (vm_compute; reflexivity).
  rewrite E in Hb. by apply elem_of_replicate in Hb as [-> _].
Qed.

Lemma run_sound P env fuel op c c' :
  run P env fuel op c = Ok c' -> cache_sound c -> cache_sound c'.
Proof.
  destruct op; simpl; intros H Hc.
  - injection H as <-.
    eapply cache_sound_same; [apply TickFrame_same_core | apply TickFrame_quiet | exact Hc].
  - eapply cache_sound_same;
      [eapply WriteMemory_same_core, H | eapply WriteMemory_quiet, H | exact Hc].
  - eapply CachedWriteMemory_sound; eauto.
  - eapply cache_sound_same;
      [eapply DownloadMemory_same_core, H | eapply DownloadMemory_quiet, H | exact Hc].
  - eapply BindGraphicsUniformBuffer_sound; eauto.
  - eapply DisableGraphicsUniformBuffer_sound; eauto.
  - eapply update_until_stable_sound; [|exact H|exact Hc].
    intros t t'. apply DoUpdateGraphicsBuffers_sound.
  - eapply update_until_stable_sound; [|exact H|exact Hc].
    intros t t'. apply DoUpdateComputeBuffers_sound.
  - eapply cache_sound_same;
      [eapply BindHostGeometryBuffers_same_core, H | eapply BindHostGeometryBuffers_quiet, H
      | exact Hc].
  - eapply cache_sound_same;
      [eapply BindHostStageBuffers_same_core, H | eapply BindHostStageBuffers_quiet, H
      | exact Hc].
  - eapply cache_sound_same;
      [eapply BindHostComputeBuffers_same_core, H | eapply BindHostComputeBuffers_quiet, H
      | exact Hc].
  - eapply SetEnabledUniformBuffers_sound; eauto.
  - injection H as <-. sound_from_masks Hc.
  - eapply UnbindGraphicsStorageBuffers_sound; eauto.
  - eapply BindGraphicsStorageBuffer_sound; eauto.
  - injection H as <-. sound_from_masks Hc.
  - eapply BindComputeStorageBuffer_sound; eauto.
  - eapply FlushCachedWrites_sound; eauto.
  - injection H as <-. destruct Hc as [I R]. split; [by apply CommitAsyncFlushes_inv|].
    eapply refs_ok_fields; [by apply same_layout_fields | reflexivity | reflexivity | exact R].
  - destruct Hc as [I R]. split; [eapply PopAsyncFlushes_inv; eauto|].
    destruct (PopAsyncFlushes_quiet _ _ _ _ H) as [Q L]. by apply (refs_ok_same c).
Qed.

Lemma reachable_sound P c : reachable P c -> cache_sound c.
Proof.
  induction 1 as [|env fuel op c c' _ IH Hrun|f c _ IH].
  - split; [apply cache_inv_init | apply refs_ok_init].
  - eapply run_sound; eauto.
  - sound_from_masks IH.
Qed.

(** X15: in every cache that the public operations reach, no binding of the
    seven tables refers to a buffer that is gone -- its buffer id is unset,
    or it names a live buffer, one that [DeleteBuffer] did not move out --
    and every id in [cached_write_buffer_ids] names a live buffer.  So
    [FlushCachedWrites] returns on such a cache, and it leaves the list
    empty. *)
Theorem bindings_never_dangle (P : Policy) (c : BufferCache) :
  reachable P c ->
  (forall binding, binding ∈ bindings c ->
     Binding.buffer_id binding = UNSET_BUFFER_ID \/
     exists sh, live c (Binding.buffer_id binding) sh) /\
  (forall id, id ∈ c.(cached_write_buffer_ids) -> exists sh, live c id sh) /\
  exists c', FlushCachedWrites c = Ok c' /\ c'.(cached_write_buffer_ids) = [].
Proof.
  intros Hr. destruct (reachable_sound _ _ Hr) as [I [B C]].
  unfold bindings_ok in B. unfold cached_writes_ok in C.
  rewrite Forall_forall in B. rewrite Forall_forall in C.
  split; [exact B|]. split; [exact C|].
  unfold FlushCachedWrites.
  destruct (for_each_returns
              (fun id c => slot_update id Buffer.FlushCachedWrites c)
              (fun c0 => same_layout c c0) c.(cached_write_buffer_ids)) with (c := c)
    as (c1 & Hc1 & _).
  - intros id c0 Hid Hs. destruct (C id Hid) as (sh & Hl).
    apply (live_same_layout c c0) in Hl; [|done].
    destruct (slot_update_returns id Buffer.FlushCachedWrites c0) as (c1 & Hc1);
      [apply (slot_in_range _ _ sh), Hl|].
    exists c1. split; [exact Hc1|]. eapply same_layout_trans; [exact Hs|].
    eapply slot_update_same_layout; [apply keeps_shape_FlushCachedWrites | exact Hc1].
  - apply same_layout_refl.
  - rewrite Hc1. simpl. by eexists.
Qed.

Lemma bindings_never_dangle_witness :
  let c := cache_storage_bound in
  reachable policy_vulkan c /\
  load2 c.(storage_buffers) 0 0 = Ok (Binding.mk 65536 49408 1) /\
  (forall binding, binding ∈ bindings c ->
     Binding.buffer_id binding = UNSET_BUFFER_ID \/
     exists sh, live c (Binding.buffer_id binding) sh) /\
  (forall id, id ∈ c.(cached_write_buffer_ids) -> exists sh, live c id sh) /\
  exists c', FlushCachedWrites c = Ok c' /\ c'.(cached_write_buffer_ids) = [].
Proof.
  intros c.
  assert (Hr : reachable policy_vulkan c).
  { eapply (run_all_reachable _ (example_env true 65536 256) 8 storage_bound);
      [apply reachable_init | vm_compute; reflexivity]. }
  split; [exact Hr|]. split; [vm_compute; reflexivity|].
  exact (bindings_never_dangle policy_vulkan c Hr).
Defined.

(** ** A pass of the update that deletes no buffer *)

Lemma grows_refl c : grows c c.
Proof. by split. Qed.

Lemma grows_trans c1 c2 c3 : grows c1 c2 -> grows c2 c3 -> grows c1 c3.
Proof. intros [] []. split; try congruence; auto. Qed.

Lemma quiet_grows c c' : quiet c c' -> grows c c'.
Proof. intros []. split; try done; intros *; congruence. Qed.

Ltac grows_fields := split; try reflexivity; intros; assumption.

Lemma resolved_store (table table' : list Binding.t) (index : Z) (binding : Binding.t) :
  store table index binding = Ok table' -> resolved binding ->
  forall i, resolved_at table i -> resolved_at table' i.
Proof.
  intros Hs Hb i (b & Hi & Hr). destruct (decide (i = index)) as [->|Hne].
  - exists binding. split; [by apply (load_store_eq table)|done].
  - exists b. split; [|done]. rewrite (load_store_ne _ _ _ _ _ Hs); [done | done|].
    by apply load_Ok in Hi as (? & _).
Qed.

Lemma resolved_store2 (table table' : list (list Binding.t)) (stage index : Z)
    (binding : Binding.t) :
  store2 table stage index binding = Ok table' -> resolved binding ->
  forall s i, resolved_at2 table s i -> resolved_at2 table' s i.
Proof.
  intros Hs Hb s i (b & Hi & Hr). unfold store2 in Hs.
  apply bind_Ok in Hs as (row & Hrow & Hs). apply bind_Ok in Hs as (row' & Hrow' & Hs).
  unfold load2 in Hi. apply bind_Ok in Hi as (r & Hr1 & Hr2).
  destruct (decide (s = stage)) as [->|Hne].
  - assert (r = row) as -> by congruence.
    destruct (resolved_store _ _ _ _ Hrow' Hb i) as (b' & Hb' & Hrb'); [by exists b|].
    exists b'. split; [|done]. unfold load2. apply bind_Ok. exists row'.
    split; [by apply (load_store_eq table) | done].
  - exists b. split; [|done]. unfold load2. apply bind_Ok. exists r. split; [|done].
    rewrite (load_store_ne _ _ _ _ _ Hs); [done | done|]. by apply load_Ok in Hr1 as (? & _).
Qed.

Lemma FindBuffer_id_set P fuel cpu_addr size c id c' :
  FindBuffer P fuel cpu_addr size c = Ok (id, c') -> id <> UNSET_BUFFER_ID.
Proof.
  unfold FindBuffer. cbv zeta. intros H.
  destruct (cpu_addr =? 0); [by injection H as <- <-|].
  apply bind_Ok in H as (buffer_id & _ & H).
  assert (Hcreate : CreateBuffer P fuel cpu_addr (u32 size) c = Ok (id, c') ->
                    id <> UNSET_BUFFER_ID).
  { unfold CreateBuffer. cbv zeta. intros Hc.
    apply bind_Ok in Hc as ([r cs] & _ & Hc). apply bind_Ok in Hc as ([n c1] & Hins & Hc).
    apply bind_Ok in Hc as (c2 & _ & Hc). apply bind_Ok in Hc as (c3 & _ & Hc).
    injection Hc as <- <-. apply slot_insert_Ok in Hins as (_ & Hlt & _).
    unfold UNSET_BUFFER_ID. lia. }
  destruct (id_bool buffer_id) eqn:Hid; simpl in H; [|by apply Hcreate].
  apply bind_Ok in H as (buffer & _ & H).
  destruct (Buffer.IsInBounds buffer cpu_addr (u32 size)); [|by apply Hcreate].
  injection H as <- <-. intros Hu. apply id_bool_false in Hu. congruence.
Qed.

Lemma join_all_deleted P n acc : forall ids c c',
  for_each (fun id c => JoinOverlap P n id acc c) ids c = Ok c' ->
  ids <> [] -> c'.(has_deleted_buffers) = true.
Proof.
  induction ids as [|id ids IH]; intros c c' H Hne; [done|]. simpl in H.
  apply bind_Ok in H as (c1 & Hc1 & H). destruct ids as [|id' ids'].
  - simpl in H. injection H as <-. by apply JoinOverlap_fields in Hc1 as (_ & _ & ?).
  - eapply IH; [exact H | done].
Qed.

(** A lookup that deleted no buffer changed no binding. *)
Lemma FindBuffer_calm P fuel cpu_addr size c id c' :
  FindBuffer P fuel cpu_addr size c = Ok (id, c') ->
  c'.(has_deleted_buffers) = false -> quiet c c'.
Proof.
  unfold FindBuffer. cbv zeta. intros H Hd.
  destruct (cpu_addr =? 0); [injection H as <- <-; apply quiet_refl|].
  apply bind_Ok in H as (buffer_id & _ & H).
  assert (Hcreate : CreateBuffer P fuel cpu_addr (u32 size) c = Ok (id, c') -> quiet c c').
  { unfold CreateBuffer, ResolveOverlaps. cbv zeta. intros Hc.
    apply bind_Ok in Hc as ([r cs] & Hr & Hc).
    apply bind_Ok in Hr as ([s cs'] & Hloop & Hr). injection Hr as <- <-.
    apply ResolveOverlaps_loop_picked_only, picked_only_quiet in Hloop.
    apply bind_Ok in Hc as ([n c1] & Hins & Hc).
    apply bind_Ok in Hc as (c2 & Hjoin & Hc). apply bind_Ok in Hc as (c3 & Hreg & Hc).
    injection Hc as <- <-. apply slot_insert_quiet in Hins. unfold Register in Hreg.
    pose proof (ChangeRegister_quiet _ _ _ _ Hreg) as Q3.
    eapply quiet_trans; [exact Hloop|]. eapply quiet_trans; [exact Hins|].
    simpl in Hjoin. destruct (Scan.overlap_ids s) as [|o os] eqn:Hids.
    - simpl in Hjoin. injection Hjoin as <-. exact Q3.
    - apply join_all_deleted in Hjoin; [|done].
      rewrite (q_has_deleted_buffers _ _ Q3) in Hd. congruence. }
  destruct (id_bool buffer_id) eqn:Hid; simpl in H; [|by apply Hcreate].
  apply bind_Ok in H as (buffer & _ & H).
  destruct (Buffer.IsInBounds buffer cpu_addr (u32 size)); [|by apply Hcreate].
  injection H as <- <-. apply quiet_refl.
Qed.

(** Loops of a pass that deleted no buffer. *)
Lemma for_each_calm {A} (body : A -> BufferCache -> Res BufferCache)
    (Post : A -> BufferCache -> Prop) (l : list A) :
  (forall x c c', body x c = Ok c' -> c'.(has_deleted_buffers) = false ->
                  c.(has_deleted_buffers) = false /\ grows c c' /\ Post x c') ->
  (forall x c c', Post x c -> grows c c' -> Post x c') ->
  forall c c', for_each body l c = Ok c' -> c'.(has_deleted_buffers) = false ->
    c.(has_deleted_buffers) = false /\ grows c c' /\ forall x, x ∈ l -> Post x c'.
Proof.
  intros Hbody Hmono. induction l as [|x l IH]; intros c c' H Hd; simpl in H.
  - injection H as <-. split; [done|]. split; [apply grows_refl|].
    intros y Hy. by apply elem_of_nil in Hy.
  - apply bind_Ok in H as (c1 & Hc1 & H).
    destruct (IH _ _ H Hd) as (Hd1 & G1 & Hpost).
    destruct (Hbody _ _ _ Hc1 Hd1) as (Hd0 & G0 & Hx).
    split; [done|]. split; [by apply (grows_trans _ c1)|].
    intros y [->|Hy]%elem_of_cons; [by apply (Hmono _ c1) | by apply Hpost].
Qed.

Lemma calm_quiet c c' :
  quiet c c' -> c'.(has_deleted_buffers) = false ->
  c.(has_deleted_buffers) = false /\ grows c c'.
Proof.
  intros Q Hd. split; [by rewrite <- (q_has_deleted_buffers _ _ Q) | by apply quiet_grows].
Qed.

Lemma calm_find P fuel cpu_addr size c id c' :
  FindBuffer P fuel cpu_addr size c = Ok (id, c') -> c'.(has_deleted_buffers) = false ->
  c.(has_deleted_buffers) = false /\ grows c c'.
Proof. intros H Hd. apply calm_quiet; [|done]. eapply FindBuffer_calm; eauto. Qed.

Lemma calm_mark env id cpu_addr size c c' :
  MarkWrittenBuffer env id cpu_addr size c = Ok c' -> c'.(has_deleted_buffers) = false ->
  c.(has_deleted_buffers) = false /\ grows c c'.
Proof. intros H Hd. apply calm_quiet; [|done]. by apply MarkWrittenBuffer_quiet in H as [? _]. Qed.

Lemma calm_trans c1 c2 c3 :
  (c3.(has_deleted_buffers) = false -> c2.(has_deleted_buffers) = false /\ grows c2 c3) ->
  (c2.(has_deleted_buffers) = false -> c1.(has_deleted_buffers) = false /\ grows c1 c2) ->
  c3.(has_deleted_buffers) = false -> c1.(has_deleted_buffers) = false /\ grows c1 c3.
Proof.
  intros H23 H12 Hd. destruct (H23 Hd) as (Hd2 & G23). destruct (H12 Hd2) as (Hd1 & G12).
  split; [done | by apply (grows_trans _ c2)].
Qed.

Ltac calm_fields := intros ?; split; [assumption | grows_fields].

Lemma UpdateIndexBuffer_calm P env fuel c c' :
  UpdateIndexBuffer P env fuel c = Ok c' -> c'.(has_deleted_buffers) = false ->
  c.(has_deleted_buffers) = false /\ grows c c'.
Proof.
  unfold UpdateIndexBuffer. intros H.
  destruct (_ && _); [injection H as <-; intros Hd; split; [done | apply grows_refl]|].
  cbv zeta in H. destruct (GpuToCpuAddress env _).
  - destruct (_ =? 0).
    + injection H as <-. calm_fields.
    + apply bind_Ok in H as ([id c1] & Hfind & H). injection H as <-.
      eapply (calm_trans _ c1); [calm_fields|].
      eapply calm_trans; [apply (calm_find _ _ _ _ _ _ _ Hfind)|]. calm_fields.
  - injection H as <-. calm_fields.
Qed.

Lemma UpdateVertexBuffer_calm P env fuel index c c' :
  UpdateVertexBuffer P env fuel index c = Ok c' -> c'.(has_deleted_buffers) = false ->
  c.(has_deleted_buffers) = false /\ grows c c'.
Proof.
  unfold UpdateVertexBuffer. intros H. apply bind_Ok in H as (dirty & _ & H).
  destruct (negb dirty); [injection H as <-; intros Hd; split; [done | apply grows_refl]|].
  cbv zeta in H. destruct (GpuToCpuAddress env _).
  - destruct (_ || _).
    + apply bind_Ok in H as (vb & _ & H). injection H as <-. calm_fields.
    + apply bind_Ok in H as ([id c1] & Hfind & H).
      apply bind_Ok in H as (vb & _ & H). injection H as <-.
      eapply (calm_trans _ c1); [calm_fields|]. apply (calm_find _ _ _ _ _ _ _ Hfind).
  - apply bind_Ok in H as (vb & _ & H). injection H as <-. calm_fields.
Qed.

Lemma for_each_calm_plain {A} (body : A -> BufferCache -> Res BufferCache) (l : list A) :
  (forall x c c', body x c = Ok c' -> c'.(has_deleted_buffers) = false ->
                  c.(has_deleted_buffers) = false /\ grows c c') ->
  forall c c', for_each body l c = Ok c' -> c'.(has_deleted_buffers) = false ->
    c.(has_deleted_buffers) = false /\ grows c c'.
Proof.
  intros Hbody c c' H Hd.
  destruct (for_each_calm body (fun _ _ => True) l) with (c := c) (c' := c')
    as (Hd0 & G & _); try done.
  intros x c0 c0' Hx Hd'. destruct (Hbody _ _ _ Hx Hd'). done.
Qed.

Lemma UpdateVertexBuffers_calm P env fuel c c' :
  UpdateVertexBuffers P env fuel c = Ok c' -> c'.(has_deleted_buffers) = false ->
  c.(has_deleted_buffers) = false /\ grows c c'.
Proof.
  unfold UpdateVertexBuffers. intros H.
  destruct (negb _); [injection H as <-; intros Hd; split; [done | apply grows_refl]|].
  eapply calm_trans;
    [eapply for_each_calm_plain; [|exact H]; intros x t t'; apply UpdateVertexBuffer_calm|].
  calm_fields.
Qed.

Lemma UpdateTransformFeedbackBuffer_calm P env fuel index c c' :
  UpdateTransformFeedbackBuffer P env fuel index c = Ok c' ->
  c'.(has_deleted_buffers) = false -> c.(has_deleted_buffers) = false /\ grows c c'.
Proof.
  unfold UpdateTransformFeedbackBuffer. intros H. cbv zeta in H.
  destruct (GpuToCpuAddress env _).
  - destruct (_ || _).
    + apply bind_Ok in H as (tfb & _ & H). injection H as <-. calm_fields.
    + apply bind_Ok in H as ([id c1] & Hfind & H). apply bind_Ok in H as (tfb & _ & H).
      eapply calm_trans; [apply (calm_mark _ _ _ _ _ _ H)|].
      eapply (calm_trans _ c1); [calm_fields|]. apply (calm_find _ _ _ _ _ _ _ Hfind).
  - apply bind_Ok in H as (tfb & _ & H). injection H as <-. calm_fields.
Qed.

Lemma UpdateTransformFeedbackBuffers_calm P env fuel c c' :
  UpdateTransformFeedbackBuffers P env fuel c = Ok c' ->
  c'.(has_deleted_buffers) = false -> c.(has_deleted_buffers) = false /\ grows c c'.
Proof.
  unfold UpdateTransformFeedbackBuffers. intros H.
  destruct (_ =? 0); [injection H as <-; intros Hd; split; [done | apply grows_refl]|].
  eapply for_each_calm_plain; [|exact H].
  intros x t t'. apply UpdateTransformFeedbackBuffer_calm.
Qed.

Lemma resolved_at2_grows_uniform c c' stage index :
  grows c c' -> resolved_at2 c.(uniform_buffers) stage index ->
  resolved_at2 c'.(uniform_buffers) stage index.
Proof. intros G. apply (g_uniform_buffers _ _ G). Qed.

Lemma set_buffer_id_resolved id binding :
  id <> UNSET_BUFFER_ID -> resolved (set_buffer_id id binding).
Proof. done. Qed.

Lemma grows_uniform_store c ub stage index binding :
  store2 c.(uniform_buffers) stage index binding = Ok ub -> resolved binding ->
  grows c (set_uniform_buffers ub c).
Proof.
  intros Hs Hr. split; try reflexivity; try (intros; assumption).
  intros s i. simpl. by apply (resolved_store2 _ _ _ _ _ Hs).
Qed.

Lemma grows_storage_store c sb stage index binding :
  store2 c.(storage_buffers) stage index binding = Ok sb -> resolved binding ->
  grows c (set_storage_buffers sb c).
Proof.
  intros Hs Hr. split; try reflexivity; try (intros; assumption).
  intros s i. simpl. by apply (resolved_store2 _ _ _ _ _ Hs).
Qed.

Lemma grows_compute_uniform_store c cu index binding :
  store c.(compute_uniform_buffers) index binding = Ok cu -> resolved binding ->
  grows c (set_compute_uniform_buffers cu c).
Proof.
  intros Hs Hr. split; try reflexivity; try (intros; assumption).
  intros i. simpl. by apply (resolved_store _ _ _ _ Hs).
Qed.

Lemma grows_compute_storage_store c cs index binding :
  store c.(compute_storage_buffers) index binding = Ok cs -> resolved binding ->
  grows c (set_compute_storage_buffers cs c).
Proof.
  intros Hs Hr. split; try reflexivity; try (intros; assumption).
  intros i. simpl. by apply (resolved_store _ _ _ _ Hs).
Qed.

Lemma ForEachEnabledBit_calm (body : Z -> BufferCache -> Res BufferCache)
    (Post : Z -> BufferCache -> Prop) (mask : Z) :
  (forall x c c', body x c = Ok c' -> c'.(has_deleted_buffers) = false ->
                  c.(has_deleted_buffers) = false /\ grows c c' /\ Post x c') ->
  (forall x c c', Post x c -> grows c c' -> Post x c') ->
  forall c c', ForEachEnabledBit mask body c = Ok c' -> c'.(has_deleted_buffers) = false ->
    c.(has_deleted_buffers) = false /\ grows c c' /\
    forall x, x ∈ enabled_bits mask -> Post x c'.
Proof. intros Hbody Hmono. exact (for_each_calm body Post (enabled_bits mask) Hbody Hmono). Qed.

(** [UpdateUniformBuffers] in a pass that deleted no buffer. *)
Lemma UpdateUniformBuffers_calm P fuel stage c c' :
  UpdateUniformBuffers P fuel stage c = Ok c' -> c'.(has_deleted_buffers) = false ->
  c.(has_deleted_buffers) = false /\ grows c c' /\
  forall mask index,
    load c.(enabled_uniform_buffers) stage = Ok mask -> index ∈ enabled_bits mask ->
    resolved_at2 c'.(uniform_buffers) stage index.
Proof.
  unfold UpdateUniformBuffers. intros H Hd. apply bind_Ok in H as (enabled & He & H).
  eapply (ForEachEnabledBit_calm _
            (fun index c0 => resolved_at2 c0.(uniform_buffers) stage index))
    in H; [| | |exact Hd].
  - destruct H as (Hd0 & G & Hpost). split; [done|]. split; [done|].
    intros mask index Hm Hi. assert (mask = enabled) as -> by congruence. by apply Hpost.
  - clear. intros index t t' Ht Hd. apply bind_Ok in Ht as (binding & Hb & Ht).
    destruct (id_bool (Binding.buffer_id binding)) eqn:Hid.
    { injection Ht as <-. split; [done|]. split; [apply grows_refl|].
      exists binding. split; [done|]. intros Hu. apply id_bool_false in Hu. congruence. }
    apply bind_Ok in Ht as (t1 & Ht1 & Ht).
    apply bind_Ok in Ht as ([id t2] & Hfind & Ht).
    apply bind_Ok in Ht as (binding' & _ & Ht). apply bind_Ok in Ht as (ub & Hub & Ht).
    injection Ht as <-.
    pose proof (FindBuffer_id_set _ _ _ _ _ _ _ Hfind) as Hset.
    assert (G2 : grows t2 (set_uniform_buffers ub t2))
      by (eapply grows_uniform_store; [exact Hub | by apply set_buffer_id_resolved]).
    destruct (calm_find _ _ _ _ _ _ _ Hfind Hd) as (Hd1 & G1).
    assert (H01 : t.(has_deleted_buffers) = false /\ grows t t1).
    { destruct (HAS_PERSISTENT_UNIFORM_BUFFER_BINDINGS P).
      - apply bind_Ok in Ht1 as (mask & _ & Ht1). apply bind_Ok in Ht1 as (d & _ & Ht1).
        injection Ht1 as <-. split; [exact Hd1 | grows_fields].
      - injection Ht1 as <-. split; [exact Hd1 | apply grows_refl]. }
    destruct H01 as (Hd0 & G0). split; [done|]. split.
    + eapply grows_trans; [exact G0|]. eapply grows_trans; [exact G1 | exact G2].
    + exists (set_buffer_id id binding'). split; [|by apply set_buffer_id_resolved].
      simpl. by apply (load2_store2_eq (uniform_buffers t2)).
  - intros index t t' Hr G. by apply (g_uniform_buffers _ _ G).
Qed.

(** [UpdateStorageBuffers] in a pass that deleted no buffer. *)
Lemma UpdateStorageBuffers_calm P env fuel stage c c' :
  UpdateStorageBuffers P env fuel stage c = Ok c' -> c'.(has_deleted_buffers) = false ->
  c.(has_deleted_buffers) = false /\ grows c c' /\
  forall mask index,
    load c.(enabled_storage_buffers) stage = Ok mask -> index ∈ enabled_bits mask ->
    resolved_at2 c'.(storage_buffers) stage index.
Proof.
  unfold UpdateStorageBuffers. intros H Hd. apply bind_Ok in H as (written & _ & H).
  apply bind_Ok in H as (enabled & He & H).
  eapply (ForEachEnabledBit_calm _
            (fun index c0 => resolved_at2 c0.(storage_buffers) stage index))
    in H; [| | |exact Hd].
  - destruct H as (Hd0 & G & Hpost). split; [done|]. split; [done|].
    intros mask index Hm Hi. assert (mask = enabled) as -> by congruence. by apply Hpost.
  - clear. intros index t t' Ht Hd. apply bind_Ok in Ht as (binding & Hb & Ht).
    apply bind_Ok in Ht as ([id t2] & Hfind & Ht).
    apply bind_Ok in Ht as (binding' & _ & Ht). apply bind_Ok in Ht as (sb & Hsb & Ht).
    cbv zeta in Ht.
    pose proof (FindBuffer_id_set _ _ _ _ _ _ _ Hfind) as Hset.
    assert (G2 : grows t2 (set_storage_buffers sb t2))
      by (eapply grows_storage_store; [exact Hsb | by apply set_buffer_id_resolved]).
    assert (Hr2 : resolved_at2 (set_storage_buffers sb t2).(storage_buffers) stage index).
    { exists (set_buffer_id id binding'). split; [|by apply set_buffer_id_resolved].
      simpl. by apply (load2_store2_eq (storage_buffers t2)). }
    assert (H23 : (set_storage_buffers sb t2).(has_deleted_buffers) = false /\
                  grows (set_storage_buffers sb t2) t').
    { destruct (bit_set written index).
      - by apply (calm_mark _ _ _ _ _ _ Ht).
      - injection Ht as <-. split; [done | apply grows_refl]. }
    destruct H23 as (Hd2 & G3).
    destruct (calm_find _ _ _ _ _ _ _ Hfind Hd2) as (Hd0 & G1).
    split; [done|]. split.
    + eapply grows_trans; [exact G1|]. eapply grows_trans; [exact G2 | exact G3].
    + by apply (g_storage_buffers _ _ G3).
  - intros index t t' Hr G. by apply (g_storage_buffers _ _ G).
Qed.

(** [UpdateComputeUniformBuffers] in a pass that deleted no buffer. *)
Lemma UpdateComputeUniformBuffers_calm P env fuel c c' :
  UpdateComputeUniformBuffers P env fuel c = Ok c' -> c'.(has_deleted_buffers) = false ->
  c.(has_deleted_buffers) = false /\ grows c c' /\
  forall index, index ∈ enabled_bits c.(enabled_compute_uniform_buffers) ->
    resolved_at c'.(compute_uniform_buffers) index.
Proof.
  unfold UpdateComputeUniformBuffers. intros H Hd.
  eapply (ForEachEnabledBit_calm _
            (fun index c0 => resolved_at c0.(compute_uniform_buffers) index))
    in H; [exact H | | |exact Hd].
  - clear. intros index t t' Ht Hd. apply bind_Ok in Ht as (old & _ & Ht).
    cbv zeta in Ht. apply bind_Ok in Ht as (cu & Hcu & Ht).
    apply bind_Ok in Ht as ([id t2] & Hfind & Ht).
    apply bind_Ok in Ht as (binding' & _ & Ht). apply bind_Ok in Ht as (cu' & Hcu' & Ht).
    injection Ht as <-.
    pose proof (FindBuffer_id_set _ _ _ _ _ _ _ Hfind) as Hset.
    assert (G2 : grows t2 (set_compute_uniform_buffers cu' t2))
      by (eapply grows_compute_uniform_store;
          [exact Hcu' | by apply set_buffer_id_resolved]).
    destruct (calm_find _ _ _ _ _ _ _ Hfind Hd) as (Hd1 & G1).
    assert (G0 : grows t (set_compute_uniform_buffers cu t)).
    { eapply grows_compute_uniform_store; [exact Hcu|].
      destruct (bit_set _ _); [destruct (GpuToCpuAddress env _)|]; done. }
    split; [done|]. split.
    + eapply grows_trans; [exact G0|]. eapply grows_trans; [exact G1 | exact G2].
    + exists (set_buffer_id id binding'). split; [|by apply set_buffer_id_resolved].
      simpl. by apply (load_store_eq (compute_uniform_buffers t2)).
  - intros index t t' Hr G. by apply (g_compute_uniform_buffers _ _ G).
Qed.

(** [UpdateComputeStorageBuffers] in a pass that deleted no buffer. *)
Lemma UpdateComputeStorageBuffers_calm P env fuel c c' :
  UpdateComputeStorageBuffers P env fuel c = Ok c' -> c'.(has_deleted_buffers) = false ->
  c.(has_deleted_buffers) = false /\ grows c c' /\
  forall index, index ∈ enabled_bits c.(enabled_compute_storage_buffers) ->
    resolved_at c'.(compute_storage_buffers) index.
Proof.
  unfold UpdateComputeStorageBuffers. intros H Hd.
  eapply (ForEachEnabledBit_calm _
            (fun index c0 => resolved_at c0.(compute_storage_buffers) index))
    in H; [exact H | | |exact Hd].
  - clear. intros index t t' Ht Hd. apply bind_Ok in Ht as (binding & Hb & Ht).
    apply bind_Ok in Ht as ([id t2] & Hfind & Ht).
    apply bind_Ok in Ht as (binding' & _ & Ht). apply bind_Ok in Ht as (cs & Hcs & Ht).
    cbv zeta in Ht.
    pose proof (FindBuffer_id_set _ _ _ _ _ _ _ Hfind) as Hset.
    assert (G2 : grows t2 (set_compute_storage_buffers cs t2))
      by (eapply grows_compute_storage_store;
          [exact Hcs | by apply set_buffer_id_resolved]).
    assert (Hr2 : resolved_at (set_compute_storage_buffers cs t2).(compute_storage_buffers)
                    index).
    { exists (set_buffer_id id binding'). split; [|by apply set_buffer_id_resolved].
      simpl. by apply (load_store_eq (compute_storage_buffers t2)). }
    assert (H23 : (set_compute_storage_buffers cs t2).(has_deleted_buffers) = false /\
                  grows (set_compute_storage_buffers cs t2) t').
    { destruct (bit_set _ index).
      - by apply (calm_mark _ _ _ _ _ _ Ht).
      - injection Ht as <-. split; [done | apply grows_refl]. }
    destruct H23 as (Hd2 & G3).
    destruct (calm_find _ _ _ _ _ _ _ Hfind Hd2) as (Hd0 & G1).
    split; [done|]. split.
    + eapply grows_trans; [exact G1|]. eapply grows_trans; [exact G2 | exact G3].
    + by apply (g_compute_storage_buffers _ _ G3).
  - intros index t t' Hr G. by apply (g_compute_storage_buffers _ _ G).
Qed.

Lemma stage_resolved_grows c c' stage :
  stage_resolved c stage -> grows c c' -> stage_resolved c' stage.
Proof.
  intros [U S] G. split; intros mask index Hm Hi.
  - rewrite (g_enabled_uniform_buffers _ _ G) in Hm.
    apply (g_uniform_buffers _ _ G). by apply (U mask).
  - rewrite (g_enabled_storage_buffers _ _ G) in Hm.
    apply (g_storage_buffers _ _ G). by apply (S mask).
Qed.

(** A pass over the graphics bindings that deleted no buffer leaves every
    enabled uniform and storage binding of every stage resolved. *)
Lemma DoUpdateGraphicsBuffers_calm P env fuel is_indexed c c' :
  DoUpdateGraphicsBuffers P env fuel is_indexed c = Ok c' ->
  c'.(has_deleted_buffers) = false ->
  forall stage, stage ∈ seqZ 0 NUM_STAGES -> stage_resolved c' stage.
Proof.
  unfold DoUpdateGraphicsBuffers. intros H Hd.
  apply bind_Ok in H as (c1 & _ & H). apply bind_Ok in H as (c2 & _ & H).
  apply bind_Ok in H as (c3 & _ & H).
  eapply (for_each_calm _ (fun stage c0 => stage_resolved c0 stage)) in H;
    [apply H | | |exact Hd].
  - clear. intros stage t t' Ht Hd. apply bind_Ok in Ht as (t1 & Ht1 & Ht).
    destruct (UpdateStorageBuffers_calm _ _ _ _ _ _ Ht Hd) as (Hd1 & G2 & S).
    destruct (UpdateUniformBuffers_calm _ _ _ _ _ Ht1 Hd1) as (Hd0 & G1 & U).
    split; [done|]. split; [by apply (grows_trans _ t1)|].
    split; intros mask index Hm Hi.
    + rewrite (g_enabled_uniform_buffers _ _ G2), (g_enabled_uniform_buffers _ _ G1) in Hm.
      apply (g_uniform_buffers _ _ G2). by apply (U mask).
    + rewrite (g_enabled_storage_buffers _ _ G2) in Hm. by apply (S mask).
  - intros stage t t'. apply stage_resolved_grows.
Qed.

(** The same for the compute bindings. *)
Lemma DoUpdateComputeBuffers_calm P env fuel c c' :
  DoUpdateComputeBuffers P env fuel c = Ok c' ->
  c'.(has_deleted_buffers) = false -> compute_resolved c'.
Proof.
  unfold DoUpdateComputeBuffers. intros H Hd. apply bind_Ok in H as (c1 & Hc1 & H).
  destruct (UpdateComputeStorageBuffers_calm _ _ _ _ _ H Hd) as (Hd1 & G2 & S).
  destruct (UpdateComputeUniformBuffers_calm _ _ _ _ _ Hc1 Hd1) as (Hd0 & G1 & U).
  split; intros index Hi.
  - rewrite (g_enabled_compute_uniform_buffers _ _ G2),
      (g_enabled_compute_uniform_buffers _ _ G1) in Hi.
    apply (g_compute_uniform_buffers _ _ G2). by apply U.
  - rewrite (g_enabled_compute_storage_buffers _ _ G2) in Hi. by apply S.
Qed.

(** The loop of the update ends after a pass that deleted no buffer. *)
Lemma update_until_stable_last pass rounds : forall c c',
  update_until_stable pass rounds c = Ok c' ->
  c'.(has_deleted_buffers) = false /\
  exists c0, pass (set_has_deleted_buffers false c0) = Ok c'.
Proof.
  induction rounds as [|rounds IH]; intros c c' H; simpl in H; [discriminate|].
  apply bind_Ok in H as (c1 & Hc1 & H).
  destruct (has_deleted_buffers c1) eqn:Hd; [by apply (IH c1)|].
  injection H as <-. split; [done | by exists c].
Qed.

Lemma load_elem {A} (arr : list A) (i : Z) (x : A) : load arr i = Ok x -> x ∈ arr.
Proof. intros (_ & H)%load_Ok. by apply list_elem_of_lookup_2 in H. Qed.

Lemma load2_elem {A} (arr : list (list A)) (i j : Z) (x : A) :
  load2 arr i j = Ok x -> x ∈ concat arr.
Proof.
  unfold load2. intros H. apply bind_Ok in H as (row & Hrow & H).
  apply elem_of_concat. exists row. split; [by apply load_elem in H | by apply load_elem in Hrow].
Qed.

Lemma resolved_live c binding :
  cache_sound c -> binding ∈ bindings c -> resolved binding ->
  exists sh, live c (Binding.buffer_id binding) sh.
Proof.
  intros [_ [B _]] Hin Hr. unfold bindings_ok in B. rewrite Forall_forall in B.
  destruct (B _ Hin) as [Hu|Hl]; [by destruct Hr | exact Hl].
Qed.

Lemma seqZ_stage stage : 0 <= stage < NUM_STAGES -> stage ∈ seqZ 0 NUM_STAGES.
Proof. intros Hs. apply elem_of_seqZ. lia. Qed.

(** X16: when [UpdateGraphicsBuffers] returns, its last pass deleted no
    buffer: [has_deleted_buffers] is false, and in each of the five stages
    every uniform and every storage binding whose bit is enabled -- every
    position that [ForEachEnabledBit] visits for the mask of the stage --
    has its buffer id set, and the id names a live buffer. *)
Theorem UpdateGraphicsBuffers_resolves (P : Policy) (env : Env) (fuel rounds : nat)
    (is_indexed : bool) (c c' : BufferCache) :
  reachable P c ->
  UpdateGraphicsBuffers P env fuel rounds is_indexed c = Ok c' ->
  c'.(has_deleted_buffers) = false /\
  forall stage mask index,
    0 <= stage < NUM_STAGES -> index ∈ enabled_bits mask ->
    (load c'.(enabled_uniform_buffers) stage = Ok mask ->
     exists binding sh,
       load2 c'.(uniform_buffers) stage index = Ok binding /\
       Binding.buffer_id binding <> UNSET_BUFFER_ID /\
       live c' (Binding.buffer_id binding) sh) /\
    (load c'.(enabled_storage_buffers) stage = Ok mask ->
     exists binding sh,
       load2 c'.(storage_buffers) stage index = Ok binding /\
       Binding.buffer_id binding <> UNSET_BUFFER_ID /\
       live c' (Binding.buffer_id binding) sh).
Proof.
  intros Hr H. unfold UpdateGraphicsBuffers in H.
  assert (Hs : cache_sound c').
  { eapply update_until_stable_sound; [|exact H|by apply (reachable_sound P)].
    intros t t'. apply DoUpdateGraphicsBuffers_sound. }
  apply update_until_stable_last in H as (Hd & c0 & Hpass). split; [exact Hd|].
  intros stage mask index Hstage Hi.
  destruct (DoUpdateGraphicsBuffers_calm _ _ _ _ _ _ Hpass Hd stage (seqZ_stage _ Hstage))
    as [U S].
  split; intros Hm.
  - destruct (U mask index Hm Hi) as (binding & Hb & Hres).
    destruct (resolved_live c' binding Hs) as (sh & Hl); [|exact Hres|by exists binding, sh].
    apply bindings_elem. right. right. left. by apply load2_elem in Hb.
  - destruct (S mask index Hm Hi) as (binding & Hb & Hres).
    destruct (resolved_live c' binding Hs) as (sh & Hl); [|exact Hres|by exists binding, sh].
    apply bindings_elem. right. right. right. left. by apply load2_elem in Hb.
Qed.

Lemma UpdateGraphicsBuffers_resolves_witness :
  let c := cache_storage_unresolved in
  let c' := cache_storage_bound in
  reachable policy_vulkan c /\
  UpdateGraphicsBuffers policy_vulkan (example_env true 65536 256) 8 8 false c = Ok c' /\
  load2 c.(storage_buffers) 0 0 = Ok (Binding.mk 65536 49408 UNSET_BUFFER_ID) /\
  load c'.(enabled_storage_buffers) 0 = Ok 1 /\
  c'.(has_deleted_buffers) = false /\
  forall stage mask index,
    0 <= stage < NUM_STAGES -> index ∈ enabled_bits mask ->
    (load c'.(enabled_uniform_buffers) stage = Ok mask ->
     exists binding sh,
       load2 c'.(uniform_buffers) stage index = Ok binding /\
       Binding.buffer_id binding <> UNSET_BUFFER_ID /\
       live c' (Binding.buffer_id binding) sh) /\
    (load c'.(enabled_storage_buffers) stage = Ok mask ->
     exists binding sh,
       load2 c'.(storage_buffers) stage index = Ok binding /\
       Binding.buffer_id binding <> UNSET_BUFFER_ID /\
       live c' (Binding.buffer_id binding) sh).
Proof.
  intros c c'.
  assert (Hr : reachable policy_vulkan c).
  { eapply (reachable_run _ (example_env true 65536 256) 8
              (OpBindGraphicsStorageBuffer 0 0 0 0 true));
      [apply reachable_init | vm_compute; reflexivity]. }
  assert (H : UpdateGraphicsBuffers policy_vulkan (example_env true 65536 256) 8 8 false c
              = Ok c') by (vm_compute; reflexivity).
  split; [exact Hr|]. split; [exact H|].
  split; [vm_compute; reflexivity|]. split; [vm_compute; reflexivity|].
  exact (UpdateGraphicsBuffers_resolves policy_vulkan _ 8 8 false c c' Hr H).
Defined.

(** X17: when [UpdateComputeBuffers] returns, its last pass deleted no
    buffer: [has_deleted_buffers] is false, and every compute uniform and
    every compute storage binding whose bit is enabled has its buffer id
    set, and the id names a live buffer. *)
Theorem UpdateComputeBuffers_resolves (P : Policy) (env : Env) (fuel rounds : nat)
    (c c' : BufferCache) :
  reachable P c ->
  UpdateComputeBuffers P env fuel rounds c = Ok c' ->
  c'.(has_deleted_buffers) = false /\
  (forall index, index ∈ enabled_bits c'.(enabled_compute_uniform_buffers) ->
     exists binding sh,
       load c'.(compute_uniform_buffers) index = Ok binding /\
       Binding.buffer_id binding <> UNSET_BUFFER_ID /\
       live c' (Binding.buffer_id binding) sh) /\
  (forall index, index ∈ enabled_bits c'.(enabled_compute_storage_buffers) ->
     exists binding sh,
       load c'.(compute_storage_buffers) index = Ok binding /\
       Binding.buffer_id binding <> UNSET_BUFFER_ID /\
       live c' (Binding.buffer_id binding) sh).
Proof.
  intros Hr H. unfold UpdateComputeBuffers in H.
  assert (Hs : cache_sound c').
  { eapply update_until_stable_sound; [|exact H|by apply (reachable_sound P)].
    intros t t'. apply DoUpdateComputeBuffers_sound. }
  apply update_until_stable_last in H as (Hd & c0 & Hpass). split; [exact Hd|].
  destruct (DoUpdateComputeBuffers_calm _ _ _ _ _ Hpass Hd) as [U S].
  split; intros index Hi.
  - destruct (U index Hi) as (binding & Hb & Hres).
    destruct (resolved_live c' binding Hs) as (sh & Hl); [|exact Hres|by exists binding, sh].
    apply bindings_elem. do 5 right. left. by apply load_elem in Hb.
  - destruct (S index Hi) as (binding & Hb & Hres).
    destruct (resolved_live c' binding Hs) as (sh & Hl); [|exact Hres|by exists binding, sh].
    apply bindings_elem. do 6 right. by apply load_elem in Hb.
Qed.

Lemma UpdateComputeBuffers_resolves_witness :
  let c := cache_compute_enabled in
  let c' := cache_compute_resolved in
  reachable policy_vulkan c /\
  UpdateComputeBuffers policy_vulkan (example_env true 65536 256) 8 8 c = Ok c' /\
  load c.(compute_uniform_buffers) 0 = Ok (Binding.mk 0 0 UNSET_BUFFER_ID) /\
  enabled_bits c'.(enabled_compute_uniform_buffers) = [0] /\
  load c'.(compute_uniform_buffers) 0 = Ok NULL_BINDING /\
  c'.(has_deleted_buffers) = false /\
  (forall index, index ∈ enabled_bits c'.(enabled_compute_uniform_buffers) ->
     exists binding sh,
       load c'.(compute_uniform_buffers) index = Ok binding /\
       Binding.buffer_id binding <> UNSET_BUFFER_ID /\
       live c' (Binding.buffer_id binding) sh) /\
  (forall index, index ∈ enabled_bits c'.(enabled_compute_storage_buffers) ->
     exists binding sh,
       load c'.(compute_storage_buffers) index = Ok binding /\
       Binding.buffer_id binding <> UNSET_BUFFER_ID /\
       live c' (Binding.buffer_id binding) sh).
Proof.
  intros c c'.
  assert (Hr : reachable policy_vulkan c).
  { apply (reachable_run _ (example_env true 65536 256) 8
             (OpSetEnabledComputeUniformBuffers 1) BufferCache_init);
      [apply reachable_init | reflexivity]. }
  assert (H : UpdateComputeBuffers policy_vulkan (example_env true 65536 256) 8 8 c = Ok c')
    by (vm_compute; reflexivity).
  split; [exact Hr|]. split; [exact H|].
  split; [vm_compute; reflexivity|]. split; [vm_compute; reflexivity|].
  split; [vm_compute; reflexivity|].
  exact (UpdateComputeBuffers_resolves policy_vulkan _ 8 8 c c' Hr H).
Defined.
